(* ===== verification/_CoqProject ===== *)
-Q . S2P
Prelude.v
Logic.v
GoStrings.v
Hosts.v
StableSort.v
Urls.v
Sha256.v
Pool.v
Router.v
Breaker.v
DDoS.v
Http.v
Recorder.v
Auth.v
RateLimiter.v
Contention.v
Proxy.v
Config.v
Dashboard.v
Cache.v
Json.v
Monitor.v
Fmt.v
Terminal.v
Binary64.v
Js.v
Page.v
Logger.v
Tracing.v
Collectors.v
Bars.v
Gateway.v
GatewayDemo.v
Gzip.v
GatewayLaws.v
GatewayStatus.v
GatewayFaults.v
Labels.v
Policy.v
Handlers.v
FrontDoor.v
Screen.v
Lifecycle.v
Process.v
Interleaving.v
Startup.v
Boot.v
Race.v
