(* ===== verification/Prelude.v ===== *)
(** * A verification library for the VA API gateway (Go)

    The program is an HTTP gateway in one process. A request passes two
    middlewares (security headers, request id) and a multiplexer; unless it is
    for a built-in endpoint it reaches [Gateway.ServeHTTP] (main.go), which asks
    DDoS protection and the rate limiter whether to admit it, finds the most
    specific route for its host and path, authenticates it if the route says so,
    tries the cache, lets the route's pool choose a backend, and proxies the
    request through one circuit breaker, with at most three attempts. Every step
    leaves a trace in the metrics, in the request's log and in its span.

    ** What models what

    - [Prelude]: machine integers, the outcome of a Go function (a value or a
      panic), the state monad [M] with [deferring] for [defer], automation.
      [Logic]: [keeps] and [wp], the reasoning rules of that monad.
    - The language's packages, as far as they are used: [GoStrings] (strings,
      strconv, net.SplitHostPort), [Urls] (net/url), [Http] (net/http: headers,
      requests, the server's response writer with its declared length and what
      it does for HEAD, the multiplexer in [Handlers]), [Sha256], [StableSort]
      (sort.SliceStable, characterised by its contract), [Json], [Fmt] (utf8,
      the verbs of fmt, durations), [Binary64] (conversions and magnitudes of
      [float64] on Rocq's [spec_float]), [Js] (the values and numbers of the
      script in the monitor's page).
    - routing.go: [Hosts] (hosts and prefixes), [Urls.normalizeUpstream], [Pool]
      (backends, balancing, health checks), [Router] ([AddRoute], [Route]),
      [Proxy] ([newBackendProxy] inside httputil.ReverseProxy).
    - middleware.go: [Breaker], [DDoS], [RateLimiter], [Auth]; the middlewares
      are in [Handlers].
    - recorder.go: [Recorder]. config.go: [Config]. logger.go: [Logger].
    - metrics.go: [Collectors] (the collectors and their registration); the
      values the handler counts are [Gateway.Metrics].
    - system_monitor.go: [Monitor] (the report), [Page] (the script of the page
      that shows it).
    - dashboard.go: [Dashboard] (counters), [Terminal] (colours, [stripANSI]),
      [Bars] (bars, labels, sparkline), [Screen] (banner, live dashboard).
    - handlers.go: [Cache], [Handlers], [Gzip], [Tracing] ([initTracer]).
    - main.go: [Gateway] ([NewGateway] and the whole of [ServeHTTP]); [Tracing]
      (spans, entries of the request log, [Close]); [Handlers.mux] and
      [Handlers.handler] are the chain [main] builds; [Boot] (the init functions
      in their order, and the configuration [main] reads); [Process] (the health
      scheduler, and the events of a running gateway); [Startup] (start and
      shutdown as steps of three goroutines).
    - main.go and middleware.go under concurrency: [Interleaving], where every
      request is a goroutine and the critical sections of [ServeHTTP] and
      [CircuitBreaker.Call] are steps that others come between; [Race], the
      same for the DDoS protection and its read-write lock; [Contention],
      eviction between the two steps of a rate check.
    - [Policy] is a specification of the handler: which verdict a request gets,
      and what the client, the counters, the log and the span are told of it.
    - [GatewayDemo] instantiates every interface with concrete functions and
      evaluates the handler on concrete requests.

    Backends and limiters are heap objects: a pool holds pointers ([ptr]) into
    the router's heap, and an update through one pointer shows through all.
    Request headers are one map shared by the attempts of a request, as in the
    code. Time is an integer of nanoseconds; in the handler each reading of the
    clock may be later than the one before by any amount ([env_delay]). The code
    of other modules is behind interfaces: [UnicodeTables], [JwtLib], [RateLib],
    [RedisLib], [Decoders], [JsonLib], [SortLib], [GzipLib], [IntConv] for the
    conversions Go leaves to the machine, [MapRange] for the order in which Go
    visits a map, [PromLib] for the metrics registry, [DotenvLib] for godotenv,
    [BrowserLib] for what the script's language leaves open, a function for
    Jaeger's NewTracer, and [Env] for the clock, the upstreams and the label check
    of the metrics client; what is relied on is stated in [JwtSpec], [RateSpec],
    [SortSpec], [GzipSpec], [PromSpec], [DotenvSpec], [BrowserSpec] and
    [LabelSpec], each with an instance.

    ** What is shown

    - Routing ([Hosts], [Router]): hosts have one normal form; a wildcard covers
      subdomains only; prefixes end at segment boundaries; the answer is the
      most specific registered route whatever the order of registration; every
      registration and health check keeps the table well-formed; what one
      registration adds; what stripping leaves.
    - Balancing ([Pool]): [NextPeer] returns a living member whenever there is
      one; round robin visits all in turn; the weighted balancer is
      proportional; least-connections gives the first least loaded; ip-hash is
      sticky; what a round of health checks changes.
    - Protection ([Breaker], [DDoS], [RateLimiter]): [Call] meets a
      specification of when it runs its function and of what it returns and
      leaves; it opens on exactly the configured number of consecutive
      failures and admits a probe after its timeout; thresholds and block
      durations are exact; cleaning up cannot be observed; clients do not
      interfere; eviction is invisible, so that each client has one bucket.
    - Identity ([Auth]), configuration ([Config]), forwarding ([Proxy]),
      recording ([Recorder]): which credentials are accepted; which variables
      declare which routes, in any order of the environment and of the map they
      are grouped in; what upstreams are
      sent; that the recorder and the client see the same status.
    - The handler ([GatewayLaws], [GatewayStatus], [GatewayFaults], [Policy],
      [Labels]): it carries out a decision table, down to the log entries and
      span tags of every verdict; every request is counted once, with the status
      the client reads, and its duration is observed under the same labels;
      connections are balanced; nothing is served that was not admitted, routed
      and authorized; what an open breaker does to the failure counts; for
      requests in UTF-8 the label check is not observable, and what it does to
      the others.
    - The front door ([FrontDoor]), the monitor ([Monitor], [Page]) and
      compression ([Gzip]): security headers on every response, which paths the
      gateway answers itself and with what effect, the busiest processes, what the
      page shows of a report and that its chart is a sliding window, a round trip
      through the compressor.
    - The whole ([Boot], [Lifecycle], [Process]): starting registers every
      collector and makes the logger before it loads the .env file, so that a
      LOG_LEVEL there is ignored; from a configuration on, through any
      sequence of requests, health checks and clean-ups, one invariant of all
      components holds and rules out every panic that the gateway's own state
      could cause; what the health scheduler publishes.
    - Concurrency ([Interleaving], [Race]): in every interleaving one request at
      most is with an upstream, the history of the breaker is a sequential one,
      no request waits forever and every run ends; the history of the DDoS
      protection is sequential up to the fault with which Go ends a process whose
      accesses to a map overlap, which two deletions can do; and an eviction can
      split a bucket ([Contention]).
    - Output ([Logger], [Bars], [Screen]): which lines a call writes, what
      colours change, that sparklines have their width for every history, when
      a refresh panics.

    Theorems that complete a component's picture and carry no number:
    [breaker_invariant], [wildcard_covers_subdomains_only],
    [backend_path_strips], [leastConnections_first_least], [ipHash_sticky],
    [HealthCheck_effect], [forwarded_host_and_proto], [validateAPIKey_digests],
    [default_routes_dispatch], [route_variable_names], [parseLogLevel_String],
    [colorBar_fits] (for every [float64]), [clean_exit_is_drained],
    [pathMatches_segment_boundary], [normalizeHost_normal_form],
    [block_lasts_duration], [monitor_lists_busiest], [log_writes_lines].

    Where the code departs from its comments or its intent, a theorem without a
    number states what it does: [retry_returns_to_failed_backend],
    [roundRobin_panics_past_sign_bit], [star_host_outranks_wildcards],
    [failed_probe_stays_half_open], [window_is_not_sliding],
    [informational_hides_final_status], [bare_flush_commits_unseen],
    [connection_header_strips_real_ip], [public_endpoint_ignores_segments],
    [cache_key_identity], [history_is_flat], [client_error_opens_breaker],
    [early_response_drops_security_headers], [whitelist_needs_no_credentials],
    [open_breaker_blames_backends], [least_conn_stays_in_front],
    [banner_row_overruns_frame], [colours_only_decorate],
    [cursor_may_stay_hidden], [deletions_coincide],
    [render_panics_iff_long_version], [declared_length_cuts_stream].

    ** Bounds

    Loops are structural: over the backends of a pool,
    the entries of the table, the three attempts of [retry]. Integers wrap at 64
    bits ([wrap64], [wrapu64]), and indexing out of range is a panic. The
    invariant of [Lifecycle] counts how far the round-robin counters and the
    history index can have moved, five per event, and holds for 2^59 events, 2^30
    backends and weights of up to 2^31, well below the wrap-around that
    [roundRobin_panics_past_sign_bit] describes. [Interleaving] bounds a run by
    16 steps per request. Fuel is taken only by the decimal text of a number in
    [Js]: 400 powers of ten ([below_one_spec], [least_double_reaches]) and the
    17 digits a double is known to need; no theorem rests on the latter.

    ** What is not modelled

    The log lines of the components other than the request log and the start of
    [main]; the style sheet and the options of the chart in the monitor's page,
    which is a constant to the server; sockets, signals and time limits of the
    server. [Gateway] handles requests one after the other, with
    background goroutines as steps between them; [Interleaving] is about the part
    from the choice of a backend on and leaves the choice itself open, [Race]
    about the DDoS protection, [Contention] about one eviction. The mutex of a logger is not modelled. *)

From stdpp Require Import base list gmap strings pretty.
From Stdlib Require Import ZArith Lia Ascii String List Permutation Finite.

#[global] Open Scope string_scope.
#[global] Open Scope list_scope.
#[global] Open Scope Z_scope.

#[global] Arguments String.append !_ _ /.

(** ** Machine integers

    Go's [int] and [int64] are two's complement on 64 bits (the gateway is
    built for 64-bit targets only), [uint64] is modulo 2^64. *)

Definition int64_min : Z := -9223372036854775808.
Definition int64_max : Z := 9223372036854775807.
Definition uint64_size : Z := 18446744073709551616.

(** The value an [int64] variable holds after an operation whose
    mathematical result is [z]; it is also the conversion [int(x)] of a
    [uint64]. *)
Definition wrap64 (z : Z) : Z :=
  (z + 9223372036854775808) mod uint64_size - 9223372036854775808.

(** The value a [uint64] variable holds after an operation with result [z]. *)
Definition wrapu64 (z : Z) : Z := z mod uint64_size.

Definition is_int64 (z : Z) : Prop := int64_min <= z <= int64_max.

(** Go's [%] truncates towards zero: the sign is the dividend's. *)
Definition go_rem (a b : Z) : Z := Z.rem a b.

(** ** Outcomes and the state monad

    A Go call returns or panics; either way the memory it wrote to stays
    written. [M S A] threads the state [S] through both. *)

Inductive outcome (A : Type) : Type :=
| Ret (a : A)
| Panic (why : string).
Arguments Ret {A} _.
Arguments Panic {A} _.

Definition M (S A : Type) : Type := S -> outcome A * S.

#[global] Instance M_ret {S} : MRet (M S) := fun A a s => (Ret a, s).
#[global] Instance M_bind {S} : MBind (M S) := fun A B k m s =>
  match m s with
  | (Ret a, s') => k a s'
  | (Panic w, s') => (Panic w, s')
  end.

Definition gets {S A} (f : S -> A) : M S A := fun s => (Ret (f s), s).
Definition modify {S} (f : S -> S) : M S unit := fun s => (Ret tt, f s).
Definition panic {S A} (why : string) : M S A := fun s => (Panic why, s).
Definition lift_outcome {S A} (o : outcome A) : M S A := fun s => (o, s).

(** [defer cleanup body]: a deferred call runs when the body returns and when
    it panics, and the outcome of the body stands. *)
Definition deferring {S A} (cleanup : S -> S) (body : M S A) : M S A :=
  fun s => let (r, s') := body s in (r, cleanup s').

(** A deferred call that may panic itself: its panic replaces the outcome. *)
Definition deferring_call {S A} (cleanup : M S unit) (body : M S A) : M S A :=
  fun s => let (r, s') := body s in
           match cleanup s' with
           | (Ret _, s'') => (r, s'')
           | (Panic w, s'') => (Panic w, s'')
           end.

(** ** Automation

    [gw] is the development's database of resolution hints; [gw_simp] is the
    rewriting database of its equations. *)

Create HintDb gw.
Create Rewrite HintDb gw_simp.

(** Turn boolean conditions of the code into propositions, in the context and
    in the goal. *)
Ltac bool_prop :=
  repeat match goal with
  | H : _ && _ = true |- _ => apply andb_true_iff in H as [? ?]
  | H : _ || _ = false |- _ => apply orb_false_iff in H as [? ?]
  | H : negb _ = true |- _ => apply negb_true_iff in H
  | H : negb _ = false |- _ => apply negb_false_iff in H
  | H : (_ =? _)%string = true |- _ => apply String.eqb_eq in H
  | H : (_ =? _)%string = false |- _ => apply String.eqb_neq in H
  | H : Ascii.eqb _ _ = true |- _ => apply Ascii.eqb_eq in H
  | H : Ascii.eqb _ _ = false |- _ => apply Ascii.eqb_neq in H
  | H : (_ =? _)%nat = true |- _ => apply Nat.eqb_eq in H
  | H : (_ =? _)%nat = false |- _ => apply Nat.eqb_neq in H
  | H : (_ <? _)%nat = true |- _ => apply Nat.ltb_lt in H
  | H : (_ <? _)%nat = false |- _ => apply Nat.ltb_ge in H
  | |- (_ =? _)%nat = true => apply Nat.eqb_eq
  | |- (_ =? _)%nat = false => apply Nat.eqb_neq
  | |- (_ <? _)%nat = true => apply Nat.ltb_lt
  | |- (_ <? _)%nat = false => apply Nat.ltb_ge
  | |- _ && _ = true => apply andb_true_iff; split
  | |- _ || _ = false => apply orb_false_iff; split
  | |- negb _ = true => apply negb_true_iff
  | |- Ascii.eqb _ _ = true => apply Ascii.eqb_eq
  | |- Ascii.eqb _ _ = false => apply Ascii.eqb_neq
  | |- (_ =? _)%string = true => apply String.eqb_eq
  | |- (_ =? _)%string = false => apply String.eqb_neq
  end.

(** Case analysis on the scrutinee of the goal's innermost conditional. *)
Ltac case_if :=
  match goal with
  | |- context [if ?b then _ else _] =>
      lazymatch b with
      | context [if _ then _ else _] => fail
      | _ => destruct b eqn:?
      end
  end.

(** ** Facts on machine integers *)

Lemma wrap64_id (z : Z) : is_int64 z -> wrap64 z = z.
Proof.
  unfold is_int64, int64_min, int64_max, wrap64, uint64_size. intros H.
  rewrite Z.mod_small by lia. lia.
Qed.

Lemma wrap64_range (z : Z) : is_int64 (wrap64 z).
Proof.
  unfold is_int64, int64_min, int64_max, wrap64, uint64_size.
  pose proof (Z.mod_pos_bound (z + 9223372036854775808) 18446744073709551616 ltac:(lia)).
  lia.
Qed.

(** Adding and taking back a constant is the identity on an [int64], also
    when the sum wraps. *)
Lemma wrap64_add_sub (z k : Z) : is_int64 z -> wrap64 (wrap64 (z + k) - k) = z.
Proof.
  unfold is_int64, int64_min, int64_max, wrap64, uint64_size. intros H.
  replace ((z + k + 9223372036854775808) mod 18446744073709551616 - 9223372036854775808 - k
           + 9223372036854775808)
    with ((z + k + 9223372036854775808) mod 18446744073709551616 - k) by lia.
  rewrite Zminus_mod_idemp_l, Z.mod_small by lia. lia.
Qed.

Lemma wrapu64_id (z : Z) : 0 <= z < uint64_size -> wrapu64 z = z.
Proof. intros. apply Z.mod_small. done. Qed.

#[export] Hint Resolve wrap64_range : gw.

(** ** Errors and time *)

(** A Go pair (value, error). *)
Inductive result (E A : Type) : Type :=
| Ok (a : A)
| Err (e : E).
Arguments Ok {E A} _.
Arguments Err {E A} _.

Lemma Ok_inj {E A} (a b : A) : Ok (E := E) a = Ok b -> a = b.
Proof. congruence. Qed.

(** [time.Time] is an instant in nanoseconds since the Unix epoch and
    [time.Duration] a number of nanoseconds. [time.Time{}] is midnight of
    1 January of year 1. *)
Definition time_zero : Z := -62135596800000000000.
Definition Millisecond : Z := 1000000.
Definition Second : Z := 1000000000.
Definition Minute : Z := 60000000000.
Definition Hour : Z := 3600000000000.

(** ** Facts on lists *)

(** [n] consecutive residues modulo [n] are all the residues, each once. *)
Lemma rotation_perm (c n : nat) :
  Permutation (map (fun i => (c + i) mod n)%nat (seq 0 n)) (seq 0 n).
Proof.
  apply NoDup_Permutation_bis.
  - apply Finite.Injective_map_NoDup_in; [|apply seq_NoDup].
    intros i j Hi Hj E. apply in_seq in Hi, Hj.
    pose proof (Nat.div_mod_eq (c + i) n) as Ei. pose proof (Nat.div_mod_eq (c + j) n) as Ej.
    rewrite E in Ei. destruct (Nat.lt_trichotomy ((c + i) / n) ((c + j) / n)) as [|[Eq|]];
      [nia|rewrite Eq in Ei; lia|nia].
  - by rewrite length_map.
  - intros x (i & <- & Hi)%in_map_iff. apply in_seq in Hi. apply in_seq.
    split; [lia|]. apply Nat.mod_upper_bound. lia.
Qed.
