(* ===== verification/Logic.v ===== *)
(** * Reasoning about the state monad

    [keeps R m]: whatever [m] does, return or panic, it relates the state it is
    run in to the state it leaves by [R]. For a preorder [R] the combinators of
    the monad keep it. [wp m Q s] is the weakest precondition of a
    postcondition on outcome and state. *)

From stdpp Require Import base list.
From Stdlib Require Import String List.
From S2P Require Import Prelude.

Section Keeps.
Context {S : Type} (R : S -> S -> Prop) `{!PreOrder R}.

Definition keeps {A} (m : M S A) : Prop := forall s, R s (m s).2.

Lemma keeps_ret {A} (a : A) : keeps (mret a).
Proof. intros s. by simpl. Qed.

Lemma keeps_gets {A} (f : S -> A) : keeps (gets f).
Proof. intros s. by simpl. Qed.

Lemma keeps_panic {A} (why : string) : keeps (panic (A := A) why).
Proof. intros s. by simpl. Qed.

Lemma keeps_lift {A} (o : outcome A) : keeps (lift_outcome o).
Proof. intros s. by simpl. Qed.

Lemma keeps_modify (f : S -> S) : (forall s, R s (f s)) -> keeps (modify f).
Proof. intros Hf s. apply Hf. Qed.

Lemma keeps_bind {A B} (m : M S A) (k : A -> M S B) :
  keeps m -> (forall a, keeps (k a)) -> keeps (m ≫= k).
Proof.
  intros Hm Hk s. unfold mbind, M_bind. specialize (Hm s). destruct (m s) as [[a|why] s1]; simpl in *; [|done].
  etrans; [exact Hm|apply Hk].
Qed.

Lemma keeps_deferring {A} (f : S -> S) (m : M S A) :
  keeps m -> (forall s, R s (f s)) -> keeps (deferring f m).
Proof.
  intros Hm Hf s. unfold deferring. specialize (Hm s). destruct (m s) as [o s1]. simpl in *.
  etrans; [exact Hm|apply Hf].
Qed.

Lemma keeps_deferring_call {A} (c : M S unit) (m : M S A) :
  keeps m -> keeps c -> keeps (deferring_call c m).
Proof.
  intros Hm Hc s. unfold deferring_call. specialize (Hm s). destruct (m s) as [o s1]. simpl in Hm.
  specialize (Hc s1). destruct (c s1) as [[u|why] s2]; simpl in *; by etrans.
Qed.
End Keeps.

#[export] Hint Resolve keeps_ret keeps_gets keeps_panic keeps_lift keeps_modify keeps_bind
  keeps_deferring keeps_deferring_call : gw.

Section Wp.
Context {S : Type}.

Definition wp {A} (m : M S A) (Q : outcome A -> S -> Prop) (s : S) : Prop := Q (m s).1 (m s).2.

Lemma wp_bind {A B} (m : M S A) (k : A -> M S B) Q s :
  wp m (fun o s' => match o with Ret a => wp (k a) Q s' | Panic why => Q (Panic why) s' end) s ->
  wp (m ≫= k) Q s.
Proof. unfold wp, mbind, M_bind. by destruct (m s) as [[a|why] s1]. Qed.

Lemma wp_mono {A} (m : M S A) (Q Q' : outcome A -> S -> Prop) s :
  wp m Q s -> (forall o s', Q o s' -> Q' o s') -> wp m Q' s.
Proof. unfold wp. auto. Qed.

Lemma wp_deferring {A} (f : S -> S) (m : M S A) Q s :
  wp m (fun o s' => Q o (f s')) s -> wp (deferring f m) Q s.
Proof. unfold wp, deferring. by destruct (m s). Qed.

(** What [m] keeps may be assumed of the state it leaves. *)
Lemma wp_keeps {A} (R : S -> S -> Prop) (m : M S A) Q s :
  keeps R m -> (forall o s', R s s' -> Q o s') -> wp m Q s.
Proof. intros Hm HQ. apply HQ, Hm. Qed.

Lemma wp_keeps_and {A} (R : S -> S -> Prop) (m : M S A) Q s :
  keeps R m -> wp m Q s -> wp m (fun o s' => R s s' /\ Q o s') s.
Proof. intros Hm HQ. split; [apply Hm|apply HQ]. Qed.
End Wp.

(** Running a bind whose first step is known. *)
Lemma bind_Ret {S A B} (m : M S A) (k : A -> M S B) s a s' :
  m s = (Ret a, s') -> (m ≫= k) s = k a s'.
Proof. unfold mbind, M_bind. by intros ->. Qed.

Lemma bind_Panic {S A B} (m : M S A) (k : A -> M S B) s why s' :
  m s = (Panic why, s') -> (m ≫= k) s = (Panic why, s').
Proof. unfold mbind, M_bind. by intros ->. Qed.

(** Peel a chain of monadic steps, by the head of the program, closing the
    obligations the database knows. *)
Ltac keep_step :=
  lazymatch goal with
  | |- forall _, _ => intro
  | |- keeps _ (_ ≫= _) => apply keeps_bind; [typeclasses eauto| |]
  | |- keeps _ (deferring _ _) => apply keeps_deferring; [typeclasses eauto| |]
  | |- keeps _ (deferring_call _ _) => apply keeps_deferring_call; [typeclasses eauto| |]
  | |- keeps _ (modify _) => apply keeps_modify
  | |- keeps _ (mret _) => apply keeps_ret; typeclasses eauto
  | |- keeps _ (gets _) => apply keeps_gets; typeclasses eauto
  | |- keeps _ (lift_outcome _) => apply keeps_lift; typeclasses eauto
  | |- keeps _ (panic _) => apply keeps_panic; typeclasses eauto
  | |- keeps _ (match ?x with _ => _ end) => destruct x eqn:?
  | |- _ => solve [done | eauto with gw | case_if; eauto with gw; done]
  end.
Ltac keep_steps := repeat keep_step.
