(* ===== verification/GoStrings.v ===== *)
(** * Go strings

    A Go string is a sequence of bytes; here it is [String.string], whose
    characters are the bytes. This file models what the gateway uses of the
    packages [strings], [strconv] and [net], with the lemmas the components
    share. The tables of package [unicode] are the one thing kept abstract:
    [UnicodeTables] gives the case mapping of a string that holds a non-ASCII
    byte; everything on ASCII strings is concrete. *)

From stdpp Require Import base list strings pretty.
From Stdlib Require Import ZArith Lia Ascii String.
From S2P Require Import Prelude.

Abbreviation slen := String.length.

(** ** Bytes *)

Definition byte_of (c : ascii) : Z := Z.of_N (N_of_ascii c).

Definition is_ascii_byte (c : ascii) : bool := byte_of c <? 128.
Definition is_upper (c : ascii) : bool := (65 <=? byte_of c) && (byte_of c <=? 90).
Definition is_lower (c : ascii) : bool := (97 <=? byte_of c) && (byte_of c <=? 122).
Definition is_digit (c : ascii) : bool := (48 <=? byte_of c) && (byte_of c <=? 57).

Definition lower_byte (c : ascii) : ascii :=
  if is_upper c then ascii_of_N (Z.to_N (byte_of c + 32)) else c.
Definition upper_byte (c : ascii) : ascii :=
  if is_lower c then ascii_of_N (Z.to_N (byte_of c - 32)) else c.

(** ** Slicing and searching *)

(** [s[n:]] and [s[:n]], for [n] within the length. *)
Fixpoint sdrop (n : nat) (s : string) : string :=
  match n, s with
  | S n', String _ s' => sdrop n' s'
  | _, _ => s
  end.

Fixpoint stake (n : nat) (s : string) : string :=
  match n, s with
  | S n', String c s' => String c (stake n' s')
  | _, _ => ""
  end.

Fixpoint HasPrefix (s prefix : string) {struct prefix} : bool :=
  match prefix, s with
  | EmptyString, _ => true
  | String c p', String d s' => Ascii.eqb c d && HasPrefix s' p'
  | String _ _, EmptyString => false
  end.

Definition HasSuffix (s suffix : string) : bool :=
  (slen suffix <=? slen s)%nat && String.eqb (sdrop (slen s - slen suffix) s) suffix.

Definition TrimPrefix (s prefix : string) : string :=
  if HasPrefix s prefix then sdrop (slen prefix) s else s.

Definition TrimSuffix (s suffix : string) : string :=
  if HasSuffix s suffix then stake (slen s - slen suffix) s else s.

(** [strings.CutPrefix]: [Some rest] is the pair (rest, true). *)
Definition CutPrefix (s prefix : string) : option string :=
  if HasPrefix s prefix then Some (sdrop (slen prefix) s) else None.

Fixpoint Contains (s substr : string) : bool :=
  HasPrefix s substr ||
  match s with
  | EmptyString => false
  | String _ s' => Contains s' substr
  end.

(** [strings.IndexByte], with [None] for -1. *)
Fixpoint IndexByte (s : string) (c : ascii) : option nat :=
  match s with
  | EmptyString => None
  | String d s' => if Ascii.eqb d c then Some O else S <$> IndexByte s' c
  end.

Fixpoint LastIndexByte (s : string) (c : ascii) : option nat :=
  match s with
  | EmptyString => None
  | String d s' =>
      match LastIndexByte s' c with
      | Some i => Some (S i)
      | None => if Ascii.eqb d c then Some O else None
      end
  end.

(** [strings.Split] on a one-byte separator; it never returns an empty slice. *)
Fixpoint SplitByte (s : string) (sep : ascii) : list string :=
  match s with
  | EmptyString => [""]
  | String d s' =>
      if Ascii.eqb d sep then "" :: SplitByte s' sep
      else match SplitByte s' sep with
           | f :: rest => String d f :: rest
           | [] => [String d ""]
           end
  end.

(** [strings.FieldsFunc] for a predicate that holds of ASCII bytes only: the
    maximal runs of bytes on which it does not hold. *)
Fixpoint fields_aux (p : ascii -> bool) (s cur : string) : list string :=
  match s with
  | EmptyString => if String.eqb cur "" then [] else [cur]
  | String d s' =>
      if p d then (if String.eqb cur "" then [] else [cur]) ++ fields_aux p s' ""
      else fields_aux p s' (cur +:+ String d "")
  end%list.
Definition FieldsFunc (s : string) (p : ascii -> bool) : list string := fields_aux p s "".

Fixpoint Join (elems : list string) (sep : string) : string :=
  match elems with
  | [] => ""
  | [e] => e
  | e :: rest => e +:+ sep +:+ Join rest sep
  end.

Fixpoint repeat_nat (s : string) (n : nat) : string :=
  match n with
  | O => ""
  | S n' => s +:+ repeat_nat s n'
  end.

(** ** Trimming *)

Fixpoint trim_left (p : ascii -> bool) (s : string) : string :=
  match s with
  | EmptyString => ""
  | String c s' => if p c then trim_left p s' else s
  end.

Fixpoint trim_right (p : ascii -> bool) (s : string) : string :=
  match s with
  | EmptyString => ""
  | String c s' =>
      let r := trim_right p s' in
      if String.eqb r "" && p c then "" else String c r
  end.

(** [strings.Trim] with an ASCII cutset, given as the predicate of its bytes. *)
Definition Trim (s : string) (cutset : ascii -> bool) : string :=
  trim_right cutset (trim_left cutset s).

(** [unicode.IsSpace] on UTF-8 input: the one-, two- and three-byte encodings
    of the White_Space runes. *)
Definition space1 (a : ascii) : bool :=
  let x := byte_of a in ((9 <=? x) && (x <=? 13)) || (x =? 32).
Definition space2 (a b : ascii) : bool :=
  (byte_of a =? 194) && ((byte_of b =? 133) || (byte_of b =? 160)).
Definition space3 (a b c : ascii) : bool :=
  let x := byte_of a in let y := byte_of b in let z := byte_of c in
  ((x =? 225) && (y =? 154) && (z =? 128)) ||
  ((x =? 226) && (y =? 128) &&
     (((128 <=? z) && (z <=? 138)) || (z =? 168) || (z =? 169) || (z =? 175))) ||
  ((x =? 226) && (y =? 129) && (z =? 159)) ||
  ((x =? 227) && (y =? 128) && (z =? 128)).

Fixpoint trim_left_space (s : string) : string :=
  match s with
  | String a r1 =>
      if space1 a then trim_left_space r1
      else match r1 with
           | String b r2 =>
               if space2 a b then trim_left_space r2
               else match r2 with
                    | String c r3 => if space3 a b c then trim_left_space r3 else s
                    | EmptyString => s
                    end
           | EmptyString => s
           end
  | EmptyString => ""
  end.

Fixpoint trim_right_space (s : string) : string :=
  if String.eqb (trim_left_space s) "" then ""
  else match s with
       | String c r => String c (trim_right_space r)
       | EmptyString => ""
       end.

Definition TrimSpace (s : string) : string := trim_right_space (trim_left_space s).

(** ** Case mapping *)

Fixpoint smap (f : ascii -> ascii) (s : string) : string :=
  match s with
  | EmptyString => ""
  | String c s' => String (f c) (smap f s')
  end.

Fixpoint sforall (p : ascii -> bool) (s : string) : bool :=
  match s with
  | EmptyString => true
  | String c s' => p c && sforall p s'
  end.

Definition is_ascii (s : string) : bool := sforall is_ascii_byte s.

(** [strings.Map(unicode.ToLower, s)] and [strings.Map(unicode.ToUpper, s)],
    which [strings.ToLower] and [strings.ToUpper] call when the string is not
    pure ASCII. *)
Class UnicodeTables := {
  map_unicode_ToLower : string -> string;
  map_unicode_ToUpper : string -> string
}.

(** Tables that map no non-ASCII rune, to evaluate the definitions with. *)
Definition ascii_tables : UnicodeTables :=
  {| map_unicode_ToLower := smap lower_byte; map_unicode_ToUpper := smap upper_byte |}.

Definition ToLower `{UnicodeTables} (s : string) : string :=
  if is_ascii s then smap lower_byte s else map_unicode_ToLower s.
Definition ToUpper `{UnicodeTables} (s : string) : string :=
  if is_ascii s then smap upper_byte s else map_unicode_ToUpper s.

(** ** Package [net]: [SplitHostPort]

    The port starts after the last colon; a bracketed host ends just before
    it. The error values are the reasons of the [AddrError]. *)

Inductive split_result : Type :=
| HostPort (host port : string)
| AddrError (why : string).

Definition has_byte (s : string) (c : ascii) : bool := bool_decide (is_Some (IndexByte s c)).

Definition SplitHostPort (hostport : string) : split_result :=
  match LastIndexByte hostport ":" with
  | None => AddrError "missing port in address"
  | Some i =>
      let finish (host : string) (j k : nat) :=
        if has_byte (sdrop j hostport) "[" then AddrError "unexpected '[' in address"
        else if has_byte (sdrop k hostport) "]" then AddrError "unexpected ']' in address"
        else HostPort host (sdrop (S i) hostport) in
      if HasPrefix hostport "[" then
        match IndexByte hostport "]" with
        | None => AddrError "missing ']' in address"
        | Some e =>
            if (S e =? slen hostport)%nat then AddrError "missing port in address"
            else if (S e =? i)%nat then finish (sdrop 1 (stake e hostport)) 1%nat (S e)
            else if HasPrefix (sdrop (S e) hostport) ":"
            then AddrError "too many colons in address"
            else AddrError "missing port in address"
        end
      else
        let host := stake i hostport in
        if has_byte host ":" then AddrError "too many colons in address"
        else finish host O O
  end.

(** ** Package [strconv] *)

Fixpoint digits_value (s : string) (acc : Z) : option Z :=
  match s with
  | EmptyString => Some acc
  | String c s' =>
      if is_digit c then digits_value s' (10 * acc + (byte_of c - 48)) else None
  end.

(** [strconv.Atoi] for a 64-bit [int]: an optional sign, at least one decimal
    digit, and a value in range. *)
Definition Atoi (s : string) : option Z :=
  let '(neg, body) :=
    match s with
    | String c r => if Ascii.eqb c "-" then (true, r)
                    else if Ascii.eqb c "+" then (false, r) else (false, s)
    | EmptyString => (false, s)
    end in
  if String.eqb body "" then None
  else match digits_value body 0 with
       | Some n =>
           let v := if (neg : bool) then - n else n in
           if (int64_min <=? v) && (v <=? int64_max) then Some v else None
       | None => None
       end.

Definition str_in (s : string) (l : list string) : bool := existsb (String.eqb s) l.

Definition ParseBool (s : string) : option bool :=
  if str_in s ["1"; "t"; "T"; "true"; "TRUE"; "True"] then Some true
  else if str_in s ["0"; "f"; "F"; "false"; "FALSE"; "False"] then Some false
  else None.

(** [strconv.Itoa], and the [%d] verb. *)
Definition Itoa (n : Z) : string := pretty n.

(** ** Lemmas: concatenation, slices, prefixes and suffixes *)

Lemma slen_app (a b : string) : slen (a +:+ b) = (slen a + slen b)%nat.
Proof. induction a; simpl; congruence. Qed.

Lemma sapp_assoc (a b c : string) : (a +:+ b) +:+ c = a +:+ (b +:+ c).
Proof. induction a; simpl; congruence. Qed.

Lemma sapp_nil_r (a : string) : a +:+ "" = a.
Proof. induction a; simpl; congruence. Qed.

Lemma sdrop_app (a b : string) : sdrop (slen a) (a +:+ b) = b.
Proof. induction a; simpl; [destruct b|]; done. Qed.

Lemma stake_app (a b : string) : stake (slen a) (a +:+ b) = a.
Proof. induction a; simpl; [by destruct b | congruence]. Qed.

Lemma stake_sdrop (n : nat) (s : string) : stake n s +:+ sdrop n s = s.
Proof. revert s; induction n as [|n IH]; intros [|c s]; simpl; try done. by rewrite IH. Qed.

Lemma slen_stake (n : nat) (s : string) : slen (stake n s) = Nat.min n (slen s).
Proof. revert s; induction n as [|n IH]; intros [|c s]; simpl; try done. by rewrite IH. Qed.

Lemma slen_sdrop (n : nat) (s : string) : slen (sdrop n s) = (slen s - n)%nat.
Proof. revert s; induction n as [|n IH]; intros [|c s]; simpl; auto. Qed.

Lemma slen_zero (s : string) : slen s = O -> s = "".
Proof. by destruct s. Qed.

Lemma sdrop_all (s : string) : sdrop (slen s) s = "".
Proof. by induction s. Qed.

Lemma sapp_inj (a b c d : string) :
  slen a = slen c -> a +:+ b = c +:+ d -> a = c /\ b = d.
Proof.
  revert c; induction a as [|x a IH]; intros [|y c] Hl He; simpl in *; try done.
  injection He as -> He. destruct (IH c) as [-> ->]; auto.
Qed.

Lemma HasPrefix_app (p r : string) : HasPrefix (p +:+ r) p = true.
Proof. induction p; simpl; [by destruct r|]. by rewrite Ascii.eqb_refl. Qed.

Lemma HasPrefix_spec (s p : string) : HasPrefix s p = true <-> exists r, s = p +:+ r.
Proof.
  split.
  - revert p; induction s as [|c s IH]; intros [|d p]; simpl; intros H; try done.
    + by exists "".
    + by exists (String c s).
    + bool_prop; subst. edestruct IH as [r ->]; eauto.
  - intros [r ->]. apply HasPrefix_app.
Qed.

Lemma HasPrefix_refl (s : string) : HasPrefix s s = true.
Proof. rewrite <- (sapp_nil_r s) at 1. apply HasPrefix_app. Qed.

Lemma HasPrefix_head (c : ascii) (s : string) :
  HasPrefix s (String c "") = true <-> exists r, s = String c r.
Proof. rewrite HasPrefix_spec. done. Qed.

Lemma HasSuffix_app (r p : string) : HasSuffix (r +:+ p) p = true.
Proof.
  unfold HasSuffix. rewrite slen_app.
  replace (slen r + slen p - slen p)%nat with (slen r) by lia.
  rewrite sdrop_app, String.eqb_refl. bool_prop; [apply Nat.leb_le; lia | done].
Qed.

Lemma HasSuffix_spec (s p : string) : HasSuffix s p = true <-> exists r, s = r +:+ p.
Proof.
  split; [|intros [r ->]; apply HasSuffix_app].
  unfold HasSuffix. intros H. bool_prop. exists (stake (slen s - slen p) s).
  by rewrite <- H0 at 2; rewrite stake_sdrop.
Qed.

Lemma sdrop_app_add (a b : string) (n : nat) : sdrop (slen a + n) (a +:+ b) = sdrop n b.
Proof. by induction a. Qed.

(** Whether a string ends in a byte depends on its last non-empty part only. *)
Lemma HasSuffix_last (a b : string) (c : ascii) :
  b <> "" -> HasSuffix (a +:+ b) (String c "") = HasSuffix b (String c "").
Proof.
  intros Hb. unfold HasSuffix. rewrite slen_app. simpl slen.
  destruct b as [|d b]; [done|]. simpl slen.
  replace (slen a + S (slen b) - 1)%nat with (slen a + slen b)%nat by lia.
  rewrite sdrop_app_add. replace (S (slen b) - 1)%nat with (slen b) by lia.
  f_equal. rewrite Nat.add_comm. done.
Qed.

Lemma TrimPrefix_app (p r : string) : TrimPrefix (p +:+ r) p = r.
Proof. unfold TrimPrefix. by rewrite HasPrefix_app, sdrop_app. Qed.

Lemma TrimSuffix_app (r p : string) : TrimSuffix (r +:+ p) p = r.
Proof.
  unfold TrimSuffix. rewrite HasSuffix_app, slen_app.
  replace (slen r + slen p - slen p)%nat with (slen r) by lia. apply stake_app.
Qed.

Lemma TrimSuffix_none (s p : string) : HasSuffix s p = false -> TrimSuffix s p = s.
Proof. unfold TrimSuffix. by intros ->. Qed.

Lemma CutPrefix_spec (s p r : string) : CutPrefix s p = Some r <-> s = p +:+ r.
Proof.
  unfold CutPrefix. split.
  - destruct (HasPrefix s p) eqn:E; [|done]. apply HasPrefix_spec in E as [r' ->].
    rewrite sdrop_app. by intros [= ->].
  - intros ->. by rewrite HasPrefix_app, sdrop_app.
Qed.

(** ** Lemmas: byte predicates over a string *)

Lemma sforall_app (p : ascii -> bool) (a b : string) :
  sforall p (a +:+ b) = sforall p a && sforall p b.
Proof. induction a; simpl; [done|]. by rewrite IHa, andb_assoc. Qed.

Lemma sforall_impl (p q : ascii -> bool) (s : string) :
  (forall c, p c = true -> q c = true) -> sforall p s = true -> sforall q s = true.
Proof. intros Hpq. induction s; simpl; intros H; [done|]. bool_prop; auto. Qed.

Lemma smap_app (f : ascii -> ascii) (a b : string) : smap f (a +:+ b) = smap f a +:+ smap f b.
Proof. induction a; simpl; congruence. Qed.

Lemma slen_smap (f : ascii -> ascii) (s : string) : slen (smap f s) = slen s.
Proof. induction s; simpl; congruence. Qed.

Lemma sforall_smap (p : ascii -> bool) (f : ascii -> ascii) (s : string) :
  sforall p (smap f s) = sforall (fun c => p (f c)) s.
Proof. induction s; simpl; congruence. Qed.

Lemma smap_id (f : ascii -> ascii) (s : string) :
  sforall (fun c => Ascii.eqb (f c) c) s = true -> smap f s = s.
Proof. induction s; simpl; intros H; [done|]. bool_prop. f_equal; auto. Qed.

Definition not_byte (c : ascii) : ascii -> bool := fun d => negb (Ascii.eqb d c).

Lemma IndexByte_None (s : string) (c : ascii) :
  sforall (not_byte c) s = true -> IndexByte s c = None.
Proof.
  unfold not_byte. induction s as [|d s IH]; simpl; intros H; [done|].
  destruct (Ascii.eqb d c); [done|]. by rewrite IH.
Qed.

Lemma IndexByte_app (a b : string) (c : ascii) :
  sforall (not_byte c) a = true -> IndexByte (a +:+ String c b) c = Some (slen a).
Proof.
  unfold not_byte. induction a as [|d a IH]; simpl; intros H.
  - by rewrite Ascii.eqb_refl.
  - destruct (Ascii.eqb d c); [done|]. by rewrite IH.
Qed.

Lemma LastIndexByte_None (s : string) (c : ascii) :
  sforall (not_byte c) s = true -> LastIndexByte s c = None.
Proof.
  unfold not_byte. induction s as [|d s IH]; simpl; intros H; [done|].
  destruct (Ascii.eqb d c); [done|]. by rewrite IH.
Qed.

Lemma LastIndexByte_app (a b : string) (c : ascii) :
  sforall (not_byte c) b = true -> LastIndexByte (a +:+ String c b) c = Some (slen a).
Proof.
  intros Hb. induction a as [|d a IH]; simpl.
  - by rewrite LastIndexByte_None, Ascii.eqb_refl.
  - by rewrite IH.
Qed.

Lemma has_byte_false (s : string) (c : ascii) :
  sforall (not_byte c) s = true -> has_byte s c = false.
Proof.
  intros H. unfold has_byte. rewrite (IndexByte_None _ _ H).
  apply bool_decide_eq_false. by intros [? ?].
Qed.

#[export] Hint Rewrite slen_app sdrop_app stake_app HasPrefix_app HasSuffix_app
  TrimPrefix_app TrimSuffix_app sforall_app smap_app sapp_nil_r : gw_simp.
#[export] Hint Resolve IndexByte_None LastIndexByte_None has_byte_false : gw.

(** ** Lemmas: trimming *)

(** The bytes of a host name or a token: ASCII and not white space. *)
Definition graph_byte (c : ascii) : bool := is_ascii_byte c && negb (space1 c).

Lemma space2_not_ascii (a b : ascii) : is_ascii_byte a = true -> space2 a b = false.
Proof. unfold is_ascii_byte, space2. intros H. destruct (byte_of a =? 194) eqn:E; [lia|done]. Qed.

Lemma space3_not_ascii (a b c : ascii) : is_ascii_byte a = true -> space3 a b c = false.
Proof.
  unfold is_ascii_byte, space3. intros H.
  destruct (byte_of a =? 225) eqn:?, (byte_of a =? 226) eqn:?, (byte_of a =? 227) eqn:?;
    simpl; lia.
Qed.

Lemma trim_left_space_graph (c : ascii) (s : string) :
  graph_byte c = true -> trim_left_space (String c s) = String c s.
Proof.
  unfold graph_byte. intros H. bool_prop. simpl. rewrite H0.
  destruct s as [|d s]; [done|]. rewrite space2_not_ascii by done.
  destruct s as [|e s]; [done|]. by rewrite space3_not_ascii.
Qed.

Lemma trim_left_space_pad (pad s : string) :
  sforall space1 pad = true -> trim_left_space (pad +:+ s) = trim_left_space s.
Proof. induction pad as [|c pad IH]; simpl; intros H; [done|]. bool_prop. by rewrite H, IH. Qed.

Lemma trim_left_space_all (pad : string) :
  sforall space1 pad = true -> trim_left_space pad = "".
Proof. intros H. rewrite <- (sapp_nil_r pad). by rewrite trim_left_space_pad. Qed.

Lemma trim_right_space_graph (s pad : string) :
  sforall graph_byte s = true -> sforall space1 pad = true ->
  trim_right_space (s +:+ pad) = s.
Proof.
  intros Hs Hp. induction s as [|c s IH].
  - change ("" +:+ pad) with pad. apply trim_left_space_all in Hp.
    destruct pad; unfold trim_right_space; [done|]. by rewrite Hp.
  - cbn [sforall] in Hs. bool_prop. cbn [String.append].
    cbn [trim_right_space]. rewrite trim_left_space_graph by done. cbn. by rewrite IH.
Qed.

(** Trimming removes ASCII padding on both sides and nothing else. *)
Lemma TrimSpace_pad (l s r : string) :
  sforall space1 l = true -> sforall graph_byte s = true -> sforall space1 r = true ->
  TrimSpace (l +:+ s +:+ r) = s.
Proof.
  intros Hl Hs Hr. unfold TrimSpace. rewrite trim_left_space_pad by done.
  destruct s as [|c s]; cbn [String.append].
  - by rewrite trim_left_space_all.
  - rewrite (trim_left_space_graph c (s +:+ r)) by (simpl in Hs; by bool_prop).
    change (String c (s +:+ r)) with (String c s +:+ r). by apply trim_right_space_graph.
Qed.

Lemma TrimSpace_graph (s : string) : sforall graph_byte s = true -> TrimSpace s = s.
Proof. intros H. by rewrite <- (TrimSpace_pad "" s "") at 2; rewrite ?sapp_nil_r. Qed.

Lemma trim_left_id (p : ascii -> bool) (s : string) :
  sforall (fun c => negb (p c)) s = true -> trim_left p s = s.
Proof. destruct s; simpl; intros H; [done|]. bool_prop. by rewrite H. Qed.

Lemma trim_right_id (p : ascii -> bool) (s : string) :
  sforall (fun c => negb (p c)) s = true -> trim_right p s = s.
Proof.
  induction s as [|c s IH]; simpl; intros H; [done|]. bool_prop.
  by rewrite IH, H, andb_false_r.
Qed.

Lemma Trim_id (p : ascii -> bool) (s : string) :
  sforall (fun c => negb (p c)) s = true -> Trim s p = s.
Proof. intros H. unfold Trim. rewrite trim_left_id by done. by apply trim_right_id. Qed.

(** ** Lemmas: [net.SplitHostPort] *)

(** A byte that has no meaning to [SplitHostPort]. *)
Definition plain_byte (c : ascii) : bool := not_byte ":" c && not_byte "[" c && not_byte "]" c.

Lemma plain_not (d : ascii) (s : string) :
  (d = ":" \/ d = "[" \/ d = "]")%char -> sforall plain_byte s = true ->
  sforall (not_byte d) s = true.
Proof.
  intros Hd. apply sforall_impl. unfold plain_byte. intros c Hc. bool_prop.
  destruct Hd as [-> | [-> | ->]]; done.
Qed.

Lemma sdrop_S_app (a b : string) (c : ascii) : sdrop (S (slen a)) (a +:+ String c b) = b.
Proof. induction a; simpl in *; [by destruct b | done]. Qed.

(** A host with no colon and no bracket is split off its port. *)
Lemma SplitHostPort_plain (h p : string) :
  sforall plain_byte h = true -> sforall plain_byte p = true ->
  SplitHostPort (h +:+ String ":" p) = HostPort h p.
Proof.
  intros Hh Hp. unfold SplitHostPort.
  rewrite LastIndexByte_app by (apply plain_not; auto).
  destruct (HasPrefix (h +:+ String ":" p) "[") eqn:E.
  { apply HasPrefix_head in E as [r E]. destruct h as [|c h]; simpl in *; [done|].
    injection E as -> _. done. }
  rewrite stake_app, (has_byte_false h) by (apply plain_not; auto).
  change (sdrop 0 ?x) with x.
  rewrite !has_byte_false, sdrop_S_app; [done| |];
    rewrite sforall_app; simpl; bool_prop; try apply plain_not; auto.
Qed.

(** A host with no colon at all is left to the caller. *)
Lemma SplitHostPort_no_colon (h : string) :
  sforall (not_byte ":") h = true ->
  SplitHostPort h = AddrError "missing port in address".
Proof. intros H. unfold SplitHostPort. by rewrite LastIndexByte_None. Qed.

(** The bracketed form: the brackets protect the colons of an IPv6 literal. *)
Lemma SplitHostPort_bracketed (h p : string) :
  sforall (not_byte "[") h = true -> sforall (not_byte "]") h = true ->
  sforall plain_byte p = true ->
  SplitHostPort ("[" +:+ h +:+ "]:" +:+ p) = HostPort h p.
Proof.
  intros H1 H2 Hp. unfold SplitHostPort.
  change ("[" +:+ h +:+ "]:" +:+ p) with (String "[" (h +:+ String "]" (String ":" p))).
  set (a := String "[" h +:+ "]").
  replace (String "[" (h +:+ String "]" (String ":" p))) with (a +:+ String ":" p)
    by (unfold a; simpl; by rewrite sapp_assoc).
  rewrite LastIndexByte_app by (apply plain_not; auto).
  replace (IndexByte (a +:+ String ":" p) "]") with (Some (S (slen h))).
  2:{ unfold a. rewrite sapp_assoc. symmetry. apply (IndexByte_app (String "[" h)). done. }
  replace (HasPrefix (a +:+ String ":" p) "[") with true by done.
  assert (slen a = S (S (slen h))) as Ha by (unfold a; rewrite slen_app; simpl; lia).
  rewrite slen_app, Ha, Nat.eqb_refl. simpl slen.
  replace (S (S (slen h)) =? S (S (slen h)) + S (slen p))%nat with false
    by (symmetry; apply Nat.eqb_neq; lia).
  replace (stake (S (slen h)) (a +:+ String ":" p)) with (String "[" h).
  2:{ unfold a. rewrite sapp_assoc. symmetry. apply (stake_app (String "[" h)). }
  rewrite <- Ha, sdrop_S_app. rewrite !has_byte_false; [done| |].
  - rewrite sdrop_app. simpl. apply plain_not; auto.
  - unfold a. simpl. rewrite !sforall_app. simpl. rewrite H1. simpl. apply plain_not; auto.
Qed.

Lemma str_in_spec (s : string) (l : list string) : str_in s l = true <-> In s l.
Proof.
  unfold str_in. rewrite existsb_exists. split.
  - intros (x & Hx & E). bool_prop. by subst.
  - intros Hs. exists s. split; [done|]. apply String.eqb_refl.
Qed.
