(* ===== verification/Hosts.v ===== *)
(** * Host and path matching (routing.go)

    The predicates by which the router decides that a route covers a request:
    [normalizeHost], [hostMatches], [hostSpecificity], [pathMatches], and the
    path join of the health probe, [singleJoiningSlash]. *)

From stdpp Require Import base list strings.
From Stdlib Require Import ZArith Lia Ascii String.
From S2P Require Import Prelude GoStrings.

(** ** Definitions *)

Definition hostAny : Z := 0.
Definition hostWildcard : Z := 1.
Definition hostExact : Z := 2.

Definition hostSpecificity (pattern : string) : Z :=
  if String.eqb pattern "" then hostAny
  else if HasPrefix pattern "*." then hostWildcard
  else hostExact.

(** The cutset of [strings.Trim(h, "[]")]. *)
Definition is_bracket (c : ascii) : bool := Ascii.eqb c "[" || Ascii.eqb c "]".

Definition normalizeHost `{UnicodeTables} (h : string) : string :=
  let h := ToLower (TrimSpace h) in
  if String.eqb h "" then ""
  else
    let h := match SplitHostPort h with
             | HostPort host _ => host
             | AddrError _ => h
             end in
    let h := Trim h is_bracket in
    if (1 <? slen h)%nat then TrimSuffix h "." else h.

Definition hostMatches `{UnicodeTables} (pattern host : string) : bool :=
  if String.eqb pattern "" then true
  else
    let pattern := normalizeHost pattern in
    if String.eqb pattern host then true
    else match CutPrefix pattern "*" with
         | Some suffix => (slen suffix <? slen host)%nat && HasSuffix host suffix
         | None => false
         end.

(** [path[len(prefix)]] is read behind the length test, so the index is in
    range there ([pathMatches_index_in_range]). *)
Definition pathMatches (prefix path : string) : bool :=
  if String.eqb prefix "" || String.eqb prefix "/" then true
  else if negb (HasPrefix path prefix) then false
  else if (slen path =? slen prefix)%nat then true
  else match String.get (slen prefix) path with
       | Some c => Ascii.eqb c "/" || HasSuffix prefix "/"
       | None => false
       end.

Definition singleJoiningSlash (a b : string) : string :=
  let aslash := HasSuffix a "/" in
  let bslash := HasPrefix b "/" in
  if aslash && bslash then a +:+ sdrop 1 b
  else if negb aslash && negb bslash then a +:+ "/" +:+ b
  else a +:+ b.

(** ** Host names *)

(** The bytes a host name is made of, before normalisation: ASCII, no white
    space, no colon, no bracket. *)
Definition host_byte (c : ascii) : bool := graph_byte c && plain_byte c.

(** A canonical host name: lower case, no port, no trailing dot. *)
Definition canonical_host (h : string) : bool :=
  sforall (fun c => host_byte c && negb (is_upper c)) h &&
  negb (String.eqb h "") && negb (HasSuffix h ".").

Lemma lower_byte_fix (c : ascii) : is_upper c = false -> lower_byte c = c.
Proof. unfold lower_byte. by intros ->. Qed.

(** Facts on single bytes are decided by running through the 256 of them. *)
Ltac by_bytes :=
  intros [[] [] [] [] [] [] [] []]; vm_compute; try reflexivity; try discriminate; tauto.

Lemma lower_byte_host (c : ascii) : host_byte c = true -> host_byte (lower_byte c) = true.
Proof. revert c. by_bytes. Qed.

Lemma lower_byte_graph (c : ascii) : graph_byte c = true -> graph_byte (lower_byte c) = true.
Proof. revert c. by_bytes. Qed.

Lemma lower_byte_plain (c : ascii) : plain_byte c = true -> plain_byte (lower_byte c) = true.
Proof. revert c. by_bytes. Qed.

Lemma graph_ascii (c : ascii) : graph_byte c = true -> is_ascii_byte c = true.
Proof. unfold graph_byte. intros; by bool_prop. Qed.

Lemma host_byte_graph (c : ascii) : host_byte c = true -> graph_byte c = true.
Proof. unfold host_byte. intros; by bool_prop. Qed.

Lemma host_byte_plain (c : ascii) : host_byte c = true -> plain_byte c = true.
Proof. unfold host_byte. intros; by bool_prop. Qed.

Lemma plain_not_bracket (c : ascii) : plain_byte c = true -> negb (is_bracket c) = true.
Proof. revert c. by_bytes. Qed.

Lemma ToLower_graph `{UnicodeTables} (s : string) :
  sforall graph_byte s = true -> ToLower s = smap lower_byte s.
Proof.
  intros Hs. unfold ToLower, is_ascii.
  by rewrite (sforall_impl _ _ s graph_ascii Hs).
Qed.

Lemma canonical_lower (h : string) : canonical_host h = true -> smap lower_byte h = h.
Proof.
  unfold canonical_host. intros Hh. bool_prop. apply smap_id.
  eapply sforall_impl; [|done]. intros c Hc. cbn in Hc. bool_prop.
  by apply lower_byte_fix.
Qed.

Lemma canonical_host_bytes (h : string) : canonical_host h = true -> sforall host_byte h = true.
Proof.
  unfold canonical_host. intros Hh. bool_prop.
  eapply sforall_impl; [|done]. intros c Hc. cbn in Hc. by bool_prop.
Qed.

(** The last two steps of [normalizeHost] on a canonical name, with or without
    the dot of a fully qualified name. *)
Lemma strip_fqdn_dot (h : string) (dot : bool) :
  canonical_host h = true ->
  let x := Trim (h +:+ if dot then "." else "") is_bracket in
  (if (1 <? slen x)%nat then TrimSuffix x "." else x) = h.
Proof.
  intros Hc x. pose proof (canonical_host_bytes h Hc) as Hb.
  assert (x = h +:+ if dot then "." else "") as ->.
  { apply Trim_id. rewrite sforall_app. bool_prop; [|by destruct dot].
    eapply sforall_impl; [|done]. intros c ?. by apply plain_not_bracket, host_byte_plain. }
  unfold canonical_host in Hc. bool_prop.
  destruct dot; [|rewrite sapp_nil_r; case_if; [by apply TrimSuffix_none|done]].
  rewrite TrimSuffix_app, slen_app.
  destruct h as [|c h]; [done|]. simpl. by rewrite Nat.add_comm.
Qed.

Lemma host_suffix_bytes (m : string) (dot : bool) :
  sforall host_byte m = true -> sforall host_byte (m +:+ if dot then "." else "") = true.
Proof. intros H. rewrite sforall_app, H. by destruct dot. Qed.

(** Every spelling of a host name has the same normal form. *)
Lemma normalizeHost_spelling `{UnicodeTables} (l m r : string) (dot : bool)
    (port : option string) :
  sforall space1 l = true -> sforall space1 r = true ->
  sforall host_byte m = true -> canonical_host (smap lower_byte m) = true ->
  sforall host_byte (default "" port) = true ->
  normalizeHost (l +:+ ((m +:+ if dot then "." else "") +:+
                        match port with Some p => String ":" p | None => "" end) +:+ r)
  = smap lower_byte m.
Proof.
  intros Hl Hr Hm Hc Hp. pose proof (host_suffix_bytes m dot Hm) as Hmd.
  set (t := match port with Some p => String ":" p | None => "" end).
  assert (sforall graph_byte t = true) as Ht.
  { unfold t. destruct port as [p|]; [|done]. simpl in *. bool_prop.
    eapply sforall_impl; [apply host_byte_graph|done]. }
  assert (sforall graph_byte (m +:+ if dot then "." else "") = true) as Hg
    by (eapply sforall_impl; [apply host_byte_graph|done]).
  unfold normalizeHost. rewrite TrimSpace_pad; [|done| |done]; last first.
  { rewrite sforall_app. by bool_prop. }
  rewrite ToLower_graph by (rewrite sforall_app; by bool_prop).
  rewrite !smap_app.
  replace (smap lower_byte (if dot then "." else "")) with (if dot then "." else "")
    by by destruct dot.
  replace (match SplitHostPort _ with HostPort host _ => host | AddrError _ => _ end)
    with (smap lower_byte m +:+ if dot then "." else "").
  - rewrite strip_fqdn_dot by done.
    unfold canonical_host in Hc. bool_prop. by destruct (smap lower_byte m).
  - assert (sforall plain_byte (smap lower_byte m +:+ if dot then "." else "") = true) as Hpl.
    { eapply sforall_impl; [apply host_byte_plain|]. apply host_suffix_bytes.
      rewrite sforall_smap. eapply sforall_impl; [apply lower_byte_host|done]. }
    unfold t. destruct port as [p|]; simpl in Hp |- *.
    + replace (lower_byte ":") with ":"%char by done. rewrite SplitHostPort_plain; [done..|].
      rewrite sforall_smap. eapply sforall_impl; [|done]. intros c Hc'.
      by apply lower_byte_plain, host_byte_plain.
    + rewrite sapp_nil_r, SplitHostPort_no_colon; [done|]. apply plain_not; auto.
Qed.

(** A canonical name is a fixed point of [normalizeHost]. *)
Lemma normalizeHost_canonical `{UnicodeTables} (h : string) :
  canonical_host h = true -> normalizeHost h = h.
Proof.
  intros Hc. pose proof (canonical_lower h Hc) as Hl.
  assert (normalizeHost ("" +:+ ((h +:+ "") +:+ "") +:+ "") = smap lower_byte h) as E.
  { apply (normalizeHost_spelling "" h "" false None); try done.
    - by apply canonical_host_bytes.
    - by rewrite Hl. }
  by rewrite !sapp_nil_r, Hl in E.
Qed.

(** The bytes of an IPv6 literal between its brackets. *)
Definition literal_byte (c : ascii) : bool :=
  graph_byte c && not_byte "[" c && not_byte "]" c && negb (is_upper c).

Lemma literal_bytes (v : string) :
  sforall literal_byte v = true ->
  sforall graph_byte v = true /\ sforall (not_byte "[") v = true /\
  sforall (not_byte "]") v = true /\ smap lower_byte v = v /\
  sforall (fun c => negb (is_bracket c)) v = true.
Proof.
  intros Hv. split_and!; [| | |apply smap_id|]; (eapply sforall_impl; [|exact Hv]);
    unfold literal_byte, not_byte, is_bracket; intros c Hc; cbn in *; bool_prop; try done.
  by apply lower_byte_fix.
Qed.

Lemma trim_left_bracket (s : string) : trim_left is_bracket (String "[" s) = trim_left is_bracket s.
Proof. done. Qed.

Lemma trim_right_bracket (v : string) :
  sforall (fun c => negb (is_bracket c)) v = true -> trim_right is_bracket (v +:+ "]") = v.
Proof.
  induction v as [|c v IH]; simpl; intros Hv; [done|]. bool_prop.
  by rewrite IH, H, andb_false_r.
Qed.

Lemma Trim_bracketed (v : string) :
  v <> "" -> sforall (fun c => negb (is_bracket c)) v = true ->
  Trim ("[" +:+ v +:+ "]") is_bracket = v.
Proof.
  intros Hne Hv. unfold Trim. change ("[" +:+ v +:+ "]") with (String "[" (v +:+ "]")).
  rewrite trim_left_bracket. destruct v as [|c v]; [done|]. simpl in Hv. bool_prop.
  cbn [String.append trim_left]. rewrite H. apply (trim_right_bracket (String c v)).
  simpl. by rewrite H, H0.
Qed.

Lemma SplitHostPort_bracketed_no_port (v : string) :
  sforall (not_byte "]") v = true ->
  exists why, SplitHostPort ("[" +:+ v +:+ "]") = AddrError why.
Proof.
  intros Hv. unfold SplitHostPort.
  change ("[" +:+ v +:+ "]") with (String "[" v +:+ String "]" "").
  destruct (LastIndexByte _ _); [|eauto].
  rewrite (IndexByte_app (String "[" v)) by (simpl; done).
  replace (HasPrefix _ "[") with true by done.
  rewrite slen_app. replace (S (slen (String "[" v)) =? _)%nat with true; [eauto|].
  symmetry. apply Nat.eqb_eq. simpl. lia.
Qed.

(** An IPv6 literal loses its brackets, and its port when it has one. *)
Lemma normalizeHost_literal `{UnicodeTables} (v : string) (port : option string) :
  v <> "" -> sforall literal_byte v = true -> HasSuffix v "." = false ->
  sforall host_byte (default "" port) = true ->
  normalizeHost ("[" +:+ v +:+ match port with Some p => "]:" +:+ p | None => "]" end) = v.
Proof.
  intros Hne Hv Hd Hp. destruct (literal_bytes v Hv) as (Hg & H1 & H2 & Hl & Hb).
  unfold normalizeHost.
  set (t := match port with Some p => "]:" +:+ p | None => "]" end).
  assert (sforall graph_byte ("[" +:+ v +:+ t) = true) as Ht.
  { rewrite !sforall_app, Hg. unfold t. destruct port as [p|]; simpl in Hp |- *; [|done].
    by rewrite (sforall_impl _ _ p host_byte_graph Hp). }
  rewrite TrimSpace_graph, ToLower_graph by done. rewrite !smap_app, Hl.
  replace (smap lower_byte "[") with "[" by done.
  assert (Trim (match SplitHostPort ("[" +:+ v +:+ smap lower_byte t) with
                | HostPort host _ => host
                | AddrError _ => "[" +:+ v +:+ smap lower_byte t end) is_bracket = v) as ->.
  { unfold t. destruct port as [p|]; simpl in Hp.
    - change (smap lower_byte ("]:" +:+ p)) with ("]:" +:+ smap lower_byte p).
      rewrite SplitHostPort_bracketed; [by apply Trim_id|done|done|].
      rewrite sforall_smap. eapply sforall_impl; [|done]. intros c Hc.
      by apply lower_byte_plain, host_byte_plain.
    - destruct (SplitHostPort_bracketed_no_port v) as [why E]; [done|].
      change (smap lower_byte "]") with "]". rewrite E. by apply Trim_bracketed. }
  simpl. case_if; [by apply TrimSuffix_none|done].
Qed.

(** [normalizeHost] gives every spelling of a host one normal form. For a
    host name, letter case, surrounding white space, one trailing FQDN dot and
    an explicit port are removed and the lower-cased name is left; for an IPv6
    literal the brackets and the port are removed and the colons inside the
    brackets stay. *)
Theorem normalizeHost_normal_form `{UnicodeTables} (l m r v : string) (dot : bool)
    (port : option string) :
  sforall space1 l = true -> sforall space1 r = true ->
  sforall host_byte m = true -> canonical_host (smap lower_byte m) = true ->
  v <> "" -> sforall literal_byte v = true -> HasSuffix v "." = false ->
  sforall host_byte (default "" port) = true ->
  normalizeHost (l +:+ ((m +:+ if dot then "." else "") +:+
                        match port with Some p => String ":" p | None => "" end) +:+ r)
    = smap lower_byte m /\
  normalizeHost ("[" +:+ v +:+ match port with Some p => "]:" +:+ p | None => "]" end) = v.
Proof. intros. split; [by apply normalizeHost_spelling | by apply normalizeHost_literal]. Qed.

Lemma normalizeHost_normal_form_witness :
  normalizeHost (H := ascii_tables) "  Api.EXAMPLE.com.:8443 " = "api.example.com" /\
  normalizeHost (H := ascii_tables) "[fe80::1]:8443" = "fe80::1".
Proof.
  apply (normalizeHost_normal_form (H := ascii_tables)
           "  " "Api.EXAMPLE.com" " " "fe80::1" true (Some "8443"));
    first [reflexivity | discriminate].
Defined.

(** ** Host patterns *)

(** What a stored pattern covers, as a set of canonical hosts. *)
Definition host_covers (pattern host : string) : Prop :=
  pattern = "" \/ pattern = host \/
  exists suffix label, pattern = "*" +:+ suffix /\ label <> "" /\ host = label +:+ suffix.

Lemma hostMatches_spec `{UnicodeTables} (pattern host : string) :
  normalizeHost pattern = pattern ->
  hostMatches pattern host = true <-> host_covers pattern host.
Proof.
  intros Hn. unfold hostMatches, host_covers.
  destruct (String.eqb pattern "") eqn:E1; bool_prop; [subst; split; auto|]. rewrite Hn.
  destruct (String.eqb pattern host) eqn:E2; bool_prop; [subst; split; auto|].
  split.
  - destruct (CutPrefix pattern "*") as [suffix|] eqn:E; [|done].
    apply CutPrefix_spec in E. intros Hs. bool_prop.
    apply HasSuffix_spec in H1 as [label ->]. right; right. exists suffix, label.
    split_and!; try done. intros ->. simpl in H0. lia.
  - intros [?|[?|(suffix & label & -> & Hl & ->)]]; [done..|].
    replace (CutPrefix ("*" +:+ suffix) "*") with (Some suffix)
      by (symmetry; by apply CutPrefix_spec).
    rewrite HasSuffix_app, slen_app, andb_true_r. apply Nat.ltb_lt.
    destruct label; [done|]. simpl. lia.
Qed.

Lemma canonical_wildcard (d : string) :
  canonical_host d = true -> canonical_host ("*." +:+ d) = true.
Proof.
  unfold canonical_host. intros Hd. bool_prop; try done.
  by rewrite (HasSuffix_last "*." d).
Qed.

(** A wildcard route ["*.d"] covers exactly the hosts that end in [".d"]
    after a non-empty label: it covers subdomains of any depth, never the apex
    [d] itself, and no host that merely ends with the letters of [d]. *)
Theorem wildcard_covers_subdomains_only `{UnicodeTables} (d host : string) :
  canonical_host d = true -> canonical_host host = true ->
  (hostMatches ("*." +:+ d) host = true <->
   host = "*." +:+ d \/ exists label, label <> "" /\ host = label +:+ "." +:+ d) /\
  hostMatches ("*." +:+ d) d = false.
Proof.
  intros Hd Hh. pose proof (normalizeHost_canonical _ (canonical_wildcard d Hd)) as Hn.
  split.
  - rewrite hostMatches_spec by done. unfold host_covers. split.
    + intros [?|[<-|(s & l & E & Hl & ->)]]; [done|by left|right].
      injection E as <-. by exists l.
    + intros [->|(l & Hl & ->)]; [by right; left|]. right; right. by exists ("." +:+ d), l.
  - apply not_true_iff_false. rewrite hostMatches_spec by done.
    intros [?|[E|(s & l & E & Hl & E')]]; [done| |].
    + apply (f_equal slen) in E. simpl in E. lia.
    + injection E as <-. apply (f_equal slen) in E'. rewrite slen_app in E'. simpl in E'. lia.
Qed.

Lemma wildcard_covers_subdomains_only_witness :
  hostMatches (H := ascii_tables) "*.example.com" "a.b.example.com" = true /\
  hostMatches (H := ascii_tables) "*.example.com" "example.com" = false.
Proof.
  destruct (wildcard_covers_subdomains_only (H := ascii_tables)
              "example.com" "a.b.example.com" eq_refl eq_refl) as [H1 H2].
  split; [apply H1; right; exists "a.b"; split; [discriminate | reflexivity] | exact H2].
Defined.

(** ** Paths *)

Lemma get_app (a b : string) (c : ascii) : String.get (slen a) (a +:+ String c b) = Some c.
Proof. by induction a. Qed.

(** Behind the tests of [pathMatches] the indexed byte exists. *)
Lemma pathMatches_index_in_range (prefix path : string) :
  HasPrefix path prefix = true -> slen path <> slen prefix ->
  exists c rest, path = prefix +:+ String c rest /\ String.get (slen prefix) path = Some c.
Proof.
  intros Hp Hl. apply HasPrefix_spec in Hp as [[|c r] ->].
  - by rewrite sapp_nil_r in Hl.
  - exists c, r. by rewrite get_app.
Qed.

(** A prefix covers a path exactly when the path is the prefix followed by
    nothing, or by a rest that starts at a segment boundary: the rest begins
    with a slash or the prefix ends with one. The prefixes [""] and ["/"] cover
    every path. So ["/api/v1"] covers ["/api/v1/x"] and not ["/api/v11"]. *)
Theorem pathMatches_segment_boundary (prefix path : string) :
  pathMatches prefix path = true <->
  prefix = "" \/ prefix = "/" \/
  exists rest, path = prefix +:+ rest /\
    (rest = "" \/ HasPrefix rest "/" = true \/ HasSuffix prefix "/" = true).
Proof.
  unfold pathMatches.
  destruct (String.eqb prefix "") eqn:E1; bool_prop; [by split; auto|].
  destruct (String.eqb prefix "/") eqn:E2; bool_prop; [by split; auto|].
  cbn [orb negb].
  destruct (HasPrefix path prefix) eqn:Hp; cbn [negb]; last first.
  { split; [done|]. intros [?|[?|(r & -> & _)]]; [done..|]. by rewrite HasPrefix_app in Hp. }
  destruct (slen path =? slen prefix)%nat eqn:El.
  - apply Nat.eqb_eq in El. apply HasPrefix_spec in Hp as [r ->].
    rewrite slen_app in El. rewrite (slen_zero r) by lia. split; [|done].
    intros _. right; right. exists "". by auto.
  - apply Nat.eqb_neq in El.
    destruct (pathMatches_index_in_range prefix path Hp El) as (c & r & -> & ->). split.
    + intros [Hc|Hs]%orb_true_iff; right; right; exists (String c r); split; auto.
      bool_prop. subst. by auto.
    + intros [?|[?|(r' & E & Hr)]]; [done..|].
      apply sapp_inj in E as [_ <-]; [|done]. apply orb_true_iff.
      destruct Hr as [?|[Hr|Hs]]; [done| |by right]. left.
      apply HasPrefix_head in Hr as [? [= -> _]]. done.
Qed.

(** [singleJoiningSlash] puts exactly one slash between the two parts,
    whichever of them already brings one: for parts with no slash of their own
    at the seam, all four combinations give the same path. *)
Theorem singleJoiningSlash_one_slash (a b : string) (aslash bslash : bool) :
  HasSuffix a "/" = false -> HasPrefix b "/" = false ->
  singleJoiningSlash (a +:+ if aslash then "/" else "") ((if bslash then "/" else "") +:+ b)
  = a +:+ "/" +:+ b.
Proof.
  intros Ha Hb. unfold singleJoiningSlash.
  assert (HasPrefix ("/" +:+ b) "/" = true) as Hs by apply HasPrefix_app.
  destruct aslash, bslash; rewrite ?sapp_nil_r, ?HasSuffix_app, ?Ha, ?Hs;
    change ("" +:+ b) with b; rewrite ?Hb; cbn [andb negb]; by rewrite ?sapp_assoc.
Qed.

Lemma singleJoiningSlash_one_slash_witness :
  singleJoiningSlash "/v1/" "/healthz" = "/v1/healthz".
Proof.
  apply (singleJoiningSlash_one_slash "/v1" "healthz" true true); reflexivity.
Defined.
