(* ===== verification/StableSort.v ===== *)
(** * [sort.SliceStable]

    The routing table is kept in order by [sort.SliceStable]. The model is an
    insertion sort; [SliceStable_unique] shows that the choice of algorithm
    does not matter: any result that is sorted and keeps equivalent elements in
    their original order is the one computed here. *)

From stdpp Require Import base list.
From Stdlib Require Import List Bool Permutation Sorted Lia.

(** The contract [sort] asks of a [less] function. *)
Class StrictWeakOrder {A : Type} (less : A -> A -> bool) : Prop := {
  swo_irrefl x : less x x = false;
  swo_asym x y : less x y = true -> less y x = false;
  swo_cotrans x y z : less x z = true -> less x y = true \/ less y z = true
}.

Section Sort.
Context {A : Type} (less : A -> A -> bool).

Fixpoint insert_stable (x : A) (l : list A) : list A :=
  match l with
  | [] => [x]
  | y :: r => if less x y then x :: y :: r else y :: insert_stable x r
  end.

Definition SliceStable (l : list A) : list A := fold_left (fun acc x => insert_stable x acc) l [].

(** Two elements that [less] does not separate. *)
Definition eqv (x y : A) : bool := negb (less x y) && negb (less y x).

Definition sorted : list A -> Prop := StronglySorted (fun x y => less y x = false).

(** The documented contract of a stable sort. *)
Definition stable_sort_of (l l' : list A) : Prop :=
  sorted l' /\ forall x, List.filter (eqv x) l' = List.filter (eqv x) l.

Context `{!StrictWeakOrder less}.

Lemma less_irrefl x : less x x = false.
Proof. apply swo_irrefl. Qed.

Lemma less_asym x y : less x y = true -> less y x = false.
Proof. apply swo_asym. Qed.

Lemma less_cotrans x y z : less x z = true -> less x y = true \/ less y z = true.
Proof. apply swo_cotrans. Qed.

Lemma less_trans x y z : less x y = true -> less y z = true -> less x z = true.
Proof.
  intros H1 H2. destruct (less_cotrans x z y H1) as [|H3]; [done|].
  apply less_asym in H2. congruence.
Qed.

Lemma eqv_refl x : eqv x x = true.
Proof. unfold eqv. by rewrite less_irrefl. Qed.

Lemma less_not_eqv x y z : less y z = true -> eqv x y = true -> eqv x z = false.
Proof.
  unfold eqv. intros Hyz [H1 H2]%andb_true_iff. apply negb_true_iff in H1, H2.
  destruct (less_cotrans y x z Hyz) as [|Hxz]; [congruence|]. by rewrite Hxz.
Qed.

Lemma insert_perm x l : Permutation (insert_stable x l) (x :: l).
Proof.
  induction l as [|y r IH]; simpl; [done|]. destruct (less x y); [done|].
  rewrite IH. constructor.
Qed.

Lemma insert_In x y l : In y (insert_stable x l) <-> y = x \/ In y l.
Proof.
  split.
  - intros H. apply (Permutation_in _ (insert_perm x l)) in H. by destruct H as [->|]; auto.
  - intros H. apply (Permutation_in _ (Permutation_sym (insert_perm x l))).
    destruct H as [->|]; [by left | by right].
Qed.

Lemma insert_sorted x l : sorted l -> sorted (insert_stable x l).
Proof.
  unfold sorted. induction 1 as [|y r Hr IH Hy]; simpl; [by repeat constructor|].
  rewrite List.Forall_forall in Hy.
  destruct (less x y) eqn:E; constructor; rewrite ?List.Forall_forall; auto.
  - constructor; [done|]. by rewrite List.Forall_forall.
  - intros z [<-|Hz]; [by apply less_asym|].
    apply not_true_iff_false. intros Hzx. pose proof (less_trans _ _ _ Hzx E).
    specialize (Hy z Hz). congruence.
  - intros z [->|Hz]%insert_In; [done|auto].
Qed.

(** On a sorted list the new element goes behind its equivalents. *)
Lemma insert_filter x y l :
  sorted l ->
  List.filter (eqv x) (insert_stable y l) =
  List.filter (eqv x) l ++ (if eqv x y then [y] else []).
Proof.
  unfold sorted. induction 1 as [|z r Hr IH Hz]; simpl; [by destruct (eqv x y)|].
  destruct (less y z) eqn:E; cbn [List.filter].
  - destruct (eqv x y) eqn:Exy; [|by rewrite app_nil_r].
    rewrite (less_not_eqv x y z) by done.
    replace (List.filter (eqv x) r) with (@nil A); [done|].
    symmetry. rewrite List.Forall_forall in Hz. clear Hr IH.
    induction r as [|w r IHr]; simpl; [done|].
    rewrite (less_not_eqv x y w); [|  |done].
    + apply IHr. intros; apply Hz. by right.
    + destruct (less_cotrans y w z E) as [|Hw]; [done|].
      rewrite (Hz w) in Hw by by left. done.
  - rewrite IH. by destruct (eqv x z).
Qed.

Lemma fold_insert_stable l acc :
  sorted acc ->
  sorted (fold_left (fun acc x => insert_stable x acc) l acc) /\
  Permutation (fold_left (fun acc x => insert_stable x acc) l acc) (acc ++ l) /\
  forall x, List.filter (eqv x) (fold_left (fun acc x => insert_stable x acc) l acc) =
            List.filter (eqv x) acc ++ List.filter (eqv x) l.
Proof.
  revert acc. induction l as [|y l IH]; intros acc Ha; simpl.
  - split_and!; [done|by rewrite app_nil_r|]. intros. by rewrite app_nil_r.
  - destruct (IH (insert_stable y acc) (insert_sorted y acc Ha)) as (H1 & H2 & H3).
    split_and!; [done| |].
    + rewrite H2, insert_perm. apply Permutation_middle.
    + intros x. rewrite H3, insert_filter, <- app_assoc by done. by destruct (eqv x y).
Qed.

Lemma SliceStable_stable l : stable_sort_of l (SliceStable l).
Proof. destruct (fold_insert_stable l []) as (H1 & _ & H3); [constructor|]. by split. Qed.

Lemma SliceStable_perm l : Permutation (SliceStable l) l.
Proof. by destruct (fold_insert_stable l []) as (_ & H2 & _); [constructor|]. Qed.

Lemma SliceStable_In x l : In x (SliceStable l) <-> In x l.
Proof. split; apply Permutation_in; [|symmetry]; apply SliceStable_perm. Qed.

Lemma filter_eqv_In x l : In x l -> In x (List.filter (eqv x) l).
Proof. intros. apply filter_In. by rewrite eqv_refl. Qed.

Lemma sorted_head_min x l z : sorted (x :: l) -> In z (x :: l) -> less z x = false.
Proof.
  intros [_ Hx]%StronglySorted_inv [<-|Hz]; [apply less_irrefl|].
  rewrite List.Forall_forall in Hx. auto.
Qed.

(** Sorted lists with the same equivalence classes, in the same order, are
    equal. *)
Lemma sorted_classes_eq l1 l2 :
  sorted l1 -> sorted l2 ->
  (forall x, List.filter (eqv x) l1 = List.filter (eqv x) l2) -> l1 = l2.
Proof.
  revert l2. induction l1 as [|a r1 IH]; intros [|b r2] S1 S2 Hf.
  - done.
  - specialize (Hf b). simpl in Hf. by rewrite eqv_refl in Hf.
  - specialize (Hf a). simpl in Hf. by rewrite eqv_refl in Hf.
  - assert (In a (b :: r2)) as Ha.
    { eapply filter_In. rewrite <- Hf. apply filter_eqv_In. by left. }
    assert (In b (a :: r1)) as Hb.
    { eapply filter_In. rewrite Hf. apply filter_eqv_In. by left. }
    assert (eqv a b = true) as Eab.
    { unfold eqv. by rewrite (sorted_head_min _ _ _ S1 Hb), (sorted_head_min _ _ _ S2 Ha). }
    pose proof (Hf a) as Hfa. simpl in Hfa. rewrite eqv_refl, Eab in Hfa.
    injection Hfa as -> _. f_equal. apply IH.
    + by apply StronglySorted_inv in S1 as [? _].
    + by apply StronglySorted_inv in S2 as [? _].
    + intros x. specialize (Hf x). simpl in Hf. destruct (eqv x b); [by injection Hf|done].
Qed.

(** Any stable sort computes the list computed here. *)
Lemma SliceStable_unique l l' : stable_sort_of l l' -> l' = SliceStable l.
Proof.
  intros [Hs Hf]. destruct (SliceStable_stable l) as [Hs' Hf'].
  apply sorted_classes_eq; try done. intros x. by rewrite Hf, Hf'.
Qed.

(** A list that is already sorted is left alone. *)
Lemma SliceStable_sorted l : sorted l -> SliceStable l = l.
Proof. intros Hs. symmetry. apply SliceStable_unique. by split. Qed.

(** The first element of a sorted list that satisfies [p] is minimal among
    those that do, and it is the first of its class in the original list. *)
Lemma find_sorted_min p l e :
  sorted l -> find p l = Some e ->
  forall x, In x l -> p x = true -> less x e = false.
Proof.
  induction 1 as [|y r Hr IH Hy]; simpl; [done|]. rewrite List.Forall_forall in Hy.
  destruct (p y) eqn:Ep.
  - intros [= ->] x [<-|Hx] _; [apply less_irrefl|auto].
  - intros Hf x [<-|Hx] Hp; [congruence|auto].
Qed.

Lemma find_filter p q (l : list A) :
  find p (List.filter q l) = find (fun x => q x && p x) l.
Proof.
  induction l as [|x l IH]; simpl; [done|].
  destruct (q x) eqn:E; simpl; [|done]. destruct (p x); [done|apply IH].
Qed.

Lemma find_and p q (l : list A) e :
  find p l = Some e -> q e = true -> find (fun x => q x && p x) l = Some e.
Proof.
  induction l as [|x l IH]; simpl; [done|]. destruct (p x) eqn:Ep.
  - intros [= ->] ->. done.
  - rewrite andb_false_r. auto.
Qed.

Lemma find_SliceStable p l e :
  find p (SliceStable l) = Some e ->
  In e l /\ p e = true /\
  (forall x, In x l -> p x = true -> less x e = false) /\
  find (fun x => eqv e x && p x) l = Some e.
Proof.
  intros Hf. destruct (SliceStable_stable l) as [Hs Hc].
  pose proof (find_some _ _ Hf) as [Hin Hp].
  split_and!; [by apply SliceStable_In|done| |].
  - intros x Hx. apply (find_sorted_min p (SliceStable l)); try done. by apply SliceStable_In.
  - rewrite <- find_filter, <- Hc, find_filter. apply find_and; [done|apply eqv_refl].
Qed.
End Sort.
