(* ===== verification/Sha256.v ===== *)
(** * [crypto/sha256]

    SHA-256 (FIPS 180-4) on byte strings, executable: the [ip-hash] balancer
    reads the first byte of a digest and [hashAPIKey] prints a whole one.
    Words are integers below 2^32. *)

From stdpp Require Import base list strings.
From Stdlib Require Import ZArith Lia Ascii String List.
From S2P Require Import Prelude GoStrings.

Definition w32 (z : Z) : Z := z mod 4294967296.
Definition rotr (x n : Z) : Z := Z.lor (Z.shiftr x n) (w32 (Z.shiftl x (32 - n))).

Definition big_sigma0 (x : Z) : Z := Z.lxor (rotr x 2) (Z.lxor (rotr x 13) (rotr x 22)).
Definition big_sigma1 (x : Z) : Z := Z.lxor (rotr x 6) (Z.lxor (rotr x 11) (rotr x 25)).
Definition small_sigma0 (x : Z) : Z := Z.lxor (rotr x 7) (Z.lxor (rotr x 18) (Z.shiftr x 3)).
Definition small_sigma1 (x : Z) : Z := Z.lxor (rotr x 17) (Z.lxor (rotr x 19) (Z.shiftr x 10)).
Definition ch (x y z : Z) : Z := Z.lxor (Z.land x y) (Z.land (Z.lxor x 4294967295) z).
Definition maj (x y z : Z) : Z :=
  Z.lxor (Z.land x y) (Z.lxor (Z.land x z) (Z.land y z)).

(** The constants of the standard are digits of roots of primes: 32 bits after
    the point of the cube roots of the first 64, and of the square roots of the
    first 8. *)
Definition is_prime (n : nat) : bool :=
  forallb (fun d => negb (n mod d =? 0)%nat) (seq 2 (n - 2)).
Definition primes (count : nat) : list Z := map Z.of_nat (take count (List.filter is_prime (seq 2 312))).

(** The largest [r] below [2 ^ bits] above [acc] with [r ^ 3 <= z], bit by bit. *)
Fixpoint cube_root (bits : nat) (z acc : Z) : Z :=
  match bits with
  | O => acc
  | S bits' =>
      let r := acc + 2 ^ Z.of_nat bits' in
      cube_root bits' z (if r ^ 3 <=? z then r else acc)
  end.

Definition round_constants : list Z :=
  Eval vm_compute in map (fun p => w32 (cube_root 36 (p * 2 ^ 96) 0)) (primes 64).

Record digest_state := mkState { ha : Z; hb : Z; hc : Z; hd : Z; he : Z; hf : Z; hg : Z; hh : Z }.

Definition initial_state : digest_state :=
  Eval vm_compute in
  match map (fun p => w32 (Z.sqrt (p * 2 ^ 64))) (primes 8) with
  | [a; b; c; d; e; f; g; h] => mkState a b c d e f g h
  | _ => mkState 0 0 0 0 0 0 0 0
  end.

(** [n] bytes of [z], most significant first. *)
Fixpoint be_bytes (n : nat) (z : Z) : list Z :=
  match n with
  | O => []
  | S n' => be_bytes n' (Z.shiftr z 8) ++ [z mod 256]
  end.

Definition be_word (a b c d : Z) : Z := ((a * 256 + b) * 256 + c) * 256 + d.

Fixpoint words (l : list Z) : list Z :=
  match l with
  | a :: b :: c :: d :: r => be_word a b c d :: words r
  | _ => []
  end.

Definition string_bytes (s : string) : list Z := map byte_of (list_ascii_of_string s).

Definition padded (msg : list Z) : list Z :=
  let zeros := ((119 - (length msg mod 64)) mod 64)%nat in
  msg ++ [128] ++ List.repeat 0 zeros ++ be_bytes 8 (8 * Z.of_nat (length msg)).

(** The message schedule, newest word first. *)
Fixpoint extend_schedule (n : nat) (ws : list Z) : list Z :=
  match n with
  | O => ws
  | S n' =>
      let w := w32 (small_sigma1 (nth 1 ws 0) + nth 6 ws 0 +
                    small_sigma0 (nth 14 ws 0) + nth 15 ws 0) in
      extend_schedule n' (w :: ws)
  end.

Definition sha_round (st : digest_state) (kw : Z * Z) : digest_state :=
  let '(k, w) := kw in
  let t1 := hh st + big_sigma1 (he st) + ch (he st) (hf st) (hg st) + k + w in
  let t2 := big_sigma0 (ha st) + maj (ha st) (hb st) (hc st) in
  mkState (w32 (t1 + t2)) (ha st) (hb st) (hc st) (w32 (hd st + t1)) (he st) (hf st) (hg st).

Definition compress (st : digest_state) (block : list Z) : digest_state :=
  let ws := rev (extend_schedule 48 (rev block)) in
  let r := fold_left sha_round (combine round_constants ws) st in
  mkState (w32 (ha st + ha r)) (w32 (hb st + hb r)) (w32 (hc st + hc r)) (w32 (hd st + hd r))
          (w32 (he st + he r)) (w32 (hf st + hf r)) (w32 (hg st + hg r)) (w32 (hh st + hh r)).

(** The blocks of sixteen words, one at a time; there are as many as the fuel
    allows, which is the number of words. *)
Fixpoint compress_all (fuel : nat) (st : digest_state) (ws : list Z) : digest_state :=
  match fuel, ws with
  | S fuel', _ :: _ => compress_all fuel' (compress st (firstn 16 ws)) (skipn 16 ws)
  | _, _ => st
  end.

Definition digest_bytes (st : digest_state) : list Z :=
  concat (map (be_bytes 4) [ha st; hb st; hc st; hd st; he st; hf st; hg st; hh st]).

(** [sha256.Sum256([]byte(s))]: the 32 bytes of the digest. *)
Definition Sum256 (s : string) : list Z :=
  let ws := words (padded (string_bytes s)) in
  digest_bytes (compress_all (length ws) initial_state ws).

(** [hex.EncodeToString]: two lower-case digits for a byte. *)
Definition hex_digit (z : Z) : ascii :=
  ascii_of_N (Z.to_N (if z <? 10 then 48 + z else 87 + z)).
Fixpoint EncodeToString (l : list Z) : string :=
  match l with
  | [] => ""
  | b :: r => String (hex_digit (b / 16)) (String (hex_digit (b mod 16)) (EncodeToString r))
  end.

(** The digest of the empty message and of ["abc"], as published. *)
Example Sum256_empty :
  EncodeToString (Sum256 "") =
  "e3b0c44298fc1c149afbf4c8996fb92427ae41e4649b934ca495991b7852b855".
Proof. vm_compute. reflexivity. Qed.

Example Sum256_abc :
  EncodeToString (Sum256 "abc") =
  "ba7816bf8f01cfea414140de5dae2223b00361a396177a9cb410ff61f20015ad".
Proof. vm_compute. reflexivity. Qed.

(** A two-block message. *)
Example Sum256_two_blocks :
  EncodeToString (Sum256 "abcdbcdecdefdefgefghfghighijhijkijkljklmklmnlmnomnopnopq") =
  "248d6a61d20638b8e5c026930c3e6039a33ce45964ff2167f6ecedd419db06c1".
Proof. vm_compute. reflexivity. Qed.

(** ** Lemmas *)

Lemma length_be_bytes (n : nat) (z : Z) : length (be_bytes n z) = n.
Proof. revert z; induction n as [|n IH]; intros z; simpl; [done|]. rewrite length_app, IH. simpl. lia. Qed.

Lemma be_bytes_range (n : nat) (z : Z) : List.Forall (fun b => 0 <= b < 256) (be_bytes n z).
Proof.
  revert z; induction n as [|n IH]; intros z; simpl; [done|].
  apply List.Forall_app. split; [done|]. constructor; [|done]. apply Z.mod_pos_bound. lia.
Qed.

(** A digest is 32 bytes. *)
Lemma length_Sum256 (s : string) : length (Sum256 s) = 32%nat.
Proof. unfold Sum256, digest_bytes. cbn [map concat]. rewrite !length_app, !length_be_bytes. done. Qed.

Lemma Sum256_range (s : string) : List.Forall (fun b => 0 <= b < 256) (Sum256 s).
Proof.
  unfold Sum256, digest_bytes. apply List.Forall_concat, List.Forall_map, List.Forall_forall.
  intros w _. apply be_bytes_range.
Qed.

Lemma slen_EncodeToString (l : list Z) : slen (EncodeToString l) = (2 * length l)%nat.
Proof. induction l; simpl; lia. Qed.

(** The first byte of a digest exists. *)
Lemma Sum256_first (s : string) : exists b r, Sum256 s = b :: r /\ 0 <= b < 256.
Proof.
  pose proof (length_Sum256 s) as Hl. pose proof (Sum256_range s) as Hr.
  destruct (Sum256 s) as [|b r]; [done|]. inversion Hr; subst. eauto.
Qed.
