(* ===== verification/Pool.v ===== *)
(** * Backends and service pools (routing.go)

    A [Backend] is a heap object that pools and request handlers share by
    pointer: the heap is the list of all backends ever allocated, a pointer is
    an index into it, and every method reads or writes through the heap. A
    [ServicePool] holds pointers and the balancer's counter. *)

From stdpp Require Import base list strings sets.
From Stdlib Require Import ZArith Lia Ascii String List.
From S2P Require Import Prelude GoStrings Hosts Urls Sha256.

(** ** Data *)

(** What [newBackendProxy] closes over. *)
Record ReverseProxy := mkProxy { rp_target : URL; rp_preserveHost : bool }.

Record Backend := mkBackend {
  b_URL : URL;
  b_Alive : bool;
  b_Connections : Z;
  b_Weight : Z;
  b_ReverseProxy : ReverseProxy;
  b_FailCount : Z;
  b_LastFail : Z;
  b_HealthPath : string
}.

Abbreviation ptr := nat.
Abbreviation heap := (list Backend).

Record ServicePool := mkPool {
  sp_backends : list ptr;
  sp_current : Z;
  sp_algo : string
}.

(** ** Methods of a backend *)

Definition SetAlive (alive : bool) (b : Backend) : Backend :=
  mkBackend (b_URL b) alive (b_Connections b) (b_Weight b) (b_ReverseProxy b)
    (b_FailCount b) (b_LastFail b) (b_HealthPath b).

Definition IsAlive (b : Backend) : bool := b_Alive b.

Definition GetConnections (b : Backend) : Z := b_Connections b.

Definition add_connections (d : Z) (b : Backend) : Backend :=
  mkBackend (b_URL b) (b_Alive b) (wrap64 (b_Connections b + d)) (b_Weight b)
    (b_ReverseProxy b) (b_FailCount b) (b_LastFail b) (b_HealthPath b).

Definition IncConnections (b : Backend) : Backend := add_connections 1 b.
Definition DecConnections (b : Backend) : Backend := add_connections (-1) b.

Definition RecordFailure (now : Z) (b : Backend) : Backend :=
  mkBackend (b_URL b) (b_Alive b) (b_Connections b) (b_Weight b) (b_ReverseProxy b)
    (wrap64 (b_FailCount b + 1)) now (b_HealthPath b).

Definition ResetFailures (b : Backend) : Backend :=
  mkBackend (b_URL b) (b_Alive b) (b_Connections b) (b_Weight b) (b_ReverseProxy b)
    0 (b_LastFail b) (b_HealthPath b).

(** A method call through a pointer. *)
Definition deref (h : heap) (p : ptr) : outcome Backend :=
  match h !! p with
  | Some b => Ret b
  | None => Panic "nil pointer dereference"
  end.

Definition on_backend (f : Backend -> Backend) (p : ptr) (h : heap) : heap := alter f p h.

(** ** The pool *)

Definition NewServicePool (algo : string) : ServicePool := mkPool [] 0 algo.

Definition AddBackend (p : ptr) (s : ServicePool) : ServicePool :=
  mkPool (sp_backends s ++ [p]) (sp_current s) (sp_algo s).

(** A copy of the slice: later appends do not show in it. *)
Definition Backends (s : ServicePool) : list ptr := sp_backends s.

(** [atomic.AddUint64(&s.current, 1)] returns the new value. *)
Definition advance (s : ServicePool) : ServicePool :=
  mkPool (sp_backends s) (wrapu64 (sp_current s + 1)) (sp_algo s).

(** [s.backends[idx]] with a Go [int] index. *)
Definition index (l : list ptr) (idx : Z) : outcome ptr :=
  if idx <? 0 then Panic "index out of range"
  else match l !! Z.to_nat idx with
       | Some p => Ret p
       | None => Panic "index out of range"
       end.

(** The common loop of [roundRobin] and [ipHash]: positions
    [at_ i, at_ (i+1), ...], [left] of them; the first living backend. *)
Fixpoint scan (h : heap) (l : list ptr) (at_ : nat -> Z) (i left : nat) : outcome (option ptr) :=
  match left with
  | O => Ret None
  | S left' =>
      match index l (at_ i) with
      | Panic w => Panic w
      | Ret p =>
          match deref h p with
          | Panic w => Panic w
          | Ret b => if IsAlive b then Ret (Some p) else scan h l at_ (S i) left'
          end
      end
  end.

(** [int(next+uint64(i)) % len(s.backends)]. *)
Definition rr_index (next : Z) (n : nat) (i : nat) : Z :=
  go_rem (wrap64 (wrapu64 (next + Z.of_nat i))) (Z.of_nat n).

Definition roundRobin (h : heap) (s : ServicePool) : outcome (option ptr) * ServicePool :=
  let s' := advance s in
  let n := length (sp_backends s) in
  (scan h (sp_backends s) (rr_index (sp_current s') n) O n, s').

Fixpoint least_loop (h : heap) (l : list ptr) (selected : option ptr) (minConn : Z)
    : outcome (option ptr) :=
  match l with
  | [] => Ret selected
  | p :: rest =>
      match deref h p with
      | Panic w => Panic w
      | Ret b =>
          if IsAlive b then
            let conn := GetConnections b in
            if conn <? minConn then least_loop h rest (Some p) conn
            else least_loop h rest selected minConn
          else least_loop h rest selected minConn
      end
  end.

Definition leastConnections (h : heap) (s : ServicePool) : outcome (option ptr) :=
  least_loop h (sp_backends s) None int64_max.

(** [(idx + i) % len(s.backends)]. *)
Definition iphash_index (idx : Z) (n : nat) (i : nat) : Z :=
  go_rem (wrap64 (idx + Z.of_nat i)) (Z.of_nat n).

Definition ipHash (h : heap) (s : ServicePool) (clientIP : string) : outcome (option ptr) :=
  let hash := Sum256 clientIP in
  let n := length (sp_backends s) in
  let idx := go_rem (nth 0 hash 0) (Z.of_nat n) in
  scan h (sp_backends s) (iphash_index idx n) O n.

Fixpoint total_weight (h : heap) (l : list ptr) (totalWeight : Z) : outcome Z :=
  match l with
  | [] => Ret totalWeight
  | p :: rest =>
      match deref h p with
      | Panic w => Panic w
      | Ret b => total_weight h rest
                   (if IsAlive b then wrap64 (totalWeight + b_Weight b) else totalWeight)
      end
  end.

Fixpoint weight_loop (h : heap) (l : list ptr) (target cumWeight : Z) : outcome (option ptr) :=
  match l with
  | [] => Ret None
  | p :: rest =>
      match deref h p with
      | Panic w => Panic w
      | Ret b =>
          if IsAlive b then
            let cumWeight := wrap64 (cumWeight + b_Weight b) in
            if target <? cumWeight then Ret (Some p)
            else weight_loop h rest target cumWeight
          else weight_loop h rest target cumWeight
      end
  end.

Definition weighted (h : heap) (s : ServicePool) : outcome (option ptr) * ServicePool :=
  match total_weight h (sp_backends s) 0 with
  | Panic w => (Panic w, s)
  | Ret totalWeight =>
      if totalWeight =? 0 then (Ret None, s)
      else
        let s' := advance s in
        let next := wrap64 (sp_current s') in
        let target := go_rem next totalWeight in
        (weight_loop h (sp_backends s) target 0, s')
  end.

Definition NextPeer (h : heap) (s : ServicePool) (clientIP : string)
    : outcome (option ptr) * ServicePool :=
  if (length (sp_backends s) =? 0)%nat then (Ret None, s)
  else if String.eqb (sp_algo s) "round-robin" then roundRobin h s
  else if String.eqb (sp_algo s) "least-conn" then (leastConnections h s, s)
  else if String.eqb (sp_algo s) "ip-hash" then (ipHash h s clientIP, s)
  else if String.eqb (sp_algo s) "weighted" then weighted h s
  else (leastConnections h s, s).

(** ** Health checks

    The network's answers during one round of probes: whether a TCP connect to
    an address succeeds, and the status code of a GET, [None] for an error. *)
Record network := mkNetwork {
  net_dial : string -> bool;
  net_get : URL -> option Z
}.

Definition dialable (net : network) (u : URL) : bool := net_dial net (dial_address u).

(** [http.NewRequest] parses the printed URL again; its error counts as down. *)
Definition probe (net : network) (b : Backend) : bool :=
  if String.eqb (b_HealthPath b) "" then dialable net (b_URL b)
  else
    let u := b_URL b in
    let target := MkURL (u_Scheme u) (u_Opaque u) (u_User u) (u_Host u)
                    (singleJoiningSlash (u_Path u) (b_HealthPath b)) (u_RawPath u)
                    (u_OmitHost u) (u_ForceQuery u) "" (u_Fragment u) (u_RawFragment u) in
    match url_Parse (url_String target) with
    | None => false
    | Some req =>
        match net_get net req with
        | None => false
        | Some code => code <? 500
        end
    end.

Definition check_backend (net : network) (b : Backend) : Backend :=
  let alive := probe net b in
  let b := SetAlive alive b in
  if alive then ResetFailures b else b.

Definition HealthCheck (net : network) (s : ServicePool) (h : heap) : heap :=
  fold_left (fun h p => on_backend (check_backend net) p h) (Backends s) h.

(** ** Well-formed pools *)

Definition alive_at (h : heap) (p : ptr) : bool :=
  match h !! p with Some b => IsAlive b | None => false end.

Definition conns_at (h : heap) (p : ptr) : Z :=
  match h !! p with Some b => GetConnections b | None => 0 end.

Definition weight_at (h : heap) (p : ptr) : Z :=
  match h !! p with Some b => b_Weight b | None => 0 end.

Definition valid_ptrs (h : heap) (l : list ptr) : Prop := List.Forall (fun p => is_Some (h !! p)) l.

(** The living backends with their weights, in pool order. *)
Fixpoint live_weights (h : heap) (l : list ptr) : list (ptr * Z) :=
  match l with
  | [] => []
  | p :: r => if alive_at h p then (p, weight_at h p) :: live_weights h r
              else live_weights h r
  end.

Definition sum_weights (ws : list (ptr * Z)) : Z := fold_right (fun w acc => w.2 + acc) 0 ws.

(** What the balancers rely on: live pointers, a counter that has not reached
    the sign bit, connection counts below the sentinel of [leastConnections],
    and positive weights whose sum is an [int]. *)
Record pool_ok (h : heap) (s : ServicePool) : Prop := {
  ok_ptrs : valid_ptrs h (sp_backends s);
  ok_current : 0 <= sp_current s /\
               sp_current s + Z.of_nat (length (sp_backends s)) + 256 <= int64_max;
  ok_conns : forall p, In p (sp_backends s) -> conns_at h p < int64_max;
  ok_weights : forall p, In p (sp_backends s) -> 1 <= weight_at h p;
  ok_total : sum_weights (live_weights h (sp_backends s)) <= int64_max
}.

(** A correct choice among the backends [l]: a living member, and none only
    when no member lives. *)
Definition good_pick (h : heap) (l : list ptr) (o : outcome (option ptr)) : Prop :=
  match o with
  | Ret (Some p) => In p l /\ alive_at h p = true
  | Ret None => forall p, In p l -> alive_at h p = false
  | Panic _ => False
  end.

Lemma valid_cons h p l : valid_ptrs h (p :: l) ->
  exists b, h !! p = Some b /\ valid_ptrs h l.
Proof. intros Hv. inversion Hv as [|? ? [b Hb] Hl]; subst. eauto. Qed.

Lemma valid_In h l p : valid_ptrs h l -> In p l -> exists b, h !! p = Some b.
Proof. unfold valid_ptrs. rewrite List.Forall_forall. intros H Hp. by destruct (H p Hp); eauto. Qed.

(** ** The circular scan *)

Lemma index_in_range (l : list ptr) (z : Z) :
  0 <= z < Z.of_nat (length l) -> exists p, index l z = Ret p /\ l !! Z.to_nat z = Some p.
Proof.
  intros Hz. unfold index. replace (z <? 0) with false by lia.
  destruct (lookup_lt_is_Some_2 l (Z.to_nat z)) as [p Hp]; [lia|]. rewrite Hp. eauto.
Qed.

(** The scan stops at the first position that holds a living backend. *)
Lemma scan_spec h l at_ i left :
  valid_ptrs h l ->
  (forall k, (i <= k < i + left)%nat -> 0 <= at_ k < Z.of_nat (length l)) ->
  (exists k p, (i <= k < i + left)%nat /\ l !! Z.to_nat (at_ k) = Some p /\
     alive_at h p = true /\ scan h l at_ i left = Ret (Some p) /\
     forall k' q, (i <= k' < k)%nat -> l !! Z.to_nat (at_ k') = Some q -> alive_at h q = false)
  \/ (scan h l at_ i left = Ret None /\
      forall k q, (i <= k < i + left)%nat -> l !! Z.to_nat (at_ k) = Some q ->
                  alive_at h q = false).
Proof.
  intros Hv. revert i. induction left as [|left IH]; intros i Hr; simpl.
  { right. split; [done|]. intros; lia. }
  destruct (index_in_range l (at_ i)) as (p & -> & Hp); [apply Hr; lia|].
  destruct (valid_In h l p Hv) as [b Hb].
  { apply list_elem_of_In, list_elem_of_lookup. eauto. }
  unfold deref. rewrite Hb. destruct (IsAlive b) eqn:Ea.
  - left. exists i, p. split_and!; try done; try lia. unfold alive_at. by rewrite Hb.
  - assert (alive_at h p = false) as Hd by (unfold alive_at; by rewrite Hb).
    destruct (IH (S i)) as [(k & q & Hk & Hq & Ha & Hs & Hf)|[Hs Hf]]; [intros; apply Hr; lia| |].
    + left. exists k, q. split_and!; try done; try lia. intros k' q' Hk' Hq'.
      destruct (Nat.eq_dec k' i) as [->|]; [congruence|]. eapply Hf; [|done]. lia.
    + right. split; [done|]. intros k q Hk Hq.
      destruct (Nat.eq_dec k i) as [->|]; [congruence|]. eapply Hf; [|done]. lia.
Qed.

(** A scan that starts anywhere and goes once round the pool is a correct
    choice. *)
Lemma scan_good h l (start : Z) (at_ : nat -> Z) :
  valid_ptrs h l -> 0 <= start ->
  (forall i, (i < length l)%nat -> at_ i = (start + Z.of_nat i) mod Z.of_nat (length l)) ->
  good_pick h l (scan h l at_ 0 (length l)).
Proof.
  intros Hv Hs Hat. set (n := Z.of_nat (length l)) in *.
  destruct (scan_spec h l at_ 0 (length l) Hv) as [(k & p & Hk & Hp & Ha & -> & _)|[-> Hf]].
  - intros k Hk. rewrite Hat by lia. apply Z.mod_pos_bound. lia.
  - simpl. split; [|done]. apply list_elem_of_In, list_elem_of_lookup. eauto.
  - simpl. intros p Hp. apply list_elem_of_In, list_elem_of_lookup in Hp as [j Hj].
    pose proof (lookup_lt_Some _ _ _ Hj) as Hlt.
    set (k := Z.to_nat ((Z.of_nat j - start) mod n)).
    assert (0 <= (Z.of_nat j - start) mod n < n) as Hm by (apply Z.mod_pos_bound; lia).
    apply (Hf k p); [lia|]. rewrite Hat by lia. unfold k. rewrite Z2Nat.id by lia.
    rewrite Zplus_mod_idemp_r. replace (start + (Z.of_nat j - start)) with (Z.of_nat j) by lia.
    rewrite Z.mod_small by lia. by rewrite Nat2Z.id.
Qed.

(** Below the sign bit the index is the mathematical remainder. *)
Lemma rr_index_mod next n i :
  0 <= next -> next + Z.of_nat i <= int64_max -> (0 < n)%nat ->
  rr_index next n i = (next + Z.of_nat i) mod Z.of_nat n.
Proof.
  intros H1 H2 Hn. unfold rr_index, go_rem.
  rewrite wrapu64_id by (unfold int64_max, uint64_size in *; lia).
  rewrite wrap64_id by (unfold is_int64, int64_min; lia).
  by rewrite Z.rem_mod_nonneg by lia.
Qed.

Lemma iphash_index_mod idx n i :
  0 <= idx -> idx + Z.of_nat i <= int64_max -> (0 < n)%nat ->
  iphash_index idx n i = (idx + Z.of_nat i) mod Z.of_nat n.
Proof.
  intros H1 H2 Hn. unfold iphash_index, go_rem.
  rewrite wrap64_id by (unfold is_int64, int64_min; lia).
  by rewrite Z.rem_mod_nonneg by lia.
Qed.

Lemma advance_current s :
  0 <= sp_current s -> sp_current s + 1 <= int64_max ->
  sp_current (advance s) = sp_current s + 1.
Proof. intros. simpl. apply wrapu64_id. unfold int64_max, uint64_size in *. lia. Qed.

Lemma roundRobin_good h s :
  pool_ok h s -> sp_backends s <> [] -> good_pick h (sp_backends s) (roundRobin h s).1.
Proof.
  intros [Hv [Hc Hm] _ _ _] Hne. unfold roundRobin. cbn [fst].
  assert (0 < length (sp_backends s))%nat by (destruct (sp_backends s); simpl; [done|lia]).
  apply (scan_good _ _ (sp_current s + 1)); [done|lia|]. intros i Hi.
  rewrite advance_current by lia. apply rr_index_mod; lia.
Qed.

Lemma ipHash_good h s ip :
  pool_ok h s -> sp_backends s <> [] -> good_pick h (sp_backends s) (ipHash h s ip).
Proof.
  intros [Hv [Hc Hm] _ _ _] Hne. unfold ipHash.
  destruct (Sum256_first ip) as (b & r & -> & Hb). cbn [nth].
  assert (0 < length (sp_backends s))%nat as Hn by (destruct (sp_backends s); simpl; [done|lia]).
  unfold go_rem. rewrite Z.rem_mod_nonneg by lia.
  pose proof (Z.mod_pos_bound b (Z.of_nat (length (sp_backends s))) ltac:(lia)).
  pose proof (Z.mod_le b (Z.of_nat (length (sp_backends s))) ltac:(lia) ltac:(lia)).
  apply (scan_good _ _ (b mod Z.of_nat (length (sp_backends s)))); [done|lia|]. intros i Hi.
  apply iphash_index_mod; lia.
Qed.

(** ** Least connections *)

(** [p] is the first of the least loaded living members of [l]. *)
Definition first_least (h : heap) (l : list ptr) (p : ptr) : Prop :=
  exists l1 l2, l = l1 ++ p :: l2 /\ alive_at h p = true /\
    (forall q, In q l1 -> alive_at h q = true -> conns_at h p < conns_at h q) /\
    (forall q, In q l2 -> alive_at h q = true -> conns_at h p <= conns_at h q).

Lemma least_loop_spec h l sel m :
  valid_ptrs h l ->
  (least_loop h l sel m = Ret sel /\
     forall q, In q l -> alive_at h q = true -> m <= conns_at h q) \/
  (exists p, least_loop h l sel m = Ret (Some p) /\ conns_at h p < m /\ first_least h l p).
Proof.
  revert sel m. induction l as [|p l IH]; intros sel m Hv; simpl; [by left|].
  apply valid_cons in Hv as (b & Hb & Hv). unfold deref. rewrite Hb.
  assert (alive_at h p = IsAlive b) as Ha by (unfold alive_at; by rewrite Hb).
  assert (conns_at h p = GetConnections b) as Hc by (unfold conns_at; by rewrite Hb).
  destruct (IsAlive b) eqn:Eb; [destruct (GetConnections b <? m) eqn:El|].
  - right. destruct (IH (Some p) (GetConnections b) Hv) as [[E Hl]|(q & E & Hq & Hf)].
    + exists p. split_and!; [done|lia|]. exists [], l. split_and!; try done.
      intros q Hq Haq. rewrite Hc. auto.
    + exists q. split_and!; [done|lia|]. destruct Hf as (l1 & l2 & -> & Hqa & H1 & H2).
      exists (p :: l1), l2. split_and!; try done. intros r [<-|Hr] Hra; [lia|auto].
  - destruct (IH sel m Hv) as [[E Hl]|(q & E & Hq & Hf)].
    + left. split; [done|]. intros q [<-|Hq] Hqa; [lia|auto].
    + right. exists q. split_and!; [done|done|]. destruct Hf as (l1 & l2 & -> & Hqa & H1 & H2).
      exists (p :: l1), l2. split_and!; try done. intros r [<-|Hr] Hra; [lia|auto].
  - destruct (IH sel m Hv) as [[E Hl]|(q & E & Hq & Hf)].
    + left. split; [done|]. intros q [<-|Hq] Hqa; [congruence|auto].
    + right. exists q. split_and!; [done|done|]. destruct Hf as (l1 & l2 & -> & Hqa & H1 & H2).
      exists (p :: l1), l2. split_and!; try done. intros r [<-|Hr] Hra; [congruence|auto].
Qed.

Lemma leastConnections_spec h s :
  pool_ok h s ->
  (leastConnections h s = Ret None /\ forall p, In p (sp_backends s) -> alive_at h p = false) \/
  (exists p, leastConnections h s = Ret (Some p) /\ first_least h (sp_backends s) p).
Proof.
  intros [Hv _ Hc _ _]. unfold leastConnections.
  destruct (least_loop_spec h (sp_backends s) None int64_max Hv) as [[E Hl]|(p & E & _ & Hf)].
  - left. split; [done|]. intros p Hp. apply not_true_iff_false. intros Ha.
    specialize (Hl p Hp Ha). specialize (Hc p Hp). lia.
  - right. eauto.
Qed.

Lemma first_least_good h l p : first_least h l p -> good_pick h l (Ret (Some p)).
Proof. intros (l1 & l2 & -> & Ha & _). split; [|done]. apply in_app_iff. right. by left. Qed.

Lemma leastConnections_good h s :
  pool_ok h s -> good_pick h (sp_backends s) (leastConnections h s).
Proof.
  intros Hok. destruct (leastConnections_spec h s Hok) as [[-> Hn]|(p & -> & Hf)]; [done|].
  by apply first_least_good.
Qed.

(** ** Weighted choice *)

(** The reference: the backend whose weight interval holds the target. *)
Fixpoint weight_pick (ws : list (ptr * Z)) (target : Z) : option ptr :=
  match ws with
  | [] => None
  | (p, w) :: r => if target <? w then Some p else weight_pick r (target - w)
  end.

Lemma live_weights_cons h p l b :
  h !! p = Some b ->
  live_weights h (p :: l) =
  if IsAlive b then (p, b_Weight b) :: live_weights h l else live_weights h l.
Proof. intros Hb. simpl. unfold alive_at, weight_at. by rewrite Hb. Qed.

Lemma sum_weights_nonneg ws : List.Forall (fun w => 1 <= w.2) ws -> 0 <= sum_weights ws.
Proof. induction 1; simpl; lia. Qed.

Lemma live_weights_pos h l :
  (forall p, In p l -> 1 <= weight_at h p) -> List.Forall (fun w => 1 <= w.2) (live_weights h l).
Proof.
  induction l as [|p l IH]; simpl; intros Hw; [done|].
  destruct (alive_at h p); [constructor; simpl|]; auto.
Qed.

Lemma live_weights_In h l p w :
  In (p, w) (live_weights h l) -> In p l /\ alive_at h p = true /\ w = weight_at h p.
Proof.
  induction l as [|q l IH]; simpl; [done|]. destruct (alive_at h q) eqn:E.
  - intros [[= -> <-]|Hin]; [by auto|]. destruct (IH Hin) as (? & ? & ?). by auto.
  - intros Hin. destruct (IH Hin) as (? & ? & ?). by auto.
Qed.

Lemma live_weights_nil h l :
  live_weights h l = [] -> forall p, In p l -> alive_at h p = false.
Proof.
  induction l as [|q l IH]; simpl; [done|]. destruct (alive_at h q) eqn:E; [done|].
  intros Hn p [<-|Hp]; auto.
Qed.

Lemma total_weight_spec h l acc :
  valid_ptrs h l -> List.Forall (fun w => 1 <= w.2) (live_weights h l) -> 0 <= acc ->
  acc + sum_weights (live_weights h l) <= int64_max ->
  total_weight h l acc = Ret (acc + sum_weights (live_weights h l)).
Proof.
  revert acc. induction l as [|p l IH]; intros acc Hv Hp Ha Hs.
  { simpl. f_equal. lia. }
  apply valid_cons in Hv as (b & Hb & Hv). rewrite (live_weights_cons _ _ _ _ Hb) in *.
  simpl. unfold deref. rewrite Hb. destruct (IsAlive b); [|by apply IH].
  inversion Hp as [|? ? Hw Hp']; subst. simpl in Hs, Hw.
  pose proof (sum_weights_nonneg _ Hp').
  rewrite wrap64_id by (unfold is_int64, int64_min; lia).
  rewrite IH; [f_equal; simpl; lia|done|done|lia|lia].
Qed.

Lemma weight_loop_spec h l target cum :
  valid_ptrs h l -> List.Forall (fun w => 1 <= w.2) (live_weights h l) -> 0 <= cum ->
  cum + sum_weights (live_weights h l) <= int64_max ->
  weight_loop h l target cum = Ret (weight_pick (live_weights h l) (target - cum)).
Proof.
  revert cum. induction l as [|p l IH]; intros cum Hv Hp Ha Hs; [done|].
  apply valid_cons in Hv as (b & Hb & Hv). rewrite (live_weights_cons _ _ _ _ Hb) in *.
  simpl. unfold deref. rewrite Hb. destruct (IsAlive b); [|by apply IH].
  inversion Hp as [|? ? Hw Hp']; subst. simpl in Hs, Hw.
  pose proof (sum_weights_nonneg _ Hp').
  rewrite wrap64_id by (unfold is_int64, int64_min; lia). simpl.
  replace (target - cum <? b_Weight b) with (target <? cum + b_Weight b) by lia.
  destruct (target <? cum + b_Weight b); [done|].
  rewrite IH; [|done..|lia|lia]. do 2 f_equal. lia.
Qed.

(** The weighted balancer, below the overflow bounds, is the reference choice
    at the successor of the counter modulo the total weight. *)
Lemma weighted_spec h s :
  pool_ok h s ->
  let ws := live_weights h (sp_backends s) in
  weighted h s =
  if sum_weights ws =? 0 then (Ret None, s)
  else (Ret (weight_pick ws ((sp_current s + 1) mod sum_weights ws)), advance s).
Proof.
  intros [Hv [Hc Hm] _ Hw Ht] ws. unfold weighted.
  assert (List.Forall (fun w => 1 <= w.2) ws) as Hp by (by apply live_weights_pos).
  pose proof (sum_weights_nonneg ws Hp).
  rewrite total_weight_spec by (done || lia). rewrite Z.add_0_l. fold ws.
  destruct (sum_weights ws =? 0) eqn:E; [done|].
  rewrite weight_loop_spec by (done || lia). fold ws.
  rewrite advance_current by lia. rewrite wrap64_id by (unfold is_int64, int64_min; lia).
  unfold go_rem. rewrite Z.rem_mod_nonneg by lia. by rewrite Z.sub_0_r.
Qed.

Lemma weight_pick_In ws t :
  0 <= t < sum_weights ws -> exists p w, weight_pick ws t = Some p /\ In (p, w) ws.
Proof.
  revert t. induction ws as [|[p w] ws IH]; intros t Ht; simpl in *; [lia|].
  destruct (t <? w) eqn:E; [by eauto|].
  destruct (IH (t - w)) as (q & v & -> & Hq); [lia|]. eauto.
Qed.

Lemma weighted_good h s :
  pool_ok h s -> good_pick h (sp_backends s) (weighted h s).1.
Proof.
  intros Hok. rewrite weighted_spec by done. pose proof (ok_weights _ _ Hok) as Hw.
  set (ws := live_weights h (sp_backends s)).
  pose proof (live_weights_pos h (sp_backends s) Hw) as Hp. fold ws in Hp.
  pose proof (sum_weights_nonneg _ Hp) as Hn.
  destruct (sum_weights ws =? 0) eqn:E.
  - simpl. apply live_weights_nil. fold ws. destruct ws as [|w ws']; [done|].
    inversion Hp as [|? ? H1 H2]; subst. pose proof (sum_weights_nonneg _ H2).
    simpl in E. lia.
  - destruct (weight_pick_In ws ((sp_current s + 1) mod sum_weights ws)) as (p & w & Ep & Hin).
    { apply Z.mod_pos_bound. lia. }
    cbn [fst]. rewrite Ep. by apply live_weights_In in Hin as (? & ? & _).
Qed.

(** ** Sequences of choices *)

(** Whatever the heap, a pick is one of the pool's pointers, and the pool keeps
    its backends. *)
Lemma index_In l z p : index l z = Ret p -> In p l.
Proof.
  unfold index. destruct (z <? 0); [done|]. destruct (l !! Z.to_nat z) eqn:E; [|done].
  intros [= ->]. by eapply list_elem_of_In, list_elem_of_lookup_2.
Qed.

Lemma scan_In h l at_ i left p : scan h l at_ i left = Ret (Some p) -> In p l.
Proof.
  revert i. induction left as [|left IH]; intros i; simpl; [done|].
  destruct (index l (at_ i)) as [q|] eqn:E; [|done]. destruct (deref h q) as [b|]; [|done].
  destruct (IsAlive b); [|apply IH]. intros [= ->]. by apply index_In in E.
Qed.

Lemma least_loop_In h l sel m p : least_loop h l sel m = Ret (Some p) -> In p l \/ sel = Some p.
Proof.
  revert sel m. induction l as [|q l IH]; intros sel m; simpl; [intros [= ->]; auto|].
  destruct (deref h q) as [b|]; [|done]. destruct (IsAlive b); [case_if|];
    intros [?|[= ->]]%IH; auto.
Qed.

Lemma weight_loop_In h l t cum p : weight_loop h l t cum = Ret (Some p) -> In p l.
Proof.
  revert cum. induction l as [|q l IH]; intros cum; simpl; [done|].
  destruct (deref h q) as [b|]; [|done]. destruct (IsAlive b); [case_if|].
  - intros [= ->]. auto.
  - intros ?%IH. auto.
  - intros ?%IH. auto.
Qed.

(** A choice advances the counter by at most one. *)
Lemma NextPeer_counter h s ip :
  sp_current (NextPeer h s ip).2 = sp_current s \/ sp_current (NextPeer h s ip).2 = wrapu64 (sp_current s + 1).
Proof.
  unfold NextPeer, roundRobin, weighted. repeat case_if; simpl; auto.
  destruct (total_weight _ _ _); [case_if|]; simpl; auto.
Qed.

Lemma NextPeer_pick h s ip o s' :
  NextPeer h s ip = (o, s') ->
  sp_backends s' = sp_backends s /\ (forall p, o = Ret (Some p) -> In p (sp_backends s)).
Proof.
  assert (forall p, leastConnections h s = Ret (Some p) -> In p (sp_backends s)) as Hleast.
  { unfold leastConnections. by intros p [?|?]%least_loop_In. }
  unfold NextPeer, roundRobin, weighted, ipHash.
  repeat case_if; try (intros [= <- <-]; split; [done|eauto using scan_In]; done).
  destruct (total_weight h (sp_backends s) 0) as [tw|]; [|by intros [= <- <-]].
  destruct (tw =? 0); intros [= <- <-]; split; try done. eauto using weight_loop_In.
Qed.

(** The outcomes of [k] successive calls of [NextPeer] on one pool. *)
Fixpoint pick_sequence (h : heap) (s : ServicePool) (ip : string) (k : nat)
    : list (outcome (option ptr)) :=
  match k with
  | O => []
  | S k' => let '(o, s') := NextPeer h s ip in o :: pick_sequence h s' ip k'
  end.

(** A counter-driven balancer: when every call takes the choice [f] of the
    counter's successor and advances the pool, the sequence is [f] along
    consecutive counters. *)
Lemma pick_sequence_counter h s ip (f : Z -> option ptr) k :
  0 <= sp_current s -> sp_current s + Z.of_nat k <= int64_max ->
  (forall c, sp_current s <= c < sp_current s + Z.of_nat k ->
     NextPeer h (mkPool (sp_backends s) c (sp_algo s)) ip =
     (Ret (f (c + 1)), mkPool (sp_backends s) (c + 1) (sp_algo s))) ->
  pick_sequence h s ip k =
  map (fun i => Ret (f (sp_current s + 1 + Z.of_nat i))) (seq 0 k).
Proof.
  destruct s as [l c a]. simpl. revert c. induction k as [|k IH]; intros c Hc Hm Hf; [done|].
  simpl. rewrite Hf by lia. rewrite Z.add_0_r. f_equal.
  rewrite IH by (lia || (intros; apply Hf; lia)).
  rewrite <- seq_shift, map_map. apply map_ext. intros i. do 2 f_equal. lia.
Qed.

(** [n] calls along consecutive counters see every residue once. *)
Lemma counter_residues (g : Z -> option ptr) (c : Z) (n : nat) :
  0 <= c ->
  Permutation (map (fun i => @Ret (option ptr) (g ((c + Z.of_nat i) mod Z.of_nat n))) (seq 0 n))
              (map (fun j => Ret (g (Z.of_nat j))) (seq 0 n)).
Proof.
  intros Hc. rewrite <- (rotation_perm (Z.to_nat c) n) at 2. rewrite map_map.
  apply Permutation_refl', map_ext. intros i. do 2 f_equal.
  by rewrite Nat2Z.inj_mod, Nat2Z.inj_add, Z2Nat.id.
Qed.

Lemma map_lookup_seq (l : list ptr) : map (fun j => l !! j) (seq 0 (length l)) = map Some l.
Proof.
  induction l as [|p l IH]; simpl; [done|]. f_equal. rewrite <- seq_shift, map_map. apply IH.
Qed.

Lemma roundRobin_all_alive h l c a ip :
  valid_ptrs h l -> l <> [] -> (forall p, In p l -> alive_at h p = true) ->
  0 <= c -> c + 1 <= int64_max -> a = "round-robin" ->
  NextPeer h (mkPool l c a) ip =
  (Ret (l !! Z.to_nat ((c + 1) mod Z.of_nat (length l))), mkPool l (c + 1) a).
Proof.
  intros Hv Hne Hal H0 Hc ->. unfold NextPeer, roundRobin, advance. cbn [sp_backends sp_current sp_algo].
  rewrite wrapu64_id by (unfold int64_max, uint64_size in *; lia).
  destruct l as [|p0 l0]; [done|]. set (l := p0 :: l0) in *.
  replace (length l =? 0)%nat with false by done. f_equal.
  change (length l) with (S (length l0)) at 2. cbn [scan].
  rewrite rr_index_mod by (unfold l; simpl; lia). rewrite Z.add_0_r.
  pose proof (Z.mod_pos_bound (c + 1) (Z.of_nat (length l)) ltac:(unfold l; simpl; lia)) as Hm.
  destruct (index_in_range l _ Hm) as (p & -> & Hp).
  assert (In p l) as Hin by (apply list_elem_of_In, list_elem_of_lookup; eauto).
  destruct (valid_In h l p Hv Hin) as [b Hb]. unfold deref. rewrite Hb.
  specialize (Hal p Hin). unfold alive_at in Hal. rewrite Hb in Hal. by rewrite Hal, Hp.
Qed.

Lemma weight_pick_shift p w r j :
  1 <= w -> w <= j -> weight_pick ((p, w) :: r) j = weight_pick r (j - w).
Proof. intros. simpl. by replace (j <? w) with false by lia. Qed.

(** The reference choice along [0 .. total-1] takes each backend exactly its
    weight. *)
Lemma weight_pick_enumerate ws :
  List.Forall (fun w => 1 <= w.2) ws ->
  map (fun j => weight_pick ws (Z.of_nat j)) (seq 0 (Z.to_nat (sum_weights ws))) =
  map Some (concat (map (fun w => List.repeat w.1 (Z.to_nat w.2)) ws)).
Proof.
  induction 1 as [|[p w] r Hw Hr IH]; [done|]. simpl sum_weights. simpl in Hw.
  pose proof (sum_weights_nonneg r Hr).
  rewrite Z2Nat.inj_add, seq_app, map_app by lia. cbn [map concat]. rewrite map_app. f_equal.
  - rewrite map_repeat. simpl. rewrite <- (length_seq (Z.to_nat w) 0) at 2.
    rewrite <- map_const. apply map_ext_in. intros j Hj%in_seq.
    by replace (Z.of_nat j <? w) with true by lia.
  - rewrite <- IH. simpl Nat.add.
    pose proof (fmap_add_seq (Z.to_nat w) 0 (Z.to_nat (sum_weights r))) as E.
    rewrite Nat.add_0_r in E. rewrite <- E.
    change (Nat.add (Z.to_nat w) <$> ?l) with (map (Nat.add (Z.to_nat w)) l).
    rewrite map_map. apply map_ext. intros j. rewrite weight_pick_shift by lia. f_equal. lia.
Qed.

(** ** The balancers' guarantees *)

Lemma NextPeer_good (h : heap) (s : ServicePool) (ip : string) :
  pool_ok h s -> good_pick h (sp_backends s) (NextPeer h s ip).1.
Proof.
  intros Hok. unfold NextPeer.
  destruct (length (sp_backends s) =? 0)%nat eqn:El.
  { apply Nat.eqb_eq, length_zero_iff_nil in El. simpl. rewrite El. by intros p []. }
  assert (sp_backends s <> []) as Hne by (intros E; by rewrite E in El).
  repeat case_if; eauto using roundRobin_good, ipHash_good, weighted_good, leastConnections_good.
Qed.

(** C7: On a pool in good order, [NextPeer] is safe and live under every
    algorithm name, the unknown ones included: it does not panic, the backend it
    returns is a living member of the pool, and it returns none only when no
    member is alive. Good order ([pool_ok]) means that the members' pointers are
    live, the counter is at least the number of members and 256 below the sign
    bit, no connection count has reached the largest integer, and the weights
    are positive with a sum that fits an [int]. *)
Theorem NextPeer_correct (h : heap) (s : ServicePool) (ip : string) :
  pool_ok h s -> good_pick h (sp_backends s) (NextPeer h s ip).1.
Proof. apply NextPeer_good. Qed.

(** A three-backend pool, its second backend down, to run the balancers on. *)
Definition demo_backend (alive : bool) (conns weight : Z) : Backend :=
  let u := mkURL "http" "10.0.0.1:80" "" "" "" in
  mkBackend u alive conns weight (mkProxy u false) 0 time_zero "".
Definition demo_heap : heap := [demo_backend true 4 3; demo_backend false 0 1; demo_backend true 2 2].
Definition demo_pool (algo : string) : ServicePool := mkPool [0; 1; 2]%nat 7 algo.

Lemma demo_pool_ok (algo : string) : pool_ok demo_heap (demo_pool algo).
Proof.
  constructor; simpl.
  - repeat constructor; eauto.
  - unfold int64_max. lia.
  - intros p [<-|[<-|[<-|[]]]]; reflexivity.
  - intros p [<-|[<-|[<-|[]]]]; vm_compute; discriminate.
  - vm_compute. discriminate.
Qed.

Lemma NextPeer_correct_witness :
  good_pick demo_heap [0; 1; 2]%nat (NextPeer demo_heap (demo_pool "least-conn") "1.2.3.4").1 /\
  (NextPeer demo_heap (demo_pool "least-conn") "1.2.3.4").1 = Ret (Some 2%nat).
Proof.
  split; [|reflexivity].
  apply (NextPeer_correct demo_heap (demo_pool "least-conn") "1.2.3.4"), demo_pool_ok.
Defined.



(** C15: The weighted balancer is proportional, on a pool in good order
    ([pool_ok]) whose counter stays below the sign bit for the calls in
    question: [W] successive calls, where [W] is the total weight of the living
    backends, return each living backend exactly as many times as its weight,
    and no other. The bound is the counter plus [W], plus the number of members
    and 256, being at most the largest integer. *)
Theorem weighted_proportional (h : heap) (s : ServicePool) (ip : string) :
  pool_ok h s -> sp_algo s = "weighted" ->
  let ws := live_weights h (sp_backends s) in
  sp_current s + sum_weights ws + Z.of_nat (length (sp_backends s)) + 256 <= int64_max ->
  Permutation (pick_sequence h s ip (Z.to_nat (sum_weights ws)))
    (map (fun p => Ret (Some p)) (concat (map (fun w => List.repeat w.1 (Z.to_nat w.2)) ws))).
Proof.
  intros Hok Ha ws Hb. destruct Hok as [Hv [H0 Hm] Hc Hw Ht].
  pose proof (live_weights_pos h (sp_backends s) Hw) as Hp. fold ws in Hp.
  pose proof (sum_weights_nonneg ws Hp) as Hn.
  assert (Z.of_nat (Z.to_nat (sum_weights ws)) = sum_weights ws) as En by (apply Z2Nat.id; lia).
  rewrite (pick_sequence_counter h s ip (fun c => weight_pick ws (c mod sum_weights ws))).
  - rewrite <- (map_map Some Ret), <- weight_pick_enumerate, map_map by done.
    set (n := Z.to_nat (sum_weights ws)) in *. rewrite <- En.
    apply (counter_residues (weight_pick ws)). lia.
  - done.
  - lia.
  - intros c Hcc. rewrite En in Hcc. unfold NextPeer. cbn [sp_backends sp_algo].
    replace (length (sp_backends s) =? 0)%nat with false.
    2:{ symmetry. apply Nat.eqb_neq. intros E%length_zero_iff_nil.
        unfold ws in Hcc. rewrite E in Hcc. simpl in Hcc. lia. }
    rewrite Ha. cbn [String.eqb Ascii.eqb Bool.eqb].
    rewrite weighted_spec by (constructor; simpl; (done || lia)). cbn [sp_backends sp_current].
    fold ws. replace (sum_weights ws =? 0) with false by lia.
    unfold advance. cbn [sp_backends sp_current sp_algo].
    rewrite wrapu64_id by (unfold int64_max, uint64_size in *; lia). done.
Qed.

Lemma weighted_proportional_witness :
  Permutation (pick_sequence demo_heap (demo_pool "weighted") "ip" 5)
    (map (fun p => Ret (Some p)) [0; 0; 0; 2; 2]%nat).
Proof.
  apply (weighted_proportional demo_heap (demo_pool "weighted") "ip").
  - apply demo_pool_ok.
  - reflexivity.
  - vm_compute. discriminate.
Defined.

(** Least-connections returns the first of the least loaded living
    backends: every living backend listed before it has strictly more
    connections, every one after it at least as many. The same code serves an
    unknown algorithm name. *)
Theorem leastConnections_first_least (h : heap) (s : ServicePool) (ip : string) (p : ptr) :
  pool_ok h s -> sp_algo s <> "round-robin" -> sp_algo s <> "ip-hash" ->
  sp_algo s <> "weighted" ->
  (NextPeer h s ip).1 = Ret (Some p) -> first_least h (sp_backends s) p.
Proof.
  intros Hok H1 H2 H3. apply String.eqb_neq in H1, H2, H3. unfold NextPeer. rewrite H1, H2, H3.
  destruct (leastConnections_spec h s Hok) as [[E _]|(q & E & Hf)];
    repeat case_if; cbn [fst]; rewrite ?E; intros [=]; by subst.
Qed.

Lemma leastConnections_first_least_witness :
  first_least demo_heap [0; 1; 2]%nat 2%nat.
Proof.
  apply (leastConnections_first_least demo_heap (demo_pool "no-such-algo") "ip" 2%nat);
    [apply demo_pool_ok|discriminate..|reflexivity].
Defined.

(** ** What a choice depends on

    Two heaps with the same load look the same to every balancer: the same
    pointers are allocated, with the same liveness, connection count and weight.
    The failure statistics are not part of it. *)

Definition load (b : Backend) : bool * Z * Z := (IsAlive b, GetConnections b, b_Weight b).

Record same_load (h h' : heap) : Prop := {
  same_load_at : forall p : ptr, load <$> h !! p = load <$> h' !! p
}.

#[export] Instance same_load_equiv : Equivalence same_load.
Proof.
  split; [done|intros h h' [H]; by split|]. intros h1 h2 h3 [H12] [H23]. split. intros p.
  by rewrite H12.
Qed.

Lemma same_load_lookup h h' p :
  same_load h h' ->
  match h !! p, h' !! p with
  | Some b, Some b' => IsAlive b = IsAlive b' /\ GetConnections b = GetConnections b' /\
                       b_Weight b = b_Weight b'
  | None, None => True
  | _, _ => False
  end.
Proof.
  intros [Hs]. specialize (Hs p). destruct (h !! p), (h' !! p); simpl in *; try done.
  unfold load in Hs. by simplify_eq.
Qed.

(** Split on what two same-load heaps hold at a pointer. *)
Ltac same_at Hs p :=
  pose proof (same_load_lookup _ _ p Hs); unfold deref;
  repeat match goal with |- context [?h !! p] => destruct (h !! p) end;
  try done; destruct_and?;
  repeat match goal with E : _ = _ |- _ => rewrite E; clear E end.

Lemma scan_same h h' l at_ i left :
  same_load h h' -> scan h l at_ i left = scan h' l at_ i left.
Proof.
  intros Hs. revert i. induction left as [|left IH]; intros i; simpl; [done|].
  destruct (index l (at_ i)) as [p|]; [|done]. same_at Hs p. by rewrite IH.
Qed.

Lemma least_loop_same h h' l sel m :
  same_load h h' -> least_loop h l sel m = least_loop h' l sel m.
Proof.
  intros Hs. revert sel m. induction l as [|p l IH]; intros sel m; simpl; [done|].
  same_at Hs p. by rewrite !IH.
Qed.

Lemma total_weight_same h h' l acc :
  same_load h h' -> total_weight h l acc = total_weight h' l acc.
Proof.
  intros Hs. revert acc. induction l as [|p l IH]; intros acc; simpl; [done|].
  same_at Hs p. by rewrite !IH.
Qed.

Lemma weight_loop_same h h' l t cum :
  same_load h h' -> weight_loop h l t cum = weight_loop h' l t cum.
Proof.
  intros Hs. revert cum. induction l as [|p l IH]; intros cum; simpl; [done|].
  same_at Hs p. by rewrite !IH.
Qed.

#[export] Instance NextPeer_proper : Proper (same_load ==> eq ==> eq ==> eq) NextPeer.
Proof.
  intros h h' Hs s ? <- ip ? <-.
  unfold NextPeer, roundRobin, leastConnections, ipHash, weighted.
  repeat case_if; try done; rewrite ?(scan_same h h'), ?(least_loop_same h h') by done; try done.
  rewrite (total_weight_same h h') by done. destruct (total_weight h' _ _); [|done].
  case_if; [done|]. by rewrite (weight_loop_same h h').
Qed.

Lemma on_backend_lookup f p q h :
  on_backend f p h !! q = if decide (p = q) then f <$> h !! q else h !! q.
Proof.
  unfold on_backend. case_decide; subst; [apply list_lookup_alter_eq || apply list_lookup_alter
    | by apply list_lookup_alter_ne].
Qed.

Lemma RecordFailure_same_load now p h : same_load (on_backend (RecordFailure now) p h) h.
Proof.
  split. intros q. rewrite on_backend_lookup. case_decide; subst; [|done]. by destruct (h !! q).
Qed.

(** Recording a failure never influences the choice of a peer: after any
    [RecordFailure], [NextPeer] answers as if it had not happened. In particular
    under [least-conn] (the default) and [ip-hash] the very backend that just
    failed is chosen again for the retry, until a health check marks it down. *)
Theorem retry_returns_to_failed_backend (h : heap) (s s1 : ServicePool) (ip : string)
    (p : ptr) (now : Z) :
  NextPeer (on_backend (RecordFailure now) p h) s ip = NextPeer h s ip /\
  ((sp_algo s = "least-conn" \/ sp_algo s = "ip-hash") ->
   NextPeer h s ip = (Ret (Some p), s1) ->
   NextPeer (on_backend (RecordFailure now) p h) s1 ip = (Ret (Some p), s1)).
Proof.
  rewrite (RecordFailure_same_load now p h). split; [done|]. intros Ha Hn.
  assert (s1 = s) as ->; [|done].
  unfold NextPeer in Hn. destruct (length _ =? 0)%nat; [done|].
  by destruct Ha as [E|E]; rewrite E in Hn; injection Hn.
Qed.

Lemma retry_returns_to_failed_backend_witness :
  NextPeer (on_backend (RecordFailure 99) 2%nat demo_heap) (demo_pool "least-conn") "ip"
  = (Ret (Some 2%nat), demo_pool "least-conn").
Proof.
  apply (retry_returns_to_failed_backend demo_heap (demo_pool "least-conn")
           (demo_pool "least-conn") "ip" 2%nat 99); [left|]; reflexivity.
Defined.

(** The scan reads nothing but the liveness of the pool's members. *)
Lemma scan_alive_only h h' l at_ i left :
  valid_ptrs h l -> valid_ptrs h' l -> (forall p, In p l -> alive_at h p = alive_at h' p) ->
  scan h l at_ i left = scan h' l at_ i left.
Proof.
  intros Hv Hv' Hal. revert i. induction left as [|left IH]; intros i; simpl; [done|].
  destruct (index l (at_ i)) as [p|] eqn:Ei; [|done].
  assert (In p l) as Hp.
  { unfold index in Ei. destruct (at_ i <? 0); [done|]. destruct (l !! _) eqn:El; [|done].
    injection Ei as ->. apply list_elem_of_In, list_elem_of_lookup. eauto. }
  destruct (valid_In h _ p Hv Hp) as [b Hb], (valid_In h' _ p Hv' Hp) as [b' Hb'].
  specialize (Hal p Hp). unfold deref, alive_at in *. rewrite Hb, Hb' in *.
  rewrite Hal. by rewrite IH.
Qed.

(** Affinity of [ip-hash]. The choice is a function of the client address
    and of which members are alive: changes of load or of failure counts move no
    client, and neither the counter nor the pool is touched by a call. *)
Theorem ipHash_sticky (h h' : heap) (s : ServicePool) (ip : string) :
  sp_algo s = "ip-hash" -> valid_ptrs h (sp_backends s) -> valid_ptrs h' (sp_backends s) ->
  (forall p, In p (sp_backends s) -> alive_at h p = alive_at h' p) ->
  NextPeer h s ip = NextPeer h' s ip /\ (NextPeer h s ip).2 = s.
Proof.
  intros Ha Hv Hv' Hal. unfold NextPeer. destruct (length _ =? 0)%nat; [done|].
  rewrite Ha. cbn [String.eqb Ascii.eqb Bool.eqb]. split; [|done]. f_equal. unfold ipHash.
  by apply scan_alive_only.
Qed.

Lemma ipHash_sticky_witness :
  NextPeer demo_heap (demo_pool "ip-hash") "1.2.3.4" =
  NextPeer (on_backend IncConnections 0%nat demo_heap) (demo_pool "ip-hash") "1.2.3.4".
Proof.
  apply (ipHash_sticky demo_heap (on_backend IncConnections 0%nat demo_heap)
           (demo_pool "ip-hash") "1.2.3.4").
  - reflexivity.
  - repeat constructor; eauto.
  - repeat constructor; eauto.
  - simpl. intros p [<-|[<-|[<-|[]]]]; reflexivity.
Defined.

(** Past the sign bit the round-robin index is negative. Once the counter
    has reached 2^63, the conversion [int(next)] is negative and Go's remainder
    keeps its sign, so [s.backends[idx]] panics unless the pool size happens to
    divide the distance to 2^64. *)
Theorem roundRobin_panics_past_sign_bit (h : heap) (s : ServicePool) :
  let next := sp_current s + 1 in
  let n := Z.of_nat (length (sp_backends s)) in
  9223372036854775808 <= next < uint64_size -> n <> 0 ->
  (uint64_size - next) mod n <> 0 ->
  (roundRobin h s).1 = Panic "index out of range".
Proof.
  intros next n Hn H0 Hd. unfold roundRobin, advance. cbn [fst sp_current].
  fold next. rewrite wrapu64_id by lia.
  destruct (length (sp_backends s)) as [|k] eqn:El; [lia|]. cbn [scan].
  assert (rr_index next (S k) 0 = - ((uint64_size - next) mod n)) as ->.
  { unfold rr_index, go_rem. rewrite Z.add_0_r, wrapu64_id by lia.
    replace (wrap64 next) with (- (uint64_size - next)).
    2:{ unfold wrap64. replace (next + 9223372036854775808)
          with (next - 9223372036854775808 + 1 * uint64_size) by (unfold uint64_size; lia).
        rewrite Z_mod_plus_full, Z.mod_small by (unfold uint64_size in *; lia).
        unfold uint64_size. lia. }
    fold n. rewrite Z.rem_opp_l by lia. f_equal. apply Z.rem_mod_nonneg; lia. }
  unfold index. pose proof (Z.mod_pos_bound (uint64_size - next) n ltac:(lia)).
  by replace (- ((uint64_size - next) mod n) <? 0) with true by lia.
Qed.

Lemma roundRobin_panics_past_sign_bit_witness :
  (roundRobin demo_heap (mkPool [0; 1; 2]%nat 9223372036854775807 "round-robin")).1
  = Panic "index out of range".
Proof.
  apply (roundRobin_panics_past_sign_bit demo_heap
           (mkPool [0; 1; 2]%nat 9223372036854775807 "round-robin")).
  - simpl. unfold uint64_size. lia.
  - discriminate.
  - vm_compute. discriminate.
Defined.

(** ** Health checks *)

Lemma probe_stable net b : probe net (check_backend net b) = probe net b.
Proof. unfold check_backend. by case_if. Qed.

Lemma check_backend_idem net b :
  check_backend net (check_backend net b) = check_backend net b.
Proof.
  unfold check_backend at 1. rewrite probe_stable. unfold check_backend.
  by destruct (probe net b), b.
Qed.

Lemma HealthCheck_lookup net s h p :
  HealthCheck net s h !! p =
  if decide (p ∈ Backends s) then check_backend net <$> h !! p else h !! p.
Proof.
  unfold HealthCheck. generalize (Backends s) as l. intros l. revert h.
  induction l as [|q l IH]; intros h; simpl; [done|]. rewrite IH, on_backend_lookup.
  destruct (decide (q = p)) as [->|Hq].
  - rewrite (decide_True (P := p ∈ p :: l)) by left.
    destruct (h !! p); simpl; [rewrite check_backend_idem|]; by case_decide.
  - destruct (decide (p ∈ l)) as [Hl|Hl].
    + by rewrite decide_True by by right.
    + rewrite decide_False; [done|]. by intros [?|?]%elem_of_cons.
Qed.

(** A health-check round sets the liveness of exactly the pool's backends
    to the result of their probe, clears the failure count of those that answer
    and keeps it for the others, and changes nothing else: connections, weight
    and address stay, and backends of other pools are untouched. *)
Theorem HealthCheck_effect (net : network) (s : ServicePool) (h : heap) (p : ptr)
    (b : Backend) :
  h !! p = Some b ->
  exists b', HealthCheck net s h !! p = Some b' /\
    (p ∈ sp_backends s ->
       IsAlive b' = probe net b /\
       b_FailCount b' = (if probe net b then 0 else b_FailCount b)) /\
    (p ∉ sp_backends s -> b' = b) /\
    (b_URL b', b_Connections b', b_Weight b', b_LastFail b', b_HealthPath b') =
    (b_URL b, b_Connections b, b_Weight b, b_LastFail b, b_HealthPath b).
Proof.
  intros Hb. rewrite HealthCheck_lookup, Hb. unfold Backends.
  case_decide; (eexists; split; [done|]); split_and!; try done;
    unfold check_backend; by destruct (probe net b).
Qed.

Lemma HealthCheck_effect_witness :
  exists b', HealthCheck (mkNetwork (fun _ => true) (fun _ => Some 503))
               (demo_pool "least-conn")
               [SetAlive true (mkBackend (mkURL "http" "a:80" "/" "" "") true 1 1
                  (mkProxy (mkURL "http" "a:80" "/" "" "") false) 3 time_zero "/healthz")] !! 0%nat
             = Some b' /\ IsAlive b' = false /\ b_FailCount b' = 3.
Proof.
  destruct (HealthCheck_effect (mkNetwork (fun _ => true) (fun _ => Some 503))
              (demo_pool "least-conn")
              [SetAlive true (mkBackend (mkURL "http" "a:80" "/" "" "") true 1 1
                 (mkProxy (mkURL "http" "a:80" "/" "" "") false) 3 time_zero "/healthz")]
              0%nat _ eq_refl) as (b' & E & Hin & _).
  exists b'. split; [exact E|]. apply Hin. left.
Defined.
