(* ===== verification/Router.v ===== *)
(** * The service router (routing.go)

    [AddRoute] builds a pool for a configured route and keeps the table ordered
    most specific first; [Route] takes the first entry whose host pattern and
    path prefix cover the request. The router's state is the table, the pools
    and the heap of backends; a route entry refers to its pool by pointer, so a
    matched route shares the pool with every other request. *)

From stdpp Require Import base list strings sets.
From Stdlib Require Import ZArith Lia Ascii String List Permutation.
From S2P Require Import Prelude GoStrings Hosts StableSort Urls Pool.

(** ** Data *)

(** [ServiceRoute] of config.go. *)
Record ServiceRoute := mkServiceRoute {
  r_Host : string;
  r_Prefix : string;
  r_TargetURL : string;
  r_Targets : list string;
  r_StripPrefix : bool;
  r_RequireAuth : bool;
  r_Weight : Z;
  r_Weights : list Z;
  r_TimeoutSecs : Z;
  r_HealthPath : string;
  r_PreserveHost : bool;
  r_Name : string
}.

Record RouteEntry := mkEntry {
  e_Name : string;
  e_Host : string;
  e_Prefix : string;
  e_Pool : ptr;
  e_StripPrefix : bool;
  e_RequireAuth : bool;
  e_Timeout : Z
}.

Record MatchedRoute := mkMatched {
  m_Name : string;
  m_Pool : ptr;
  m_BackendPath : string;
  m_RequireAuth : bool;
  m_Timeout : Z
}.

Record ServiceRouter := mkRouter {
  sr_routes : list RouteEntry;
  sr_pools : list ServicePool;
  sr_heap : heap
}.

Definition NewServiceRouter : ServiceRouter := mkRouter [] [] [].

(** ** AddRoute *)

(** The merged upstream list: [TargetURL] when set, then [Targets]. *)
Definition raw_targets (cfg : ServiceRoute) : list string :=
  (if String.eqb (r_TargetURL cfg) "" then [] else [r_TargetURL cfg]) ++ r_Targets cfg.

Definition defaultWeight (cfg : ServiceRoute) : Z :=
  if r_Weight cfg <=? 0 then 1 else r_Weight cfg.

(** The weight of the [i]-th merged target. *)
Definition target_weight (cfg : ServiceRoute) (i : nat) : Z :=
  match r_Weights cfg !! i with
  | Some w => if 0 <? w then w else defaultWeight cfg
  | None => defaultWeight cfg
  end.

Definition new_backend (cfg : ServiceRoute) (u : URL) (weight : Z) : Backend :=
  mkBackend u true 0 weight (mkProxy u (r_PreserveHost cfg)) 0 time_zero (r_HealthPath cfg).

(** The loop over the merged targets: an unusable upstream is skipped, and so
    is one whose normalised URL has been seen. *)
Fixpoint add_targets (cfg : ServiceRoute) (i : nat) (raw seen : list string)
    (pool : ServicePool) (h : heap) : ServicePool * heap :=
  match raw with
  | [] => (pool, h)
  | r :: rest =>
      match normalizeUpstream r with
      | Err _ => add_targets cfg (S i) rest seen pool h
      | Ok targetURL =>
          if str_in (url_String targetURL) seen then add_targets cfg (S i) rest seen pool h
          else
            let backend := new_backend cfg targetURL (target_weight cfg i) in
            add_targets cfg (S i) rest (url_String targetURL :: seen)
              (AddBackend (length h) pool) (h ++ [backend])
      end
  end.

Definition route_timeout (cfg : ServiceRoute) : Z :=
  let timeout := wrap64 (r_TimeoutSecs cfg * Second) in
  if timeout <=? 0 then Hour else timeout.

Definition route_prefix (cfg : ServiceRoute) : string :=
  if String.eqb (r_Prefix cfg) "" then "/" else r_Prefix cfg.

Definition entry_of `{UnicodeTables} (cfg : ServiceRoute) (pool : ptr) : RouteEntry :=
  mkEntry (r_Name cfg) (normalizeHost (r_Host cfg)) (route_prefix cfg) pool
    (r_StripPrefix cfg) (r_RequireAuth cfg) (route_timeout cfg).

(** The [less] function of the table: host class, host length, prefix length,
    all descending. *)
Definition route_less (a b : RouteEntry) : bool :=
  let sa := hostSpecificity (e_Host a) in
  let sb := hostSpecificity (e_Host b) in
  if negb (sa =? sb) then sb <? sa
  else if negb (slen (e_Host a) =? slen (e_Host b))%nat
  then (slen (e_Host b) <? slen (e_Host a))%nat
  else (slen (e_Prefix b) <? slen (e_Prefix a))%nat.

Definition AddRoute `{UnicodeTables} (cfg : ServiceRoute) (algo : string)
    (sr : ServiceRouter) : ServiceRouter :=
  let '(pool, h) := add_targets cfg O (raw_targets cfg) [] (NewServicePool algo) (sr_heap sr) in
  if (length (Backends pool) =? 0)%nat then sr
  else mkRouter
         (SliceStable route_less (sr_routes sr ++ [entry_of cfg (length (sr_pools sr))]))
         (sr_pools sr ++ [pool]) h.

(** [NewGateway] registers the configured routes in order. *)
Definition register_all `{UnicodeTables} (cfgs : list ServiceRoute) (algo : string)
    (sr : ServiceRouter) : ServiceRouter :=
  fold_left (fun sr cfg => AddRoute cfg algo sr) cfgs sr.

(** ** Route *)

Definition entry_matches `{UnicodeTables} (h path : string) (entry : RouteEntry) : bool :=
  hostMatches (e_Host entry) h && pathMatches (e_Prefix entry) path.

(** The path sent upstream. *)
Definition backend_path (entry : RouteEntry) (path : string) : string :=
  if e_StripPrefix entry && negb (String.eqb (e_Prefix entry) "/") then
    let backendPath := TrimPrefix path (e_Prefix entry) in
    if String.eqb backendPath "" || negb (HasPrefix backendPath "/")
    then "/" +:+ backendPath else backendPath
  else path.

Definition matched_of (entry : RouteEntry) (path : string) : MatchedRoute :=
  mkMatched (e_Name entry) (e_Pool entry) (backend_path entry path)
    (e_RequireAuth entry) (e_Timeout entry).

Fixpoint route_loop `{UnicodeTables} (routes : list RouteEntry) (h path : string)
    : option MatchedRoute :=
  match routes with
  | [] => None
  | entry :: rest =>
      if negb (hostMatches (e_Host entry) h) then route_loop rest h path
      else if negb (pathMatches (e_Prefix entry) path) then route_loop rest h path
      else Some (matched_of entry path)
  end.

Definition Route `{UnicodeTables} (sr : ServiceRouter) (host path : string)
    : option MatchedRoute :=
  route_loop (sr_routes sr) (normalizeHost host) path.

(** A copy of the table. *)
Definition Routes (sr : ServiceRouter) : list RouteEntry := sr_routes sr.

Definition HealthCheckAll (net : network) (sr : ServiceRouter) : ServiceRouter :=
  mkRouter (sr_routes sr) (sr_pools sr)
    (fold_left (fun h entry =>
       match sr_pools sr !! e_Pool entry with
       | Some pool => HealthCheck net pool h
       | None => h
       end) (sr_routes sr) (sr_heap sr)).

(** ** The order of the table *)

#[export] Instance route_less_order : StrictWeakOrder route_less.
Proof.
  unfold route_less. split.
  - intros x. rewrite Z.eqb_refl, Nat.eqb_refl. simpl. apply Nat.ltb_irrefl.
  - intros x y. repeat case_if; intros; bool_prop; lia.
  - intros x y z. rewrite <- orb_true_iff.
    repeat case_if; intros; bool_prop; rewrite ?orb_true_iff, ?Nat.ltb_lt; lia.
Qed.

(** Sorting after each registration is sorting once at the end. *)
Lemma resort (l : list RouteEntry) (e : RouteEntry) :
  SliceStable route_less (SliceStable route_less l ++ [e]) = SliceStable route_less (l ++ [e]).
Proof.
  apply SliceStable_unique; [apply _|].
  destruct (SliceStable_stable route_less (SliceStable route_less l ++ [e])) as [Hs Hf].
  split; [done|]. intros x. rewrite Hf, !filter_app. f_equal.
  apply (SliceStable_stable route_less l).
Qed.

(** ** The targets of a route *)

(** The backends [AddRoute] allocates, as a function of the configuration. *)
Fixpoint fresh_backends (cfg : ServiceRoute) (i : nat) (raw seen : list string)
    : list Backend :=
  match raw with
  | [] => []
  | r :: rest =>
      match normalizeUpstream r with
      | Err _ => fresh_backends cfg (S i) rest seen
      | Ok u =>
          if str_in (url_String u) seen then fresh_backends cfg (S i) rest seen
          else new_backend cfg u (target_weight cfg i) ::
               fresh_backends cfg (S i) rest (url_String u :: seen)
      end
  end.

Definition pool_of (cfg : ServiceRoute) (algo : string) (base : nat) : ServicePool :=
  mkPool (seq base (length (fresh_backends cfg 0 (raw_targets cfg) []))) 0 algo.

Lemma add_targets_spec cfg i raw seen l c a h :
  add_targets cfg i raw seen (mkPool l c a) h =
  (mkPool (l ++ seq (length h) (length (fresh_backends cfg i raw seen))) c a,
   h ++ fresh_backends cfg i raw seen).
Proof.
  revert i seen l h. induction raw as [|r raw IH]; intros i seen l h; simpl.
  { by rewrite !app_nil_r. }
  destruct (normalizeUpstream r) as [u|]; [|apply IH].
  destruct (str_in (url_String u) seen); [apply IH|].
  unfold AddBackend. simpl. rewrite IH, length_app, <- !app_assoc. simpl.
  by rewrite Nat.add_comm.
Qed.

Lemma target_weight_pos cfg i : 1 <= target_weight cfg i.
Proof. unfold target_weight, defaultWeight. destruct (r_Weights cfg !! i); repeat case_if; lia. Qed.

(** Every allocated backend comes from a usable target and starts alive, idle,
    and with a positive weight. *)
Lemma fresh_backends_In cfg i raw seen b :
  In b (fresh_backends cfg i raw seen) ->
  exists r w, In r raw /\ normalizeUpstream r = Ok (b_URL b) /\ 1 <= w /\
              b = new_backend cfg (b_URL b) w /\ ~ In (url_String (b_URL b)) seen.
Proof.
  revert i seen. induction raw as [|r raw IH]; intros i seen; simpl; [done|].
  destruct (normalizeUpstream r) as [u|] eqn:En.
  - destruct (str_in (url_String u) seen) eqn:Es.
    + intros (r' & w & ? & ?)%IH. exists r', w. by destruct_and?; auto.
    + intros [<-|(r' & w & ? & ? & ? & ? & Hs)%IH].
      * exists r, (target_weight cfg i). split_and!; auto using target_weight_pos.
        simpl. rewrite <- str_in_spec. by rewrite Es.
      * exists r', w. split_and!; auto. intros ?. apply Hs. by right.
  - intros (r' & w & ? & ?)%IH. exists r', w. by destruct_and?; auto.
Qed.

(** No upstream is listed twice: the normalised URLs are pairwise different. *)
Lemma fresh_backends_NoDup cfg i raw seen :
  List.NoDup (map (fun b => url_String (b_URL b)) (fresh_backends cfg i raw seen)).
Proof.
  revert i seen. induction raw as [|r raw IH]; intros i seen; simpl; [constructor|].
  destruct (normalizeUpstream r) as [u|]; [|apply IH].
  destruct (str_in (url_String u) seen); [apply IH|]. simpl. constructor; [|apply IH].
  intros (b & E & Hb)%in_map_iff. apply fresh_backends_In in Hb as (r' & w & _ & _ & _ & _ & Hs).
  apply Hs. left. done.
Qed.

(** And none that is usable is lost. *)
Lemma fresh_backends_complete cfg i raw seen r u :
  In r raw -> normalizeUpstream r = Ok u ->
  In (url_String u) (seen ++ map (fun b => url_String (b_URL b)) (fresh_backends cfg i raw seen)).
Proof.
  revert i seen. induction raw as [|r0 raw IH]; intros i seen; simpl; [done|].
  intros [->|Hr] Hu.
  - rewrite Hu. destruct (str_in (url_String u) seen) eqn:Es; apply in_app_iff.
    + left. by apply str_in_spec.
    + right. by left.
  - destruct (normalizeUpstream r0) as [v|]; [|by apply IH].
    destruct (str_in (url_String v) seen); [by apply IH|].
    specialize (IH (S i) (url_String v :: seen) Hr Hu). simpl in *.
    rewrite in_app_iff in *. simpl. tauto.
Qed.

Lemma fresh_backends_nil cfg :
  fresh_backends cfg 0 (raw_targets cfg) [] = [] <->
  forall r u, In r (raw_targets cfg) -> normalizeUpstream r <> Ok u.
Proof.
  split.
  - intros E r u Hr Hu. pose proof (fresh_backends_complete cfg 0 _ [] r u Hr Hu) as Hin.
    by rewrite E in Hin.
  - intros Hn. destruct (fresh_backends cfg 0 (raw_targets cfg) []) as [|b l] eqn:E; [done|].
    destruct (fresh_backends_In cfg 0 (raw_targets cfg) [] b) as (r & w & Hr & Hu & _).
    { rewrite E. by left. }
    by apply Hn in Hu.
Qed.

(** ** The table that registration builds *)

Definition usable (cfg : ServiceRoute) : bool :=
  negb (length (fresh_backends cfg 0 (raw_targets cfg) []) =? 0)%nat.

Lemma AddRoute_spec `{UnicodeTables} cfg algo sr :
  AddRoute cfg algo sr =
  if usable cfg then
    mkRouter (SliceStable route_less (sr_routes sr ++ [entry_of cfg (length (sr_pools sr))]))
      (sr_pools sr ++ [pool_of cfg algo (length (sr_heap sr))])
      (sr_heap sr ++ fresh_backends cfg 0 (raw_targets cfg) [])
  else sr.
Proof.
  unfold AddRoute, NewServicePool. rewrite add_targets_spec. simpl Backends.
  unfold Backends, usable. simpl. rewrite length_seq.
  by destruct (length _ =? 0)%nat.
Qed.

(** The entries in registration order: the [k]-th usable route has the [k]-th
    pool. *)
Fixpoint registered `{UnicodeTables} (k : nat) (cfgs : list ServiceRoute)
    : list RouteEntry :=
  match cfgs with
  | [] => []
  | cfg :: rest => if usable cfg then entry_of cfg k :: registered (S k) rest
                   else registered k rest
  end.

Lemma register_all_routes `{UnicodeTables} cfgs algo sr l :
  sr_routes sr = SliceStable route_less l ->
  sr_routes (register_all cfgs algo sr) =
  SliceStable route_less (l ++ registered (length (sr_pools sr)) cfgs).
Proof.
  unfold register_all. revert sr l. induction cfgs as [|cfg cfgs IH]; intros sr l Hl; simpl.
  { by rewrite app_nil_r. }
  rewrite AddRoute_spec. destruct (usable cfg); [|by apply IH].
  rewrite (IH _ (l ++ [entry_of cfg (length (sr_pools sr))])); simpl.
  - rewrite <- app_assoc, length_app. simpl. by rewrite Nat.add_comm.
  - by rewrite Hl, resort.
Qed.

Lemma route_loop_find `{UnicodeTables} routes h path :
  route_loop routes h path = (fun e => matched_of e path) <$> find (entry_matches h path) routes.
Proof.
  induction routes as [|e r IH]; simpl; [done|]. unfold entry_matches at 1.
  destruct (hostMatches (e_Host e) h); simpl; [|done].
  by destruct (pathMatches (e_Prefix e) path).
Qed.

Lemma Route_registered `{UnicodeTables} cfgs algo host path :
  Route (register_all cfgs algo NewServiceRouter) host path =
  (fun e => matched_of e path) <$>
    find (entry_matches (normalizeHost host) path) (SliceStable route_less (registered 0 cfgs)).
Proof. unfold Route. by rewrite route_loop_find, (register_all_routes _ _ _ []). Qed.

(** [b] is more specific than [a]: a higher host class, or in the same class a
    longer host, or with hosts of one length a longer prefix. *)
Definition more_specific (b a : RouteEntry) : Prop :=
  let sb := hostSpecificity (e_Host b) in let sa := hostSpecificity (e_Host a) in
  sa < sb \/
  (sa = sb /\ (slen (e_Host a) < slen (e_Host b))%nat) \/
  (sa = sb /\ slen (e_Host a) = slen (e_Host b) /\ (slen (e_Prefix a) < slen (e_Prefix b))%nat).

Lemma route_less_spec a b : route_less b a = true <-> more_specific b a.
Proof.
  unfold route_less, more_specific.
  repeat case_if; bool_prop; rewrite ?Nat.ltb_lt, ?Z.ltb_lt; lia.
Qed.


(** Prefix stripping. For a route that covers the path, an unstripped path
    is forwarded as it is; a stripped one is the prefix followed by a rest, and
    the upstream receives that rest under exactly one leading slash, so it is
    never empty and never relative. *)
Theorem backend_path_strips (e : RouteEntry) (path : string) :
  pathMatches (e_Prefix e) path = true -> e_Prefix e <> "" ->
  (e_StripPrefix e && negb (String.eqb (e_Prefix e) "/") = false -> backend_path e path = path) /\
  (e_StripPrefix e = true -> e_Prefix e <> "/" ->
   exists rest, path = e_Prefix e +:+ rest /\
     backend_path e path = (if HasPrefix rest "/" then rest else "/" +:+ rest) /\
     HasPrefix (backend_path e path) "/" = true).
Proof.
  intros Hm Hne. unfold backend_path. split; [by intros ->|]. intros -> Hs.
  apply String.eqb_neq in Hs as Hs'. rewrite Hs'. cbn [negb andb].
  assert (exists rest, path = e_Prefix e +:+ rest) as [rest ->].
  { unfold pathMatches in Hm. apply String.eqb_neq in Hne. rewrite Hne, Hs' in Hm. cbn [orb] in Hm.
    destruct (HasPrefix path (e_Prefix e)) eqn:Hp; [|done]. by apply HasPrefix_spec. }
  exists rest. rewrite TrimPrefix_app.
  destruct (HasPrefix rest "/") eqn:Hr; cbn [negb].
  - rewrite orb_false_r. destruct (String.eqb rest "") eqn:Er; bool_prop; [by subst|by auto].
  - rewrite orb_true_r. by split_and!; [| |apply HasPrefix_app].
Qed.

Lemma backend_path_strips_witness :
  backend_path (mkEntry "llm" "" "/api/llm" 0 true false Hour) "/api/llm/v1/chat" = "/v1/chat".
Proof.
  destruct (backend_path_strips (mkEntry "llm" "" "/api/llm" 0 true false Hour)
              "/api/llm/v1/chat") as [_ H]; [reflexivity|discriminate|].
  destruct H as (rest & E & B & _); [reflexivity|discriminate|].
  injection E as <-. exact B.
Defined.

(** C26: what one registration does. A route with no usable upstream changes
    nothing. Otherwise the table gains one entry, and the new pool holds each
    usable upstream exactly once: its URLs are pairwise different, every one is
    a normalised target, every normalised target is there, and every backend
    starts alive, idle, and with a positive weight. *)
Theorem AddRoute_upstreams `{UnicodeTables} (cfg : ServiceRoute) (algo : string)
    (sr : ServiceRouter) :
  let sr' := AddRoute cfg algo sr in
  ((forall r u, In r (raw_targets cfg) -> normalizeUpstream r <> Ok u) -> sr' = sr) /\
  (forall r u, In r (raw_targets cfg) -> normalizeUpstream r = Ok u ->
   exists fresh,
     sr_heap sr' = sr_heap sr ++ fresh /\
     sr_pools sr' = sr_pools sr ++ [mkPool (seq (length (sr_heap sr)) (length fresh)) 0 algo] /\
     Permutation (sr_routes sr') (entry_of cfg (length (sr_pools sr)) :: sr_routes sr) /\
     List.NoDup (map (fun b => url_String (b_URL b)) fresh) /\
     In (url_String u) (map (fun b => url_String (b_URL b)) fresh) /\
     (forall b, In b fresh ->
        IsAlive b = true /\ GetConnections b = 0 /\ 1 <= b_Weight b /\
        exists r', In r' (raw_targets cfg) /\ normalizeUpstream r' = Ok (b_URL b))).
Proof.
  intros sr'. unfold sr'. rewrite AddRoute_spec. unfold usable. split.
  - intros Hn. apply fresh_backends_nil in Hn. by rewrite Hn.
  - intros r u Hr Hu.
    destruct (length (fresh_backends cfg 0 (raw_targets cfg) []) =? 0)%nat eqn:El; bool_prop.
    + apply length_zero_iff_nil in El. exfalso. eapply fresh_backends_nil; eauto.
    + cbn [negb]. exists (fresh_backends cfg 0 (raw_targets cfg) []). split_and!; try done.
      * cbn [sr_routes]. rewrite (SliceStable_perm route_less). apply Permutation_app_comm.
      * apply fresh_backends_NoDup.
      * by apply (fresh_backends_complete cfg 0 (raw_targets cfg) [] r u).
      * intros b (r' & w & Hr' & Hu' & Hw & Hb & _)%fresh_backends_In.
        rewrite Hb. split_and!; try done. by eauto.
Qed.

(** ** The router's invariant *)

Definition backend_wf (b : Backend) : Prop :=
  1 <= b_Weight b /\ u_Host (b_URL b) <> "" /\
  (u_Scheme (b_URL b) = "http" \/ u_Scheme (b_URL b) = "https").

(** The pools partition the heap in allocation order, the entries of the table
    are in one-to-one correspondence with the pools and sorted, and each entry
    and backend is usable. *)
Record router_wf (sr : ServiceRouter) : Prop := {
  wf_layout : concat (map sp_backends (sr_pools sr)) = seq 0 (length (sr_heap sr));
  wf_nonempty : List.Forall (fun s => sp_backends s <> []) (sr_pools sr);
  wf_table : Permutation (map e_Pool (sr_routes sr)) (seq 0 (length (sr_pools sr)));
  wf_sorted : sorted route_less (sr_routes sr);
  wf_entries : List.Forall (fun e => 0 < e_Timeout e /\ e_Prefix e <> "") (sr_routes sr);
  wf_heap : List.Forall backend_wf (sr_heap sr)
}.

Lemma route_timeout_pos cfg : 0 < route_timeout cfg.
Proof. unfold route_timeout. cbv zeta. case_if; [reflexivity|lia]. Qed.

Lemma route_prefix_nonempty cfg : route_prefix cfg <> "".
Proof. unfold route_prefix. by case_if; bool_prop. Qed.

Lemma fresh_backends_wf cfg i raw seen :
  List.Forall backend_wf (fresh_backends cfg i raw seen).
Proof.
  apply List.Forall_forall. intros b (r & w & _ & Hu & Hw & Hb & _)%fresh_backends_In.
  split; [by rewrite Hb|]. by apply normalizeUpstream_ok in Hu.
Qed.

Lemma NewServiceRouter_wf : router_wf NewServiceRouter.
Proof. by repeat constructor. Qed.

Lemma AddRoute_wf `{UnicodeTables} cfg algo sr :
  router_wf sr -> router_wf (AddRoute cfg algo sr).
Proof.
  intros [H1 H2 H3 H4 H5 H6]. rewrite AddRoute_spec.
  destruct (usable cfg) eqn:Hu; [|done]. constructor; cbn [sr_pools sr_heap sr_routes].
  - rewrite map_app, concat_app, H1, length_app, seq_app. cbn. by rewrite app_nil_r.
  - apply List.Forall_app. split; [done|]. repeat constructor. cbn.
    unfold usable in Hu. by destruct (fresh_backends cfg 0 (raw_targets cfg) []).
  - rewrite (SliceStable_perm route_less), map_app, H3, length_app, seq_app. done.
  - apply (SliceStable_stable route_less).
  - eapply Permutation_Forall; [symmetry; apply (SliceStable_perm route_less)|].
    apply List.Forall_app. split; [done|]. repeat constructor; cbn.
    + apply route_timeout_pos.
    + apply route_prefix_nonempty.
  - apply List.Forall_app. split; [done|]. apply fresh_backends_wf.
Qed.

Lemma on_backend_wf f p h :
  (forall b, backend_wf b -> backend_wf (f b)) ->
  List.Forall backend_wf h -> List.Forall backend_wf (on_backend f p h).
Proof.
  intros Hf Hh. apply Forall_lookup. intros i b. rewrite on_backend_lookup.
  rewrite Forall_lookup in Hh. case_decide.
  - intros (b0 & Hb0 & ->)%fmap_Some. eauto.
  - eauto.
Qed.

Lemma length_on_backend f p h : length (on_backend f p h) = length h.
Proof. apply length_alter. Qed.

Lemma HealthCheck_preserves net s h :
  length (HealthCheck net s h) = length h /\
  (List.Forall backend_wf h -> List.Forall backend_wf (HealthCheck net s h)).
Proof.
  unfold HealthCheck. generalize (Backends s) as l. intros l. revert h.
  induction l as [|p l IH]; intros h; simpl; [done|].
  destruct (IH (on_backend (check_backend net) p h)) as [Hl Hw].
  rewrite Hl, length_on_backend. split; [done|]. intros Hh. apply Hw, on_backend_wf; [|done].
  intros b Hb. unfold check_backend. by case_if.
Qed.

Lemma HealthCheckAll_wf net sr : router_wf sr -> router_wf (HealthCheckAll net sr).
Proof.
  intros [H1 H2 H3 H4 H5 H6]. unfold HealthCheckAll.
  set (h' := fold_left _ _ _).
  assert (length h' = length (sr_heap sr) /\ List.Forall backend_wf h') as [Hl Hw].
  { unfold h'. clear -H6. revert H6. generalize (sr_heap sr) as h. generalize (sr_routes sr) as l.
    induction l as [|e l IH]; intros h Hh; simpl; [done|].
    destruct (sr_pools sr !! e_Pool e) as [s|]; [|by apply IH].
    destruct (HealthCheck_preserves net s h) as [El Ew]. rewrite <- El. by apply IH, Ew. }
  constructor; cbn [sr_pools sr_heap sr_routes]; try done. by rewrite Hl.
Qed.

(** The operations on a router, and the states they lead to. *)
Inductive router_op : Type :=
| OpAddRoute (cfg : ServiceRoute) (algo : string)
| OpHealthCheckAll (net : network).

Definition run_op `{UnicodeTables} (sr : ServiceRouter) (op : router_op) : ServiceRouter :=
  match op with
  | OpAddRoute cfg algo => AddRoute cfg algo sr
  | OpHealthCheckAll net => HealthCheckAll net sr
  end.

(** C25: every sequence of registrations and health-check rounds keeps the
    router well formed: the table is sorted and in bijection with the pools, no
    pool is empty, the pools share no backend and every pointer is live, every
    weight is positive, every upstream has a host and an HTTP scheme, and every
    route has a positive timeout and a non-empty prefix. *)
Theorem router_invariant `{UnicodeTables} (ops : list router_op) :
  router_wf (fold_left run_op ops NewServiceRouter).
Proof.
  assert (forall sr, router_wf sr -> router_wf (fold_left run_op ops sr)) as Hop.
  { induction ops as [|[]]; intros sr Hsr; simpl; auto using AddRoute_wf, HealthCheckAll_wf. }
  apply Hop, NewServiceRouter_wf.
Qed.

(** In a well-formed router the pool of a route is there, and its pointers are
    live and pairwise different. *)
Lemma wf_pool sr e :
  router_wf sr -> In e (sr_routes sr) ->
  exists s, sr_pools sr !! e_Pool e = Some s /\ valid_ptrs (sr_heap sr) (sp_backends s) /\
            List.NoDup (sp_backends s) /\ sp_backends s <> [].
Proof.
  intros [H1 H2 H3 _ _ _] He.
  assert (In (e_Pool e) (seq 0 (length (sr_pools sr)))) as Hp.
  { rewrite <- H3. by apply in_map. }
  apply in_seq in Hp. destruct (lookup_lt_is_Some_2 (sr_pools sr) (e_Pool e)) as [s Hs]; [lia|].
  exists s. pose proof Hs as Hin. apply list_elem_of_lookup_2, list_elem_of_In in Hin.
  rewrite List.Forall_forall in H2.
  destruct (in_split _ _ Hin) as (l1 & l2 & E). rewrite E, map_app, concat_app in H1. simpl in H1.
  split_and!; [done| | |by apply H2].
  - apply List.Forall_forall. intros p Hpp. apply lookup_lt_is_Some_2.
    assert (In p (seq 0 (length (sr_heap sr)))) as Hq%in_seq; [|lia].
    rewrite <- H1, !in_app_iff. auto.
  - pose proof (seq_NoDup (length (sr_heap sr)) 0) as Hnd. rewrite <- H1 in Hnd.
    by apply NoDup_app_remove_l, NoDup_app_remove_r in Hnd.
Qed.

Lemma registered_In `{UnicodeTables} cfgs cfg n :
  In cfg cfgs -> usable cfg = true -> exists k, In (entry_of cfg k) (registered n cfgs).
Proof.
  revert n. induction cfgs as [|c cfgs IH]; intros n; simpl; [done|]. intros [->|Hc] Hu.
  - rewrite Hu. exists n. by left.
  - destruct (IH (if usable c then S n else n) Hc Hu) as [k Hk].
    exists k. revert Hk. destruct (usable c); intros Hk; [by right|done].
Qed.

(** A bare star covers every request that names a host. *)
Lemma hostMatches_star `{UnicodeTables} (host : string) : host <> "" -> hostMatches "*" host = true.
Proof.
  intros Hh. apply hostMatches_spec; [by apply normalizeHost_canonical|].
  right; right. exists "", host. by rewrite !sapp_nil_r.
Qed.

(** A route with host ["*"] is ranked as an exact host although it covers
    every host, so it outranks every wildcard route: when it covers the path, a
    request is never answered by a ["*.d"] route or by a catch-all, not even one
    for a subdomain of [d]. *)
Theorem star_host_outranks_wildcards `{UnicodeTables} (cfgs : list ServiceRoute)
    (algo host path : string) (cfg : ServiceRoute) :
  In cfg cfgs -> usable cfg = true -> r_Host cfg = "*" ->
  pathMatches (route_prefix cfg) path = true -> normalizeHost host <> "" ->
  exists e, Route (register_all cfgs algo NewServiceRouter) host path = Some (matched_of e path) /\
            In e (registered 0 cfgs) /\ hostSpecificity (e_Host e) = hostExact.
Proof.
  intros Hin Hu Hh Hp Hne. destruct (registered_In cfgs cfg 0 Hin Hu) as [k Hk].
  assert (e_Host (entry_of cfg k) = "*") as Es.
  { cbn. rewrite Hh. by apply normalizeHost_canonical. }
  assert (entry_matches (normalizeHost host) path (entry_of cfg k) = true) as Hm.
  { unfold entry_matches. rewrite Es, hostMatches_star by done. done. }
  rewrite Route_registered.
  destruct (find _ (SliceStable route_less (registered 0 cfgs))) as [e|] eqn:Ef.
  - exists e. apply (find_SliceStable route_less) in Ef as (He & _ & Hmin & _).
    split_and!; try done. specialize (Hmin _ Hk Hm).
    apply not_true_iff_false in Hmin. rewrite route_less_spec in Hmin.
    unfold more_specific in Hmin. rewrite Es in Hmin. change (hostSpecificity "*") with 2 in Hmin.
    unfold hostSpecificity, hostAny, hostWildcard, hostExact in *.
    destruct (String.eqb (e_Host e) ""), (HasPrefix (e_Host e) "*."); lia.
  - apply (SliceStable_In route_less) in Hk. pose proof (find_none _ _ Ef _ Hk). congruence.
Qed.

(** Two routes: a wildcard for example.com, and a star. *)
Definition demo_route (name host prefix : string) : ServiceRoute :=
  mkServiceRoute host prefix "http://10.0.0.1:80" [] true false 1 [] 30 "" false name.

Lemma star_host_outranks_wildcards_witness :
  exists e, Route (H := ascii_tables)
              (register_all (H := ascii_tables)
                 [demo_route "wild" "*.example.com" "/"; demo_route "star" "*" "/"]
                 "least-conn" NewServiceRouter)
              "api.example.com" "/x" = Some (matched_of e "/x") /\
            e_Name e = "star".
Proof.
  destruct (star_host_outranks_wildcards (H := ascii_tables)
              [demo_route "wild" "*.example.com" "/"; demo_route "star" "*" "/"]
              "least-conn" "api.example.com" "/x" (demo_route "star" "*" "/"))
    as (e & E & [<-|[<-|[]]] & Hs);
    [simpl; auto | reflexivity | reflexivity | reflexivity | discriminate | discriminate Hs | ].
  eexists. split; [exact E | reflexivity].
Defined.
