(* ===== verification/Breaker.v ===== *)
(** * The circuit breaker (middleware.go)

    [Call] runs a function inside the breaker. The mutex is held from entry to
    exit, so a call is one atomic step on the breaker's state; what the function
    does to the rest of the gateway is threaded through by [M]. *)

From stdpp Require Import base list strings.
From Stdlib Require Import ZArith Lia String List.
From S2P Require Import Prelude.

(** ** Definitions *)

(** The values of the field [state]: "closed", "open", "half-open". *)
Inductive cb_state : Type := Closed | Open | HalfOpen.

#[export] Instance cb_state_eq_dec : EqDecision cb_state.
Proof. solve_decision. Defined.

Record CircuitBreaker := mkBreaker {
  cb_maxFailures : Z;
  cb_resetTimeout : Z;
  cb_failures : Z;
  cb_lastFailTime : Z;
  cb_state_ : cb_state
}.

Definition NewCircuitBreaker (maxFailures resetTimeout : Z) : CircuitBreaker :=
  mkBreaker maxFailures resetTimeout 0 time_zero Closed.

Definition GetState (cb : CircuitBreaker) : string :=
  match cb_state_ cb with
  | Closed => "closed"
  | Open => "open"
  | HalfOpen => "half-open"
  end.

Definition error_open : string := "circuit breaker is open".

(** The test at entry: [None] when the breaker is open and the reset timeout
    has not elapsed at time [now]. *)
Definition cb_admit (cb : CircuitBreaker) (now : Z) : option CircuitBreaker :=
  match cb_state_ cb with
  | Open =>
      if cb_resetTimeout cb <? now - cb_lastFailTime cb
      then Some (mkBreaker (cb_maxFailures cb) (cb_resetTimeout cb) 0 (cb_lastFailTime cb) HalfOpen)
      else None
  | _ => Some cb
  end.

(** The bookkeeping after a failure at time [now]; the flag is raised when the
    breaker trips. *)
Definition cb_fail (cb : CircuitBreaker) (now : Z) : CircuitBreaker * bool :=
  let failures := wrap64 (cb_failures cb + 1) in
  if cb_maxFailures cb <=? failures
  then (mkBreaker (cb_maxFailures cb) (cb_resetTimeout cb) failures now Open, true)
  else (mkBreaker (cb_maxFailures cb) (cb_resetTimeout cb) failures now (cb_state_ cb), false).

(** The bookkeeping after a success. *)
Definition cb_succeed (cb : CircuitBreaker) : CircuitBreaker :=
  mkBreaker (cb_maxFailures cb) (cb_resetTimeout cb) 0 (cb_lastFailTime cb)
    (match cb_state_ cb with HalfOpen => Closed | st => st end).

Section Call.
(** The world a breaker lives in: where the breaker is, the clock, and the trip
    counters ([circuitBreakerTrips] and [dashStats.CircuitTrips]). *)
Context {W : Type} (cb_of : W -> CircuitBreaker) (with_cb : CircuitBreaker -> W -> W)
  (clock : M W Z) (count_trip : W -> W).

(** The value is Go's returned error, [None] for nil. *)
Definition Call (fn : M W (option string)) : M W (option string) :=
  cb ← gets cb_of;
  now ← (match cb_state_ cb with Open => clock | _ => mret 0 end);
  match cb_admit cb now with
  | None => mret (Some error_open)
  | Some cb' =>
      modify (with_cb cb') ;;
      err ← fn;
      cb ← gets cb_of;
      match err with
      | Some e =>
          now ← clock;
          let '(cb', tripped) := cb_fail cb now in
          modify (with_cb cb') ;;
          modify (if tripped then count_trip else id) ;;
          mret (Some e)
      | None =>
          modify (with_cb (cb_succeed cb)) ;;
          mret None
      end
  end.
End Call.

(** A call whose function only decides success ([None]) or failure, at entry
    time [now] and completion time [later]: the next breaker, and the error
    returned. *)
Definition cb_step (cb : CircuitBreaker) (now later : Z) (r : option string)
    : CircuitBreaker * option string :=
  match cb_admit cb now with
  | None => (cb, Some error_open)
  | Some cb' =>
      match r with
      | Some e => ((cb_fail cb' later).1, Some e)
      | None => (cb_succeed cb', None)
      end
  end.

(** ** [Call] implements its specification *)

Section Refinement.
Context {W : Type} (cb_of : W -> CircuitBreaker) (with_cb : CircuitBreaker -> W -> W)
  (clock : M W Z) (count_trip : W -> W).

(** What the breaker needs of its world: its own state is a field of it, the
    clock can be read, and neither the clock nor the counters touch that field. *)
Record breaker_world : Prop := {
  bw_get_set w cb : cb_of (with_cb cb w) = cb;
  bw_set_get w : with_cb (cb_of w) w = w;
  bw_clock w : exists t w', clock w = (Ret t, w') /\ cb_of w' = cb_of w;
  bw_count w : cb_of (count_trip w) = cb_of w
}.

(** The world in which the function of a call made in [w] runs: [w] itself while
    the breaker is closed or half-open; and when it is open, once the clock
    shows more than the reset timeout since the last failure, the world the
    clock left with the breaker half-open and its count at zero. *)
Inductive enters (w : W) : W -> Prop :=
| enter_shut : cb_state_ (cb_of w) <> Open -> enters w w
| enter_probe t w1 :
    cb_state_ (cb_of w) = Open -> clock w = (Ret t, w1) ->
    t > cb_lastFailTime (cb_of w) + cb_resetTimeout (cb_of w) ->
    enters w (with_cb (mkBreaker (cb_maxFailures (cb_of w)) (cb_resetTimeout (cb_of w)) 0
                         (cb_lastFailTime (cb_of w)) HalfOpen) w1).

(** What a call makes of the outcome of its function. A success clears the
    count and closes a half-open breaker; a failure is counted at the time the
    clock shows then, and opens the breaker, counting a trip, when it is the
    [maxFailures]-th; a panic goes through. *)
Inductive leaves : outcome (option string) * W -> outcome (option string) * W -> Prop :=
| leave_success w1 :
    let cb := cb_of w1 in
    leaves (Ret None, w1)
      (Ret None, with_cb (mkBreaker (cb_maxFailures cb) (cb_resetTimeout cb) 0 (cb_lastFailTime cb) Closed) w1)
| leave_failure e w1 t w2 :
    let cb := cb_of w1 in
    clock w1 = (Ret t, w2) -> cb_failures cb + 1 < cb_maxFailures cb ->
    leaves (Ret (Some e), w1)
      (Ret (Some e), with_cb (mkBreaker (cb_maxFailures cb) (cb_resetTimeout cb) (cb_failures cb + 1) t
                                (cb_state_ cb)) w2)
| leave_trip e w1 t w2 :
    let cb := cb_of w1 in
    clock w1 = (Ret t, w2) -> cb_maxFailures cb <= cb_failures cb + 1 ->
    leaves (Ret (Some e), w1)
      (Ret (Some e), count_trip (with_cb (mkBreaker (cb_maxFailures cb) (cb_resetTimeout cb) (cb_failures cb + 1) t
                                            Open) w2))
| leave_panic why w1 : leaves (Panic why, w1) (Panic why, w1).

(** A call as a whole: refused, with nothing but the clock read, or one run of
    the function between entry and exit. *)
Inductive call_spec (fn : M W (option string)) (w : W) : outcome (option string) * W -> Prop :=
| spec_refused t w1 :
    cb_state_ (cb_of w) = Open -> clock w = (Ret t, w1) ->
    t <= cb_lastFailTime (cb_of w) + cb_resetTimeout (cb_of w) ->
    call_spec fn w (Ret (Some error_open), w1)
| spec_runs w0 res : enters w w0 -> leaves (fn w0) res -> call_spec fn w res.

(** What follows the function in [Call]. *)
Definition settle (err : option string) : M W (option string) :=
  cb ← gets cb_of;
  match err with
  | Some e =>
      now ← clock;
      let '(cb', tripped) := cb_fail cb now in
      modify (with_cb cb') ;;
      modify (if tripped then count_trip else id) ;;
      mret (Some e)
  | None =>
      modify (with_cb (cb_succeed cb)) ;;
      mret None
  end.

Lemma settle_leaves res :
  breaker_world ->
  0 <= cb_failures (cb_of res.2) < int64_max -> cb_state_ (cb_of res.2) <> Open ->
  leaves res (match res with (Ret err, w1) => settle err w1 | (Panic why, w1) => (Panic why, w1) end).
Proof.
  intros [Hgs Hsg Hck Hct] Hf Ho. destruct res as [[[e|]|why] w1]; [| |constructor]; simpl in *.
  - destruct (Hck w1) as (t & w2 & Et & H2).
    unfold settle, cb_fail, mbind, M_bind, gets, modify, mret, M_ret. rewrite Et.
    rewrite wrap64_id by (unfold is_int64, int64_min, int64_max in *; lia).
    destruct (cb_maxFailures (cb_of w1) <=? cb_failures (cb_of w1) + 1) eqn:El; simpl.
    + apply leave_trip; [done|lia].
    + apply leave_failure; [done|lia].
  - unfold settle, cb_succeed, mbind, M_bind, gets, modify, mret, M_ret.
    pose proof (leave_success w1) as Hl. cbv zeta in Hl. by destruct (cb_state_ (cb_of w1)).
Qed.

(** C13: [Call] does what it promises, and nothing else. In the open state it
    reads the clock; up to and including the reset timeout after the last
    failure it returns the breaker's error, the function is not run and the
    world is the one the clock left. Otherwise the function runs exactly once,
    in the world as it was or, for a probe, with the breaker half-open and its
    count at zero, and what it did is left as it is but for the breaker: a
    success clears the count and closes a half-open breaker; a failure is
    counted with its time, and the [maxFailures]-th opens the breaker and counts
    a trip; a panic goes through and counts nothing. The function's error is
    [Call]'s. The function must leave the breaker alone, and the count must be
    below the largest integer. *)
Theorem Call_meets_specification (fn : M W (option string)) (w : W) :
  breaker_world -> (forall v, cb_of (fn v).2 = cb_of v) ->
  0 <= cb_failures (cb_of w) < int64_max ->
  call_spec fn w (Call cb_of with_cb clock count_trip fn w).
Proof.
  intros Hbw Hfn Hf. pose proof Hbw as [Hgs Hsg Hck Hct].
  assert (forall w0, enters w w0 -> 0 <= cb_failures (cb_of w0) < int64_max ->
    call_spec fn w (match fn w0 with (Ret err, w1) => settle err w1 | (Panic why, w1) => (Panic why, w1) end)) as Hrun.
  { intros w0 He H0. apply (spec_runs fn w w0); [done|]. apply settle_leaves; rewrite ?Hfn; [done..|].
    destruct He; by rewrite ?Hgs. }
  unfold Call, mbind, M_bind, gets, modify at 1. destruct (cb_state_ (cb_of w)) eqn:Es.
  2:{ destruct (Hck w) as (t & w1 & Et & H1). rewrite Et. unfold cb_admit. rewrite Es.
      destruct (_ <? _) eqn:El; [|apply (spec_refused fn w t); [done|done|lia]].
      apply Hrun; [apply (enter_probe w t); [done|done|lia]|]. rewrite Hgs. simpl. unfold int64_max. lia. }
  all: unfold cb_admit, mret, M_ret at 1; rewrite Es; rewrite Hsg; apply Hrun; [|done]; apply enter_shut; congruence.
Qed.
End Refinement.

(** A world that is a breaker, the time, and a trip count. *)
Definition demo_world : Type := CircuitBreaker * Z * Z.
Definition demo_call : M demo_world (option string) -> M demo_world (option string) :=
  Call (fun w => w.1.1) (fun cb w => (cb, w.1.2, w.2)) (fun w => (Ret w.1.2, w))
    (fun w => (w.1.1, w.1.2, w.2 + 1)).

(** The first failure opens a breaker that allows none, and is counted. *)
Lemma Call_meets_specification_witness :
  call_spec (fun w : demo_world => w.1.1) (fun cb w => (cb, w.1.2, w.2)) (fun w => (Ret w.1.2, w))
    (fun w => (w.1.1, w.1.2, w.2 + 1)) (mret (Some "dial tcp: refused")) (NewCircuitBreaker 1 Second, 5, 0)
    (Ret (Some "dial tcp: refused"), (mkBreaker 1 Second 1 5 Open, 5, 1)).
Proof.
  assert (demo_call (mret (Some "dial tcp: refused")) (NewCircuitBreaker 1 Second, 5, 0)
          = (Ret (Some "dial tcp: refused"), (mkBreaker 1 Second 1 5 Open, 5, 1))) as <- by (vm_compute; reflexivity).
  apply (Call_meets_specification (fun w : demo_world => w.1.1) (fun cb w => (cb, w.1.2, w.2))
           (fun w => (Ret w.1.2, w)) (fun w => (w.1.1, w.1.2, w.2 + 1))
           (mret (Some "dial tcp: refused")) (NewCircuitBreaker 1 Second, 5, 0)).
  - split; [reflexivity | intros [[? ?] ?]; reflexivity | intros w; exists w.1.2, w; split; reflexivity | reflexivity].
  - reflexivity.
  - unfold int64_max. simpl. lia.
Defined.

(** ** When the breaker opens *)

(** A call: the times at which it is made and at which its function returns,
    and what the function reports if it is run. *)
Definition call : Type := Z * Z * option string.

(** Successive calls. *)
Fixpoint cb_run (cb : CircuitBreaker) (calls : list call) : CircuitBreaker :=
  match calls with
  | [] => cb
  | (now, later, r) :: rest => cb_run (cb_step cb now later r).1 rest
  end.

(** The calls fall into one reset window from [t] on: none returns before [t],
    and none is made more than [reset] after it. *)
Definition in_window (t reset : Z) (c : call) : Prop := t <= c.1.2 /\ c.1.1 <= t + reset.

(** The first [n] of the results are failures. *)
Definition fails (n : nat) (rs : list (option string)) : Prop :=
  (n <= length rs)%nat /\ List.Forall (fun r : option string => is_Some r) (take n rs).

Lemma fails_cons n e rs : fails (S n) (Some e :: rs) <-> fails n rs.
Proof.
  unfold fails. simpl. split.
  - intros [H1 H2]. inversion H2; subst. split; [lia|done].
  - intros [H1 H2]. split; [lia|]. constructor; eauto.
Qed.

Lemma fails_none n rs : ~ fails (S n) (None :: rs).
Proof. unfold fails. simpl. intros [_ H]. inversion H as [|? ? [? ?]]; done. Qed.

Lemma fails_le n m rs : (m <= n)%nat -> fails n rs -> fails m rs.
Proof.
  unfold fails. intros Hm [H1 H2]. split; [lia|].
  replace m with (Nat.min m n) by lia.
  rewrite <- take_take. by apply Forall_take.
Qed.

Lemma run_open_stays max reset f last t calls :
  t <= last -> List.Forall (in_window t reset) calls ->
  cb_run (mkBreaker max reset f last Open) calls = mkBreaker max reset f last Open.
Proof.
  intros Hl. induction 1 as [|[[now later] r] calls [_ Hc] _ IH]; simpl in *; [done|].
  unfold cb_step, cb_admit. simpl. by replace (reset <? now - last) with false by lia.
Qed.

(** From a closed breaker that has counted [f] failures. *)
Lemma run_closed max reset (f : nat) last t calls :
  1 <= max <= int64_max -> Z.of_nat f < max -> List.Forall (in_window t reset) calls ->
  cb_state_ (cb_run (mkBreaker max reset (Z.of_nat f) last Closed) calls) = Open <->
  fails (Z.to_nat max - f) (map snd calls) \/ exists k, fails (Z.to_nat max) (drop k (map snd calls)).
Proof.
  intros Hm Hf Hc. revert f last Hf. induction Hc as [|[[now later] r] calls [Hl Hn] Hc IH]; intros f last Hf.
  { simpl. split; [done|]. unfold fails. intros [[? _]|[k [? _]]]; [simpl in *; lia|].
    rewrite drop_nil in *. simpl in *. lia. }
  simpl in Hl, Hn. destruct r as [e|].
  - simpl. unfold cb_step, cb_fail. simpl.
    rewrite wrap64_id by (unfold is_int64, int64_min; lia).
    destruct (max <=? Z.of_nat f + 1) eqn:El; simpl.
    + rewrite (run_open_stays _ _ _ _ t) by done. split; [|done]. intros _. left.
      replace (Z.to_nat max - f)%nat with 1%nat by lia. split; [simpl; lia|]. repeat constructor; eauto.
    + replace (Z.of_nat f + 1) with (Z.of_nat (S f)) by lia. rewrite IH by lia.
      replace (Z.to_nat max - f)%nat with (S (Z.to_nat max - S f)) by lia.
      rewrite fails_cons. split; [intros [?|[k ?]]; [by left|right; by exists (S k)]|].
      intros [?|[[|k] Hk]]; [by left| |right; by exists k].
      left. simpl in Hk. replace (Z.to_nat max) with (S (Z.to_nat max - 1)) in Hk by lia.
      apply fails_cons in Hk. eapply fails_le; [|done]. lia.
  - simpl. unfold cb_step, cb_succeed. simpl. change 0 with (Z.of_nat 0). rewrite IH by lia.
    replace (Z.to_nat max - f)%nat with (S (Z.to_nat max - S f)) by lia. split.
    + intros [H|[k H]]; [right; exists 1%nat|right; by exists (S k)].
      simpl. by rewrite Nat.sub_0_r in H.
    + intros [H|[[|k] H]]; [by apply fails_none in H| |right; by exists k].
      simpl in H. replace (Z.to_nat max) with (S (Z.to_nat max - 1)) in H by lia.
      by apply fails_none in H.
Qed.

(** C17: The breaker opens exactly on [maxFailures] consecutive failures: after
    any sequence of calls at any times within one reset window (none returns
    before its start, none is made after its end) it is open if and only if the
    reports contain [maxFailures] failures in a row; one success in between
    starts the count again. *)
Theorem breaker_opens_on_consecutive_failures (max reset t : Z) (calls : list call) :
  1 <= max <= int64_max -> List.Forall (in_window t reset) calls ->
  cb_state_ (cb_run (NewCircuitBreaker max reset) calls) = Open <->
  exists before after run, map snd calls = before ++ run ++ after /\
    length run = Z.to_nat max /\ List.Forall (fun r : option string => is_Some r) run.
Proof.
  intros Hm Hc. unfold NewCircuitBreaker. change 0 with (Z.of_nat 0) at 1.
  rewrite (run_closed _ _ _ _ t) by (done || lia). rewrite Nat.sub_0_r. generalize (map snd calls). intros rs. split.
  - intros H. assert (exists k, fails (Z.to_nat max) (drop k rs)) as [k [H1 H2]].
    { destruct H as [H|?]; [by exists 0%nat; rewrite drop_0|done]. }
    exists (take k rs), (drop (Z.to_nat max) (drop k rs)), (take (Z.to_nat max) (drop k rs)).
    rewrite !take_drop, length_take. split_and!; [done|lia|done].
  - intros (b & a & run & -> & Hl & Hf). right. exists (length b).
    rewrite drop_app_length. split; [rewrite length_app; lia|].
    rewrite <- Hl, take_app_length. done.
Qed.

Lemma breaker_opens_on_consecutive_failures_witness :
  cb_state_ (cb_run (NewCircuitBreaker 2 Second)
    [(5, 7, Some "e"); (8, 8, None); (9, 12, Some "e"); (12, 20, Some "e"); (20, 25, None)]) = Open.
Proof.
  apply (breaker_opens_on_consecutive_failures 2 Second 7
    [(5, 7, Some "e"); (8, 8, None); (9, 12, Some "e"); (12, 20, Some "e"); (20, 25, None)]).
  - unfold int64_max. lia.
  - repeat constructor; simpl; unfold Second; lia.
  - exists [Some "e"; None], [None], [Some "e"; Some "e"].
    split; [reflexivity|]. split; [reflexivity|]. repeat constructor; eexists; reflexivity.
Defined.

(** ** Open and half-open *)



(** A failed probe does not reopen the breaker when more than one failure
    is allowed: the count restarts at the transition, so the breaker stays
    half-open and the calls that follow are still let through, at any time,
    until [maxFailures] of them have failed. *)
Theorem failed_probe_stays_half_open (cb : CircuitBreaker) (now later t t' : Z) (e : string)
    (r : option string) :
  cb_state_ cb = Open -> 2 <= cb_maxFailures cb ->
  cb_lastFailTime cb + cb_resetTimeout cb < now ->
  let cb1 := (cb_step cb now later (Some e)).1 in
  cb_state_ cb1 = HalfOpen /\ cb_failures cb1 = 1 /\ (cb_step cb1 t t' r).2 = r.
Proof.
  intros Ho Hm Ht. unfold cb_step, cb_admit. rewrite Ho.
  replace (cb_resetTimeout cb <? now - cb_lastFailTime cb) with true by lia.
  unfold cb_fail. cbn [cb_failures cb_maxFailures]. change (wrap64 (0 + 1)) with 1.
  replace (cb_maxFailures cb <=? 1) with false by lia. simpl. split_and!; try done.
  by destruct r.
Qed.

Lemma failed_probe_stays_half_open_witness :
  let cb := mkBreaker 5 Second 5 100 Open in
  let cb1 := (cb_step cb (101 + Second) (102 + Second) (Some "e")).1 in
  cb_state_ cb1 = HalfOpen /\ cb_failures cb1 = 1 /\ (cb_step cb1 (103 + Second) 0 None).2 = None.
Proof.
  apply (failed_probe_stays_half_open (mkBreaker 5 Second 5 100 Open)
           (101 + Second) (102 + Second) (103 + Second) 0 "e" None);
    [reflexivity | simpl; lia | simpl; lia].
Defined.

(** ** The breaker's invariant *)

(** The count is below the limit unless the breaker is open. *)
Definition cb_ok (cb : CircuitBreaker) : Prop :=
  0 <= cb_failures cb <= int64_max /\
  match cb_state_ cb with
  | Open => Z.min (cb_maxFailures cb) 1 <= cb_failures cb
  | _ => cb_failures cb < Z.max (cb_maxFailures cb) 1
  end.

Lemma cb_step_ok cb now later r :
  cb_maxFailures cb <= int64_max -> cb_ok cb -> cb_ok (cb_step cb now later r).1.
Proof.
  intros Hmax [Hf Hs]. unfold cb_step, cb_admit, cb_ok in *.
  assert (forall f, 0 <= f < Z.max (cb_maxFailures cb) 1 -> wrap64 (f + 1) = f + 1) as Hw.
  { intros f ?. apply wrap64_id. unfold is_int64, int64_min, int64_max in *. lia. }
  assert (1 <= int64_max) by (unfold int64_max; lia).
  destruct (cb_state_ cb) eqn:Es; [|case_if|]; try (rewrite Es; simpl; split; [lia|done]).
  all: destruct r as [e|]; unfold cb_fail, cb_succeed; simpl; rewrite ?Es; simpl; try lia.
  all: rewrite Hw by lia; case_if; simpl; rewrite ?Es; lia.
Qed.

(** The reachable breakers: calls at any times, with any results. *)
Inductive cb_reachable (max reset : Z) : CircuitBreaker -> Prop :=
| reach_new : cb_reachable max reset (NewCircuitBreaker max reset)
| reach_call cb now later r :
    cb_reachable max reset cb -> cb_reachable max reset (cb_step cb now later r).1.

Lemma cb_step_config cb now later r :
  cb_maxFailures (cb_step cb now later r).1 = cb_maxFailures cb /\
  cb_resetTimeout (cb_step cb now later r).1 = cb_resetTimeout cb.
Proof.
  unfold cb_step, cb_admit, cb_fail, cb_succeed.
  destruct (cb_state_ cb); try (destruct (_ <? _)); destruct r; simpl; try done;
    by destruct (_ <=? _).
Qed.

(** In every reachable state the failure count is non-negative and does
    not overflow; a breaker that is closed or half-open has counted fewer than
    [maxFailures] failures, so it never lets calls through with the limit
    already reached; and its configuration never changes. *)
Theorem breaker_invariant (max reset : Z) (cb : CircuitBreaker) :
  1 <= max <= int64_max -> cb_reachable max reset cb ->
  cb_maxFailures cb = max /\ cb_resetTimeout cb = reset /\
  0 <= cb_failures cb <= int64_max /\ (cb_state_ cb <> Open -> cb_failures cb < max).
Proof.
  intros Hm Hr.
  assert (cb_maxFailures cb = max /\ cb_resetTimeout cb = reset /\ cb_ok cb) as (Ex & Ey & Hf & Hs).
  { induction Hr as [|cb now later r _ IH].
    - split_and!; try done. unfold cb_ok, NewCircuitBreaker, int64_max. simpl. lia.
    - destruct IH as (Hmax & Hreset & Hok), (cb_step_config cb now later r) as [-> ->].
      split_and!; try done. apply cb_step_ok; [lia|done]. }
  rewrite Ex in Hs. split_and!; try done; try lia.
  destruct (cb_state_ cb); intros; [lia|done|lia].
Qed.

Lemma breaker_invariant_witness :
  cb_maxFailures (cb_step (NewCircuitBreaker 3 Second) 0 5 (Some "e")).1 = 3 /\
  cb_failures (cb_step (NewCircuitBreaker 3 Second) 0 5 (Some "e")).1 < 3.
Proof.
  destruct (breaker_invariant 3 Second (cb_step (NewCircuitBreaker 3 Second) 0 5 (Some "e")).1)
    as (H1 & _ & _ & H2).
  - unfold int64_max. lia.
  - apply reach_call, reach_new.
  - split; [exact H1|]. apply H2. discriminate.
Defined.
