(* ===== verification/DDoS.v ===== *)
(** * DDoS protection (middleware.go)

    Request counters per client address in one-minute windows, timed blocks,
    and permanent allow and deny lists. Times are the values of [time.Now()],
    arguments of each operation; the fields [whitelist] and [blacklist] are Go
    maps to [bool] that are only ever set to true, hence sets. *)

From Stdlib Require Import ZArith Lia String List.
From stdpp Require Import base list strings gmap sets.
From S2P Require Import Prelude.

(** ** Definitions *)

Record RequestCounter := mkCounter { rc_Count : Z; rc_FirstSeen : Z }.

Record DDoSProtection := mkDDoS {
  dd_requests : gmap string RequestCounter;
  dd_blocked : gmap string Z;
  dd_threshold : Z;
  dd_duration : Z;
  dd_whitelist : gset string;
  dd_blacklist : gset string
}.

Definition NewDDoSProtection (threshold duration : Z) : DDoSProtection :=
  mkDDoS ∅ ∅ threshold duration ∅ ∅.

Definition AddToWhitelist (ip : string) (d : DDoSProtection) : DDoSProtection :=
  mkDDoS (dd_requests d) (dd_blocked d) (dd_threshold d) (dd_duration d)
    ({[ip]} ∪ dd_whitelist d) (dd_blacklist d).

Definition AddToBlacklist (ip : string) (d : DDoSProtection) : DDoSProtection :=
  mkDDoS (dd_requests d) (dd_blocked d) (dd_threshold d) (dd_duration d)
    (dd_whitelist d) ({[ip]} ∪ dd_blacklist d).

Definition with_requests (r : gmap string RequestCounter) (d : DDoSProtection) : DDoSProtection :=
  mkDDoS r (dd_blocked d) (dd_threshold d) (dd_duration d) (dd_whitelist d) (dd_blacklist d).

Definition with_blocked (b : gmap string Z) (d : DDoSProtection) : DDoSProtection :=
  mkDDoS (dd_requests d) b (dd_threshold d) (dd_duration d) (dd_whitelist d) (dd_blacklist d).

Definition IsBlocked (ip : string) (now : Z) (d : DDoSProtection) : bool * DDoSProtection :=
  if bool_decide (ip ∈ dd_whitelist d) then (false, d)
  else if bool_decide (ip ∈ dd_blacklist d) then (true, d)
  else match dd_blocked d !! ip with
       | Some blockTime =>
           if now <? blockTime then (true, d)
           else (false, with_blocked (delete ip (dd_blocked d)) d)
       | None => (false, d)
       end.

Definition RecordRequest (ip : string) (now : Z) (d : DDoSProtection) : bool * DDoSProtection :=
  if bool_decide (ip ∈ dd_whitelist d) then (false, d)
  else match dd_requests d !! ip with
       | None => (false, with_requests (<[ip := mkCounter 1 now]> (dd_requests d)) d)
       | Some counter =>
           if Minute <? now - rc_FirstSeen counter
           then (false, with_requests (<[ip := mkCounter 1 now]> (dd_requests d)) d)
           else
             let count := wrap64 (rc_Count counter + 1) in
             let d := with_requests
                        (<[ip := mkCounter count (rc_FirstSeen counter)]> (dd_requests d)) d in
             if dd_threshold d <? count
             then (true, with_blocked (<[ip := now + dd_duration d]> (dd_blocked d)) d)
             else (false, d)
       end.

(** One tick of the background goroutine [cleanup]. *)
Definition cleanup (now : Z) (d : DDoSProtection) : DDoSProtection :=
  with_blocked (base.filter (fun kv : string * Z => ~ (kv.2 < now)) (dd_blocked d))
    (with_requests
       (base.filter (fun kv : string * RequestCounter => ~ (Minute < now - rc_FirstSeen kv.2))
          (dd_requests d)) d).

(** ** Runs *)

Inductive ddos_event : Type :=
| EvIsBlocked (ip : string)
| EvRecordRequest (ip : string)
| EvWhitelist (ip : string)
| EvBlacklist (ip : string)
| EvCleanup.

(** The answer of an event, for those that answer. *)
Definition ddos_step (now : Z) (ev : ddos_event) (d : DDoSProtection)
    : option bool * DDoSProtection :=
  match ev with
  | EvIsBlocked ip => let '(r, d') := IsBlocked ip now d in (Some r, d')
  | EvRecordRequest ip => let '(r, d') := RecordRequest ip now d in (Some r, d')
  | EvWhitelist ip => (None, AddToWhitelist ip d)
  | EvBlacklist ip => (None, AddToBlacklist ip d)
  | EvCleanup => (None, cleanup now d)
  end.

(** The answers along a sequence of timed events. *)
Fixpoint ddos_run (evs : list (Z * ddos_event)) (d : DDoSProtection) : list bool :=
  match evs with
  | [] => []
  | (now, ev) :: rest =>
      let '(r, d') := ddos_step now ev d in
      (match r with Some b => [b] | None => [] end) ++ ddos_run rest d'
  end.

(** The state a sequence of timed events leads to. *)
Fixpoint ddos_after (evs : list (Z * ddos_event)) (d : DDoSProtection) : DDoSProtection :=
  match evs with
  | [] => d
  | (now, ev) :: rest => ddos_after rest (ddos_step now ev d).2
  end.

(** ** What the answers depend on

    At time [t] a counter whose window has passed and a block that has expired
    are as good as absent. Two states with the same live part at [t] answer
    alike from [t] on. *)

Definition counter_at (t : Z) (d : DDoSProtection) (ip : string) : option RequestCounter :=
  match dd_requests d !! ip with
  | Some c => if Minute <? t - rc_FirstSeen c then None else Some c
  | None => None
  end.

Definition block_at (t : Z) (d : DDoSProtection) (ip : string) : option Z :=
  match dd_blocked d !! ip with
  | Some bt => if t <? bt then Some bt else None
  | None => None
  end.

Definition lists (d : DDoSProtection) : Z * Z * gset string * gset string :=
  (dd_threshold d, dd_duration d, dd_whitelist d, dd_blacklist d).

Record same_live (t : Z) (d d' : DDoSProtection) : Prop := {
  sl_counter ip : counter_at t d ip = counter_at t d' ip;
  sl_block ip : block_at t d ip = block_at t d' ip;
  sl_lists : lists d = lists d'
}.

#[export] Instance same_live_equiv t : Equivalence (same_live t).
Proof.
  split.
  - by split.
  - intros d d' [H1 H2 H3]. by split.
  - intros d1 d2 d3 [H1 H2 H3] [H4 H5 H6]. split; intros; by rewrite ?H1, ?H2, ?H3.
Qed.

Lemma same_live_mono t t' d d' : t <= t' -> same_live t d d' -> same_live t' d d'.
Proof.
  intros Ht [H1 H2 H3].
  assert (forall d ip, counter_at t' d ip =
            match counter_at t d ip with
            | Some c => if Minute <? t' - rc_FirstSeen c then None else Some c
            | None => None end) as Hc.
  { intros e ip. unfold counter_at. destruct (dd_requests e !! ip) as [c|]; [|done].
    destruct (Minute <? t - rc_FirstSeen c) eqn:E; [|done].
    by replace (Minute <? t' - rc_FirstSeen c) with true by lia. }
  assert (forall d ip, block_at t' d ip =
            match block_at t d ip with
            | Some bt => if t' <? bt then Some bt else None
            | None => None end) as Hb.
  { intros e ip. unfold block_at. destruct (dd_blocked e !! ip) as [bt|]; [|done].
    destruct (t <? bt) eqn:E; [done|]. by replace (t' <? bt) with false by lia. }
  split; intros; try done; by rewrite ?Hc, ?Hb, ?H1, ?H2.
Qed.

Lemma lists_inj d d' : lists d = lists d' ->
  dd_threshold d = dd_threshold d' /\ dd_duration d = dd_duration d' /\
  dd_whitelist d = dd_whitelist d' /\ dd_blacklist d = dd_blacklist d'.
Proof. unfold lists. intros H. by simplify_eq. Qed.

(** The two operations, restated over the live part. *)
Lemma IsBlocked_live ip now d :
  (IsBlocked ip now d).1 =
    negb (bool_decide (ip ∈ dd_whitelist d)) &&
    (bool_decide (ip ∈ dd_blacklist d) || bool_decide (is_Some (block_at now d ip))) /\
  same_live now (IsBlocked ip now d).2 d.
Proof.
  unfold IsBlocked, block_at.
  destruct (bool_decide (ip ∈ dd_whitelist d)); [done|].
  destruct (bool_decide (ip ∈ dd_blacklist d)); [done|]. simpl.
  destruct (dd_blocked d !! ip) as [bt|] eqn:Eb; [|done].
  destruct (now <? bt) eqn:El; [done|]. split; [done|]. split; try done. intros ip'.
  unfold block_at. simpl. destruct (decide (ip = ip')) as [<-|].
  - by rewrite lookup_delete_eq, Eb, El.
  - by rewrite lookup_delete_ne.
Qed.

(** The counter that [RecordRequest] leaves for a client. *)
Definition next_counter (now : Z) (c : option RequestCounter) : RequestCounter :=
  match c with
  | None => mkCounter 1 now
  | Some c => mkCounter (wrap64 (rc_Count c + 1)) (rc_FirstSeen c)
  end.

(** Whether that request is the one that triggers a block. *)
Definition triggers (threshold now : Z) (c : option RequestCounter) : bool :=
  match c with
  | None => false
  | Some _ => threshold <? rc_Count (next_counter now c)
  end.

Lemma RecordRequest_live ip now d :
  RecordRequest ip now d =
  if bool_decide (ip ∈ dd_whitelist d) then (false, d)
  else
    let c := counter_at now d ip in
    let d1 := with_requests (<[ip := next_counter now c]> (dd_requests d)) d in
    if triggers (dd_threshold d) now c
    then (true, with_blocked (<[ip := now + dd_duration d]> (dd_blocked d)) d1)
    else (false, d1).
Proof.
  unfold RecordRequest, counter_at. destruct (bool_decide _); [done|].
  destruct (dd_requests d !! ip) as [c|]; [|done]. by destruct (Minute <? _).
Qed.

Lemma cleanup_live now d : same_live now (cleanup now d) d.
Proof.
  split; [| |done]; intros ip; unfold counter_at, block_at, cleanup; simpl.
  - destruct (dd_requests d !! ip) as [c|] eqn:E.
    + destruct (Minute <? now - rc_FirstSeen c) eqn:El.
      * rewrite map_lookup_filter_None_2; [done|]. right. intros c' Hc'. simplify_eq. simpl. lia.
      * rewrite (map_lookup_filter_Some_2 _ _ _ c); [by rewrite El|done|simpl; lia].
    + rewrite map_lookup_filter_None_2; [done|]. by left.
  - destruct (dd_blocked d !! ip) as [bt|] eqn:E.
    + destruct (decide (bt < now)).
      * rewrite map_lookup_filter_None_2; [by replace (now <? bt) with false by lia|].
        right. intros b' Hb'. simplify_eq. simpl. lia.
      * by rewrite (map_lookup_filter_Some_2 _ _ _ bt).
    + rewrite map_lookup_filter_None_2; [done|]. by left.
Qed.

Lemma same_live_insert_request now d d' ip c :
  same_live now d d' ->
  same_live now (with_requests (<[ip := c]> (dd_requests d)) d)
                (with_requests (<[ip := c]> (dd_requests d')) d').
Proof.
  intros [H1 H2 H3]. split; [|exact H2|exact H3]. intros ip'. specialize (H1 ip').
  unfold counter_at in *. simpl. destruct (decide (ip = ip')) as [<-|].
  - by rewrite !lookup_insert_eq.
  - by rewrite !lookup_insert_ne.
Qed.

Lemma same_live_insert_block now d d' ip bt :
  same_live now d d' ->
  same_live now (with_blocked (<[ip := bt]> (dd_blocked d)) d)
                (with_blocked (<[ip := bt]> (dd_blocked d')) d').
Proof.
  intros [H1 H2 H3]. split; [exact H1| |exact H3]. intros ip'. specialize (H2 ip').
  unfold block_at in *. simpl. destruct (decide (ip = ip')) as [<-|].
  - by rewrite !lookup_insert_eq.
  - by rewrite !lookup_insert_ne.
Qed.

(** Every event answers alike on states with the same live part, and keeps
    their live parts equal. *)
Lemma ddos_step_live now ev d d' :
  same_live now d d' ->
  (ddos_step now ev d).1 = (ddos_step now ev d').1 /\
  same_live now (ddos_step now ev d).2 (ddos_step now ev d').2.
Proof.
  intros Hs. pose proof Hs as [H1 H2 H3]. apply lists_inj in H3 as (Et & Ed & Ew & Eb).
  destruct ev as [ip|ip|ip|ip|]; simpl.
  - destruct (IsBlocked_live ip now d) as [Ea Sa], (IsBlocked_live ip now d') as [Ea' Sa'].
    destruct (IsBlocked ip now d) as [r e], (IsBlocked ip now d') as [r' e']. simpl in *.
    split; [by rewrite Ea, Ea', Ew, Eb, H2|]. by rewrite Sa, Sa'.
  - rewrite !RecordRequest_live, Ew, Et, Ed, H1. destruct (bool_decide _); [done|].
    cbv zeta. destruct (triggers _ _ _); simpl; (split; [done|]).
    + by apply (same_live_insert_block now (with_requests _ d) (with_requests _ d')),
        same_live_insert_request.
    + by apply same_live_insert_request.
  - split; [done|]. split; try done. simpl. unfold lists. simpl. congruence.
  - split; [done|]. split; try done. simpl. unfold lists. simpl. congruence.
  - split; [done|]. by rewrite !cleanup_live.
Qed.

(** Times along a run do not decrease. *)
Fixpoint times_from (t : Z) (evs : list (Z * ddos_event)) : Prop :=
  match evs with
  | [] => True
  | (now, _) :: rest => t <= now /\ times_from now rest
  end.

Definition is_cleanup (ev : Z * ddos_event) : bool :=
  match ev.2 with EvCleanup => true | _ => false end.

Lemma ddos_run_live t evs d d' :
  times_from t evs -> same_live t d d' ->
  ddos_run evs d = ddos_run (List.filter (fun ev => negb (is_cleanup ev)) evs) d'.
Proof.
  revert t d d'. induction evs as [|[now ev] evs IH]; intros t d d' Ht Hs; [done|].
  destruct Ht as [Ht Htr]. apply (same_live_mono _ now) in Hs; [|done].
  destruct (is_cleanup (now, ev)) eqn:Ec; simpl; rewrite Ec; simpl.
  - destruct ev; try done. simpl. apply (IH now); [done|]. by rewrite cleanup_live.
  - destruct (ddos_step_live now ev d d' Hs) as [E1 E2].
    destruct (ddos_step now ev d) as [r e], (ddos_step now ev d') as [r' e']. simpl in *.
    subst. f_equal. by apply (IH now).
Qed.

(** C20: the cleanup goroutine is invisible. Along any sequence of operations
    at non-decreasing times, the ticks of [cleanup] change no answer of
    [IsBlocked] or [RecordRequest]: dropping them all from the sequence gives the
    same answers. *)
Theorem cleanup_transparent (t : Z) (evs : list (Z * ddos_event)) (d : DDoSProtection) :
  times_from t evs ->
  ddos_run evs d = ddos_run (List.filter (fun ev => negb (is_cleanup ev)) evs) d.
Proof. intros Ht. by apply (ddos_run_live t). Qed.

Lemma cleanup_transparent_witness :
  let evs := [(0, EvRecordRequest "a"); (1, EvRecordRequest "a"); (2, EvCleanup);
              (3, EvIsBlocked "a")] in
  ddos_run evs (NewDDoSProtection 1 Minute) = [false; true; true] /\
  ddos_run evs (NewDDoSProtection 1 Minute) =
  ddos_run [(0, EvRecordRequest "a"); (1, EvRecordRequest "a"); (3, EvIsBlocked "a")]
    (NewDDoSProtection 1 Minute).
Proof.
  intros evs. split; [reflexivity|].
  apply (cleanup_transparent 0 evs (NewDDoSProtection 1 Minute)). simpl. lia.
Defined.

(** ** The lists *)

Lemma ddos_step_lists now ev d :
  dd_whitelist d ⊆ dd_whitelist (ddos_step now ev d).2 /\
  dd_blacklist d ⊆ dd_blacklist (ddos_step now ev d).2.
Proof.
  destruct ev as [ip|ip|ip|ip|]; simpl; try (split; set_solver).
  - destruct (IsBlocked_live ip now d) as [_ [_ _ E]]. destruct (IsBlocked ip now d) as [r e].
    simpl in *. apply lists_inj in E as (_ & _ & -> & ->). done.
  - rewrite RecordRequest_live. destruct (bool_decide _); [done|]. cbv zeta.
    by destruct (triggers _ _ _).
Qed.

Lemma ddos_after_lists evs d :
  dd_whitelist d ⊆ dd_whitelist (ddos_after evs d) /\
  dd_blacklist d ⊆ dd_blacklist (ddos_after evs d).
Proof.
  revert d. induction evs as [|[now ev] evs IH]; intros d; simpl; [done|].
  destruct (ddos_step_lists now ev d), (IH (ddos_step now ev d).2). split; by etrans.
Qed.

(** The lists are permanent and the whitelist wins. Whatever happens
    later, a whitelisted address is never blocked and its requests are not even
    counted, also when it is blacklisted; a blacklisted address stays blocked
    until it is whitelisted. *)
Theorem whitelist_over_blacklist (evs : list (Z * ddos_event)) (d : DDoSProtection)
    (ip : string) (now : Z) :
  let d' := ddos_after evs d in
  (ip ∈ dd_whitelist d ->
     IsBlocked ip now d' = (false, d') /\ RecordRequest ip now d' = (false, d')) /\
  (ip ∈ dd_blacklist d -> ip ∉ dd_whitelist d' -> IsBlocked ip now d' = (true, d')).
Proof.
  intros d'. destruct (ddos_after_lists evs d) as [Hw Hb]. fold d' in Hw, Hb.
  unfold IsBlocked, RecordRequest. split.
  - intros Hin. by rewrite !(bool_decide_eq_true_2 (ip ∈ dd_whitelist d')) by set_solver.
  - intros Hin Hn. rewrite (bool_decide_eq_false_2 _ Hn).
    by rewrite (bool_decide_eq_true_2 (ip ∈ dd_blacklist d')) by set_solver.
Qed.

Lemma whitelist_over_blacklist_witness :
  let d := AddToBlacklist "x" (AddToWhitelist "x" (NewDDoSProtection 5 Minute)) in
  IsBlocked "x" 9 d = (false, d).
Proof.
  intros d. destruct (whitelist_over_blacklist [] d "x" 9) as [H _].
  apply H. unfold d. apply elem_of_union_l, elem_of_singleton_2. reflexivity.
Defined.

(** ** The threshold *)

(** The answers of successive requests of one client at the given times. *)
Definition requests_at (ip : string) (ts : list Z) : list (Z * ddos_event) :=
  map (fun t => (t, EvRecordRequest ip)) ts.

(** From a counter in its window, the [k]-th further request is over the
    threshold exactly when the count says so. *)
Lemma requests_in_window ip t0 ts n d :
  ip ∉ dd_whitelist d -> dd_requests d !! ip = Some (mkCounter n t0) ->
  0 <= n -> n + Z.of_nat (length ts) <= int64_max ->
  (forall t, In t ts -> t <= t0 + Minute) ->
  ddos_run (requests_at ip ts) d =
  map (fun k => dd_threshold d <? n + 1 + Z.of_nat k) (seq 0 (length ts)).
Proof.
  revert n d. induction ts as [|t ts IH]; intros n d Hw Hr Hn Hm Ht; [done|].
  simpl in Hm, Ht |- *. unfold RecordRequest. rewrite (bool_decide_eq_false_2 _ Hw), Hr. simpl.
  replace (Minute <? t - t0) with false by (specialize (Ht t (or_introl eq_refl)); lia).
  rewrite wrap64_id by (unfold is_int64, int64_min; lia). rewrite Z.add_0_r.
  rewrite <- seq_shift, map_map.
  destruct (dd_threshold d <? n + 1); simpl; f_equal;
    (rewrite (IH (n + 1)); simpl;
     [apply map_ext; intros k; f_equal; lia|done|by rewrite lookup_insert_eq|lia|lia|auto]).
Qed.

(** From a client without a live counter. *)
Lemma requests_from_fresh ip t0 ts d :
  ip ∉ dd_whitelist d -> counter_at t0 d ip = None ->
  1 + Z.of_nat (length ts) <= int64_max -> (forall t, In t ts -> t <= t0 + Minute) ->
  ddos_run (requests_at ip (t0 :: ts)) d =
  false :: map (fun k => dd_threshold d <? Z.of_nat k) (seq 2 (length ts)).
Proof.
  intros Hw Hc Hm Ht. simpl. rewrite RecordRequest_live, (bool_decide_eq_false_2 _ Hw), Hc.
  simpl. f_equal. rewrite (requests_in_window ip t0 ts 1); simpl; try done.
  - rewrite <- !seq_shift, !map_map. apply map_ext. intros k. f_equal. lia.
  - by rewrite lookup_insert_eq.
Qed.

(** C19: the threshold is exact. For a client that is not whitelisted and has
    no live counter, the first request of a window passes, and the [k]-th
    request within one minute of it is reported as the block trigger exactly
    when [k] exceeds the threshold. *)
Theorem threshold_exact (ip : string) (t0 : Z) (ts : list Z) (d : DDoSProtection) :
  ip ∉ dd_whitelist d -> counter_at t0 d ip = None ->
  1 + Z.of_nat (length ts) <= int64_max -> (forall t, In t ts -> t <= t0 + Minute) ->
  ddos_run (requests_at ip (t0 :: ts)) d =
  false :: map (fun k => dd_threshold d <? Z.of_nat k) (seq 2 (length ts)).
Proof. apply requests_from_fresh. Qed.

Lemma threshold_exact_witness :
  ddos_run (requests_at "a" [0; 10; 20; 30]) (NewDDoSProtection 2 Minute)
  = [false; false; true; true].
Proof.
  apply (threshold_exact "a" 0 [10; 20; 30] (NewDDoSProtection 2 Minute)).
  - apply not_elem_of_empty.
  - reflexivity.
  - unfold int64_max. simpl. lia.
  - unfold Minute. simpl. lia.
Defined.

(** A block lasts exactly its duration. When [RecordRequest] reports a
    trigger at time [now], the client is blocked at every time before
    [now + duration] and at none from then on, with or without a tick of
    [cleanup] before the question. *)
Theorem block_lasts_duration (ip : string) (now : Z) (d d' : DDoSProtection) (t : Z) :
  RecordRequest ip now d = (true, d') -> ip ∉ dd_blacklist d ->
  now <= t ->
  (IsBlocked ip t d').1 = (t <? now + dd_duration d) /\
  (IsBlocked ip t (cleanup t d')).1 = (t <? now + dd_duration d).
Proof.
  rewrite RecordRequest_live. destruct (bool_decide (ip ∈ dd_whitelist d)) eqn:Ew; [done|].
  apply bool_decide_eq_false in Ew. cbv zeta. destruct (triggers _ _ _); [|done].
  intros [= <-] Hb Ht.
  assert (forall e, same_live t e (with_blocked (<[ip := now + dd_duration d]> (dd_blocked d))
            (with_requests (<[ip := next_counter now (counter_at now d ip)]> (dd_requests d)) d)) ->
          (IsBlocked ip t e).1 = (t <? now + dd_duration d)) as Hans.
  { intros e [_ He El]. destruct (IsBlocked_live ip t e) as [-> _].
    apply lists_inj in El as (_ & _ & -> & ->). simpl. rewrite He.
    rewrite (bool_decide_eq_false_2 _ Ew), (bool_decide_eq_false_2 _ Hb). unfold block_at. simpl.
    rewrite lookup_insert_eq. by destruct (t <? now + dd_duration d). }
  split; apply Hans; [done|apply cleanup_live].
Qed.

Lemma block_lasts_duration_witness :
  let d := (ddos_after (requests_at "a" [0; 1]) (NewDDoSProtection 2 Second)) in
  let d' := (RecordRequest "a" 2 d).2 in
  (IsBlocked "a" (1 + Second) d').1 = true /\ (IsBlocked "a" (2 + Second) d').1 = false.
Proof.
  intros d d'. split.
  - apply (block_lasts_duration "a" 2 d d' (1 + Second));
      [reflexivity|apply not_elem_of_empty|unfold Second; lia].
  - apply (block_lasts_duration "a" 2 d d' (2 + Second));
      [reflexivity|apply not_elem_of_empty|unfold Second; lia].
Defined.

(** ** The window is fixed *)

Lemma ddos_run_app evs evs' d :
  ddos_run (evs ++ evs') d = ddos_run evs d ++ ddos_run evs' (ddos_after evs d).
Proof.
  revert d. induction evs as [|[now ev] evs IH]; intros d; simpl; [done|].
  destruct (ddos_step now ev d) as [r d']. simpl. by rewrite IH, app_assoc.
Qed.

Lemma requests_at_app ip ts ts' :
  requests_at ip (ts ++ ts') = requests_at ip ts ++ requests_at ip ts'.
Proof. apply map_app. Qed.

(** Within a window the time of the first request stays, and requests leave the
    configuration alone. *)
Lemma requests_keep_first_seen ip t0 ts d :
  ip ∉ dd_whitelist d -> (exists n, dd_requests d !! ip = Some (mkCounter n t0)) ->
  (forall t, In t ts -> t <= t0 + Minute) ->
  (exists n, dd_requests (ddos_after (requests_at ip ts) d) !! ip = Some (mkCounter n t0)) /\
  lists (ddos_after (requests_at ip ts) d) = lists d.
Proof.
  revert d. induction ts as [|t ts IH]; intros d Hw [n Hn] Ht; [by eauto|].
  simpl. unfold RecordRequest. rewrite (bool_decide_eq_false_2 _ Hw), Hn. simpl.
  replace (Minute <? t - t0) with false by (specialize (Ht t (or_introl eq_refl)); lia).
  assert (forall t, In t ts -> t <= t0 + Minute) as Ht' by (intros; apply Ht; by right).
  destruct (_ <? _); simpl;
    (match goal with |- context [ddos_after _ ?e] => destruct (IH e) as [IH1 IH2] end;
     simpl; rewrite ?lookup_insert_eq; eauto).
Qed.

Lemma map_below_threshold (k m : nat) (b : Z) :
  Z.of_nat k + Z.of_nat m <= b + 1 ->
  map (fun i => b <? Z.of_nat i) (seq k m) = repeat false m.
Proof.
  revert k. induction m as [|m IH]; intros k H; simpl; [done|].
  rewrite IH by lia. f_equal. lia.
Qed.

(** The window is fixed, not sliding. With threshold [n + 1], a client
    can send one request, [n] more at the last instant of its window and [n + 1]
    a nanosecond later, and none of them triggers a block: the limit bounds the
    requests of each window, not those of every minute. *)
Theorem window_is_not_sliding (n : nat) (duration : Z) (ip : string) :
  Z.of_nat n + 1 <= int64_max ->
  ddos_run (requests_at ip (0 :: repeat Minute n ++ (Minute + 1) :: repeat (Minute + 1) n))
    (NewDDoSProtection (Z.of_nat n + 1) duration)
  = repeat false ((n + 1) + (n + 1)).
Proof.
  intros Hn. set (d := NewDDoSProtection _ _).
  assert (ip ∉ dd_whitelist d) as Hw by apply not_elem_of_empty.
  rewrite app_comm_cons, requests_at_app, ddos_run_app, requests_from_fresh; rewrite ?repeat_length; try done; [|lia|].
  2: { intros t Ht%repeat_spec. lia. }
  assert (forall t, In t (repeat Minute n) -> t <= 0 + Minute) as Ht by (intros t ->%repeat_spec; lia).
  set (d1 := ddos_after _ _).
  assert ((exists m, dd_requests d1 !! ip = Some (mkCounter m 0)) /\ lists d1 = lists d)
    as [[m Hm] (Eth & _ & Ewl & _)%lists_inj].
  { unfold d1. simpl. rewrite RecordRequest_live, (bool_decide_eq_false_2 _ Hw). simpl.
    destruct (requests_keep_first_seen ip 0 (repeat Minute n)
                (with_requests (<[ip := mkCounter 1 0]> ∅) d)) as [? ?]; eauto.
    simpl. rewrite lookup_insert_eq. eauto. }
  rewrite requests_from_fresh; rewrite ?repeat_length, ?Ewl; try done; try lia.
  - rewrite Eth. simpl. rewrite !map_below_threshold by lia.
    rewrite !(Nat.add_comm n 1). simpl. by rewrite repeat_app.
  - unfold counter_at. rewrite Hm. reflexivity.
  - intros t ->%repeat_spec. unfold Minute. lia.
Qed.

Lemma window_is_not_sliding_witness :
  ddos_run (requests_at "a" [0; Minute; Minute; Minute + 1; Minute + 1; Minute + 1])
    (NewDDoSProtection 3 Second) = repeat false 6.
Proof. apply (window_is_not_sliding 2 Second "a"). unfold int64_max. lia. Defined.

(** ** Clients do not interfere *)

(** The address an event is about; [cleanup] is about none. *)
Definition event_ip (ev : ddos_event) : option string :=
  match ev with
  | EvIsBlocked ip | EvRecordRequest ip | EvWhitelist ip | EvBlacklist ip => Some ip
  | EvCleanup => None
  end.

(** The answers given to client [ip] along a run. *)
Fixpoint answers_for (ip : string) (evs : list (Z * ddos_event)) (d : DDoSProtection)
    : list bool :=
  match evs with
  | [] => []
  | (now, ev) :: rest =>
      let '(r, d') := ddos_step now ev d in
      (match r with
       | Some b => if bool_decide (event_ip ev = Some ip) then [b] else []
       | None => []
       end) ++ answers_for ip rest d'
  end.

(** What a client's answers depend on. *)
Definition view (ip : string) (d : DDoSProtection) :=
  (dd_requests d !! ip, dd_blocked d !! ip, dd_threshold d, dd_duration d,
   bool_decide (ip ∈ dd_whitelist d), bool_decide (ip ∈ dd_blacklist d)).

Lemma step_other ip ip' now ev d :
  event_ip ev = Some ip' -> ip' <> ip -> view ip (ddos_step now ev d).2 = view ip d.
Proof.
  intros He Hne. assert (forall s : gset string, bool_decide (ip ∈ {[ip']} ∪ s) = bool_decide (ip ∈ s))
    as Hs by (intros s; apply bool_decide_ext; set_solver).
  destruct ev; simplify_eq/=; unfold view.
  - unfold IsBlocked. repeat case_if; simpl; try done.
    destruct (dd_blocked d !! ip') as [bt|]; [|done]. case_if; simpl; [done|].
    by rewrite lookup_delete_ne.
  - rewrite RecordRequest_live. case_if; [done|]. cbv zeta. case_if; simpl;
      by rewrite !lookup_insert_ne.
  - simpl. by rewrite Hs.
  - simpl. by rewrite Hs.
Qed.

Lemma step_same ip now ev d d' :
  view ip d = view ip d' -> event_ip ev = Some ip \/ event_ip ev = None ->
  (ddos_step now ev d).1 = (ddos_step now ev d').1 /\
  view ip (ddos_step now ev d).2 = view ip (ddos_step now ev d').2.
Proof.
  unfold view. intros E [He|He].
  - injection E as E1 E2 E3 E4 E5 E6.
    assert (forall s : gset string, bool_decide (ip ∈ {[ip]} ∪ s) = true) as Hs
      by (intros s; apply bool_decide_eq_true_2; set_solver).
    destruct ev; simplify_eq/=.
    + unfold IsBlocked. rewrite E5, E6, E2. repeat case_if; simpl; [split; congruence..|].
      destruct (dd_blocked d' !! ip) as [bt|] eqn:Eb; simpl; [|split; congruence].
      case_if; simpl; rewrite ?lookup_delete_eq; split; congruence.
    + rewrite !RecordRequest_live. unfold counter_at. rewrite E5, E1, E3, E4.
      destruct (bool_decide (ip ∈ dd_whitelist d')) eqn:Ew; simpl; [split; congruence|].
      destruct (triggers _ _ _); simpl; rewrite !lookup_insert_eq; split; congruence.
    + simpl. rewrite !Hs. by rewrite E1, E2, E3, E4, E6.
    + simpl. rewrite !Hs. by rewrite E1, E2, E3, E4, E5.
  - destruct ev; try discriminate. injection E as E1 E2 E3 E4 E5 E6. simpl. split; [done|].
    rewrite !map_lookup_filter, E1, E2. by rewrite E3, E4, E5, E6.
Qed.

(** C21: clients do not interfere. The answers a client gets along any run are
    those of the run in which the requests, questions and list changes of every
    other client are left out. *)
Theorem client_isolation (ip : string) (evs : list (Z * ddos_event)) (d : DDoSProtection) :
  answers_for ip evs d =
  ddos_run (List.filter
              (fun ev => match event_ip ev.2 with
                         | Some ip' => bool_decide (ip' = ip) | None => true end) evs) d.
Proof.
  assert (forall d', view ip d = view ip d' -> answers_for ip evs d =
    ddos_run (List.filter (fun ev => match event_ip ev.2 with
                | Some ip' => bool_decide (ip' = ip) | None => true end) evs) d') as H;
    [|by apply H].
  revert d. induction evs as [|[now ev] evs IH]; intros d d' E; [done|]. simpl.
  destruct (event_ip ev) as [ip'|] eqn:Ei.
  - destruct (decide (ip' = ip)) as [->|Hip].
    + rewrite (bool_decide_eq_true_2 (ip = ip)) by done. simpl.
      destruct (step_same ip now ev d d' E (or_introl Ei)) as [Er Ev].
      destruct (ddos_step now ev d) as [r e], (ddos_step now ev d') as [r' e']. simpl in *. subst.
      rewrite (bool_decide_eq_true_2 (Some ip = Some ip)) by done. by rewrite (IH e e').
    + rewrite (bool_decide_eq_false_2 (ip' = ip)) by done.
      pose proof (step_other ip ip' now ev d Ei Hip) as Ev.
      destruct (ddos_step now ev d) as [r e]. simpl in Ev.
      rewrite (bool_decide_eq_false_2 (Some ip' = Some ip)) by congruence.
      rewrite (IH e d') by congruence. by destruct r.
  - destruct (step_same ip now ev d d' E (or_intror Ei)) as [Er Ev]. simpl.
    destruct ev; try discriminate. simpl. by apply IH.
Qed.
