(* ===== verification/Http.v ===== *)
(** * Package [net/http], as far as the gateway uses it

    Header maps with canonical keys, requests, the server's response writer
    with its rules on status lines and bodies, the interface
    [http.ResponseWriter] as a type class, and [http.Error]. *)

From Stdlib Require Import ZArith Lia Ascii String List.
From stdpp Require Import base list strings gmap.
From S2P Require Import Prelude GoStrings Urls.

(** ** Headers *)

Abbreviation Header := (gmap string (list string)).

(** [validHeaderFieldByte]: the token characters of RFC 7230. *)
Definition token_byte (c : ascii) : bool :=
  is_upper c || is_lower c || is_digit c ||
  existsb (Ascii.eqb c) (list_ascii_of_string "!#$%&'*+-.^_`|~").

Fixpoint canonical_aux (upper : bool) (s : string) : string :=
  match s with
  | EmptyString => ""
  | String c s' =>
      String (if upper then upper_byte c else lower_byte c) (canonical_aux (Ascii.eqb c "-") s')
  end.

(** [textproto.CanonicalMIMEHeaderKey]. *)
Definition CanonicalHeaderKey (s : string) : string :=
  if sforall token_byte s then canonical_aux true s else s.

Definition values (h : Header) (key : string) : list string := default [] (h !! CanonicalHeaderKey key).

Definition header_Get (h : Header) (key : string) : string :=
  match values h key with v :: _ => v | [] => "" end.
Definition header_Set (key value : string) (h : Header) : Header :=
  <[CanonicalHeaderKey key := [value]]> h.
Definition header_Add (key value : string) (h : Header) : Header :=
  <[CanonicalHeaderKey key := values h key ++ [value]]> h.
Definition header_Del (key : string) (h : Header) : Header := delete (CanonicalHeaderKey key) h.

(** [copyHeader(dst, src)] of httputil: adds every value. *)
Definition copyHeader (dst src : Header) : Header :=
  map_fold (fun k vv dst => fold_left (fun dst v => header_Add k v dst) vv dst) dst src.

(** ** Requests *)

Record Request := mkRequest {
  rq_Method : string;
  rq_URL : URL;
  rq_Host : string;
  rq_Header : Header;
  rq_RemoteAddr : string;
  rq_TLS : bool
}.

Definition with_header (h : Header) (r : Request) : Request :=
  mkRequest (rq_Method r) (rq_URL r) (rq_Host r) h (rq_RemoteAddr r) (rq_TLS r).
Definition with_url (u : URL) (r : Request) : Request :=
  mkRequest (rq_Method r) u (rq_Host r) (rq_Header r) (rq_RemoteAddr r) (rq_TLS r).
Definition with_host (host : string) (r : Request) : Request :=
  mkRequest (rq_Method r) (rq_URL r) host (rq_Header r) (rq_RemoteAddr r) (rq_TLS r).

(** [r.Header.Get(key)] and [r.Header.Set(key, value)]. *)
Definition hget (r : Request) (key : string) : string := header_Get (rq_Header r) key.
Definition hset (key value : string) (r : Request) : Request :=
  with_header (header_Set key value (rq_Header r)) r.

(** ** The server's response *)

(** The state of one response on its connection: the header map a handler
    sees, and what has been put on the wire: informational status lines, the
    final status line with its headers, and the body bytes that were taken;
    [rs_written] counts the bytes offered, as the server does for its check of a
    declared length. *)
Record response := mkResponse {
  rs_header : Header;
  rs_hijackable : bool;
  rs_hijacked : bool;
  rs_wroteHeader : bool;
  rs_status : Z;
  rs_sent : Header;
  rs_informational : list Z;
  rs_body : string;
  rs_written : Z
}.

Definition new_response (hijackable : bool) : response :=
  mkResponse ∅ hijackable false false 0 ∅ [] "" 0.

Definition with_rs_header (h : Header) (s : response) : response :=
  mkResponse h (rs_hijackable s) (rs_hijacked s) (rs_wroteHeader s) (rs_status s) (rs_sent s)
    (rs_informational s) (rs_body s) (rs_written s).

Definition ErrHijacked : string := "http: connection has been hijacked".
Definition ErrBodyNotAllowed : string :=
  "http: request method or response status code does not allow body".
Definition ErrContentLength : string := "http: wrote more than the declared Content-Length".

(** [strconv.ParseInt(s, 10, 64)] is [Atoi]. The length a header declares; one
    that is no natural number is ignored. *)
Definition declared_length (h : Header) : option Z :=
  match Atoi (header_Get h "Content-Length") with
  | Some n => if 0 <=? n then Some n else None
  | None => None
  end.

(** An informational status does not end the response; 101 does. *)
Definition is_informational (code : Z) : bool :=
  (100 <=? code) && (code <=? 199) && negb (code =? 101).

Definition bodyAllowedForStatus (code : Z) : bool :=
  negb (((100 <=? code) && (code <=? 199)) || (code =? 204) || (code =? 304)).

(** [response.WriteHeader]. *)
Definition response_WriteHeader (code : Z) : M response unit := fun s =>
  if rs_hijacked s then (Ret tt, s)
  else if rs_wroteHeader s then (Ret tt, s)
  else if (code <? 100) || (999 <? code) then (Panic "invalid WriteHeader code", s)
  else if is_informational code then
    (Ret tt, mkResponse (rs_header s) (rs_hijackable s) false false (rs_status s) (rs_sent s)
               (rs_informational s ++ [code]) (rs_body s) (rs_written s))
  else
    (Ret tt, mkResponse (rs_header s) (rs_hijackable s) false true code (rs_header s)
               (rs_informational s) (rs_body s) (rs_written s)).

(** The bytes are taken unless the response declared a length and this write
    goes beyond it; a write that is refused counts as well. *)
Definition take_bytes (data : string) : M response (Z * option string) := fun s =>
  let written := wrap64 (rs_written s + Z.of_nat (slen data)) in
  let with_bytes body := mkResponse (rs_header s) (rs_hijackable s) (rs_hijacked s)
    (rs_wroteHeader s) (rs_status s) (rs_sent s) (rs_informational s) body written in
  if match declared_length (rs_sent s) with Some n => n <? written | None => false end
  then (Ret (0, Some ErrContentLength), with_bytes (rs_body s))
  else (Ret (Z.of_nat (slen data), None), with_bytes (rs_body s +:+ data)).

(** [response.Write]: the number of bytes taken, and the error. *)
Definition response_Write (data : string) : M response (Z * option string) :=
  hijacked ← gets rs_hijacked;
  if hijacked : bool then mret (0, Some ErrHijacked)
  else
    wrote ← gets rs_wroteHeader;
    (if wrote : bool then mret tt else response_WriteHeader 200) ;;
    status ← gets rs_status;
    if String.eqb data "" then mret (0, None)
    else if negb (bodyAllowedForStatus status) then mret (0, Some ErrBodyNotAllowed)
    else take_bytes data.

(** [response.Flush] puts an implicit 200 on the wire. *)
Definition response_Flush : M response unit :=
  wrote ← gets rs_wroteHeader;
  if wrote : bool then mret tt else response_WriteHeader 200.

(** [response.Hijack]. *)
Definition response_Hijack : M response (option string) := fun s =>
  if rs_hijacked s then (Ret (Some ErrHijacked), s)
  else (Ret None, mkResponse (rs_header s) (rs_hijackable s) true (rs_wroteHeader s)
                    (rs_status s) (rs_sent s) (rs_informational s) (rs_body s) (rs_written s)).

(** The final status the client reads once the handler has returned: the
    server sends 200 for a handler that wrote none. *)
Definition client_status (s : response) : Z := if rs_wroteHeader s then rs_status s else 200.

(** The body the client reads: the connection drops the bytes of an answer to
    HEAD. *)
Definition client_body (method : string) (s : response) : string :=
  if String.eqb method "HEAD" then "" else rs_body s.

(** ** The interface *)

(** [http.ResponseWriter]: the header map is an object the writer shares with
    its callers, so it is read and replaced. *)
Class ResponseWriter (T : Type) := {
  rw_Header : T -> Header;
  rw_setHeader : Header -> T -> T;
  rw_WriteHeader : Z -> M T unit;
  rw_Write : string -> M T (Z * option string)
}.

#[export] Instance response_writer : ResponseWriter response := {|
  rw_Header := rs_header;
  rw_setHeader := with_rs_header;
  rw_WriteHeader := response_WriteHeader;
  rw_Write := response_Write
|}.

Definition newline : string := String (ascii_of_nat 10) "".

(** [http.Error]. *)
Definition http_Error {T} `{ResponseWriter T} (msg : string) (code : Z) : M T unit :=
  modify (fun w => rw_setHeader
    (header_Set "X-Content-Type-Options" "nosniff"
      (header_Set "Content-Type" "text/plain; charset=utf-8"
        (header_Del "Content-Length" (rw_Header w)))) w) ;;
  rw_WriteHeader code ;;
  rw_Write (msg +:+ newline) ;;
  mret tt.

(** ** Lemmas *)

Lemma header_Get_Set k k' v h :
  header_Get (header_Set k v h) k' =
  if String.eqb (CanonicalHeaderKey k) (CanonicalHeaderKey k') then v else header_Get h k'.
Proof.
  unfold header_Get, values, header_Set. destruct (String.eqb _ _) eqn:E; bool_prop.
  - by rewrite E, lookup_insert_eq.
  - by rewrite lookup_insert_ne.
Qed.

Lemma hget_hset k k' v r :
  hget (hset k v r) k' =
  if String.eqb (CanonicalHeaderKey k) (CanonicalHeaderKey k') then v else hget r k'.
Proof. apply header_Get_Set. Qed.

Lemma slen_pos (s : string) : s <> "" -> (1 <= slen s)%nat.
Proof. destruct s; simpl; [done|lia]. Qed.

(** A final status is written once, on a fresh response. *)
Lemma response_WriteHeader_final code s :
  rs_hijacked s = false -> rs_wroteHeader s = false -> 200 <= code <= 999 ->
  response_WriteHeader code s =
  (Ret tt, mkResponse (rs_header s) (rs_hijackable s) false true code (rs_header s)
             (rs_informational s) (rs_body s) (rs_written s)).
Proof.
  intros H1 H2 Hc. unfold response_WriteHeader, is_informational. rewrite H1, H2.
  replace ((code <? 100) || (999 <? code)) with false by lia.
  by replace ((100 <=? code) && (code <=? 199) && negb (code =? 101)) with false by lia.
Qed.

(** Without a declared length every byte is taken. *)
Lemma take_bytes_free data s :
  declared_length (rs_sent s) = None ->
  take_bytes data s = (Ret (Z.of_nat (slen data), None),
    mkResponse (rs_header s) (rs_hijackable s) (rs_hijacked s) (rs_wroteHeader s) (rs_status s) (rs_sent s)
      (rs_informational s) (rs_body s +:+ data) (wrap64 (rs_written s + Z.of_nat (slen data)))).
Proof. intros Hd. unfold take_bytes. by rewrite Hd. Qed.

Lemma declared_length_Set k v h :
  CanonicalHeaderKey k <> "Content-Length" -> declared_length (header_Set k v h) = declared_length h.
Proof.
  intros Hk. unfold declared_length. rewrite header_Get_Set. change (CanonicalHeaderKey "Content-Length") with "Content-Length".
  by destruct (String.eqb_spec (CanonicalHeaderKey k) "Content-Length").
Qed.

(** Case analysis on whether the bytes of a write are taken. *)
Ltac case_take :=
  unfold take_bytes; cbn [negb];
  destruct (match declared_length _ with Some _ => _ | None => _ end).

Lemma declared_length_error h :
  declared_length (header_Set "X-Content-Type-Options" "nosniff"
    (header_Set "Content-Type" "text/plain; charset=utf-8" (header_Del "Content-Length" h))) = None.
Proof.
  unfold declared_length. rewrite !header_Get_Set. cbn [String.eqb].
  replace (header_Get (header_Del "Content-Length" h) "Content-Length") with ""
    by (unfold header_Get, values, header_Del; by rewrite lookup_delete_eq).
  vm_compute. reflexivity.
Qed.

(** What [http.Error] leaves on a fresh response. *)
Lemma http_Error_response msg code s :
  rs_hijacked s = false -> rs_wroteHeader s = false -> rs_body s = "" -> 200 <= code <= 999 ->
  bodyAllowedForStatus code = true ->
  exists s', http_Error msg code s = (Ret tt, s') /\ rs_wroteHeader s' = true /\
    rs_status s' = code /\ rs_body s' = msg +:+ newline /\
    rs_informational s' = rs_informational s.
Proof.
  intros H1 H2 H3 Hc Hb. unfold http_Error, mbind, M_bind, modify, response_Write. simpl.
  rewrite response_WriteHeader_final by done. unfold response_Write, gets, modify, mbind, M_bind, mret, M_ret.
  simpl. destruct (String.eqb (msg +:+ newline) "") eqn:E.
  { bool_prop. apply (f_equal slen) in E. rewrite slen_app in E. simpl in E. lia. }
  rewrite Hb. cbn [negb]. rewrite take_bytes_free by apply declared_length_error.
  eexists. split; [done|]. simpl. by rewrite H3.
Qed.
