(* ===== verification/Recorder.v ===== *)
(** * The response recorder (recorder.go)

    [responseRecorder] wraps the server's response writer to observe the status
    and whether anything has been committed to the client. *)

From Stdlib Require Import ZArith Lia Ascii String List.
From stdpp Require Import base list strings gmap.
From S2P Require Import Prelude GoStrings Http.

(** ** Definitions *)

Record responseRecorder := mkRecorder {
  rr_ResponseWriter : response;
  rr_status : Z;
  rr_committed : bool;
  rr_bytes : Z
}.

Definition newResponseRecorder (w : response) : responseRecorder := mkRecorder w 0 false 0.

Definition with_rw (w : response) (rr : responseRecorder) : responseRecorder :=
  mkRecorder w (rr_status rr) (rr_committed rr) (rr_bytes rr).

(** A method of the embedded writer. *)
Definition on_rw {A} (m : M response A) : M responseRecorder A := fun rr =>
  let '(o, w) := m (rr_ResponseWriter rr) in (o, with_rw w rr).

Definition WriteHeader (code : Z) : M responseRecorder unit :=
  committed ← gets rr_committed;
  if committed : bool then mret tt
  else
    modify (fun rr => mkRecorder (rr_ResponseWriter rr) code true (rr_bytes rr)) ;;
    on_rw (response_WriteHeader code).

Definition Write (b : string) : M responseRecorder (Z * option string) :=
  committed ← gets rr_committed;
  (if committed : bool then mret tt else WriteHeader 200) ;;
  res ← on_rw (response_Write b);
  modify (fun rr => mkRecorder (rr_ResponseWriter rr) (rr_status rr) (rr_committed rr)
                      (wrap64 (rr_bytes rr + res.1))) ;;
  mret res.

Definition Status (rr : responseRecorder) : Z := if rr_status rr =? 0 then 200 else rr_status rr.

Definition Committed (rr : responseRecorder) : bool := rr_committed rr.

Definition BytesWritten (rr : responseRecorder) : Z := rr_bytes rr.

(** The server's response is always an [http.Flusher]. *)
Definition Flush : M responseRecorder unit := on_rw response_Flush.

Definition ErrNotHijacker : string := "responseRecorder: writer is not an http.Hijacker".

(** The value is the returned error. *)
Definition Hijack : M responseRecorder (option string) :=
  ok ← gets (fun rr => rs_hijackable (rr_ResponseWriter rr));
  if negb ok then mret (Some ErrNotHijacker)
  else
    modify (fun rr => mkRecorder (rr_ResponseWriter rr)
                        (if rr_status rr =? 0 then 101 else rr_status rr) true (rr_bytes rr)) ;;
    on_rw response_Hijack.

Definition Unwrap (rr : responseRecorder) : response := rr_ResponseWriter rr.

#[export] Instance recorder_writer : ResponseWriter responseRecorder := {|
  rw_Header rr := rs_header (rr_ResponseWriter rr);
  rw_setHeader h rr := with_rw (with_rs_header h (rr_ResponseWriter rr)) rr;
  rw_WriteHeader := WriteHeader;
  rw_Write := Write
|}.

(** ** Sequences of calls through the recorder *)

Inductive rec_op : Type :=
| RWriteHeader (code : Z)
| RWrite (b : string)
| RFlush
| RHijack.

Definition rec_step (op : rec_op) : M responseRecorder unit :=
  match op with
  | RWriteHeader code => WriteHeader code
  | RWrite b => Write b ;; mret tt
  | RFlush => Flush
  | RHijack => Hijack ;; mret tt
  end.

Fixpoint rec_run (ops : list rec_op) : M responseRecorder unit :=
  match ops with
  | [] => mret tt
  | op :: rest => rec_step op ;; rec_run rest
  end.

(** What the client can tell and what the recorder says agree. *)
Record in_sync (rr : responseRecorder) : Prop := {
  sync_committed :
    rr_committed rr = rs_wroteHeader (rr_ResponseWriter rr) || rs_hijacked (rr_ResponseWriter rr);
  sync_status : rs_wroteHeader (rr_ResponseWriter rr) = true ->
    rr_status rr = rs_status (rr_ResponseWriter rr);
  sync_nonzero : rr_committed rr = true -> rr_status rr <> 0;
  sync_fresh : rr_committed rr = false -> rr_status rr = 0;
  sync_bytes : rr_bytes rr = Z.of_nat (slen (rs_body (rr_ResponseWriter rr)));
  sync_range : 0 <= rr_status rr
}.

(** Final statuses only, and no flush before the first write. *)
Definition op_final (op : rec_op) : Prop :=
  match op with RWriteHeader code => 200 <= code <= 999 | _ => True end.

Fixpoint no_bare_flush (ops : list rec_op) : Prop :=
  match ops with
  | [] | RWriteHeader _ :: _ | RWrite _ :: _ => True
  | RFlush :: _ => False
  | RHijack :: rest => no_bare_flush rest
  end.

(** The body length along a run, for the byte counter's range. *)
Definition op_bytes (op : rec_op) : Z :=
  match op with RWrite b => Z.of_nat (slen b) | _ => 0 end.
Definition total_bytes (ops : list rec_op) : Z := fold_right (fun op n => op_bytes op + n) 0 ops.

Lemma WriteHeader_sync code rr :
  in_sync rr -> 200 <= code <= 999 ->
  exists rr', WriteHeader code rr = (Ret tt, rr') /\ in_sync rr' /\ rr_committed rr' = true /\
    rr_bytes rr' = rr_bytes rr.
Proof.
  intros Hs Hc. pose proof Hs as [H1 H2 H3 H4 H5 H6]. unfold WriteHeader, gets, mbind, M_bind, modify, on_rw.
  destruct (rr_committed rr) eqn:Ec; [by exists rr|]. symmetry in H1. apply orb_false_iff in H1 as [Hw Hh].
  simpl. rewrite response_WriteHeader_final by done. eexists. split; [done|].
  split_and!; try done. constructor; simpl; try done; lia.
Qed.

Lemma Write_sync b rr :
  in_sync rr -> rr_bytes rr + Z.of_nat (slen b) <= int64_max ->
  exists rr' res, Write b rr = (Ret res, rr') /\ in_sync rr' /\ rr_committed rr' = true /\
    rr_bytes rr' <= rr_bytes rr + Z.of_nat (slen b).
Proof.
  intros Hs Hb.
  assert (exists rr1, (if rr_committed rr then mret tt else WriteHeader 200) rr = (Ret tt, rr1) /\
            in_sync rr1 /\ rr_committed rr1 = true /\ rr_bytes rr1 = rr_bytes rr)
    as (rr1 & E1 & [H1 H2 H3 H4 H5 H6] & Hc & Eb).
  { destruct (rr_committed rr) eqn:Ec; [by exists rr|]. by apply WriteHeader_sync. }
  unfold Write, gets, mbind, M_bind, modify, on_rw. rewrite E1. rewrite Hc in H1.
  unfold response_Write, gets, mbind, M_bind, modify, mret, M_ret.
  assert (0 <= rr_bytes rr1) by lia.
  assert (wrap64 (rr_bytes rr1 + 0) = rr_bytes rr1) as Hz.
  { rewrite Z.add_0_r. apply wrap64_id. unfold is_int64, int64_min. lia. }
  destruct (rs_hijacked (rr_ResponseWriter rr1)) eqn:Eh.
  { eexists _, _. split; [done|]. simpl. rewrite Hz. split_and!; try done; [|lia].
    constructor; simpl; rewrite ?Eh; auto; congruence. }
  rewrite orb_false_r in H1. rewrite <- H1 in H2 |- *.
  destruct (String.eqb b "") eqn:Eb0; [|destruct (bodyAllowedForStatus _) eqn:Ea; [case_take|]];
    (eexists _, _; split; [done|]); simpl; rewrite ?Hz; split_and!; try done; try lia.
  - constructor; simpl; rewrite <- ?H1, ?Eh; auto; congruence.
  - constructor; simpl; rewrite <- ?H1, ?Eh; auto; congruence.
  - constructor; simpl; rewrite <- ?H1, ?Eh; auto; try congruence.
    rewrite slen_app, Nat2Z.inj_add, <- H5. apply wrap64_id. unfold is_int64, int64_min. lia.
  - rewrite wrap64_id by (unfold is_int64, int64_min; lia). lia.
  - constructor; simpl; rewrite <- ?H1, ?Eh; auto; congruence.
Qed.

Lemma Flush_sync rr : in_sync rr -> rr_committed rr = true -> Flush rr = (Ret tt, rr).
Proof.
  intros [H1 _ _ _ _ _] Hc. rewrite Hc in H1.
  unfold Flush, on_rw, response_Flush, gets, mbind, M_bind, mret, M_ret, response_WriteHeader.
  assert (with_rw (rr_ResponseWriter rr) rr = rr) as E by by destruct rr.
  destruct (rs_wroteHeader _); [by rewrite E|]. simpl in H1. rewrite <- H1. by rewrite E.
Qed.

Lemma Hijack_sync rr :
  in_sync rr ->
  exists rr' e, Hijack rr = (Ret e, rr') /\ in_sync rr' /\ rr_bytes rr' = rr_bytes rr /\
    (rr_committed rr = true -> rr_committed rr' = true).
Proof.
  intros Hs. pose proof Hs as [H1 H2 H3 H4 H5 H6].
  unfold Hijack, on_rw, response_Hijack, gets, mbind, M_bind, mret, M_ret, modify.
  destruct (rs_hijackable _); simpl; [|by eexists _, _].
  assert (rs_wroteHeader (rr_ResponseWriter rr) = true ->
          (if rr_status rr =? 0 then 101 else rr_status rr) = rs_status (rr_ResponseWriter rr)) as Hw.
  { intros Hw. rewrite Hw in H1. replace (rr_status rr =? 0) with false by (specialize (H3 H1); lia).
    by apply H2. }
  assert ((if rr_status rr =? 0 then 101 else rr_status rr) <> 0 /\
          0 <= (if rr_status rr =? 0 then 101 else rr_status rr)) as [Hn Hp]
    by (destruct (rr_status rr =? 0) eqn:?; lia).
  destruct (rs_hijacked (rr_ResponseWriter rr)) eqn:Eh; (eexists _, _; split; [done|]); simpl;
    (split_and!; [|done|done]); constructor; simpl; rewrite ?Eh, ?orb_true_r; auto; done.
Qed.

(** One call: safe when it is a final status or not a status, and when a flush
    comes after a commit. *)
Lemma rec_step_sync op rr :
  in_sync rr -> op_final op -> (rr_committed rr = true \/ op <> RFlush) ->
  rr_bytes rr + op_bytes op <= int64_max ->
  exists rr', rec_step op rr = (Ret tt, rr') /\ in_sync rr' /\
    rr_bytes rr' <= rr_bytes rr + op_bytes op /\
    (rr_committed rr' = true \/ op = RHijack) /\
    (rr_committed rr = true -> rr_committed rr' = true).
Proof.
  intros Hs Hf Hc Hb. destruct op as [code|b| |]; simpl in *.
  - destruct (WriteHeader_sync code rr Hs Hf) as (rr' & E & ? & ? & ?). exists rr'. split_and!; auto. lia.
  - destruct (Write_sync b rr Hs Hb) as (rr' & res & E & ? & ? & ?). exists rr'.
    unfold mbind, M_bind. rewrite E. split_and!; auto.
  - destruct Hc as [Hc|]; [|done]. rewrite Flush_sync by done. exists rr. split_and!; auto. lia.
  - destruct (Hijack_sync rr Hs) as (rr' & e & E & ? & ? & ?). exists rr'.
    unfold mbind, M_bind. rewrite E. split_and!; auto. lia.
Qed.

Lemma rec_run_sync ops rr :
  in_sync rr -> List.Forall op_final ops -> (rr_committed rr = true \/ no_bare_flush ops) ->
  rr_bytes rr + total_bytes ops <= int64_max ->
  exists rr', rec_run ops rr = (Ret tt, rr') /\ in_sync rr'.
Proof.
  revert rr. induction ops as [|op ops IH]; intros rr Hs Hf Hc Hb; simpl in *; [by exists rr|].
  inversion Hf as [|? ? Hop Hops]; subst.
  assert (forall l, 0 <= total_bytes l) as Hpos.
  { intros l. induction l as [|[] l IHl]; simpl; try done; unfold total_bytes in *; simpl in *; lia. }
  pose proof (Hpos ops).
  destruct (rec_step_sync op rr Hs Hop) as (rr' & E & Hs' & Hb' & Hc' & Hm).
  - destruct Hc as [Hc|Hc]; [by left|]. right. by intros ->.
  - unfold total_bytes in *. lia.
  - unfold mbind, M_bind. rewrite E. apply IH; auto; [|unfold total_bytes in *; lia].
    destruct Hc' as [Hc'| ->]; [by left|]. destruct Hc as [Hc|Hc]; auto.
Qed.

(** C28: the recorder tells the truth. Over any sequence of calls in which
    every explicit status is final and no flush comes before the first write,
    nothing panics, [Committed] says exactly whether a status line has reached
    the client or the connection has been taken over, [Status] is the status
    the client gets unless the connection was taken over, and [BytesWritten] is
    the length of the body. *)
Theorem recorder_faithful (ops : list rec_op) (hijackable : bool) :
  List.Forall op_final ops -> no_bare_flush ops -> total_bytes ops <= int64_max ->
  exists rr, rec_run ops (newResponseRecorder (new_response hijackable)) = (Ret tt, rr) /\
    let w := Unwrap rr in
    Committed rr = rs_wroteHeader w || rs_hijacked w /\
    (rs_hijacked w = false -> Status rr = client_status w) /\
    BytesWritten rr = Z.of_nat (slen (rs_body w)).
Proof.
  intros Hf Hn Hb.
  destruct (rec_run_sync ops (newResponseRecorder (new_response hijackable)))
    as (rr & E & [H1 H2 H3 H4 H5 H6]); auto; [by constructor|].
  exists rr. unfold Committed, Status, client_status, BytesWritten, Unwrap. split_and!; try done.
  intros Hh. rewrite Hh, orb_false_r in H1. destruct (rs_wroteHeader _).
  - rewrite <- H2 by done. by replace (rr_status rr =? 0) with false by (specialize (H3 H1); lia).
  - by rewrite (H4 H1).
Qed.

Lemma recorder_faithful_witness :
  exists rr, rec_run [RWriteHeader 404; RWrite "no"; RFlush; RWriteHeader 200]
               (newResponseRecorder (new_response true)) = (Ret tt, rr) /\
    Committed rr = true /\ Status rr = 404.
Proof.
  destruct (recorder_faithful [RWriteHeader 404; RWrite "no"; RFlush; RWriteHeader 200] true)
    as (rr & E & _).
  - repeat constructor; lia.
  - exact I.
  - unfold int64_max. simpl. lia.
  - exists rr. split; [exact E|]. vm_compute in E. injection E as <-. split; reflexivity.
Defined.

(** An informational response breaks the recorder. [WriteHeader] takes a
    1xx status (which net/http forwards without ending the response) for the
    final one: the final status that follows is dropped, and the client reads
    200 with the final response's body, whatever the upstream answered, while
    the gateway counts the request under the 1xx status. *)
Theorem informational_hides_final_status (early final : Z) (body : string) (hijackable : bool) :
  is_informational early = true -> body <> "" ->
  exists rr, rec_run [RWriteHeader early; RWriteHeader final; RWrite body]
               (newResponseRecorder (new_response hijackable)) = (Ret tt, rr) /\
    rs_informational (Unwrap rr) = [early] /\ client_status (Unwrap rr) = 200 /\
    rs_body (Unwrap rr) = body /\ Status rr = early.
Proof.
  intros He Hb. assert (100 <= early <= 199) as Hr by (unfold is_informational in He; lia).
  simpl. unfold WriteHeader, Write, on_rw, mbind, M_bind, gets, modify, mret, M_ret. simpl.
  unfold response_WriteHeader at 1. simpl.
  replace ((early <? 100) || (999 <? early)) with false by lia.
  rewrite He. simpl.
  unfold response_Write, mbind, M_bind, gets, modify, mret, M_ret. simpl.
  destruct (String.eqb body "") eqn:E; [bool_prop; done|].
  eexists. split; [done|]. unfold Status, Unwrap, client_status. simpl.
  by replace (early =? 0) with false by lia.
Qed.

Lemma informational_hides_final_status_witness :
  exists rr, rec_run [RWriteHeader 103; RWriteHeader 503; RWrite "down"]
               (newResponseRecorder (new_response true)) = (Ret tt, rr) /\
    rs_informational (Unwrap rr) = [103] /\ client_status (Unwrap rr) = 200 /\
    rs_body (Unwrap rr) = "down" /\ Status rr = 103.
Proof.
  apply (informational_hides_final_status 103 503 "down" true); [reflexivity|discriminate].
Defined.

(** A flush before the first write commits the response behind the
    recorder's back: the client has been sent a 200 status line and
    [Committed] still says that nothing has reached it; a later status is
    recorded although the client never sees it. *)
Theorem bare_flush_commits_unseen (hijackable : bool) (code : Z) :
  exists rr rr', rec_run [RFlush] (newResponseRecorder (new_response hijackable)) = (Ret tt, rr) /\
    rs_wroteHeader (Unwrap rr) = true /\ Committed rr = false /\
    rec_run [RFlush; RWriteHeader code] (newResponseRecorder (new_response hijackable))
      = (Ret tt, rr') /\ client_status (Unwrap rr') = 200 /\
    Status rr' = (if code =? 0 then 200 else code).
Proof. by eexists _, _. Qed.
