(* ===== verification/Auth.v ===== *)
(** * Who is calling (middleware.go, and the authentication step of main.go)

    Client addresses, public endpoints, API keys and JWTs. The library
    golang-jwt is the interface [JwtLib]; what the gateway relies on of it is
    [JwtSpec]. *)

From Stdlib Require Import ZArith Lia Ascii String List.
From stdpp Require Import base list strings gmap.
From S2P Require Import Prelude GoStrings Hosts Urls Sha256 Http.

(** ** Client address and public endpoints *)

Definition getClientIP (r : Request) : string :=
  let ip := hget r "X-Real-IP" in
  if negb (String.eqb ip "") then ip
  else
    let ip := hget r "X-Forwarded-For" in
    if negb (String.eqb ip "") then TrimSpace (nth 0 (SplitByte ip ",") "")
    else match SplitHostPort (rq_RemoteAddr r) with
         | AddrError _ => rq_RemoteAddr r
         | HostPort ip _ => ip
         end.

Definition publicPaths : list string :=
  ["/health"; "/metrics"; "/login"; "/register"; "/api/v1/public"].

Definition isPublicEndpoint (path : string) : bool := existsb (HasPrefix path) publicPaths.

(** ** API keys *)

Definition hashAPIKey (key : string) : string := EncodeToString (Sum256 key).

Definition demo_keys : list string :=
  ["demo-api-key-123"; "production-key-456"; "development-key-789"].

(** Membership in the map of hashed keys. *)
Definition validateAPIKey (apiKey : string) : bool :=
  str_in (hashAPIKey apiKey) (map hashAPIKey demo_keys).

(** ** JSON web tokens *)

(** A claim: a string, a number (a float64, as mantissa and binary exponent),
    or another JSON value. *)
Inductive claim : Type :=
| ClString (s : string)
| ClNumber (mantissa exponent : Z)
| ClOther.

Abbreviation MapClaims := (gmap string claim).

(** [jwt.Token]: whether its method is HMAC, its algorithm header, its claims
    when they are a [jwt.MapClaims], and its validity flag. *)
Record Token := mkToken {
  tok_hmac : bool;
  tok_alg : string;
  tok_Claims : option MapClaims;
  tok_Valid : bool
}.

(** [jwt.Parse(tokenString, keyFunc)] at a time in nanoseconds. *)
Class JwtLib := {
  jwt_Parse : string -> (Token -> result string string) -> Z -> result string Token
}.

(** The documented contract of [jwt.Parse]: a token is returned without error
    only if the key function gave a key for it and the signature of the token
    string is the one of that key ([signed_by]). *)
Class JwtSpec `{JwtLib} := {
  signed_by : string -> string -> Prop;
  jwt_Parse_verifies s keyFunc now t :
    jwt_Parse s keyFunc now = Ok t -> exists key, keyFunc t = Ok key /\ signed_by s key
}.

(** [int64(f)]: truncation; a value out of range converts to the least
    integer, as on amd64. *)
Definition int64_of_float (mantissa exponent : Z) : Z :=
  let v := if 0 <=? exponent then mantissa * 2 ^ exponent else Z.quot mantissa (2 ^ (- exponent)) in
  if (int64_min <=? v) && (v <=? int64_max) then v else int64_min.

(** [time.Time.Unix]: whole seconds, rounded down. *)
Definition Unix (now : Z) : Z := now / Second.

Definition keyFunc (secret : string) (token : Token) : result string string :=
  if negb (tok_hmac token) then Err ("unexpected signing method: " +:+ tok_alg token)
  else Ok secret.

Definition validateJWT `{JwtLib} (tokenString secret : string) (now : Z) : result string MapClaims :=
  match jwt_Parse tokenString (keyFunc secret) now with
  | Err e => Err e
  | Ok token =>
      match tok_Claims token with
      | Some claims =>
          if tok_Valid token then
            match claims !! "exp" with
            | Some (ClNumber m e) =>
                if int64_of_float m e <? Unix now then Err "token expired" else Ok claims
            | _ => Ok claims
            end
          else Err "invalid token"
      | None => Err "invalid token"
      end
  end.

(** ** The authentication step of [ServeHTTP] *)

(** Whether the request is authenticated, and as whom. *)
Definition authenticate `{JwtLib} (r : Request) (secret : string) (now : Z) : bool * string :=
  let authHeader := hget r "Authorization" in
  let apiKey := hget r "X-API-Key" in
  if HasPrefix authHeader "Bearer " then
    match validateJWT (TrimPrefix authHeader "Bearer ") secret now with
    | Ok claims =>
        (true, match claims !! "sub" with Some (ClString sub) => sub | _ => "" end)
    | Err _ => (false, "")
    end
  else if negb (String.eqb apiKey "") then
    if validateAPIKey apiKey then (true, "api-key-user") else (false, "")
  else (false, "").

(** ** API keys: what is accepted *)

Lemma hex_digit_inj (a b : Z) : 0 <= a < 16 -> 0 <= b < 16 -> hex_digit a = hex_digit b -> a = b.
Proof.
  intros Ha Hb. assert (forall z, 0 <= z < 16 -> In z (map Z.of_nat (seq 0 16))) as Hin.
  { intros z Hz. apply in_map_iff. exists (Z.to_nat z). split; [lia|]. apply in_seq. lia. }
  apply Hin in Ha, Hb. simpl in Ha, Hb.
  repeat (destruct Ha as [<-|Ha]; [|]); try done;
    repeat (destruct Hb as [<-|Hb]; [by vm_compute|]); done.
Qed.

Lemma EncodeToString_inj (l l' : list Z) :
  List.Forall (fun b => 0 <= b < 256) l -> List.Forall (fun b => 0 <= b < 256) l' ->
  EncodeToString l = EncodeToString l' -> l = l'.
Proof.
  intros Hl. revert l'. induction Hl as [|b l Hb Hl IH]; intros l' Hl' E; inversion Hl' as [|b' r' Hb' Hr'];
    subst; try done.
  injection E as E1 E2 E3. f_equal; [|by apply IH].
  apply hex_digit_inj in E1; [|split; [apply Z.div_pos|apply Z.div_lt_upper_bound]; lia..].
  apply hex_digit_inj in E2; [|apply Z.mod_pos_bound; lia..].
  rewrite (Z.div_mod b 16), (Z.div_mod b' 16) by lia. congruence.
Qed.

(** An API key is accepted exactly when its SHA-256 digest is the digest of
    one of the three known keys; so any other key that is accepted is a
    collision of SHA-256. *)
Theorem validateAPIKey_digests (key : string) :
  validateAPIKey key = true <-> exists k, In k demo_keys /\ Sum256 key = Sum256 k.
Proof.
  unfold validateAPIKey. rewrite str_in_spec, in_map_iff. split; intros (k & H1 & H2); exists k.
  - split; [done|]. symmetry. by apply EncodeToString_inj; [apply Sum256_range..|].
  - split; [|done]. unfold hashAPIKey. by rewrite H2.
Qed.

(** ** Tokens: what is accepted *)

(** The time at which a token's [exp] claim says it ends, when it is a number. *)
Definition exp_of (claims : MapClaims) : option Z :=
  match claims !! "exp" with
  | Some (ClNumber m e) => Some (int64_of_float m e)
  | _ => None
  end.

Lemma validateJWT_inv `{JwtSpec} s secret now claims :
  validateJWT s secret now = Ok claims ->
  exists t, jwt_Parse s (keyFunc secret) now = Ok t /\ tok_hmac t = true /\ tok_Valid t = true /\
    tok_Claims t = Some claims /\ signed_by s secret /\
    (forall e, exp_of claims = Some e -> Unix now <= e).
Proof.
  unfold validateJWT, exp_of. destruct (jwt_Parse s (keyFunc secret) now) as [t|e] eqn:Ep; [|done].
  destruct (jwt_Parse_verifies _ _ _ _ Ep) as (key & Hk & Hs). unfold keyFunc in Hk.
  destruct (tok_hmac t) eqn:Eh; [|done]. injection Hk as <-.
  destruct (tok_Claims t) as [c|] eqn:Ec; [|done]. destruct (tok_Valid t) eqn:Ev; [|done].
  intros Hc. exists t. destruct (c !! "exp") as [[|m e|]|] eqn:Ee;
    try (injection Hc as <-; rewrite ?Ee; split_and!; done).
  destruct (int64_of_float m e <? Unix now) eqn:El; [done|]. injection Hc as <-.
  rewrite Ee. split_and!; try done. intros ? [= <-]. lia.
Qed.

(** C31: a bearer request counts as authenticated only with a token that is
    signed with the gateway's own secret by an HMAC method (so not with "none"
    or with a public-key method) and whose numeric expiry has not passed; and
    while a bearer header is present, an API key is not looked at. *)
Theorem bearer_authenticated `{JwtSpec} (r : Request) (secret token : string) (now : Z) :
  hget r "Authorization" = "Bearer " +:+ token ->
  (authenticate r secret now).1 = true ->
  signed_by token secret /\
  exists t claims, jwt_Parse token (keyFunc secret) now = Ok t /\ tok_hmac t = true /\
    tok_Claims t = Some claims /\ (forall e, exp_of claims = Some e -> Unix now <= e) /\
    forall key, authenticate (hset "X-API-Key" key r) secret now = authenticate r secret now.
Proof.
  intros Ha. unfold authenticate. rewrite Ha, HasPrefix_app, TrimPrefix_app.
  destruct (validateJWT token secret now) as [claims|e] eqn:Ev; [|done]. intros _.
  pose proof (validateJWT_inv _ _ _ _ Ev) as (t & Hp & Hh & _ & Hc & Hs & He).
  split; [done|]. exists t, claims. split_and!; try done. intros key.
  assert (hget (hset "X-API-Key" key r) "Authorization" = hget r "Authorization") as E
    by by rewrite hget_hset.
  by rewrite E, Ha, HasPrefix_app, TrimPrefix_app, Ev.
Qed.

(** A library whose tokens are "secret/subject", to evaluate the definitions
    with. *)
Definition demo_jwt : JwtLib := {|
  jwt_Parse s keyFunc now :=
    match SplitByte s "/" with
    | [sig; sub] =>
        let t := mkToken true "HS256" (Some {["sub" := ClString sub]}) true in
        match keyFunc t with
        | Ok key => if String.eqb key sig then Ok t else Err "signature is invalid"
        | Err e => Err e
        end
    | _ => Err "token is malformed"
    end
|}.

Definition demo_jwt_spec : @JwtSpec demo_jwt.
Proof.
  refine (@Build_JwtSpec demo_jwt (fun s key => exists sub, SplitByte s "/" = [key; sub]) _).
  intros s kf now t. cbn. destruct (SplitByte s "/") as [|sig [|sub [|]]] eqn:E; try done.
  destruct (kf _) as [key|] eqn:Ek; [|done]. destruct (String.eqb key sig) eqn:Eq; [|done].
  bool_prop. intros [= <-]. exists key. subst. eauto.
Defined.

Lemma bearer_authenticated_witness :
  let r := mkRequest "GET" (mkURL "" "" "/x" "" "") "h" {["Authorization" := ["Bearer s3cret/ann"]]}
             "10.0.0.9:4000" false in
  (@authenticate demo_jwt r "s3cret" 0) = (true, "ann") /\ @signed_by _ demo_jwt_spec "s3cret/ann" "s3cret".
Proof.
  intros r. split; [reflexivity|].
  apply (@bearer_authenticated demo_jwt demo_jwt_spec r "s3cret" "s3cret/ann" 0); reflexivity.
Defined.

(** ** Public endpoints *)

(** Public endpoints are recognised by plain prefix and not by path
    segment: a path that goes on after a public name with any character but a
    slash is public too, although the router's own prefix test does not count it
    as below that name. So a route such as /healthcare is exempt from
    authentication. *)
Theorem public_endpoint_ignores_segments (p rest : string) (c : ascii) :
  In p publicPaths -> c <> "/"%char ->
  isPublicEndpoint (p +:+ String c rest) = true /\ pathMatches p (p +:+ String c rest) = false.
Proof.
  intros Hp Hc. split.
  - unfold isPublicEndpoint. apply existsb_exists. exists p. split; [done|]. apply HasPrefix_app.
  - apply Ascii.eqb_neq in Hc. simpl in Hp.
    repeat (destruct Hp as [<-|Hp]; [unfold pathMatches; simpl; by rewrite Hc|]). done.
Qed.

Lemma public_endpoint_ignores_segments_witness :
  isPublicEndpoint "/healthcare/records" = true /\ pathMatches "/health" "/healthcare/records" = false.
Proof.
  apply (public_endpoint_ignores_segments "/health" "are/records" "c"%char); [by left|done].
Defined.
