(* ===== verification/RateLimiter.v ===== *)
(** * The per-client rate limiter (middleware.go)

    [IPRateLimiter] maps client addresses to token buckets of
    golang.org/x/time/rate, which are heap objects behind the interface
    [RateLib]; idle ones are evicted by a background goroutine. *)

From Stdlib Require Import ZArith Lia String List.
From stdpp Require Import base list strings gmap.
From S2P Require Import Prelude.

(** ** The library *)

(** [rate.NewLimiter(r, b)], [Allow()] at a time, and the test
    [Tokens() == float64(b)] at a time. *)
Class RateLib := {
  Limiter : Type;
  NewLimiter : Z -> Z -> Limiter;
  Allow : Limiter -> Z -> bool * Limiter;
  Tokens_eq : Limiter -> Z -> Z -> bool
}.

(** The answers of a limiter to calls at the given times. *)
Fixpoint allow_run `{RateLib} (l : Limiter) (ts : list Z) : list bool :=
  match ts with
  | [] => []
  | t :: rest => let '(ok, l') := Allow l t in ok :: allow_run l' rest
  end.

Fixpoint increasing (t : Z) (ts : list Z) : Prop :=
  match ts with
  | [] => True
  | t' :: rest => t <= t' /\ increasing t' rest
  end.

(** Limiters that [NewLimiter(r, b)] and calls of [Allow] lead to. *)
Inductive limiter_from `{RateLib} (r b : Z) : Limiter -> Prop :=
| from_new : limiter_from r b (NewLimiter r b)
| from_allow l t : limiter_from r b l -> limiter_from r b (Allow l t).2.

(** What eviction relies on: a bucket that has refilled behaves as a new one
    from then on. *)
Class RateSpec `{RateLib} := {
  full_is_new r b l t ts :
    limiter_from r b l -> Tokens_eq l t b = true -> increasing t ts ->
    allow_run l ts = allow_run (NewLimiter r b) ts
}.

(** ** Definitions *)

Record IPRateLimiter `{RateLib} := mkIPRateLimiter {
  rl_ips : gmap string nat;
  rl_heap : list Limiter;
  rl_r : Z;
  rl_b : Z
}.

Definition NewIPRateLimiter `{RateLib} (r b : Z) : IPRateLimiter := mkIPRateLimiter _ ∅ [] r b.

(** The pointer to the client's limiter. *)
Definition GetLimiter `{RateLib} (ip : string) (i : IPRateLimiter) : nat * IPRateLimiter :=
  match rl_ips i !! ip with
  | Some p => (p, i)
  | None =>
      let p := length (rl_heap i) in
      (p, mkIPRateLimiter _ (<[ip := p]> (rl_ips i)) (rl_heap i ++ [NewLimiter (rl_r i) (rl_b i)])
            (rl_r i) (rl_b i))
  end.

(** [limiter.Allow()] through the pointer. *)
Definition allow_at `{RateLib} (p : nat) (now : Z) (i : IPRateLimiter) : outcome bool * IPRateLimiter :=
  match rl_heap i !! p with
  | Some l =>
      let '(ok, l') := Allow l now in
      (Ret ok, mkIPRateLimiter _ (rl_ips i) (<[p := l']> (rl_heap i)) (rl_r i) (rl_b i))
  | None => (Panic "nil pointer dereference", i)
  end.

(** The rate-limiting step of [ServeHTTP]. *)
Definition rate_allow `{RateLib} (ip : string) (now : Z) (i : IPRateLimiter)
    : outcome bool * IPRateLimiter :=
  let '(p, i') := GetLimiter ip i in allow_at p now i'.

(** [limiter.Tokens() == float64(i.b)] for the limiter behind a pointer. *)
Definition is_full `{RateLib} (now : Z) (i : IPRateLimiter) (p : nat) : bool :=
  match rl_heap i !! p with
  | Some l => Tokens_eq l now (rl_b i)
  | None => false
  end.

(** One tick of the background goroutine. *)
Definition evict `{RateLib} (now : Z) (i : IPRateLimiter) : IPRateLimiter :=
  mkIPRateLimiter _
    (base.filter (fun kv : string * nat => is_full now i kv.2 = false) (rl_ips i))
    (rl_heap i) (rl_r i) (rl_b i).

(** ** Runs *)

Inductive rl_event : Type :=
| RlAllow (ip : string)
| RlEvict.

Definition rl_step `{RateLib} (now : Z) (ev : rl_event) (i : IPRateLimiter)
    : option (string * outcome bool) * IPRateLimiter :=
  match ev with
  | RlAllow ip => let '(o, i') := rate_allow ip now i in (Some (ip, o), i')
  | RlEvict => (None, evict now i)
  end.

(** The answers given to one client along a run. *)
Fixpoint rl_answers `{RateLib} (ip : string) (evs : list (Z * rl_event)) (i : IPRateLimiter)
    : list (outcome bool) :=
  match evs with
  | [] => []
  | (now, ev) :: rest =>
      let '(r, i') := rl_step now ev i in
      (match r with
       | Some (ip', o) => if String.eqb ip' ip then [o] else []
       | None => []
       end) ++ rl_answers ip rest i'
  end.

(** The times of one client's requests. *)
Fixpoint request_times (ip : string) (evs : list (Z * rl_event)) : list Z :=
  match evs with
  | [] => []
  | (now, RlAllow ip') :: rest =>
      if String.eqb ip' ip then now :: request_times ip rest else request_times ip rest
  | _ :: rest => request_times ip rest
  end.

(** ** One bucket per client *)

Section OneBucketPerClient.
Context `{RateSpec}.

(** Every mapped client has its own live limiter of the right configuration. *)
Record rl_wf (r b : Z) (i : IPRateLimiter) : Prop := {
  rl_config : rl_r i = r /\ rl_b i = b;
  rl_live ip p : rl_ips i !! ip = Some p -> exists l, rl_heap i !! p = Some l /\ limiter_from r b l;
  rl_own ip ip' p : rl_ips i !! ip = Some p -> rl_ips i !! ip' = Some p -> ip = ip'
}.

(** The bucket a client's next request meets. *)
Definition bucket (i : IPRateLimiter) (ip : string) : Limiter :=
  match rl_ips i !! ip with
  | Some p => default (NewLimiter (rl_r i) (rl_b i)) (rl_heap i !! p)
  | None => NewLimiter (rl_r i) (rl_b i)
  end.

(** Two buckets that answer alike from time [t] on. *)
Definition alike (t : Z) (l l' : Limiter) : Prop :=
  forall ts, increasing t ts -> allow_run l ts = allow_run l' ts.

Lemma increasing_mono t t' ts : t <= t' -> increasing t' ts -> increasing t ts.
Proof. destruct ts; simpl; [done|]. intros ? [? ?]. split; [lia|done]. Qed.

Lemma alike_mono t t' l l' : t <= t' -> alike t l l' -> alike t' l l'.
Proof. intros Ht Ha ts Hts. apply Ha. by eapply increasing_mono. Qed.

Lemma alike_allow t l l' :
  alike t l l' -> (Allow l t).1 = (Allow l' t).1 /\ alike t (Allow l t).2 (Allow l' t).2.
Proof.
  intros Ha. split.
  - specialize (Ha [t]). simpl in Ha. destruct (Allow l t), (Allow l' t).
    specialize (Ha (conj (Z.le_refl t) I)). by injection Ha.
  - intros ts Hts. specialize (Ha (t :: ts)). simpl in Ha.
    destruct (Allow l t), (Allow l' t). by specialize (Ha (conj (Z.le_refl t) Hts)) as [= _ ?].
Qed.

(** The heap after an allocation. *)
Lemma lookup_alloc (h : list Limiter) (l : Limiter) (q : nat) :
  is_Some (h !! q) -> (h ++ [l]) !! q = h !! q.
Proof. intros [x Hx]. rewrite Hx. by apply lookup_app_l_Some. Qed.

(** [GetLimiter] gives the client a live limiter and changes no bucket. *)
Lemma GetLimiter_spec r b i ip :
  rl_wf r b i ->
  exists p i', GetLimiter ip i = (p, i') /\ rl_wf r b i' /\ rl_ips i' !! ip = Some p /\
    forall ip', bucket i' ip' = bucket i ip'.
Proof.
  intros Hwf. pose proof Hwf as [[Hr Hb] Hl Ho]. unfold GetLimiter, bucket.
  destruct (rl_ips i !! ip) as [p|] eqn:Ep; [by eexists _, _|].
  assert (forall ip' q, rl_ips i !! ip' = Some q -> q <> length (rl_heap i)) as Hq.
  { intros ip' q Hq ->. destruct (Hl _ _ Hq) as (? & Hx & _). apply lookup_lt_Some in Hx. lia. }
  eexists _, _. split; [done|]. simpl. split_and!; [constructor; simpl; [done| |]| |].
  - intros ip' q [[<- <-]|[? Hx]]%lookup_insert_Some.
    + rewrite list_lookup_middle, Hr, Hb by done. eauto using from_new.
    + destruct (Hl _ _ Hx) as (x & Ex & ?). rewrite lookup_alloc, Ex; eauto.
  - intros ip1 ip2 q [[<- <-]|[? Hx]]%lookup_insert_Some [[<- E]|[? Hy]]%lookup_insert_Some;
      subst; eauto; [by apply Hq in Hy|by apply Hq in Hx].
  - by rewrite lookup_insert_eq.
  - intros ip'. destruct (decide (ip = ip')) as [<-|].
    + by rewrite lookup_insert_eq, Ep, list_lookup_middle.
    + rewrite lookup_insert_ne by done. destruct (rl_ips i !! ip') as [q|] eqn:Eq; [|done].
      destruct (Hl _ _ Eq) as (x & Ex & _). rewrite lookup_alloc; eauto.
Qed.

(** [Allow] through a client's pointer moves that client's bucket only. *)
Lemma allow_at_spec r b i ip p now :
  rl_wf r b i -> rl_ips i !! ip = Some p ->
  exists i', allow_at p now i = (Ret (Allow (bucket i ip) now).1, i') /\ rl_wf r b i' /\
    bucket i' ip = (Allow (bucket i ip) now).2 /\
    forall ip', ip' <> ip -> bucket i' ip' = bucket i ip'.
Proof.
  intros [[Hr Hb] Hl Ho] Ep. destruct (Hl _ _ Ep) as (l & El & Hf).
  assert (bucket i ip = l) as Eb by (unfold bucket; by rewrite Ep, El). rewrite Eb.
  unfold allow_at. rewrite El. pose proof (from_allow r b l now Hf) as Hf'.
  destruct (Allow l now) as [ok l'] eqn:Ea. simpl in *.
  assert (p < length (rl_heap i))%nat by (by apply lookup_lt_Some in El).
  eexists. split; [done|]. unfold bucket. simpl. rewrite Ep, list_lookup_insert_eq by done.
  split_and!; [constructor; simpl; [done| |done]|done|].
  - intros ip' p' Hp'. destruct (decide (p = p')) as [<-|].
    + rewrite list_lookup_insert_eq by done. eauto.
    + rewrite list_lookup_insert_ne by done. eauto.
  - intros ip' Hne. destruct (rl_ips i !! ip') as [p'|] eqn:Ep'; [|done].
    rewrite list_lookup_insert_ne; [done|]. intros <-. eauto.
Qed.

Lemma rate_allow_spec r b i ip now :
  rl_wf r b i ->
  exists i', rate_allow ip now i = (Ret (Allow (bucket i ip) now).1, i') /\ rl_wf r b i' /\
    bucket i' ip = (Allow (bucket i ip) now).2 /\
    forall ip', ip' <> ip -> bucket i' ip' = bucket i ip'.
Proof.
  intros Hwf. unfold rate_allow.
  destruct (GetLimiter_spec r b i ip Hwf) as (p & i1 & -> & Hwf1 & Ep & Hbk).
  destruct (allow_at_spec r b i1 ip p now Hwf1 Ep) as (i2 & -> & Hwf2 & E & Hother).
  exists i2. rewrite !Hbk in *. split_and!; try done. intros ip' Hne. by rewrite Hother, Hbk.
Qed.

Lemma NewIPRateLimiter_wf r b : rl_wf r b (NewIPRateLimiter r b).
Proof. constructor; [done| |]; intros; by simplify_map_eq. Qed.

Lemma evict_wf r b i now : rl_wf r b i -> rl_wf r b (evict now i).
Proof.
  intros [[Hr Hb] Hl Ho]. constructor; simpl; [done| |].
  - intros ip p [Hp _]%map_lookup_filter_Some. eauto.
  - intros ip ip' p [Hp _]%map_lookup_filter_Some [Hp' _]%map_lookup_filter_Some. eauto.
Qed.

(** Eviction keeps the invariant and the answers of every bucket. *)
Lemma evict_spec r b i now :
  rl_wf r b i -> rl_wf r b (evict now i) /\ forall ip, alike now (bucket (evict now i) ip) (bucket i ip).
Proof.
  intros Hwf. split; [by apply evict_wf|]. destruct Hwf as [[Hr Hb] Hl Ho].
  - intros ip ts Hts. unfold bucket, evict. simpl. rewrite map_lookup_filter.
    destruct (rl_ips i !! ip) as [p|] eqn:Ep; [|done]. simpl. destruct (Hl _ _ Ep) as (l & El & Hf).
    unfold is_full. simpl. rewrite El. case_guard; simpl; [by rewrite El|].
    rewrite Hr, Hb in *. symmetry. apply (full_is_new r b l now); [done| |done].
    by apply not_false_iff_true.
Qed.

Fixpoint rl_times (t : Z) (evs : list (Z * rl_event)) : Prop :=
  match evs with
  | [] => True
  | (now, _) :: rest => t <= now /\ rl_times now rest
  end.

Lemma rl_answers_bucket r b ip evs t i l :
  rl_wf r b i -> rl_times t evs -> alike t (bucket i ip) l ->
  rl_answers ip evs i = map Ret (allow_run l (request_times ip evs)).
Proof.
  revert t i l. induction evs as [|[now ev] evs IH]; intros t i l Hwf Hti Ha; [done|].
  destruct Hti as [Ht Hts]. simpl.
  apply (alike_mono t now) in Ha; [|done]. destruct ev as [ip'|]; simpl.
  - destruct (rate_allow_spec r b i ip' now Hwf) as (i' & -> & Hwf' & Eb & Eo).
    destruct (String.eqb ip' ip) eqn:E; bool_prop; simpl.
    + subst ip'. apply alike_allow in Ha as [E1 E2]. destruct (Allow l now) as [ok l']. simpl in *.
      rewrite E1. f_equal. apply (IH now); [done..|]. by rewrite Eb.
    + apply (IH now); [done..|]. by rewrite Eo.
  - destruct (evict_spec r b i now Hwf) as [Hwf' He]. apply (IH now); [done..|].
    intros ts Hts'. rewrite He by done. by apply Ha.
Qed.

(** C23: the limiter is one token bucket per client. Along any run of requests
    of any clients and of eviction ticks, at non-decreasing times, a client gets
    the answers that a bucket of its own, never evicted and never shared, would
    have given at the times of its requests; no call dereferences a dead
    limiter. *)
Theorem one_bucket_per_client (r b t : Z) (ip : string) (evs : list (Z * rl_event)) :
  rl_times t evs ->
  rl_answers ip evs (NewIPRateLimiter r b) =
  map Ret (allow_run (NewLimiter r b) (request_times ip evs)).
Proof.
  intros Ht. apply (rl_answers_bucket r b ip evs t); [|done|done].
  apply NewIPRateLimiter_wf.
Qed.
End OneBucketPerClient.

(** ** An exact token bucket, to evaluate the definitions with

    Tokens are counted in units of a nanosecond at one token per second. *)
Record exact_bucket := mkExact { ex_r : Z; ex_b : Z; ex_tokens : Z; ex_last : Z }.

Definition exact_at (l : exact_bucket) (t : Z) : Z :=
  Z.min (ex_b l * Second) (ex_tokens l + Z.max 0 (t - ex_last l) * Z.max 0 (ex_r l)).

Definition exact_allow (l : exact_bucket) (t : Z) : bool * exact_bucket :=
  if Second <=? exact_at l t
  then (true, mkExact (ex_r l) (ex_b l) (exact_at l t - Second) t)
  else (false, l).

Definition exact_rate : RateLib := {|
  Limiter := exact_bucket;
  NewLimiter r b := mkExact r b (b * Second) 0;
  Allow := exact_allow;
  Tokens_eq l t b := exact_at l t =? b * Second
|}.

Lemma exact_from r b (l : exact_bucket) :
  @limiter_from exact_rate r b l -> ex_r l = r /\ ex_b l = b.
Proof.
  induction 1 as [|l t _ [H1 H2]]; [done|]. simpl. unfold exact_allow. by case_if.
Qed.

(** Once full, a bucket is full at every later time, so its next state is that
    of a new one; before a request is admitted nothing changes. *)
Lemma exact_full_is_new (r b t : Z) (tokens last : Z) (ts : list Z) :
  exact_at (mkExact r b tokens last) t = b * Second -> increasing t ts ->
  @allow_run exact_rate (mkExact r b tokens last) ts =
  @allow_run exact_rate (mkExact r b (b * Second) 0) ts.
Proof.
  revert t. induction ts as [|t' ts IH]; intros t Ht Hts; [done|]. destruct Hts as [Hle Hts].
  assert (exact_at (mkExact r b tokens last) t' = b * Second) as E1.
  { unfold exact_at in *. simpl in *. nia. }
  assert (exact_at (mkExact r b (b * Second) 0) t' = b * Second) as E2.
  { unfold exact_at. simpl. nia. }
  simpl. unfold exact_allow. rewrite E1, E2. case_if; simpl; [done|]. f_equal. by apply (IH t').
Qed.

Definition exact_spec : @RateSpec exact_rate.
Proof.
  constructor. intros r b [r' b' tokens last] t ts Hf Ht Hts.
  apply exact_from in Hf as [H1 H2]. simpl in *. subst.
  apply (exact_full_is_new r b t); [lia|done].
Defined.

Lemma one_bucket_per_client_witness :
  let evs := [(0, RlAllow "a"); (1, RlAllow "b"); (2, RlAllow "a"); (Second, RlEvict);
              (2 * Second, RlEvict); (2 * Second, RlAllow "a"); (2 * Second, RlAllow "a")] in
  @rl_answers exact_rate "a" evs (@NewIPRateLimiter exact_rate 1 1)
  = map Ret [true; false; true; false].
Proof.
  intros evs. exact (@one_bucket_per_client exact_rate exact_spec 1 1 0 "a" evs
                       ltac:(simpl; unfold Second; lia)).
Defined.
