(* ===== verification/Contention.v ===== *)
(** * Eviction between the two steps of a rate check (middleware.go, main.go)

    [ServeHTTP] takes the client's limiter under the mutex of the table and asks
    it after the mutex is free again. The background goroutine may evict the
    limiter in between: requests that hold it go on with it, while later ones are
    given a new one. *)

From Stdlib Require Import ZArith Lia String List.
From stdpp Require Import base list strings gmap.
From S2P Require Import Prelude RateLimiter.

Section Contention.
Context `{RateLib}.

(** Calls of [Allow] for one client after an eviction: [true] for a request that
    took the limiter at [p] before it, [false] for one that comes after it and
    makes the whole check. *)
Fixpoint split_answers (ip : string) (p : nat) (evs : list (Z * bool)) (i : IPRateLimiter)
    : list (bool * outcome bool) :=
  match evs with
  | [] => []
  | (now, held) :: rest =>
      let '(o, i') := if held : bool then allow_at p now i else rate_allow ip now i in
      (held, o) :: split_answers ip p rest i'
  end.

Definition answers_to (held : bool) (l : list (bool * outcome bool)) : list (outcome bool) :=
  map snd (List.filter (fun a => Bool.eqb a.1 held) l).
Definition times_of (held : bool) (evs : list (Z * bool)) : list Z :=
  map fst (List.filter (fun e => Bool.eqb e.2 held) evs).

(** A limiter that is no client's any more. *)
Definition orphan (p : nat) (i : IPRateLimiter) : Prop := forall ip, rl_ips i !! ip <> Some p.

(** [Allow] on an orphan moves no client's bucket. *)
Lemma allow_orphan r b p now i l :
  rl_wf r b i -> orphan p i -> rl_heap i !! p = Some l ->
  exists i', allow_at p now i = (Ret (Allow l now).1, i') /\ rl_wf r b i' /\ orphan p i' /\
    rl_heap i' !! p = Some (Allow l now).2 /\ forall ip, bucket i' ip = bucket i ip.
Proof.
  intros [[Hr Hb] Hl Ho] Hp El. unfold allow_at. rewrite El. destruct (Allow l now) as [ok l'].
  assert (p < length (rl_heap i))%nat by (by apply lookup_lt_Some in El).
  assert (forall ip q, rl_ips i !! ip = Some q -> p <> q) as Hne by (intros ip q Hq ->; by apply (Hp ip)).
  eexists. split; [done|]. split_and!; simpl; [constructor; simpl; [done| |done]|done| |].
  - intros ip q Hq. rewrite list_lookup_insert_ne by eauto. eauto.
  - by rewrite list_lookup_insert_eq.
  - intros ip. unfold bucket. simpl. destruct (rl_ips i !! ip) as [q|] eqn:Eq; [|done].
    by rewrite list_lookup_insert_ne by eauto.
Qed.

(** A whole check leaves an orphan alone. *)
Lemma rate_allow_orphan p now ip i l :
  orphan p i -> rl_heap i !! p = Some l ->
  orphan p (rate_allow ip now i).2 /\ rl_heap (rate_allow ip now i).2 !! p = Some l.
Proof.
  intros Hp El. assert (p < length (rl_heap i))%nat as Hlt by (by apply lookup_lt_Some in El).
  unfold rate_allow, GetLimiter. destruct (rl_ips i !! ip) as [q|] eqn:Eq.
  - assert (q <> p) by (intros ->; by apply (Hp ip)). unfold allow_at.
    destruct (rl_heap i !! q) as [m|]; [|done]. destruct (Allow m now). simpl.
    split; [done|]. by rewrite list_lookup_insert_ne.
  - unfold allow_at. simpl. rewrite list_lookup_middle by done. destruct (Allow _ now). simpl. split.
    + intros ip'. simpl. destruct (decide (ip = ip')) as [<-|].
      * rewrite lookup_insert_eq. intros [= E]. lia.
      * rewrite lookup_insert_ne by done. apply Hp.
    + rewrite list_lookup_insert_ne by lia. by rewrite lookup_app_l.
Qed.

Fixpoint ordered (t : Z) (evs : list (Z * bool)) : Prop :=
  match evs with
  | [] => True
  | (now, _) :: rest => t <= now /\ ordered now rest
  end.

(** The two groups of requests meet buckets of their own. *)
Lemma split_run r b ip p evs t i l l1 l2 held :
  rl_wf r b i -> orphan p i -> rl_heap i !! p = Some l -> ordered t evs ->
  alike t l l1 -> alike t (bucket i ip) l2 ->
  answers_to held (split_answers ip p evs i) =
    map Ret (allow_run (if held then l1 else l2) (times_of held evs)).
Proof.
  revert t i l l1 l2. induction evs as [|[now h] evs IH]; intros t i l l1 l2 Hwf Hp El Hts H1 H2; [done|].
  destruct Hts as [Ht Hts]. apply (alike_mono t now) in H1; [|done]. apply (alike_mono t now) in H2; [|done].
  unfold answers_to, times_of in *. cbn [split_answers]. destruct h.
  - destruct (allow_orphan r b p now i l) as (i' & -> & Hwf' & Hp' & El' & Hb); [done..|].
    apply alike_allow in H1 as [E1 H1]. rewrite E1. specialize (IH now i' _ _ l2 Hwf' Hp' El' Hts H1).
    rewrite Hb in IH. specialize (IH H2). destruct held; simpl; [|done].
    destruct (Allow l1 now). simpl in *. by rewrite IH.
  - destruct (rate_allow_orphan p now ip i l Hp El) as [Hp' El'].
    destruct (rate_allow_spec r b i ip now Hwf) as (i' & E & Hwf' & Eb & _). rewrite E in *. simpl in Hp', El'.
    apply alike_allow in H2 as [E2 H2]. rewrite <- Eb in H2. rewrite E2.
    specialize (IH now i' l l1 _ Hwf' Hp' El' Hts H1 H2). destruct held; simpl; [done|].
    destruct (Allow l2 now). simpl in *. by rewrite IH.
Qed.

Context `{!RateSpec}.

(** C24: When the background goroutine evicts a client's refilled limiter while
    requests of the client hold it, those requests and the ones that come
    after are limited apart: each group gets the answers of a full bucket of its
    own, however their calls interleave. So for a moment the client has two
    bursts instead of one. *)
Theorem eviction_splits_bucket (r b t : Z) (ip : string) (p : nat) (evs : list (Z * bool)) (i : IPRateLimiter)
    (held : bool) :
  rl_wf r b i -> rl_ips i !! ip = Some p -> is_full t i p = true -> ordered t evs ->
  answers_to held (split_answers ip p evs (evict t i)) =
    map Ret (allow_run (NewLimiter r b) (times_of held evs)).
Proof.
  intros Hwf Ep Hfull Hts. pose proof Hwf as [[Hr Hb] Hl Ho]. destruct (Hl _ _ Ep) as (l & El & Hf).
  unfold is_full in Hfull. rewrite El, Hb in Hfull.
  assert (alike t l (NewLimiter r b)) as Hn by (intros ts Hts'; by apply (full_is_new r b l t)).
  rewrite (split_run r b ip p evs t (evict t i) l (NewLimiter r b) (NewLimiter r b) held).
  - by destruct held.
  - by apply evict_wf.
  - intros ip'. simpl. intros [_ Hx]%map_lookup_filter_Some. simpl in Hx. unfold is_full in Hx. rewrite El, Hb in Hx. congruence.
  - done.
  - done.
  - done.
  - intros ts Hts'. destruct (evict_spec r b i t Hwf) as [_ He]. rewrite He by done.
    unfold bucket. rewrite Ep, El. by apply Hn.
Qed.
End Contention.

(** With a burst of one, two requests of one client are admitted at one moment:
    the first took its limiter before the eviction, the second came after. *)
Lemma eviction_splits_bucket_witness :
  let i := (@GetLimiter exact_rate "a" (@NewIPRateLimiter exact_rate 1 1)).2 in
  let run := @split_answers exact_rate "a" 0 [(5, true); (5, false); (5, true); (5, false)] (@evict exact_rate 5 i) in
  answers_to true run = [Ret true; Ret false] /\ answers_to false run = [Ret true; Ret false].
Proof.
  intros i run.
  assert (@rl_wf exact_rate 1 1 i) as Hwf.
  { destruct (GetLimiter_spec 1 1 _ "a" (@NewIPRateLimiter_wf exact_rate 1 1)) as (p & i' & E & Hwf & _).
    unfold i. by rewrite E. }
  split; apply (@eviction_splits_bucket exact_rate exact_spec 1 1 5 "a" 0
    [(5, true); (5, false); (5, true); (5, false)] i); done || (simpl; lia).
Defined.
