(* ===== verification/Proxy.v ===== *)
(** * The reverse proxy of a backend (routing.go: [newBackendProxy])

    What [httputil.ReverseProxy] makes of a request with the gateway's director,
    and how it writes an upstream's answer, or reports its failure, through the
    response recorder. What an upstream does with a request is an [exchange]. *)

From Stdlib Require Import ZArith Lia Ascii String List.
From stdpp Require Import base list strings gmap.
From S2P Require Import Prelude GoStrings Hosts Urls Pool Http Recorder.

(** ** The director *)

(** [joinURLPath] of httputil: the path and the raw path. *)
Definition joinURLPath (a b : URL) : string * string :=
  if String.eqb (u_RawPath a) "" && String.eqb (u_RawPath b) "" then
    (singleJoiningSlash (u_Path a) (u_Path b), "")
  else
    let apath := EscapedPath a in
    let bpath := EscapedPath b in
    let aslash := HasSuffix apath "/" in
    let bslash := HasPrefix bpath "/" in
    if aslash && bslash then (u_Path a +:+ sdrop 1 (u_Path b), apath +:+ sdrop 1 bpath)
    else if negb aslash && negb bslash
    then (u_Path a +:+ "/" +:+ u_Path b, apath +:+ "/" +:+ bpath)
    else (u_Path a +:+ u_Path b, apath +:+ bpath).

(** The director of [httputil.NewSingleHostReverseProxy(target)]. *)
Definition rewriteRequestURL (target : URL) (req : Request) : Request :=
  let u := rq_URL req in
  let '(path, rawpath) := joinURLPath target u in
  let query :=
    if String.eqb (u_RawQuery target) "" || String.eqb (u_RawQuery u) ""
    then u_RawQuery target +:+ u_RawQuery u
    else u_RawQuery target +:+ "&" +:+ u_RawQuery u in
  with_url (MkURL (u_Scheme target) (u_Opaque u) (u_User u) (u_Host target) path rawpath
              (u_OmitHost u) (u_ForceQuery u) query (u_Fragment u) (u_RawFragment u)) req.

Definition Director (proxy : ReverseProxy) (req : Request) : Request :=
  let target := rp_target proxy in
  let origHost := rq_Host req in
  let scheme := if rq_TLS req then "https" else "http" in
  let xf := hget req "X-Forwarded-Proto" in
  let scheme := if negb (String.eqb xf "") then xf else scheme in
  let req := rewriteRequestURL target req in
  let req := if String.eqb (hget req "X-Forwarded-Host") "" && negb (String.eqb origHost "")
             then hset "X-Forwarded-Host" origHost req else req in
  let req := hset "X-Forwarded-Proto" scheme req in
  if rp_preserveHost proxy then with_host origHost req else with_host (u_Host target) req.

(** ** The request that leaves *)

Definition is_ows (c : ascii) : bool := Ascii.eqb c " " || (byte_of c =? 9).

(** ASCII white space of [textproto.TrimString]. *)
Definition is_text_space (c : ascii) : bool := is_ows c || (byte_of c =? 10) || (byte_of c =? 13).

Definition EqualFold_ascii (a b : string) : bool := String.eqb (smap lower_byte a) (smap lower_byte b).

(** [httpguts.HeaderValuesContainsToken]. *)
Definition contains_token (vals : list string) (token : string) : bool :=
  existsb (fun v => existsb (fun part => EqualFold_ascii (Trim part is_ows) token) (SplitByte v ",")) vals.

Definition upgradeType (h : Header) : string :=
  if contains_token (values h "Connection") "Upgrade" then header_Get h "Upgrade" else "".

Definition is_print (s : string) : bool :=
  sforall (fun c => (32 <=? byte_of c) && (byte_of c <=? 126)) s.

Definition hopHeaders : list string :=
  ["Connection"; "Proxy-Connection"; "Keep-Alive"; "Proxy-Authenticate"; "Proxy-Authorization";
   "Te"; "Trailer"; "Transfer-Encoding"; "Upgrade"].

(** The header names listed in Connection headers. *)
Definition connection_tokens (h : Header) : list string :=
  List.filter (fun t => negb (String.eqb t ""))
    (map (fun t => Trim t is_text_space) (concat (map (fun f => SplitByte f ",") (values h "Connection")))).

Definition removeHopByHopHeaders (h : Header) : Header :=
  fold_left (fun h k => header_Del k h) hopHeaders
    (fold_left (fun h k => header_Del k h) (connection_tokens h) h).

(** The client address that [ReverseProxy] appends to X-Forwarded-For. *)
Definition append_forwarded (remote : string) (h : Header) : Header :=
  match SplitHostPort remote with
  | HostPort clientIP _ =>
      match values h "X-Forwarded-For" with
      | [] => header_Set "X-Forwarded-For" clientIP h
      | prior => header_Set "X-Forwarded-For" (Join prior ", " +:+ ", " +:+ clientIP) h
      end
  | AddrError _ => h
  end.

Definition blank_user_agent (h : Header) : Header :=
  match h !! "User-Agent" with Some _ => h | None => header_Set "User-Agent" "" h end.

(** The text of the error, without the quoting of its verb. *)
Definition invalid_upgrade (t : string) : string := "client tried to switch to invalid protocol " +:+ t.

(** The end-to-end headers, with what an upgrade and trailers need put back. *)
Definition end_to_end (trailers : bool) (reqUpType : string) (h : Header) : Header :=
  let h := removeHopByHopHeaders h in
  let h := if trailers then header_Set "Te" "trailers" h else h in
  if negb (String.eqb reqUpType "")
  then header_Set "Upgrade" reqUpType (header_Set "Connection" "Upgrade" h) else h.

(** The outgoing request, or the error for an upgrade to a protocol whose name
    is not printable. [req] is left alone: the proxy works on a clone. *)
Definition outgoing (proxy : ReverseProxy) (req : Request) : result string Request :=
  let out := Director proxy req in
  let reqUpType := upgradeType (rq_Header out) in
  if negb (is_print reqUpType) then Err (invalid_upgrade reqUpType)
  else
    let h := end_to_end (contains_token (values (rq_Header req) "Te") "trailers") reqUpType
               (rq_Header out) in
    Ok (with_header (blank_user_agent (append_forwarded (rq_RemoteAddr req) h)) out).

(** ** The answer *)

(** What a round trip ends in: a transport error; a response, with its body in
    the chunks it arrives in and whether the stream breaks off after them; or a
    switch of protocols, which is refused before the connection is taken over,
    or fails after, or succeeds. *)
Inductive rt_final : Type :=
| RtError (err : string)
| RtResponse (status : Z) (hdr : Header) (chunks : list string) (cut : bool)
| RtSwitch (hdr : Header) (refused failed : option string).

(** Informational responses, and the end. *)
Record exchange := mkExchange {
  x_early : list (Z * Header);
  x_final : rt_final
}.

(** The [ErrorHandler] of [newBackendProxy]; the value is what the dispatcher
    finds in its sink, when it listens. *)
Definition ErrorHandler {T} `{ResponseWriter T} (listening : bool) (proxyErr : string)
    : M T (option string) :=
  if listening then mret (Some proxyErr)
  else http_Error "Bad Gateway" 502 ;; mret None.

Definition set_headers {T} `{ResponseWriter T} (f : Header -> Header) : M T unit :=
  modify (fun w => rw_setHeader (f (rw_Header w)) w).

(** [Got1xxResponse]: forward the status line, then clear the headers. *)
Fixpoint forward_early (early : list (Z * Header)) : M responseRecorder unit :=
  match early with
  | [] => mret tt
  | (code, h) :: rest =>
      set_headers (fun dst => copyHeader dst h) ;;
      WriteHeader code ;;
      set_headers (fun _ => ∅) ;;
      forward_early rest
  end.

(** [copyResponse]: whether a write failed. *)
Fixpoint copy_chunks (chunks : list string) : M responseRecorder bool :=
  match chunks with
  | [] => mret false
  | c :: rest =>
      res ← Write c;
      match res.2 with
      | Some _ => mret true
      | None => copy_chunks rest
      end
  end.

Definition ErrAbortHandler : string := "net/http: abort Handler".

(** A round trip with outcome [x], written to the recorder; [in_server] is
    whether the request came from an [http.Server], where a broken body aborts
    the connection by a panic. The value is the sink's error. *)
Definition forward (in_server : bool) (x : exchange) : M responseRecorder (option string) :=
  forward_early (x_early x) ;;
  match x_final x with
  | RtError e => ErrorHandler true e
  | RtSwitch hdr (Some e) _ => ErrorHandler true e
  | RtSwitch hdr None failed =>
      herr ← Hijack;
      match herr with
      | Some e => ErrorHandler true e
      | None =>
          set_headers (fun dst => copyHeader dst hdr) ;;
          match failed with
          | Some e => ErrorHandler true e
          | None => mret None
          end
      end
  | RtResponse status hdr chunks cut =>
      set_headers (fun dst => copyHeader dst (removeHopByHopHeaders hdr)) ;;
      WriteHeader status ;;
      broken ← copy_chunks chunks;
      if ((broken : bool) || cut) && in_server then panic ErrAbortHandler else mret None
  end.

(** ** The gateway's own forwarding headers (main.go, per attempt) *)

Definition attempt_headers (ip gateway_time : string) (r : Request) : Request :=
  let prior := hget r "X-Forwarded-For" in
  let r := if negb (String.eqb prior "") && negb (String.eqb prior ip)
           then hset "X-Forwarded-For" (prior +:+ ", " +:+ ip) r
           else hset "X-Forwarded-For" ip r in
  hset "X-Gateway-Time" gateway_time (hset "X-Real-IP" ip r).

(** ** Header bookkeeping *)

(** Evaluate the canonical form of literal header names. *)
Ltac canon :=
  repeat match goal with
  | |- context [CanonicalHeaderKey (String ?c ?s)] =>
      let k := constr:(CanonicalHeaderKey (String c s)) in
      let v := eval vm_compute in k in change k with v
  end.

Lemma values_Set k k' v h :
  values (header_Set k v h) k' =
  if String.eqb (CanonicalHeaderKey k) (CanonicalHeaderKey k') then [v] else values h k'.
Proof.
  unfold values, header_Set. destruct (String.eqb _ _) eqn:E; bool_prop.
  - by rewrite E, lookup_insert_eq.
  - by rewrite lookup_insert_ne.
Qed.

Lemma values_Del k k' h :
  values (header_Del k h) k' =
  if String.eqb (CanonicalHeaderKey k) (CanonicalHeaderKey k') then [] else values h k'.
Proof.
  unfold values, header_Del. destruct (String.eqb _ _) eqn:E; bool_prop.
  - by rewrite E, lookup_delete_eq.
  - by rewrite lookup_delete_ne.
Qed.

Lemma values_Del_all ks k h :
  values (fold_left (fun h k => header_Del k h) ks h) k =
  if str_in (CanonicalHeaderKey k) (map CanonicalHeaderKey ks) then [] else values h k.
Proof.
  revert h. induction ks as [|k0 ks IH]; intros h; [done|]. cbn [fold_left map].
  rewrite IH, values_Del. unfold str_in. cbn [existsb].
  rewrite (String.eqb_sym (CanonicalHeaderKey k)). by destruct (String.eqb _ _), (existsb _ _).
Qed.

(** A header that leaves: not hop-by-hop, and not listed in Connection. *)
Lemma values_removeHopByHop h k :
  values (removeHopByHopHeaders h) k =
  if str_in (CanonicalHeaderKey k) (map CanonicalHeaderKey (connection_tokens h ++ hopHeaders))
  then [] else values h k.
Proof.
  unfold removeHopByHopHeaders. rewrite !values_Del_all, map_app. unfold str_in.
  rewrite existsb_app. by destruct (existsb _ _), (existsb _ _).
Qed.

Lemma values_hset k k' v r :
  values (rq_Header (hset k v r)) k' =
  if String.eqb (CanonicalHeaderKey k) (CanonicalHeaderKey k') then [v] else values (rq_Header r) k'.
Proof. apply values_Set. Qed.

(** The director touches two headers only. *)
Lemma values_Director proxy req k :
  str_in (CanonicalHeaderKey k) ["X-Forwarded-Host"; "X-Forwarded-Proto"] = false ->
  values (rq_Header (Director proxy req)) k = values (rq_Header req) k.
Proof.
  intros Hk. unfold Director. cbv zeta. apply orb_false_iff in Hk as [E1 Hk].
  apply orb_false_iff in Hk as [E2 _].
  assert (forall u, values (rq_Header (rewriteRequestURL u req)) k = values (rq_Header req) k) as Hu.
  { intros u. unfold rewriteRequestURL. by destruct (joinURLPath _ _). }
  rewrite String.eqb_sym in E1, E2.
  destruct (rp_preserveHost proxy); cbn [with_host rq_Header]; rewrite values_hset;
    canon; rewrite E2; (case_if; [rewrite values_hset; canon; rewrite E1|]; apply Hu).
Qed.

(** The other headers the proxy writes itself. *)
Definition rewritten : list string :=
  ["X-Forwarded-Host"; "X-Forwarded-Proto"; "Te"; "Connection"; "Upgrade"; "X-Forwarded-For"; "User-Agent"].

Lemma connection_tokens_Director proxy req :
  connection_tokens (rq_Header (Director proxy req)) = connection_tokens (rq_Header req).
Proof. unfold connection_tokens. by rewrite values_Director. Qed.

Lemma values_append_forwarded remote h k :
  String.eqb "X-Forwarded-For" (CanonicalHeaderKey k) = false ->
  values (append_forwarded remote h) k = values h k.
Proof.
  intros Hk. unfold append_forwarded. destruct (SplitHostPort remote); [|done].
  by destruct (values h "X-Forwarded-For"); rewrite values_Set; canon; rewrite Hk.
Qed.

Lemma values_blank_user_agent h k :
  String.eqb "User-Agent" (CanonicalHeaderKey k) = false -> values (blank_user_agent h) k = values h k.
Proof.
  intros Hk. unfold blank_user_agent. destruct (h !! _); [done|]. rewrite values_Set. canon. by rewrite Hk.
Qed.

(** Whether the client has a header removed on the way. *)
Definition stripped (req : Request) (k : string) : bool :=
  str_in (CanonicalHeaderKey k) (map CanonicalHeaderKey (connection_tokens (rq_Header req) ++ hopHeaders)).

Lemma values_end_to_end trailers up h k :
  str_in (CanonicalHeaderKey k) ["Te"; "Connection"; "Upgrade"] = false ->
  values (end_to_end trailers up h) k = values (removeHopByHopHeaders h) k.
Proof.
  intros Hk. apply orb_false_iff in Hk as [E1 Hk]. apply orb_false_iff in Hk as [E2 Hk].
  apply orb_false_iff in Hk as [E3 _]. rewrite String.eqb_sym in E1, E2, E3.
  unfold end_to_end. cbv zeta.
  destruct (negb (String.eqb up "")), trailers; rewrite ?values_Set; canon; by rewrite ?E1, ?E2, ?E3.
Qed.

(** The headers before the last two steps of [outgoing]. *)
Lemma outgoing_inv proxy req out :
  outgoing proxy req = Ok out ->
  exists h, out = with_header (blank_user_agent (append_forwarded (rq_RemoteAddr req) h)) (Director proxy req) /\
    forall k, str_in (CanonicalHeaderKey k) ["Te"; "Connection"; "Upgrade"] = false ->
      values h k = if stripped req k then [] else values (rq_Header (Director proxy req)) k.
Proof.
  unfold outgoing. cbv zeta. destruct (negb (is_print _)); [done|]. intros H. apply Ok_inj in H.
  eexists. split; [by symmetry|]. intros k Hk. rewrite values_end_to_end by done.
  unfold stripped. by rewrite <- (connection_tokens_Director proxy), <- values_removeHopByHop.
Qed.

(** A header that neither the director nor the proxy writes. *)
Lemma outgoing_values proxy req out k :
  outgoing proxy req = Ok out -> str_in (CanonicalHeaderKey k) rewritten = false ->
  values (rq_Header out) k = if stripped req k then [] else values (rq_Header req) k.
Proof.
  intros (h & -> & Hh)%outgoing_inv Hk. unfold rewritten, str_in in Hk. cbn [existsb] in Hk.
  repeat (apply orb_false_iff in Hk as [? Hk]). cbn [with_header rq_Header].
  rewrite values_blank_user_agent, values_append_forwarded by (by rewrite String.eqb_sym).
  rewrite Hh by (unfold str_in; cbn [existsb]; bool_prop; done).
  by rewrite values_Director by (unfold str_in; cbn [existsb]; bool_prop; done).
Qed.

(** ** X-Forwarded-For *)

(** The chain after the given attempts on a request whose chain was [prior]. *)
Definition chain_after (prior ip : string) (attempts : nat) : string :=
  if String.eqb prior "" || String.eqb prior ip then ip
  else prior +:+ repeat_nat (", " +:+ ip) attempts.

Lemma attempt_headers_eq ip t r :
  attempt_headers ip t r =
  hset "X-Gateway-Time" t (hset "X-Real-IP" ip
    (hset "X-Forwarded-For" (chain_after (hget r "X-Forwarded-For") ip 1) r)).
Proof.
  unfold attempt_headers, chain_after. cbv zeta. cbn [repeat_nat]. rewrite sapp_nil_r.
  by destruct (String.eqb (hget r _) ""), (String.eqb (hget r _) ip).
Qed.

(** What an attempt writes. *)
Lemma attempt_headers_values ip t r k :
  values (rq_Header (attempt_headers ip t r)) k =
  if String.eqb "X-Gateway-Time" (CanonicalHeaderKey k) then [t]
  else if String.eqb "X-Real-Ip" (CanonicalHeaderKey k) then [ip]
  else if String.eqb "X-Forwarded-For" (CanonicalHeaderKey k)
  then [chain_after (hget r "X-Forwarded-For") ip 1]
  else values (rq_Header r) k.
Proof. rewrite attempt_headers_eq, !values_hset. by canon. Qed.

Lemma attempt_headers_xff ip t r :
  hget (attempt_headers ip t r) "X-Forwarded-For" =
  chain_after (hget r "X-Forwarded-For") ip 1.
Proof. unfold hget at 1, header_Get. by rewrite attempt_headers_values. Qed.

Lemma repeat_nat_snoc s n : repeat_nat s (S n) = repeat_nat s n +:+ s.
Proof. induction n as [|n IH]; simpl in *; [by rewrite sapp_nil_r|]. by rewrite sapp_assoc, <- IH. Qed.

Lemma chain_after_step prior ip n :
  ip <> "" -> chain_after (chain_after prior ip (S n)) ip 1 = chain_after prior ip (S (S n)).
Proof.
  intros Hip. unfold chain_after at 2 3. destruct (_ || _) eqn:E.
  - unfold chain_after. by rewrite String.eqb_refl, orb_true_r.
  - unfold chain_after. set (c := prior +:+ _).
    assert (slen ip < slen c)%nat as Hl.
    { unfold c. simpl. rewrite !slen_app. simpl. apply orb_false_iff in E as [E _]. bool_prop.
      apply slen_pos in E. rewrite slen_app. lia. }
    replace (String.eqb c "" || String.eqb c ip) with false; last first.
    { symmetry. apply orb_false_iff. split; apply String.eqb_neq; intros Ec; rewrite Ec in Hl; simpl in Hl; lia. }
    unfold c. rewrite (repeat_nat_snoc _ (S n)), sapp_assoc. simpl. by rewrite sapp_nil_r.
Qed.

Lemma attempts_xff ip ts t r :
  ip <> "" ->
  hget (fold_left (fun r t => attempt_headers ip t r) (ts ++ [t]) r) "X-Forwarded-For" =
  chain_after (hget r "X-Forwarded-For") ip (S (length ts)).
Proof.
  intros Hip. revert t. induction ts as [|t' ts IH] using rev_ind; intros t.
  - apply attempt_headers_xff.
  - rewrite fold_left_app. cbn [fold_left]. rewrite attempt_headers_xff, IH, length_app.
    cbn [length]. rewrite Nat.add_1_r. by apply chain_after_step.
Qed.

Lemma attempts_remote ip ts r :
  rq_RemoteAddr (fold_left (fun r t => attempt_headers ip t r) ts r) = rq_RemoteAddr r.
Proof.
  revert r. induction ts as [|t ts IH]; intros r; [done|]. cbn [fold_left]. rewrite IH.
  by rewrite attempt_headers_eq.
Qed.

Lemma attempts_stripped ip ts r k :
  stripped (fold_left (fun r t => attempt_headers ip t r) ts r) k = stripped r k.
Proof.
  revert r. induction ts as [|t ts IH]; intros r; [done|]. cbn [fold_left]. rewrite IH.
  unfold stripped, connection_tokens. by rewrite attempt_headers_values.
Qed.

Lemma attempt_stripped ip t r k : stripped (attempt_headers ip t r) k = stripped r k.
Proof. apply (attempts_stripped ip [t]). Qed.

(** C30: the X-Forwarded-For header an upstream reads, on the first attempt or
    after any number of earlier ones, for a client address that is not empty. The
    attempts share one header map. A request without a chain, or whose chain is
    just the client address (one proxy in front of the gateway), has the client
    address as its chain, however often it is tried; any other chain is followed
    by the client address once for every attempt so far, this one included.
    Neither reaches the upstream when the client's own Connection header lists
    the header. Then the proxy appends the address of the peer itself, unless
    that address cannot be split into a host and a port. *)
Theorem forwarded_for_chain (proxy : ReverseProxy) (r out : Request) (ip t : string)
    (earlier : list string) :
  ip <> "" ->
  outgoing proxy (fold_left (fun r t => attempt_headers ip t r) (earlier ++ [t]) r) = Ok out ->
  let prior := hget r "X-Forwarded-For" in
  let chain := if String.eqb prior "" || String.eqb prior ip then ip
               else prior +:+ repeat_nat (", " +:+ ip) (S (length earlier)) in
  hget out "X-Forwarded-For" =
  match SplitHostPort (rq_RemoteAddr r) with
  | HostPort peer _ => if stripped r "X-Forwarded-For" then peer else chain +:+ ", " +:+ peer
  | AddrError _ => if stripped r "X-Forwarded-For" then "" else chain
  end.
Proof.
  intros Hip Ho prior chain. change chain with (chain_after prior ip (S (length earlier))).
  unfold prior. rewrite <- (attempts_xff ip earlier t r) by done.
  set (r1 := fold_left _ _ _) in *.
  assert (values (rq_Header r1) "X-Forwarded-For" = [hget r1 "X-Forwarded-For"]) as Hv.
  { unfold r1. rewrite fold_left_app. cbn [fold_left]. rewrite attempt_headers_xff.
    by rewrite attempt_headers_values. }
  apply outgoing_inv in Ho as (h & -> & Hh). specialize (Hh "X-Forwarded-For" eq_refl).
  unfold r1 in Hh. rewrite attempts_stripped in Hh. fold r1 in Hh.
  rewrite values_Director, Hv in Hh by done.
  unfold hget at 1, header_Get. cbn [with_header rq_Header].
  rewrite values_blank_user_agent by done. unfold append_forwarded, r1.
  rewrite attempts_remote. fold r1.
  destruct (SplitHostPort (rq_RemoteAddr r)), (stripped r "X-Forwarded-For");
    rewrite Hh, ?values_Set, ?String.eqb_refl; done.
Qed.

(** A request through two proxies, on its second attempt. *)
Lemma forwarded_for_chain_witness :
  let r := mkRequest "GET" (mkURL "" "" "/x" "" "") "h"
             {["X-Forwarded-For" := ["1.1.1.1, 2.2.2.2"]]} "3.3.3.3:5000" false in
  let proxy := mkProxy (mkURL "http" "10.0.0.1:80" "" "" "") false in
  exists out, outgoing proxy (fold_left (fun r t => attempt_headers "1.1.1.1" t r) (["t0"] ++ ["t1"]) r)
              = Ok out /\
    hget out "X-Forwarded-For" = "1.1.1.1, 2.2.2.2, 1.1.1.1, 1.1.1.1, 3.3.3.3".
Proof.
  intros r proxy.
  destruct (outgoing proxy (fold_left (fun r t => attempt_headers "1.1.1.1" t r) (["t0"] ++ ["t1"]) r))
    as [out|e] eqn:E; [|vm_compute in E; discriminate E].
  exists out. split; [reflexivity|].
  exact (forwarded_for_chain proxy r out "1.1.1.1" "t1" ["t0"] ltac:(discriminate) E).
Defined.

(** The client decides whether an upstream learns its address. The
    X-Real-IP header an attempt sets reaches the upstream exactly when the
    client's own Connection header does not list it: hop-by-hop headers are
    removed after the gateway has written its own. The same holds of every other
    header. *)
Theorem connection_header_strips_real_ip (proxy : ReverseProxy) (r out : Request) (ip t : string) :
  outgoing proxy (attempt_headers ip t r) = Ok out ->
  values (rq_Header out) "X-Real-IP" = (if stripped r "X-Real-IP" then [] else [ip]) /\
  forall k, str_in (CanonicalHeaderKey k)
              (["X-Real-Ip"; "X-Gateway-Time"] ++ rewritten) = false ->
    values (rq_Header out) k = if stripped r k then [] else values (rq_Header r) k.
Proof.
  intros Ho. split.
  - rewrite (outgoing_values _ _ _ _ Ho) by done.
    rewrite attempt_stripped, attempt_headers_values. done.
  - intros k Hk. unfold str_in in Hk. rewrite existsb_app in Hk. apply orb_false_iff in Hk as [H1 H2].
    rewrite (outgoing_values _ _ _ _ Ho) by done.
    rewrite attempt_stripped, attempt_headers_values.
    unfold rewritten in *. cbn [existsb] in H1, H2. bool_prop.
    by repeat (rewrite (proj2 (String.eqb_neq _ _)) by congruence).
Qed.

Lemma connection_header_strips_real_ip_witness :
  let r := mkRequest "GET" (mkURL "" "" "/x" "" "") "h" {["Connection" := ["close, x-real-ip"]]}
             "3.3.3.3:5000" false in
  let proxy := mkProxy (mkURL "http" "10.0.0.1:80" "" "" "") false in
  exists out, outgoing proxy (attempt_headers "3.3.3.3" "now" r) = Ok out /\
    values (rq_Header out) "X-Real-IP" = [].
Proof.
  intros r proxy. destruct (outgoing proxy (attempt_headers "3.3.3.3" "now" r)) as [out|e] eqn:E;
    [|vm_compute in E; discriminate E].
  exists out. split; [reflexivity|].
  exact (proj1 (connection_header_strips_real_ip proxy r out "3.3.3.3" "now" E)).
Defined.

(** ** The request line *)

Lemma escape_app (a b : string) (m : encoding) : escape (a +:+ b) m = escape a m +:+ escape b m.
Proof. induction a as [|c a IH]; cbn; [done|]. rewrite IH. by destruct (shouldEscape c m). Qed.

Lemma HasPrefix_escape (s : string) : HasPrefix (escape s encodePath) "/" = HasPrefix s "/".
Proof.
  destruct s as [|c s]; [done|]. cbn [escape]. destruct (shouldEscape c encodePath) eqn:E.
  - destruct (Ascii.eqb c "/") eqn:Ec; [bool_prop; subst; discriminate E|].
    cbn [HasPrefix]. rewrite Ascii.eqb_sym in Ec. by rewrite Ec.
  - cbn [HasPrefix]. by destruct (Ascii.eqb "/" c).
Qed.

Lemma string_snoc (s : string) : s = "" \/ exists r c, s = r +:+ String c "".
Proof.
  induction s as [|c s [->|(r & d & ->)]]; [by left|right; by exists "", c|].
  right. by exists (String c r), d.
Qed.

Lemma HasSuffix_snoc (r : string) (c d : ascii) : HasSuffix (r +:+ String c "") (String d "") = Ascii.eqb c d.
Proof.
  destruct (Ascii.eqb c d) eqn:E; bool_prop.
  - subst. apply HasSuffix_app.
  - apply not_true_iff_false. intros [q Hq]%HasSuffix_spec.
    assert (slen r = slen q) as Hl.
    { apply (f_equal slen) in Hq. rewrite !slen_app in Hq. simpl in Hq. lia. }
    by apply sapp_inj in Hq as [_ [= ?]].
Qed.

Lemma upperhex_not_slash (z : Z) : 0 <= z < 16 -> Ascii.eqb (upperhex z) "/" = false.
Proof.
  intros Hz. assert (In z (map Z.of_nat (seq 0 16))) as Hin.
  { apply in_map_iff. exists (Z.to_nat z). split; [lia|]. apply in_seq. lia. }
  simpl in Hin. repeat (destruct Hin as [<-|Hin]; [reflexivity|]). done.
Qed.

Lemma HasSuffix_escape (s : string) : HasSuffix (escape s encodePath) "/" = HasSuffix s "/".
Proof.
  destruct (string_snoc s) as [->|(r & c & ->)]; [done|]. rewrite escape_app, HasSuffix_snoc. cbn [escape].
  destruct (shouldEscape c encodePath) eqn:E.
  - change (String "%" (String ?a (String ?b ""))) with (String "%" (String a "") +:+ String b "").
    rewrite <- sapp_assoc, HasSuffix_snoc.
    rewrite upperhex_not_slash by (apply Z.mod_pos_bound; lia).
    destruct (Ascii.eqb c "/") eqn:Ec; [|done]. bool_prop. subst. discriminate E.
  - apply HasSuffix_snoc.
Qed.

(** A target whose raw path is unset ends in a slash exactly when its escaped
    path does. *)
Lemma plain_target_ok (a : URL) :
  u_RawPath a = "" -> HasSuffix (EscapedPath a) "/" = HasSuffix (u_Path a) "/".
Proof.
  intros Ha. unfold EscapedPath. rewrite Ha. cbn [String.eqb negb andb].
  destruct (String.eqb (u_Path a) "*") eqn:E; [bool_prop; by rewrite E|apply HasSuffix_escape].
Qed.

Lemma EscapedPath_rooted (b : URL) :
  HasPrefix (u_Path b) "/" = true -> u_RawPath b = "" \/ HasPrefix (u_RawPath b) "/" = true ->
  HasPrefix (EscapedPath b) "/" = true.
Proof.
  intros Hb Hr. unfold EscapedPath. case_if.
  - destruct Hr as [Hr|Hr]; [by rewrite Hr in Heqb0|done].
  - destruct (String.eqb (u_Path b) "*") eqn:E; [bool_prop; by rewrite E in Hb|].
    by rewrite HasPrefix_escape.
Qed.

Lemma joinURLPath_path (a b : URL) :
  HasSuffix (EscapedPath a) "/" = HasSuffix (u_Path a) "/" -> HasPrefix (u_Path b) "/" = true ->
  u_RawPath b = "" \/ HasPrefix (u_RawPath b) "/" = true ->
  (joinURLPath a b).1 = singleJoiningSlash (u_Path a) (u_Path b).
Proof.
  intros Ha Hb Hr. unfold joinURLPath, singleJoiningSlash.
  destruct (String.eqb (u_RawPath a) "" && String.eqb (u_RawPath b) ""); [done|].
  rewrite Ha, EscapedPath_rooted, Hb by done. by destruct (HasSuffix (u_Path a) "/").
Qed.

Lemma Director_url proxy req :
  rq_URL (Director proxy req) = rq_URL (rewriteRequestURL (rp_target proxy) req) /\
  rq_Method (Director proxy req) = rq_Method req.
Proof.
  unfold Director, rewriteRequestURL. destruct (joinURLPath _ _). cbv zeta.
  destruct (rp_preserveHost proxy), (String.eqb (hget _ "X-Forwarded-Host") "" && _); done.
Qed.

(** C29: the request line an upstream gets, for a request whose path, and whose
    escaped path when it has one, begin with a slash (as the server reads them, and
    as stripping a prefix leaves them), and a target whose path ends in a slash
    exactly when its escaped path does (every target but one written to end in
    %2F, for which the join has two slashes). The method is the client's; the
    connection goes to the target's scheme and host; the Host header is the
    client's exactly when the route preserves it; and the path on the wire decodes
    to the target's path joined to the routed path by exactly one slash, whether
    or not a prefix was stripped and with or without escapes in the client's
    path. *)
Theorem upstream_request_line (proxy : ReverseProxy) (req out : Request) :
  outgoing proxy req = Ok out ->
  HasSuffix (EscapedPath (rp_target proxy)) "/" = HasSuffix (u_Path (rp_target proxy)) "/" ->
  HasPrefix (u_Path (rq_URL req)) "/" = true ->
  u_RawPath (rq_URL req) = "" \/ HasPrefix (u_RawPath (rq_URL req)) "/" = true ->
  rq_Method out = rq_Method req /\
  u_Scheme (rq_URL out) = u_Scheme (rp_target proxy) /\ u_Host (rq_URL out) = u_Host (rp_target proxy) /\
  rq_Host out = (if rp_preserveHost proxy then rq_Host req else u_Host (rp_target proxy)) /\
  unescape (EscapedPath (rq_URL out)) encodePath =
    Some (singleJoiningSlash (u_Path (rp_target proxy)) (u_Path (rq_URL req))).
Proof.
  intros (h & -> & _)%outgoing_inv Ht Hp Hr. cbn [with_header rq_Method rq_URL rq_Host].
  destruct (Director_url proxy req) as [-> ->].
  pose proof (joinURLPath_path _ _ Ht Hp Hr) as Hj. rewrite EscapedPath_decodes, <- Hj.
  unfold rewriteRequestURL. destruct (joinURLPath _ _) as [path raw]. split_and!; try done.
  unfold Director. cbv zeta. by destruct (rp_preserveHost proxy).
Qed.

(** A request with an escaped slash on a route that strips nothing, and a target
    with a path of its own. *)
Lemma upstream_request_line_witness :
  let req := mkRequest "POST" (mkURL "" "" "/a/b c" "/a%2Fb%20c" "") "api.example.com" ∅ "3.3.3.3:5000" false in
  let proxy := mkProxy (mkURL "http" "10.0.0.1:80" "/base/" "" "") false in
  exists out, outgoing proxy req = Ok out /\ rq_Host out = "10.0.0.1:80" /\
    EscapedPath (rq_URL out) = "/base/a%2Fb%20c" /\
    unescape (EscapedPath (rq_URL out)) encodePath = Some "/base/a/b c".
Proof.
  intros req proxy. destruct (outgoing proxy req) as [out|e] eqn:E; [|vm_compute in E; discriminate E].
  destruct (upstream_request_line proxy req out E (plain_target_ok (rp_target proxy) eq_refl) eq_refl (or_intror eq_refl))
    as (_ & _ & _ & Hh & Hp).
  exists out. split; [reflexivity|]. split; [exact Hh|]. split; [|exact Hp].
  vm_compute in E. injection E as <-. vm_compute. reflexivity.
Defined.

(** A target that ends in an escaped slash. *)
Example escaped_slash_target :
  let req := mkRequest "GET" (mkURL "" "" "/x" "" "") "h" ∅ "3.3.3.3:5000" false in
  let proxy := mkProxy (mkURL "http" "10.0.0.1:80" "/base/" "/base%2F" "") false in
  match outgoing proxy req with Ok out => u_Path (rq_URL out) | Err e => e end = "/base//x".
Proof. vm_compute. reflexivity. Qed.

Lemma hget_Director proxy req k :
  hget (Director proxy req) k =
  if String.eqb "X-Forwarded-Proto" (CanonicalHeaderKey k)
  then if String.eqb (hget req "X-Forwarded-Proto") "" then if rq_TLS req then "https" else "http"
       else hget req "X-Forwarded-Proto"
  else if String.eqb "X-Forwarded-Host" (CanonicalHeaderKey k) &&
          String.eqb (hget req "X-Forwarded-Host") "" && negb (String.eqb (rq_Host req) "")
  then rq_Host req
  else hget req k.
Proof.
  assert (forall u k, hget (rewriteRequestURL u req) k = hget req k) as Hu.
  { intros u k'. unfold rewriteRequestURL. by destruct (joinURLPath _ _). }
  assert (forall host r, hget (with_host host r) k = hget r k) as Hw by done.
  unfold Director. cbv zeta. rewrite Hu. destruct (rp_preserveHost proxy); rewrite Hw, hget_hset; canon;
    (destruct (String.eqb "X-Forwarded-Proto" _);
      [by destruct (String.eqb (hget req "X-Forwarded-Proto") "")|]);
    destruct (String.eqb (hget req "X-Forwarded-Host") "") eqn:E1, (String.eqb (rq_Host req) "") eqn:E2;
    cbn [negb andb]; rewrite ?hget_hset, ?Hu; canon;
    by destruct (String.eqb "X-Forwarded-Host" _).
Qed.

(** What an upstream learns of the client's own view. Unless the client
    lists them in its Connection header, X-Forwarded-Host carries the host the
    client asked for (or the value the client sent) and X-Forwarded-Proto the
    scheme it used (or the value it sent). *)
Theorem forwarded_host_and_proto (proxy : ReverseProxy) (req out : Request) :
  outgoing proxy req = Ok out ->
  (stripped req "X-Forwarded-Proto" = false ->
     hget out "X-Forwarded-Proto" =
       (if String.eqb (hget req "X-Forwarded-Proto") "" then if rq_TLS req then "https" else "http"
        else hget req "X-Forwarded-Proto")) /\
  (stripped req "X-Forwarded-Host" = false ->
     hget out "X-Forwarded-Host" =
       (if String.eqb (hget req "X-Forwarded-Host") "" then rq_Host req
        else hget req "X-Forwarded-Host")).
Proof.
  intros (h & -> & Hh)%outgoing_inv.
  assert (forall k, String.eqb "User-Agent" (CanonicalHeaderKey k) = false ->
            String.eqb "X-Forwarded-For" (CanonicalHeaderKey k) = false ->
            str_in (CanonicalHeaderKey k) ["Te"; "Connection"; "Upgrade"] = false ->
            stripped req k = false ->
            hget (with_header (blank_user_agent (append_forwarded (rq_RemoteAddr req) h))
                    (Director proxy req)) k = hget (Director proxy req) k) as Hk.
  { intros k H1 H2 H3 H4. unfold hget, header_Get. cbn [with_header rq_Header].
    by rewrite values_blank_user_agent, values_append_forwarded, Hh, H4. }
  split; intros Hs; rewrite Hk by done; rewrite hget_Director; canon.
  - by rewrite String.eqb_refl.
  - cbn [String.eqb]. destruct (String.eqb (hget req "X-Forwarded-Host") "") eqn:E1,
      (String.eqb (rq_Host req) "") eqn:E2; cbn; bool_prop; congruence.
Qed.

Lemma forwarded_host_and_proto_witness :
  let req := mkRequest "GET" (mkURL "" "" "/x" "" "") "api.example.com" ∅ "3.3.3.3:5000" true in
  let proxy := mkProxy (mkURL "http" "10.0.0.1:80" "" "" "") false in
  exists out, outgoing proxy req = Ok out /\ hget out "X-Forwarded-Proto" = "https" /\
    hget out "X-Forwarded-Host" = "api.example.com".
Proof.
  intros req proxy. destruct (outgoing proxy req) as [out|e] eqn:E; [|vm_compute in E; discriminate E].
  destruct (forwarded_host_and_proto proxy req out E) as [H1 H2].
  exists out. split; [reflexivity|]. split; [exact (H1 eq_refl)|exact (H2 eq_refl)].
Defined.
