(* ===== verification/Config.v ===== *)
(** * Configuration from the environment (config.go)

    The environment is the list [os.Environ()] of [KEY=value] strings. The
    decoders of encoding/json and [time.ParseDuration] are the interface
    [Decoders]; the order in which a [range] visits a map, which Go leaves open,
    is the interface [MapRange]. *)

From Stdlib Require Import ZArith Lia Ascii String List Permutation OrderedTypeEx.
From stdpp Require Import base list strings gmap.
From S2P Require Import Prelude GoStrings Hosts StableSort Urls Pool Router Http.

(** ** Data *)

Record Config := mkConfig {
  c_Port : string;
  c_MaxRequestsPerSecond : Z;
  c_MaxBurstSize : Z;
  c_DDoSThreshold : Z;
  c_BlockDuration : Z;
  c_JWTSecret : string;
  c_HealthCheckInterval : Z;
  c_ConnectionTimeout : Z;
  c_MaxIdleConns : Z;
  c_IdleConnTimeout : Z;
  c_CircuitBreakerMax : Z;
  c_CircuitBreakerTimeout : Z;
  c_EnableCompression : bool;
  c_EnableCaching : bool;
  c_CacheTTL : Z;
  c_RedisAddr : string;
  c_LoadBalancingAlgo : string;
  c_ServiceRoutes : list ServiceRoute;
  c_CorsAllowedOrigins : list string
}.

Abbreviation environ := (list string).

(** [json.Unmarshal] into a slice of routes and into a slice of strings, and
    [time.ParseDuration]; [None] is an error. *)
Class Decoders := {
  Unmarshal_routes : string -> option (list ServiceRoute);
  Unmarshal_strings : string -> option (list string);
  ParseDuration : string -> option Z
}.

(** ** Single variables *)

(** The name and the value of an entry. *)
Definition split_entry (kv : string) : option (string * string) :=
  match IndexByte kv "=" with
  | Some eq => Some (stake eq kv, sdrop (S eq) kv)
  | None => None
  end.

Fixpoint Getenv (env : environ) (key : string) : string :=
  match env with
  | [] => ""
  | kv :: rest =>
      match split_entry kv with
      | Some (k, v) => if String.eqb k key then v else Getenv rest key
      | None => Getenv rest key
      end
  end.

Definition envOr (env : environ) (key fallback : string) : string :=
  let v := Getenv env key in if negb (String.eqb v "") then v else fallback.

Definition envOrInt (env : environ) (key : string) (fallback : Z) : Z :=
  let v := Getenv env key in
  if String.eqb v "" then fallback else default fallback (Atoi v).

Definition envOrBool (env : environ) (key : string) (fallback : bool) : bool :=
  let v := Getenv env key in
  if String.eqb v "" then fallback else default fallback (ParseBool v).

Definition envOrDuration `{Decoders} (env : environ) (key : string) (fallback : Z) : Z :=
  let v := Getenv env key in
  if String.eqb v "" then fallback else default fallback (ParseDuration v).

(** ** Lists and fallbacks *)

Definition is_list_sep (c : ascii) : bool :=
  Ascii.eqb c "," || Ascii.eqb c " " || (byte_of c =? 9) || (byte_of c =? 10).

Definition splitList (raw : string) : list string :=
  List.filter (fun f => negb (String.eqb f "")) (map TrimSpace (FieldsFunc raw is_list_sep)).

Definition parseBoolOr (v : string) (fallback : bool) : bool :=
  if String.eqb v "" then fallback else default fallback (ParseBool (TrimSpace v)).

Definition parseIntOr (v : string) (fallback : Z) : Z :=
  if String.eqb v "" then fallback else default fallback (Atoi (TrimSpace v)).

(** ** Named routes *)

Definition routeEnvSuffixes : list string :=
  ["URL"; "TARGETS"; "PREFIX"; "HOST"; "STRIP_PREFIX"; "REQUIRE_AUTH";
   "WEIGHT"; "WEIGHTS"; "TIMEOUT_SECS"; "HEALTH_PATH"; "PRESERVE_HOST"].

Definition longer (a b : string) : bool := (slen b <? slen a)%nat.

(** [sort.Slice] by length, longest first. The sort of the code is not stable;
    [match_suffix_any_order] shows that the order of equally long suffixes does
    not matter. *)
Definition suffixes : list string := SliceStable longer routeEnvSuffixes.

(** The route name and the suffix of a variable's name after [ROUTE_]. *)
Fixpoint match_suffix (sfxs : list string) (rest : string) : option (string * string) :=
  match sfxs with
  | [] => None
  | sfx :: more =>
      if (slen sfx + 1 <? slen rest)%nat && HasSuffix rest ("_" +:+ sfx)
      then Some (stake (slen rest - slen sfx - 1) rest, sfx)
      else match_suffix more rest
  end.

(** The name, the suffix and the value an entry declares. *)
Definition route_entry (kv : string) : option (string * string * string) :=
  match IndexByte kv "=" with
  | Some (S _ as eq) =>
      let key := stake eq kv in
      let val := sdrop (S eq) kv in
      if negb (HasPrefix key "ROUTE_") || String.eqb val "" then None
      else match match_suffix suffixes (sdrop (slen "ROUTE_") key) with
           | Some (name, sfx) => Some (name, sfx, val)
           | None => None
           end
  | _ => None
  end.

Abbreviation fields := (gmap string string).

Definition add_field (e : string * string * string) (byName : gmap string fields) : gmap string fields :=
  let '(name, sfx, val) := e in
  <[name := <[sfx := val]> (default ∅ (byName !! name))]> byName.

(** [for n := range byName]: the order of the names. Go promises no order, and
    picks another one each time; every name is visited once. *)
Class MapRange := {
  range_names : gmap string fields -> list string;
  range_names_perm (m : gmap string fields) : Permutation (range_names m) (map fst (map_to_list m))
}.

(** The loop over the environment, entry by entry. *)
Definition group (env : environ) : gmap string fields :=
  fold_left (fun m e => add_field e m) (omap route_entry env) ∅.

Definition string_less (a b : string) : bool := String.ltb a b.

(** [f[k]], with Go's zero value for a missing key. *)
Definition field (f : fields) (k : string) : string := default "" (f !! k).

Definition route_of `{UnicodeTables} (name : string) (f : fields) : option ServiceRoute :=
  let targets := splitList (field f "TARGETS") in
  if String.eqb (field f "URL") "" && (length targets =? 0)%nat then None
  else Some (mkServiceRoute
    (field f "HOST")
    (if String.eqb (field f "PREFIX") "" then "/" else field f "PREFIX")
    (field f "URL") targets
    (match f !! "STRIP_PREFIX" with Some v => parseBoolOr v true | None => true end)
    (match f !! "REQUIRE_AUTH" with Some v => parseBoolOr v false | None => false end)
    (match f !! "WEIGHT" with Some v => parseIntOr v 1 | None => 1 end)
    (map (fun w => parseIntOr w 1) (splitList (field f "WEIGHTS")))
    (match f !! "TIMEOUT_SECS" with Some v => parseIntOr v 30 | None => 30 end)
    (field f "HEALTH_PATH") (parseBoolOr (field f "PRESERVE_HOST") false) (ToLower name)).

Definition loadEnvNamedRoutes `{UnicodeTables, MapRange} (env : environ) : list ServiceRoute :=
  let byName := group env in
  let names := SliceStable string_less (range_names byName) in
  omap (fun name => route_of name (default ∅ (byName !! name))) names.

(** ** The table *)

Definition default_route (name prefix target : string) : ServiceRoute :=
  mkServiceRoute "" prefix target [] false false 0 [] 0 "" false name.

Definition vxCloudDefaultRoutes : list ServiceRoute :=
  [ default_route "studio" "/api/studio" "http://localhost:3000";
    default_route "studio2" "/api/studio2" "http://localhost:3001";
    default_route "ai" "/api/ai" "http://localhost:8741";
    default_route "admin" "/api/admin" "http://localhost:8242";
    default_route "core" "/api/core" "http://localhost:8743";
    default_route "node" "/api/node" "http://localhost:8744";
    default_route "llm" "/api/llm" "http://localhost:8745";
    default_route "llm2" "/api/llm2" "http://localhost:8746";
    default_route "agent" "/api/agent" "http://localhost:8788" ].

Definition with_defaults (d : ServiceRoute) : ServiceRoute :=
  mkServiceRoute (r_Host d) (r_Prefix d) (r_TargetURL d) (r_Targets d) true (r_RequireAuth d) 1
    (r_Weights d) 30 (r_HealthPath d) (r_PreserveHost d) (r_Name d).

Definition loadServiceRoutes `{UnicodeTables, MapRange, Decoders} (env : environ) : list ServiceRoute :=
  let raw := Getenv env "SERVICE_ROUTES" in
  (if negb (String.eqb raw "") then default [] (Unmarshal_routes raw) else []) ++
  loadEnvNamedRoutes env ++
  (if envOrBool env "ENABLE_VXCLOUD_DEFAULT_ROUTES" false
   then map with_defaults vxCloudDefaultRoutes else []).

Definition loadCorsOrigins `{Decoders} (env : environ) : list string :=
  let raw := Getenv env "CORS_ALLOWED_ORIGINS" in
  if negb (String.eqb raw "") then default ["*"] (Unmarshal_strings raw) else ["*"].

Definition LoadConfig `{UnicodeTables, MapRange, Decoders} (env : environ) : Config := {|
  c_Port := envOr env "GATEWAY_PORT" ":9777";
  c_MaxRequestsPerSecond := envOrInt env "MAX_REQUESTS_PER_SECOND" 100;
  c_MaxBurstSize := envOrInt env "MAX_BURST_SIZE" 200;
  c_DDoSThreshold := envOrInt env "DDOS_THRESHOLD" 1000;
  c_BlockDuration := envOrDuration env "BLOCK_DURATION" (10 * Minute);
  c_JWTSecret := envOr env "JWT_SECRET" "your-secret-key-change-in-production";
  c_HealthCheckInterval := envOrDuration env "HEALTH_CHECK_INTERVAL" (10 * Second);
  c_ConnectionTimeout := envOrDuration env "CONNECTION_TIMEOUT" (30 * Second);
  c_MaxIdleConns := envOrInt env "MAX_IDLE_CONNS" 100;
  c_IdleConnTimeout := envOrDuration env "IDLE_CONN_TIMEOUT" (90 * Second);
  c_CircuitBreakerMax := envOrInt env "CIRCUIT_BREAKER_MAX" 5;
  c_CircuitBreakerTimeout := envOrDuration env "CIRCUIT_BREAKER_TIMEOUT" (30 * Second);
  c_EnableCompression := envOrBool env "ENABLE_COMPRESSION" true;
  c_EnableCaching := envOrBool env "ENABLE_CACHING" true;
  c_CacheTTL := envOrDuration env "CACHE_TTL" (5 * Minute);
  c_RedisAddr := envOr env "REDIS_ADDR" "localhost:6379";
  c_LoadBalancingAlgo := envOr env "LOAD_BALANCING_ALGO" "least-conn";
  c_ServiceRoutes := loadServiceRoutes env;
  c_CorsAllowedOrigins := loadCorsOrigins env
|}.

(** Two orders. *)
Definition key_order : MapRange := {|
  range_names m := map fst (map_to_list m);
  range_names_perm m := Permutation_refl _
|}.

Definition reverse_key_order : MapRange := {|
  range_names m := rev (map fst (map_to_list m));
  range_names_perm m := Permutation_sym (Permutation_rev _)
|}.

(** Two variables of one route. *)
Example named_route_example :
  loadEnvNamedRoutes (H := ascii_tables) (H0 := reverse_key_order)
    ["HOME=/root"; "ROUTE_SHOP_STRIP_PREFIX=false"; "ROUTE_SHOP_URL=http://10.0.0.5"; "ROUTE_B_HOST=x"] =
  [mkServiceRoute "" "/" "http://10.0.0.5" [] false false 1 [] 30 "" false "shop"].
Proof. vm_compute. reflexivity. Qed.

(** ** Variable names and routes *)

(** The variable that declares a knob of a route. *)
Definition var_name (name sfx : string) : string := "ROUTE_" +:+ name +:+ "_" +:+ sfx.

Lemma match_suffix_sound sfxs rest name sfx :
  match_suffix sfxs rest = Some (name, sfx) -> rest = name +:+ "_" +:+ sfx /\ In sfx sfxs.
Proof.
  induction sfxs as [|s sfxs IH]; simpl; [done|]. destruct (_ && _) eqn:E.
  - intros [= <- <-]. apply andb_true_iff in E as [_ [r ->]%HasSuffix_spec].
    rewrite slen_app. simpl.
    replace (slen r + S (slen s) - slen s - 1)%nat with (slen r) by lia.
    rewrite stake_app. auto.
  - intros [-> ?]%IH. auto.
Qed.

Lemma route_entry_key kv name sfx val :
  route_entry kv = Some (name, sfx, val) -> split_entry kv = Some (var_name name sfx, val).
Proof.
  unfold route_entry, split_entry. destruct (IndexByte kv "=") as [[|eq]|]; try done.
  destruct (negb _ || _) eqn:E; [done|]. apply orb_false_iff in E as [E _].
  apply negb_false_iff, HasPrefix_spec in E as [rest E]. rewrite E, sdrop_app.
  destruct (match_suffix suffixes rest) as [[n s]|] eqn:Em; [|done]. intros [= <- <- <-].
  by apply match_suffix_sound in Em as [-> _].
Qed.

Lemma route_vars_In env x :
  In x (map (fun e => var_name e.1.1 e.1.2) (omap route_entry env)) ->
  In x (map fst (omap split_entry env)).
Proof.
  induction env as [|kv env IH]; simpl; [done|].
  destruct (route_entry kv) as [[[n s] v]|] eqn:E; simpl.
  - rewrite (route_entry_key _ _ _ _ E). simpl. intros [<-|?]; auto.
  - intros Hx. destruct (split_entry kv); simpl; auto.
Qed.

Lemma route_vars_NoDup env :
  List.NoDup (map fst (omap split_entry env)) ->
  List.NoDup (map (fun e => var_name e.1.1 e.1.2) (omap route_entry env)).
Proof.
  induction env as [|kv env IH]; simpl; [done|].
  destruct (route_entry kv) as [[[n s] v]|] eqn:E; simpl.
  - rewrite (route_entry_key _ _ _ _ E). simpl. inversion 1; subst. constructor; auto.
    intros Hx. by apply route_vars_In in Hx.
  - destruct (split_entry kv); simpl; [inversion 1; auto|auto].
Qed.

Lemma add_field_comm e1 e2 m :
  (e1.1.1, e1.1.2) <> (e2.1.1, e2.1.2) -> add_field e1 (add_field e2 m) = add_field e2 (add_field e1 m).
Proof.
  destruct e1 as [[n1 s1] v1], e2 as [[n2 s2] v2]. simpl. intros Hne.
  destruct (decide (n1 = n2)) as [->|Hn].
  - rewrite !lookup_insert_eq, !insert_insert_eq. simpl. f_equal. apply insert_insert_ne. congruence.
  - rewrite !lookup_insert_ne by congruence. by apply insert_insert_ne.
Qed.

(** The grouping does not depend on the order of the environment. *)
Lemma group_permutation env env' :
  List.NoDup (map fst (omap split_entry env)) -> Permutation env env' -> group env = group env'.
Proof.
  intros Hnd Hp. unfold group. rewrite <- !fold_left_rev_right.
  apply (foldr_permutation (=) (fun e m => add_field e m) ∅).
  - intros j1 a1 j2 a2 b Hj H1 H2. apply add_field_comm. intros Heq.
    apply route_vars_NoDup in Hnd.
    assert (List.NoDup (map (fun e => var_name e.1.1 e.1.2) (rev (omap route_entry env)))) as Hr.
    { rewrite map_rev. by apply List.NoDup_rev. }
    rewrite <- NoDup_ListNoDup in Hr. apply Hj.
    eapply (NoDup_lookup _ _ _ (var_name a1.1.1 a1.1.2) Hr); rewrite list_lookup_fmap.
    + by rewrite H1.
    + rewrite H2. simpl. by injection Heq as -> ->.
  - by rewrite <- !Permutation_rev, Hp.
Qed.

(** *** The order of the names *)

Lemma string_less_spec a b : string_less a b = true <-> String.compare a b = Lt.
Proof. unfold string_less, String.ltb. by destruct (String.compare a b). Qed.

Lemma string_less_trans a b c : string_less a b = true -> string_less b c = true -> string_less a c = true.
Proof.
  rewrite !string_less_spec, !String_as_OT.cmp_lt. apply String_as_OT.lt_trans.
Qed.

Lemma string_less_total a b : string_less a b = false -> string_less b a = false -> a = b.
Proof.
  unfold string_less, String.ltb. rewrite (String.compare_antisym b a).
  destruct (String.compare a b) eqn:E; [|done..]. intros _ _. by apply String.compare_eq_iff.
Qed.

#[export] Instance string_less_order : StrictWeakOrder string_less.
Proof.
  assert (forall x, string_less x x = false) as Hi.
  { intros x. unfold string_less, String.ltb. pose proof (String.compare_antisym x x) as E.
    by destruct (String.compare x x). }
  split; [exact Hi| |].
  - intros x y H. apply not_true_iff_false. intros H'. pose proof (string_less_trans _ _ _ H H') as E.
    by rewrite Hi in E.
  - intros x y z H. destruct (string_less x y) eqn:Exy; [by left|right].
    destruct (string_less y x) eqn:Eyx; [by apply (string_less_trans y x z)|].
    by rewrite <- (string_less_total x y Exy Eyx).
Qed.

(** Names are told apart, so sorted lists with the same names are equal. *)
Lemma sorted_names_unique l l' :
  sorted string_less l -> sorted string_less l' -> Permutation l l' -> l = l'.
Proof.
  intros Hl. revert l'. induction Hl as [|x l Hl IH Hx]; intros l' Hl' Hp.
  - by apply Permutation_nil in Hp.
  - destruct Hl' as [|y l' Hl' Hy]; [by apply Permutation_sym, Permutation_nil in Hp|].
    assert (x = y) as ->.
    { rewrite List.Forall_forall in Hx, Hy.
      assert (In x (y :: l')) as [->|Hin] by (rewrite <- Hp; by left); [done|].
      assert (In y (x :: l)) as [->|Hin'] by (rewrite Hp; by left); [done|].
      apply string_less_total; auto. }
    f_equal. apply IH; [done|]. by apply Permutation_cons_inv in Hp.
Qed.

(** [sort.Strings] undoes the order of the iteration. *)
Lemma sort_names_unique l l' : Permutation l l' -> SliceStable string_less l = SliceStable string_less l'.
Proof.
  intros Hp. apply sorted_names_unique; try apply (SliceStable_stable string_less).
  by rewrite !(SliceStable_perm string_less).
Qed.

Lemma range_names_In `{MapRange} m n : In n (range_names m) <-> is_Some (m !! n).
Proof.
  rewrite range_names_perm, in_map_iff. split.
  - intros ([k f] & <- & Hi). apply list_elem_of_In, elem_of_map_to_list in Hi. by exists f.
  - intros [f Hf]. exists (n, f). split; [done|]. by apply list_elem_of_In, elem_of_map_to_list.
Qed.

Lemma sorted_range_NoDup `{MapRange} m : NoDup (SliceStable string_less (range_names m)).
Proof. rewrite (SliceStable_perm string_less), range_names_perm. apply NoDup_fst_map_to_list. Qed.

(** C32: the table of named routes is deterministic. Whatever the order in which
    the operating system lists the environment, whose variables are distinct, and
    whatever the order in which Go visits the names it grouped, the same routes
    are registered in the same order: that of the declared names in ascending
    order, the routes without an upstream left out. *)
Theorem named_routes_deterministic `{UnicodeTables} (R R' : MapRange) (env env' : environ) :
  List.NoDup (map fst (omap split_entry env)) -> Permutation env env' ->
  loadEnvNamedRoutes (H0 := R) env = loadEnvNamedRoutes (H0 := R') env' /\
  exists names, sorted string_less names /\ NoDup names /\
    (forall name, In name names <-> is_Some (group env !! name)) /\
    loadEnvNamedRoutes (H0 := R) env = omap (fun name => route_of name (default ∅ (group env !! name))) names.
Proof.
  intros Hnd Hp. unfold loadEnvNamedRoutes. rewrite <- (group_permutation env env') by done. split.
  - f_equal. apply sort_names_unique. by rewrite !range_names_perm.
  - exists (SliceStable string_less (@range_names R (group env))). split_and!; [apply (SliceStable_stable string_less)|apply sorted_range_NoDup| |done].
    intros name. by rewrite (SliceStable_In string_less), range_names_In.
Qed.

Lemma named_routes_deterministic_witness :
  loadEnvNamedRoutes (H := ascii_tables) (H0 := key_order)
    ["ROUTE_B_URL=b:1"; "ROUTE_A_URL=a:1"; "ROUTE_A_HOST=h"] =
  loadEnvNamedRoutes (H := ascii_tables) (H0 := reverse_key_order)
    ["ROUTE_A_HOST=h"; "ROUTE_B_URL=b:1"; "ROUTE_A_URL=a:1"].
Proof.
  apply (named_routes_deterministic (H := ascii_tables)).
  - vm_compute. repeat constructor; simpl; intuition discriminate.
  - apply (Permutation_cons_app ["ROUTE_A_HOST=h"] ["ROUTE_A_URL=a:1"]), (Permutation_cons_app ["ROUTE_A_HOST=h"] []).
    reflexivity.
Defined.

(** ** Which knob a variable is *)

(** A suffix that matches, whatever the name. *)
Definition sfx_matches (rest sfx : string) : bool :=
  (slen sfx + 1 <? slen rest)%nat && HasSuffix rest ("_" +:+ sfx).

(** Two suffixes of one string, the shorter is a suffix of the longer. *)
Lemma HasSuffix_nested (s a b : string) :
  HasSuffix s a = true -> HasSuffix s b = true -> (slen a <= slen b)%nat -> HasSuffix b a = true.
Proof.
  intros [x ->]%HasSuffix_spec [y E]%HasSuffix_spec Hl. apply HasSuffix_spec.
  exists (sdrop (slen y) x).
  assert (slen y <= slen x)%nat.
  { apply (f_equal slen) in E. rewrite !slen_app in E. lia. }
  rewrite <- (stake_sdrop (slen y) x), sapp_assoc in E.
  apply sapp_inj in E as [_ E]; [done|]. rewrite slen_stake. lia.
Qed.

Lemma match_suffix_find sfxs rest :
  match_suffix sfxs rest =
  (fun sfx => (stake (slen rest - slen sfx - 1) rest, sfx)) <$> find (sfx_matches rest) sfxs.
Proof.
  induction sfxs as [|s sfxs IH]; [done|]. cbn [match_suffix find].
  fold (sfx_matches rest s). destruct (sfx_matches rest s); [done|apply IH].
Qed.

#[export] Instance longer_order : StrictWeakOrder longer.
Proof.
  unfold longer. split; intros; bool_prop; try lia.
  destruct (slen y <? slen x)%nat eqn:?; bool_prop; [by left|right; bool_prop; lia].
Qed.

(** Equally long suffixes exclude each other. *)
Lemma sfx_matches_unique rest a b :
  sfx_matches rest a = true -> sfx_matches rest b = true -> slen a = slen b -> a = b.
Proof.
  unfold sfx_matches. intros [_ Ha]%andb_true_iff [_ Hb]%andb_true_iff E.
  apply HasSuffix_spec in Ha as [x Hx], Hb as [y Hy]. rewrite Hx in Hy.
  apply sapp_inj in Hy as [_ [= ->]]; [done|]. apply (f_equal slen) in Hy.
  rewrite !slen_app in Hy. simpl in Hy. lia.
Qed.

(** The match in a list ordered by length is the longest one. *)
Lemma find_longest rest l a :
  sorted longer l ->
  find (sfx_matches rest) l = Some a <->
  In a l /\ sfx_matches rest a = true /\
  forall b, In b l -> sfx_matches rest b = true -> (slen b <= slen a)%nat.
Proof.
  intros Hs. assert (forall c, find (sfx_matches rest) l = Some c ->
    In c l /\ sfx_matches rest c = true /\
    forall b, In b l -> sfx_matches rest b = true -> (slen b <= slen c)%nat) as Hf.
  { intros c. rewrite <- (SliceStable_sorted longer l Hs) at 1.
    intros (Hc & Hm & Hmin & _)%(find_SliceStable longer). split_and!; [done..|].
    intros b Hb Hmb. specialize (Hmin _ Hb Hmb). unfold longer in Hmin. bool_prop. lia. }
  split; [apply Hf|]. intros (Ha & Hm & Hmax). destruct (find (sfx_matches rest) l) as [c|] eqn:Ec.
  - destruct (Hf c eq_refl) as (Hc & Hmc & Hcmax). f_equal. apply (sfx_matches_unique rest); auto.
    specialize (Hmax _ Hc Hmc). specialize (Hcmax _ Ha Hm). lia.
  - pose proof (find_none _ _ Ec _ Ha). congruence.
Qed.

Lemma suffixes_sorted : sorted longer suffixes.
Proof. apply (SliceStable_stable longer). Qed.

Lemma suffixes_In s : In s suffixes <-> In s routeEnvSuffixes.
Proof. apply (SliceStable_In longer). Qed.

(** So any order of the suffixes by length gives the same match. *)
Lemma match_suffix_any_order (sfxs : list string) (rest : string) :
  Permutation sfxs routeEnvSuffixes -> sorted longer sfxs ->
  match_suffix sfxs rest = match_suffix suffixes rest.
Proof.
  intros Hp Hs. rewrite !match_suffix_find. f_equal. apply option_eq. intros a.
  rewrite !find_longest by (done || apply suffixes_sorted).
  assert (forall x, In x sfxs <-> In x suffixes) as Hin.
  { intros x. rewrite suffixes_In. split; intros Hx; [by rewrite <- Hp|by rewrite Hp]. }
  rewrite Hin. by setoid_rewrite Hin.
Qed.

(** The only suffixes of which another suffix is a tail. *)
Lemma suffix_tails s s' :
  In s routeEnvSuffixes -> In s' routeEnvSuffixes -> HasSuffix s' ("_" +:+ s) = true ->
  (s = "PREFIX" /\ s' = "STRIP_PREFIX") \/ (s = "HOST" /\ s' = "PRESERVE_HOST").
Proof.
  intros Hs Hs'. simpl in Hs, Hs'.
  repeat destruct Hs as [<-|Hs]; try done;
    repeat destruct Hs' as [<-|Hs']; try done; intros E; try (vm_compute in E; discriminate E); auto.
Qed.

(** A longer match than another. *)
Lemma longer_match rest s s' :
  In s routeEnvSuffixes -> In s' routeEnvSuffixes ->
  sfx_matches rest s = true -> sfx_matches rest s' = true -> (slen s < slen s')%nat ->
  (s = "PREFIX" /\ s' = "STRIP_PREFIX") \/ (s = "HOST" /\ s' = "PRESERVE_HOST").
Proof.
  intros Hs Hs' [_ Hm]%andb_true_iff [_ Hm']%andb_true_iff Hl. apply suffix_tails; auto.
  pose proof (HasSuffix_nested rest ("_" +:+ s) ("_" +:+ s') Hm Hm' ltac:(simpl; lia)) as Hn.
  apply HasSuffix_spec in Hn as [[|c z] Hz].
  - injection Hz as ->. lia.
  - injection Hz as _ ->. apply HasSuffix_app.
Qed.

Lemma sfx_matches_var name sfx : name <> "" -> sfx_matches (name +:+ "_" +:+ sfx) sfx = true.
Proof.
  intros Hn%slen_pos. unfold sfx_matches. rewrite HasSuffix_app, andb_true_r, !slen_app.
  bool_prop. simpl. lia.
Qed.

Lemma match_suffix_longest sfxs name sfx :
  Permutation sfxs routeEnvSuffixes -> sorted longer sfxs -> name <> "" -> In sfx routeEnvSuffixes ->
  (forall b, In b routeEnvSuffixes -> sfx_matches (name +:+ "_" +:+ sfx) b = true ->
     (slen b <= slen sfx)%nat) ->
  match_suffix sfxs (name +:+ "_" +:+ sfx) = Some (name, sfx).
Proof.
  intros Hp Hs Hn Hin Hmax. rewrite match_suffix_find.
  rewrite (proj2 (find_longest (name +:+ "_" +:+ sfx) sfxs sfx Hs)).
  - simpl. rewrite slen_app. simpl.
    replace (slen name + S (slen sfx) - slen sfx - 1)%nat with (slen name) by lia.
    by rewrite stake_app.
  - split_and!; [by rewrite Hp|by apply sfx_matches_var|]. intros b Hb. apply Hmax. by rewrite <- Hp.
Qed.

(** The two ambiguous families: a name that ends in the head of a longer
    suffix. *)
Lemma ambiguous_name name head tail :
  sfx_matches (name +:+ "_" +:+ tail) (head +:+ "_" +:+ tail) = true ->
  exists short, name = short +:+ "_" +:+ head /\ short <> "".
Proof.
  intros [Hl [x Hx]%HasSuffix_spec]%andb_true_iff. exists x.
  change ("_" +:+ (head +:+ "_" +:+ tail)) with (("_" +:+ head) +:+ ("_" +:+ tail)) in Hx.
  rewrite <- (sapp_assoc x) in Hx. apply sapp_inj in Hx as [-> _].
  - split; [done|]. intros ->. bool_prop. rewrite !slen_app in Hl. simpl in Hl.
    rewrite ?slen_app in Hl. simpl in Hl. lia.
  - apply (f_equal slen) in Hx. rewrite ?slen_app in *. simpl in *. rewrite ?slen_app in *. simpl in *. lia.
Qed.

(** Which knob a variable sets. [ROUTE_<name>_<suffix>] is read as that
    suffix of that route, for every name the operator invents, save that a name
    ending in _STRIP with suffix PREFIX, or in _PRESERVE with suffix HOST, is
    read as the longer suffix of the shorter name. The order of equally long
    suffixes, which the code's sort leaves open, does not matter. *)
Theorem route_variable_names (sfxs : list string) (name sfx : string) :
  Permutation sfxs routeEnvSuffixes -> sorted longer sfxs ->
  name <> "" -> In sfx routeEnvSuffixes ->
  match_suffix sfxs (name +:+ "_" +:+ sfx) =
  Some (if String.eqb sfx "PREFIX" && HasSuffix name "_STRIP" && negb (String.eqb name "_STRIP")
        then (TrimSuffix name "_STRIP", "STRIP_PREFIX")
        else if String.eqb sfx "HOST" && HasSuffix name "_PRESERVE" && negb (String.eqb name "_PRESERVE")
        then (TrimSuffix name "_PRESERVE", "PRESERVE_HOST")
        else (name, sfx)).
Proof.
  intros Hp Hs Hn Hin.
  assert (forall short head tail, In (head +:+ "_" +:+ tail) routeEnvSuffixes ->
            ~ In (head +:+ "_" +:+ tail) ["PREFIX"; "HOST"] -> short <> "" ->
            match_suffix sfxs ((short +:+ "_" +:+ head) +:+ "_" +:+ tail) =
            Some (short, head +:+ "_" +:+ tail)) as Hamb.
  { intros short head tail Hin' Hne Hsh. rewrite !sapp_assoc.
    apply match_suffix_longest; auto. intros b Hb Hm.
    destruct (le_lt_dec (slen b) (slen (head +:+ "_" +:+ tail))) as [|Hlt]; [done|].
    destruct (longer_match _ _ _ Hin' Hb (sfx_matches_var _ _ Hsh) Hm Hlt) as [[E _]|[E _]];
      rewrite E in Hne; simpl in Hne; tauto. }
  destruct (String.eqb sfx "PREFIX" && HasSuffix name "_STRIP" && negb (String.eqb name "_STRIP")) eqn:E1.
  { apply andb_true_iff in E1 as [[->%String.eqb_eq [short ->]%HasSuffix_spec]%andb_true_iff E1].
    rewrite TrimSuffix_app. apply (Hamb short "STRIP" "PREFIX"); [simpl; tauto|simpl; intuition done|].
    by intros ->. }
  destruct (String.eqb sfx "HOST" && HasSuffix name "_PRESERVE" && negb (String.eqb name "_PRESERVE")) eqn:E2.
  { apply andb_true_iff in E2 as [[->%String.eqb_eq [short ->]%HasSuffix_spec]%andb_true_iff E2].
    rewrite TrimSuffix_app. apply (Hamb short "PRESERVE" "HOST"); [simpl; tauto|simpl; intuition done|].
    by intros ->. }
  apply match_suffix_longest; auto. intros b Hb Hm.
  destruct (le_lt_dec (slen b) (slen sfx)) as [|Hlt]; [done|].
  destruct (longer_match _ _ _ Hin Hb (sfx_matches_var _ _ Hn) Hm Hlt) as [[-> ->]|[-> ->]].
  - apply (ambiguous_name name "STRIP" "PREFIX") in Hm as (short & -> & Hsh). exfalso.
    change ("_" +:+ "STRIP") with "_STRIP" in E1. rewrite HasSuffix_app in E1. simpl in E1.
    bool_prop. apply (f_equal slen) in E1. rewrite slen_app in E1. apply slen_pos in Hsh. simpl in E1. lia.
  - apply (ambiguous_name name "PRESERVE" "HOST") in Hm as (short & -> & Hsh). exfalso.
    change ("_" +:+ "PRESERVE") with "_PRESERVE" in E2. rewrite HasSuffix_app in E2. simpl in E2.
    bool_prop. apply (f_equal slen) in E2. rewrite slen_app in E2. apply slen_pos in Hsh. simpl in E2. lia.
Qed.

Lemma route_variable_names_witness :
  match_suffix suffixes "SHOP_API_PREFIX" = Some ("SHOP_API", "PREFIX") /\
  match_suffix suffixes "SHOP_STRIP_PREFIX" = Some ("SHOP", "STRIP_PREFIX").
Proof.
  split.
  - apply (route_variable_names suffixes "SHOP_API" "PREFIX");
      [apply (SliceStable_perm longer)|apply suffixes_sorted|discriminate|simpl; tauto].
  - apply (route_variable_names suffixes "SHOP_STRIP" "PREFIX");
      [apply (SliceStable_perm longer)|apply suffixes_sorted|discriminate|simpl; tauto].
Defined.

(** ** The default topology *)

(** With the default routes enabled, every path below a default prefix goes
    to the service of that prefix, for any host and any balancing algorithm,
    with the prefix stripped; in particular /api/studio2 and /api/llm2 do not
    fall to /api/studio and /api/llm. *)
Theorem default_routes_dispatch `{UnicodeTables} (d : ServiceRoute) (algo host rest : string) :
  In d vxCloudDefaultRoutes -> rest = "" \/ HasPrefix rest "/" = true ->
  exists m, Route (register_all (map with_defaults vxCloudDefaultRoutes) algo NewServiceRouter)
              host (r_Prefix d +:+ rest) = Some m /\
    m_Name m = r_Name d /\ m_BackendPath m = (if String.eqb rest "" then "/" else rest) /\
    m_Timeout m = 30 * Second /\ m_RequireAuth m = false.
Proof.
  intros Hd Hr. assert (rest = "" \/ exists r, rest = String "/" r) as Hr'.
  { destruct Hr as [|Hr]; [auto|]. apply HasPrefix_head in Hr. auto. }
  unfold Route. generalize (normalizeHost host). intros h. simpl in Hd.
  repeat (destruct Hd as [<-|Hd];
    [destruct Hr' as [->|[r ->]]; (eexists; split; [vm_compute; reflexivity|by split_and!])|]).
  done.
Qed.

Lemma default_routes_dispatch_witness :
  exists m, Route (H := ascii_tables)
              (register_all (H := ascii_tables) (map with_defaults vxCloudDefaultRoutes)
                 "least-conn" NewServiceRouter) "any.host" "/api/llm2/v1/chat" = Some m /\
    m_Name m = "llm2" /\ m_BackendPath m = "/v1/chat".
Proof.
  destruct (default_routes_dispatch (H := ascii_tables)
              (default_route "llm2" "/api/llm2" "http://localhost:8746") "least-conn" "any.host" "/v1/chat")
    as (m & E & Hn & Hb & _); [simpl; tauto|right; reflexivity|].
  exists m. split; [exact E|]. split; [exact Hn|exact Hb].
Defined.
