(* ===== verification/Dashboard.v ===== *)
(** * The dashboard's counters (dashboard.go)

    [DashboardStats] is the record the gateway updates on every request; its
    [RequestHistory] is the array the sparkline is drawn from. *)

From Stdlib Require Import ZArith Lia String List.
From stdpp Require Import base list strings.
From S2P Require Import Prelude.

Record DashboardStats := mkStats {
  ds_TotalRequests : Z;
  ds_ActiveConns : Z;
  ds_BlockedIPs : Z;
  ds_CacheHits : Z;
  ds_CircuitTrips : Z;
  ds_RequestHistory : list Z;
  ds_histIdx : Z
}.

Definition new_stats : DashboardStats := mkStats 0 0 0 0 0 (repeat 0 48) 0.

(** [RequestHistory[histIdx%48]++; histIdx++], a panic for a negative index. *)
Definition stats_RecordRequest (d : DashboardStats) : outcome unit * DashboardStats :=
  let total := wrap64 (ds_TotalRequests d + 1) in
  let i := go_rem (ds_histIdx d) 48 in
  if i <? 0 then
    (Panic "index out of range",
     mkStats total (ds_ActiveConns d) (ds_BlockedIPs d) (ds_CacheHits d) (ds_CircuitTrips d)
       (ds_RequestHistory d) (ds_histIdx d))
  else
    (Ret tt,
     mkStats total (ds_ActiveConns d) (ds_BlockedIPs d) (ds_CacheHits d) (ds_CircuitTrips d)
       (alter (fun v => wrap64 (v + 1)) (Z.to_nat i) (ds_RequestHistory d))
       (wrap64 (ds_histIdx d + 1))).

(** [atomic.AddInt64(&dashStats.ActiveConns, n)]. *)
Definition add_active (n : Z) (d : DashboardStats) : DashboardStats :=
  mkStats (ds_TotalRequests d) (wrap64 (ds_ActiveConns d + n)) (ds_BlockedIPs d) (ds_CacheHits d)
    (ds_CircuitTrips d) (ds_RequestHistory d) (ds_histIdx d).

Definition count_blocked (d : DashboardStats) : DashboardStats :=
  mkStats (ds_TotalRequests d) (ds_ActiveConns d) (wrap64 (ds_BlockedIPs d + 1)) (ds_CacheHits d)
    (ds_CircuitTrips d) (ds_RequestHistory d) (ds_histIdx d).

Definition count_circuit_trip (d : DashboardStats) : DashboardStats :=
  mkStats (ds_TotalRequests d) (ds_ActiveConns d) (ds_BlockedIPs d) (ds_CacheHits d)
    (wrap64 (ds_CircuitTrips d + 1)) (ds_RequestHistory d) (ds_histIdx d).

Fixpoint record_requests (n : nat) (d : DashboardStats) : outcome unit * DashboardStats :=
  match n with
  | O => (Ret tt, d)
  | S n' => match stats_RecordRequest d with
            | (Ret _, d') => record_requests n' d'
            | (Panic w, d') => (Panic w, d')
            end
  end.

(** The history after [n] requests: request [k] went to slot [k mod 48]. *)
Definition history_after (n : nat) : list Z :=
  map (fun i => Z.of_nat (n / 48) + (if (i <? n mod 48)%nat then 1 else 0)) (seq 0 48).

Lemma history_after_length n : length (history_after n) = 48%nat.
Proof. unfold history_after. by rewrite length_map, length_seq. Qed.

Lemma history_after_lookup n i :
  (i < 48)%nat ->
  history_after n !! i = Some (Z.of_nat (n / 48) + (if (i <? n mod 48)%nat then 1 else 0)).
Proof.
  intros Hi. unfold history_after. rewrite list_lookup_fmap, lookup_seq_lt by done. done.
Qed.

(** One more request fills the next slot. *)
Lemma history_after_step n :
  Z.of_nat n < int64_max ->
  alter (fun v => wrap64 (v + 1)) (n mod 48)%nat (history_after n) = history_after (S n).
Proof.
  intros Hn. apply list_eq. intros i.
  pose proof (Nat.mod_upper_bound n 48 ltac:(lia)) as Hm.
  pose proof (Nat.div_mod_eq n 48) as En. pose proof (Nat.div_mod_eq (S n) 48) as Es.
  pose proof (Nat.mod_upper_bound (S n) 48 ltac:(lia)) as Hms.
  destruct (decide (i < 48)%nat) as [Hi|Hi]; last first.
  { rewrite !lookup_ge_None_2; [done| |]; rewrite ?length_alter, ?history_after_length; lia. }
  destruct (decide (i = n mod 48)%nat) as [->|Hne].
  - rewrite list_lookup_alter_eq, !history_after_lookup by done.
    cbn [fmap option_fmap option_map]. f_equal.
    rewrite Nat.ltb_irrefl, wrap64_id by (unfold is_int64, int64_min; lia).
    case_if; bool_prop; lia.
  - rewrite list_lookup_alter_ne, !history_after_lookup by done. f_equal.
    repeat case_if; bool_prop; lia.
Qed.

Lemma record_requests_state (n k : nat) d :
  Z.of_nat k + Z.of_nat n <= int64_max ->
  ds_TotalRequests d = Z.of_nat k -> ds_RequestHistory d = history_after k -> ds_histIdx d = Z.of_nat k ->
  exists d', record_requests n d = (Ret tt, d') /\ ds_TotalRequests d' = Z.of_nat (k + n) /\
    ds_RequestHistory d' = history_after (k + n) /\ ds_histIdx d' = Z.of_nat (k + n).
Proof.
  revert k d. induction n as [|n IH]; intros k d Hk Ht Hh Hi.
  { exists d. rewrite Nat.add_0_r. auto. }
  cbn [record_requests]. unfold stats_RecordRequest. rewrite Hi, Ht.
  assert (go_rem (Z.of_nat k) 48 = Z.of_nat (k mod 48)) as Er.
  { unfold go_rem. rewrite Z.rem_mod_nonneg by lia. by rewrite Nat2Z.inj_mod. }
  rewrite Er. replace (Z.of_nat (k mod 48) <? 0) with false by lia. rewrite Nat2Z.id.
  assert (wrap64 (Z.of_nat k + 1) = Z.of_nat (S k)) as Ew.
  { rewrite wrap64_id by (unfold is_int64, int64_min; lia). lia. }
  rewrite Ew, Hh, history_after_step by lia. rewrite <- Nat.add_succ_comm.
  apply (IH (S k)); [lia|done..].
Qed.

(** The request history is not a history. After [n] requests every slot
    holds [n / 48] or one more, the first [n mod 48] slots one more, whenever
    the requests came: a slot stands for every 48th request and not for a span
    of time, so the sparkline is flat under any traffic. The slots still add up
    to the total. *)
Theorem history_is_flat (n : nat) :
  Z.of_nat n <= int64_max ->
  exists d, record_requests n new_stats = (Ret tt, d) /\ ds_TotalRequests d = Z.of_nat n /\
    ds_RequestHistory d = history_after n /\
    fold_right Z.add 0 (ds_RequestHistory d) = ds_TotalRequests d.
Proof.
  intros Hn. destruct (record_requests_state n 0 new_stats) as (d & E & Ht & Hh & _);
    [simpl; lia|done|done|done|].
  exists d. simpl in Ht, Hh. split_and!; try done. rewrite Ht, Hh.
  unfold history_after. cbn [seq map fold_right].
  pose proof (Nat.div_mod_eq n 48). pose proof (Nat.mod_upper_bound n 48 ltac:(lia)) as Hm.
  set (q := (n / 48)%nat) in *. set (r := (n mod 48)%nat) in *. clearbody q r. subst n.
  do 48 (destruct r as [|r]; [cbn; lia|]). lia.
Qed.

Lemma history_is_flat_witness :
  exists d, record_requests 100 new_stats = (Ret tt, d) /\
    ds_RequestHistory d = repeat 3 4 ++ repeat 2 44.
Proof.
  destruct (history_is_flat 100) as (d & E & _ & Hh & _); [unfold int64_max; lia|].
  exists d. split; [exact E|]. rewrite Hh. reflexivity.
Defined.
