(* ===== verification/Cache.v ===== *)
(** * The response cache (handlers.go)

    [CacheManager] keeps responses in Redis, whose client is the interface
    [RedisLib]. *)

From Stdlib Require Import ZArith Lia Ascii String List.
From stdpp Require Import base list strings gmap.
From S2P Require Import Prelude GoStrings Urls Http.

(** A reply to a read: the value, the client's [redis.Nil], or another error. *)
Inductive redis_reply : Type :=
| RedisValue (v : string)
| RedisNil
| RedisError (e : string).

(** [Ping], [Get] and [Set] of the client. *)
Class RedisLib := {
  redis : Type;
  redis_Ping : redis -> option string;
  redis_Get : redis -> string -> redis_reply;
  redis_Set : redis -> string -> string -> Z -> option string * redis
}.

Record CacheManager := mkCache { cm_enable : bool; cm_ttl : Z }.

Definition NewCacheManager `{RedisLib} (rdb : redis) (ttl : Z) (enable : bool) : CacheManager :=
  if negb enable then mkCache false 0
  else match redis_Ping rdb with
       | Some _ => mkCache false 0
       | None => mkCache true ttl
       end.

(** The value when it was found; the code counts a cache hit in that case. *)
Definition cache_Get `{RedisLib} (cm : CacheManager) (rdb : redis) (key : string) : option string :=
  if negb (cm_enable cm) then None
  else match redis_Get rdb key with
       | RedisNil => None
       | RedisError _ => None
       | RedisValue v => Some v
       end.

Definition cache_Set `{RedisLib} (cm : CacheManager) (key value : string) (rdb : redis) : redis :=
  if negb (cm_enable cm) then rdb else (redis_Set rdb key value (cm_ttl cm)).2.

Definition GenerateKey (r : Request) : string :=
  "cache:" +:+ rq_Method r +:+ ":" +:+ rq_Host r +:+ ":" +:+ u_Path (rq_URL r).

(** ** Keys *)

Lemma split_at_byte (a a' b b' : string) (c : ascii) :
  sforall (not_byte c) a = true -> sforall (not_byte c) a' = true ->
  a +:+ String c b = a' +:+ String c b' -> a = a' /\ b = b'.
Proof.
  intros Ha Ha' E. pose proof (IndexByte_app a b c Ha) as H1.
  pose proof (IndexByte_app a' b' c Ha') as H2. rewrite E, H2 in H1. injection H1 as H1.
  by apply sapp_inj in E as [-> [= ->]].
Qed.

(** Which requests share a cache entry. For methods without a colon, hosts
    without a slash and absolute paths, as every request that reaches a route
    has them, two requests get the same key exactly when method, host and path
    agree. So distinct resources never collide; and requests that differ in
    their query string, or in who sends them, share one entry. *)
Theorem cache_key_identity (r r' : Request) :
  sforall (not_byte ":") (rq_Method r) = true -> sforall (not_byte ":") (rq_Method r') = true ->
  sforall (not_byte "/") (rq_Host r) = true -> sforall (not_byte "/") (rq_Host r') = true ->
  HasPrefix (u_Path (rq_URL r)) "/" = true -> HasPrefix (u_Path (rq_URL r')) "/" = true ->
  GenerateKey r = GenerateKey r' <->
  rq_Method r = rq_Method r' /\ rq_Host r = rq_Host r' /\ u_Path (rq_URL r) = u_Path (rq_URL r').
Proof.
  intros Hm Hm' Hh Hh' [p Hp]%HasPrefix_head [p' Hp']%HasPrefix_head. unfold GenerateKey.
  rewrite Hp, Hp'. split; [|intros (-> & -> & ->); done].
  intros E. apply sapp_inj in E as [_ E]; [|done].
  apply split_at_byte in E as [-> E]; [|done..]. simpl in E.
  assert (forall h q, h +:+ String ":" (String "/" q) = (h +:+ ":") +:+ String "/" q) as Hc
    by (intros; by rewrite sapp_assoc).
  rewrite !Hc in E. apply split_at_byte in E as [E ->].
  - apply sapp_inj in E as [-> _]; [done|]. apply (f_equal slen) in E. rewrite !slen_app in E. lia.
  - rewrite sforall_app, Hh. done.
  - rewrite sforall_app, Hh'. done.
Qed.

Lemma cache_key_identity_witness :
  let r q := mkRequest "GET" (mkURL "" "" "/a:b" "" q) "h:80" ∅ "" false in
  GenerateKey (r "user=1") = GenerateKey (r "user=2").
Proof.
  intros r.
  apply (cache_key_identity (r "user=1") (r "user=2")); try reflexivity.
  split; [reflexivity|split; reflexivity].
Defined.
