(* ===== verification/Json.v ===== *)
(** * JSON documents

    The values the handlers encode, as trees; floating-point numbers are
    IEEE 754 doubles. The text of a document is the interface [JsonLib]. *)

From Stdlib Require Import ZArith Floats.SpecFloat String List.
From S2P Require Import Prelude.

(** [float64]. *)
Definition float64 : Type := spec_float.

Inductive json : Type :=
| JNull
| JBool (b : bool)
| JInt (n : Z)
| JFloat (f : float64)
| JString (s : string)
| JTime (t : Z)
| JArray (l : list json)
| JObject (fields : list (string * json)).

(** [json.NewEncoder(w).Encode]: the text of a document with its newline, or
    the error of a value that has no JSON form; nothing is written then. *)
Class JsonLib := { json_Encode : json -> result string string }.

(** A nil slice is null. *)
Definition slice (l : list json) : json := match l with nil => JNull | _ => JArray l end.
