(* ===== verification/Monitor.v ===== *)
(** * The system monitor (system_monitor.go)

    [getSystemMetrics] collects one report from what gopsutil reads of the host;
    the readings are data here, and so is the report. The monitoring gauges it
    sets are its state. *)

From Stdlib Require Import ZArith Lia Floats.SpecFloat Ascii String List Sorting.Sorted Sorting.Permutation.
From stdpp Require Import base list strings gmap.
From S2P Require Import Prelude Logic GoStrings StableSort Json.

(** ** Doubles *)

Definition f_zero : float64 := S754_zero false.
Definition f_100 : float64 := S754_finite false 7036874417766400 (-46).

(** [x / 100.0]. *)
Definition f_div100 (x : float64) : float64 := SFdiv 53 1024 x f_100.

(** [float64(n)] for a small count. *)
Definition f_of_Z (n : Z) : float64 := binary_normalize 53 1024 n 0 false.

(** ** What the host says *)

Record HostInfo := mkHostInfo {
  hi_Hostname : string; hi_OS : string; hi_Platform : string; hi_PlatformVersion : string;
  hi_Uptime : Z; hi_BootTime : Z; hi_Procs : Z
}.

Record MemInfo := mkMemInfo {
  vm_Total : Z; vm_Available : Z; vm_Used : Z; vm_UsedPercent : float64; vm_Free : Z;
  vm_Buffers : Z; vm_Cached : Z
}.

Record SwapInfo := mkSwapInfo { sw_Total : Z; sw_Used : Z; sw_UsedPercent : float64; sw_Free : Z }.

(** A process as its methods answer; [ps_Rss] is [None] when [MemoryInfo] gives
    the nil pointer, as it does with an error. *)
Record Process := mkProcess {
  ps_Pid : Z; ps_Name : string; ps_CPUPercent : float64; ps_MemoryPercent : float64;
  ps_Rss : option Z; ps_Status : list string; ps_CreateTime : Z; ps_Cmdline : string
}.

(** The readings of one report, in the order they are taken; [rd_Cores] and the
    fields of a process are what comes beside an ignored error. *)
Record Readings := mkReadings {
  rd_Percent : result string (list float64);
  rd_Cores : list float64;
  rd_CpuInfo : result string (list (string * float64));
  rd_NumCPU : Z;
  rd_LoadHost : result string HostInfo;
  rd_LoadPercent : result string (list float64);
  rd_VirtualMemory : result string MemInfo;
  rd_SwapMemory : result string SwapInfo;
  rd_Processes : result string (list Process);
  rd_Host : result string HostInfo
}.

(** ** The report *)

Record CPUMetrics := mkCPU {
  cpu_UsagePercent : float64; cpu_Cores : Z; cpu_ModelName : string; cpu_Frequency : float64;
  cpu_LoadAverage : list float64; cpu_CoreUsage : list float64
}.

Record ProcessInfo := mkProcessInfo {
  pi_PID : Z; pi_Name : string; pi_CPUPercent : float64; pi_MemoryPercent : float64; pi_MemoryRSS : Z;
  pi_Status : string; pi_CreateTime : Z; pi_Cmdline : string; pi_GPUMemory : Z
}.

Record GPUMetrics := mkGPU {
  gpu_Name : string; gpu_MemoryTotal : Z; gpu_MemoryUsed : Z; gpu_MemoryFree : Z;
  gpu_Usage : float64; gpu_Temperature : float64; gpu_PowerUsage : float64
}.

Record SystemMetrics := mkSystemMetrics {
  sm_Timestamp : Z; sm_CPU : CPUMetrics; sm_Memory : MemInfo; sm_Swap : SwapInfo; sm_GPU : GPUMetrics;
  sm_Processes : list ProcessInfo; sm_SystemInfo : HostInfo
}.

Definition zero_memory : MemInfo := mkMemInfo 0 0 0 f_zero 0 0 0.
Definition zero_swap : SwapInfo := mkSwapInfo 0 0 f_zero 0.
Definition zero_gpu : GPUMetrics := mkGPU "" 0 0 0 f_zero f_zero f_zero.

(** The zero [time.Time], 1 January of year 1, in nanoseconds from the epoch. *)
Definition zero_time : Z := -62135596800 * Second.
Definition zero_host : HostInfo := mkHostInfo "" "" "" "" 0 zero_time 0.

(** The Prometheus gauges. *)
Record SystemGauges := mkGauges {
  sg_cpu : gmap string float64; sg_memory : float64; sg_swap : float64; sg_processes : float64
}.
Definition new_gauges : SystemGauges := mkGauges ∅ f_zero f_zero f_zero.

Definition set_sg_memory (f : float64) (g : SystemGauges) : SystemGauges :=
  mkGauges (sg_cpu g) f (sg_swap g) (sg_processes g).
Definition set_sg_swap (f : float64) (g : SystemGauges) : SystemGauges :=
  mkGauges (sg_cpu g) (sg_memory g) f (sg_processes g).
Definition set_sg_processes (f : float64) (g : SystemGauges) : SystemGauges :=
  mkGauges (sg_cpu g) (sg_memory g) (sg_swap g) f.

(** ** Collecting *)

(** Both branches of the source do the same. *)
Definition loadAverage (rd : Readings) : result string (list float64) :=
  match rd_LoadHost rd with
  | Err e => Err e
  | Ok _ =>
      match rd_LoadPercent rd with
      | Ok (p :: _) => let load := f_div100 p in Ok [load; load; load]
      | _ => Ok [f_zero; f_zero; f_zero]
      end
  end.

Definition cpu_metrics (rd : Readings) : CPUMetrics :=
  let usage := match rd_Percent rd with Ok (p :: _) => p | _ => f_zero end in
  let info := match rd_CpuInfo rd with Ok (i :: _) => i | _ => ("", f_zero) end in
  let load := match loadAverage rd with Ok l => l | Err _ => [] end in
  mkCPU usage (rd_NumCPU rd) info.1 info.2 load (rd_Cores rd).

(** One process of the list; [memInfo.RSS] dereferences what [MemoryInfo] gave. *)
Definition process_info (p : Process) : outcome ProcessInfo :=
  match ps_Rss p with
  | None => Panic "nil pointer dereference"
  | Some rss =>
      Ret (mkProcessInfo (ps_Pid p) (ps_Name p) (ps_CPUPercent p) (ps_MemoryPercent p) rss
             (match ps_Status p with s :: _ => s | [] => "" end) (ps_CreateTime p) (ps_Cmdline p) 0)
  end.

Fixpoint process_loop (ps : list Process) (procList : list ProcessInfo) : outcome (list ProcessInfo) :=
  match ps with
  | [] => Ret procList
  | p :: rest =>
      if 0 <? ps_Pid p then
        match process_info p with
        | Ret i => process_loop rest (procList ++ [i])
        | Panic why => Panic why
        end
      else process_loop rest procList
  end.

(** The comparison of the sort: the busier process first. *)
Definition busier (a b : ProcessInfo) : bool := SFltb (pi_CPUPercent b) (pi_CPUPercent a).

(** [sort.Slice], which promises less than a stable sort. *)
Class SortLib := { sort_Slice : forall {A}, (A -> A -> bool) -> list A -> list A }.

Definition core_label (i : nat) : string := "core_" +:+ Itoa (Z.of_nat i).

Fixpoint set_cores (i : nat) (usage : list float64) (g : SystemGauges) : SystemGauges :=
  match usage with
  | [] => g
  | u :: rest =>
      set_cores (S i) rest
        (mkGauges (<[core_label i := u]> (sg_cpu g)) (sg_memory g) (sg_swap g) (sg_processes g))
  end.

Section Collect.
Context `{SortLib}.

(** The process section of the report. *)
Definition top_processes (processes : list Process) : outcome (list ProcessInfo) :=
  match process_loop processes [] with
  | Ret procList =>
      let procList := sort_Slice busier procList in
      Ret (if (20 <? length procList)%nat then take 20 procList else procList)
  | Panic why => Panic why
  end.

(** Its error is always nil. *)
Definition getSystemMetrics (now : Z) (rd : Readings) : M SystemGauges SystemMetrics :=
  let cpu := cpu_metrics rd in
  memory ← match rd_VirtualMemory rd with
           | Ok m => modify (set_sg_memory (vm_UsedPercent m)) ;; mret m
           | Err _ => mret zero_memory
           end;
  swap ← match rd_SwapMemory rd with
         | Ok s => modify (set_sg_swap (sw_UsedPercent s)) ;; mret s
         | Err _ => mret zero_swap
         end;
  procs ← match rd_Processes rd with
          | Ok processes =>
              procList ← lift_outcome (top_processes processes);
              modify (set_sg_processes (f_of_Z (Z.of_nat (length processes)))) ;;
              mret procList
          | Err _ => mret []
          end;
  let sys := match rd_Host rd with
             | Ok h => mkHostInfo (hi_Hostname h) (hi_OS h) (hi_Platform h) (hi_PlatformVersion h)
                         (hi_Uptime h) (hi_BootTime h * Second) (hi_Procs h)
             | Err _ => zero_host
             end in
  modify (set_cores 0 (cpu_CoreUsage cpu)) ;;
  mret (mkSystemMetrics now cpu memory swap zero_gpu procs sys).
End Collect.

(** ** The JSON form *)

Definition process_json (p : ProcessInfo) : json :=
  JObject [("pid", JInt (pi_PID p)); ("name", JString (pi_Name p)); ("cpu_percent", JFloat (pi_CPUPercent p));
           ("memory_percent", JFloat (pi_MemoryPercent p)); ("memory_rss", JInt (pi_MemoryRSS p));
           ("status", JString (pi_Status p)); ("create_time", JInt (pi_CreateTime p));
           ("cmdline", JString (pi_Cmdline p)); ("gpu_memory_mb", JInt (pi_GPUMemory p))].

Definition metrics_json (m : SystemMetrics) : json :=
  let cpu := sm_CPU m in let mem := sm_Memory m in let swap := sm_Swap m in
  let gpu := sm_GPU m in let sys := sm_SystemInfo m in
  JObject
    [("timestamp", JTime (sm_Timestamp m));
     ("cpu", JObject
        [("usage_percent", JFloat (cpu_UsagePercent cpu)); ("cores", JInt (cpu_Cores cpu));
         ("model_name", JString (cpu_ModelName cpu)); ("frequency_mhz", JFloat (cpu_Frequency cpu));
         ("load_average", slice (map JFloat (cpu_LoadAverage cpu)));
         ("core_usage", slice (map JFloat (cpu_CoreUsage cpu)))]);
     ("memory", JObject
        [("total_bytes", JInt (vm_Total mem)); ("available_bytes", JInt (vm_Available mem));
         ("used_bytes", JInt (vm_Used mem)); ("used_percent", JFloat (vm_UsedPercent mem));
         ("free_bytes", JInt (vm_Free mem)); ("buffers", JInt (vm_Buffers mem)); ("cached", JInt (vm_Cached mem))]);
     ("swap", JObject
        [("total_bytes", JInt (sw_Total swap)); ("used_bytes", JInt (sw_Used swap));
         ("used_percent", JFloat (sw_UsedPercent swap)); ("free_bytes", JInt (sw_Free swap))]);
     ("gpu", JObject
        [("name", JString (gpu_Name gpu)); ("memory_total_mb", JInt (gpu_MemoryTotal gpu));
         ("memory_used_mb", JInt (gpu_MemoryUsed gpu)); ("memory_free_mb", JInt (gpu_MemoryFree gpu));
         ("usage_percent", JFloat (gpu_Usage gpu)); ("temperature_celsius", JFloat (gpu_Temperature gpu));
         ("power_usage_watts", JFloat (gpu_PowerUsage gpu))]);
     ("processes", slice (map process_json (sm_Processes m)));
     ("system_info", JObject
        [("hostname", JString (hi_Hostname sys)); ("os", JString (hi_OS sys));
         ("platform", JString (hi_Platform sys)); ("platform_version", JString (hi_PlatformVersion sys));
         ("uptime_seconds", JInt (hi_Uptime sys)); ("boot_time", JTime (hi_BootTime sys));
         ("processes_running", JInt (hi_Procs sys))])].

(** ** The contract of [sort.Slice] *)

(** [less] is a strict weak order on the elements of a slice. *)
Record swo_on {A} (less : A -> A -> bool) (l : list A) : Prop := {
  on_asym x y : In x l -> In y l -> less x y = true -> less y x = false;
  on_cotrans x y z : In x l -> In y l -> In z l -> less x z = true -> less x y = true \/ less y z = true
}.

(** On such a slice the result is a sorted permutation. *)
Class SortSpec `{SortLib} : Prop := {
  sort_Slice_ok {A} (less : A -> A -> bool) l :
    swo_on less l -> Permutation (sort_Slice less l) l /\ sorted less (sort_Slice less l)
}.

Lemma swo_on_sub {A} (less : A -> A -> bool) l l' :
  swo_on less l -> (forall x, In x l' -> In x l) -> swo_on less l'.
Proof.
  intros [Ha Hc] Hi. constructor; [intros; apply Ha|intros x y z ???; apply (Hc x y z)]; auto.
Qed.

Lemma insert_sorted_on {A} (less : A -> A -> bool) x l :
  swo_on less (x :: l) -> sorted less l -> sorted less (insert_stable less x l).
Proof.
  induction l as [|y r IH]; intros Ho Hs; [repeat constructor|]. cbn [insert_stable].
  apply StronglySorted_inv in Hs as [Hr Hy]. rewrite List.Forall_forall in Hy. destruct (less x y) eqn:E.
  - constructor; [constructor; [done|by apply List.Forall_forall]|]. apply List.Forall_forall.
    intros z [<-|Hz]; [apply (on_asym _ _ Ho); naive_solver|]. apply not_true_iff_false. intros Ez.
    destruct (on_cotrans _ _ Ho z y x) as [E1|E1]; try naive_solver; [rewrite Hy in E1 by done; done|].
    rewrite (on_asym _ _ Ho x y) in E1 by naive_solver. done.
  - constructor; [apply IH; [apply (swo_on_sub _ _ _ Ho); naive_solver|done]|].
    apply List.Forall_forall. intros z Hz. apply (Permutation_in z (insert_perm less x r)) in Hz.
    destruct Hz as [<-|Hz]; [done|by apply Hy].
Qed.

Lemma SliceStable_sorted_on {A} (less : A -> A -> bool) l acc :
  swo_on less (acc ++ l) -> sorted less acc ->
  let r := fold_left (fun acc x => insert_stable less x acc) l acc in
  Permutation r (acc ++ l) /\ sorted less r.
Proof.
  revert acc. induction l as [|x l IH]; intros acc Ho Hs; [by rewrite app_nil_r|]. cbn [fold_left].
  assert (Permutation (insert_stable less x acc ++ l) (acc ++ x :: l)) as Hp
    by (rewrite insert_perm; simpl; apply Permutation_middle).
  destruct (IH (insert_stable less x acc)) as [Hp' Hs'].
  - apply (swo_on_sub _ _ _ Ho). intros y. by apply Permutation_in.
  - apply insert_sorted_on; [|done]. apply (swo_on_sub _ _ _ Ho). intros y [<-|Hy]; apply in_or_app; naive_solver.
  - split; [by rewrite Hp'|done].
Qed.

(** An insertion sort meets the contract. *)
Definition insertion_sort : SortLib := {| sort_Slice A less l := SliceStable less l |}.

Lemma insertion_sort_spec : @SortSpec insertion_sort.
Proof. constructor. intros A less l Ho. apply (SliceStable_sorted_on less l []); [done|constructor]. Qed.

(** ** Doubles are ordered, except for NaN *)

(** Class, then exponent, then mantissa, with the sign put in. *)
Definition f_rank (f : float64) : Z * Z * Z :=
  match f with
  | S754_infinity true => (-2, 0, 0)
  | S754_finite true m e => (-1, - e, - Zpos m)
  | S754_zero _ => (0, 0, 0)
  | S754_finite false m e => (1, e, Zpos m)
  | S754_infinity false => (2, 0, 0)
  | S754_nan => (3, 0, 0)
  end.

Definition rank_lt (a b : Z * Z * Z) : Prop :=
  let '(a1, a2, a3) := a in let '(b1, b2, b3) := b in
  a1 < b1 \/ a1 = b1 /\ (a2 < b2 \/ a2 = b2 /\ a3 < b3).

Lemma SFltb_rank f g : f <> S754_nan -> g <> S754_nan -> SFltb f g = true <-> rank_lt (f_rank f) (f_rank g).
Proof.
  intros Hf Hg. destruct f as [?|[]| |[] m e], g as [?|[]| |[] m' e']; try done;
    unfold SFltb, SFcompare, f_rank, rank_lt; try (split; [done|lia]); try (split; [lia|done]);
    change (Pos.compare_cont Eq m m') with (m ?= m')%positive;
    destruct (Z.compare_spec e e'), (Pos.compare_spec m m'); simpl; split; (done || lia).
Qed.

Lemma busier_swo l : Forall (fun i => pi_CPUPercent i <> S754_nan) l -> swo_on busier l.
Proof.
  rewrite List.Forall_forall. intros Hn. constructor; unfold busier.
  - intros x y Hx Hy H. apply not_true_iff_false. rewrite SFltb_rank in * by auto.
    destruct (f_rank _) as [[??]?], (f_rank (pi_CPUPercent x)) as [[??]?]. simpl in *. lia.
  - intros x y z Hx Hy Hz. rewrite !SFltb_rank by auto.
    destruct (f_rank (pi_CPUPercent x)) as [[??]?], (f_rank (pi_CPUPercent y)) as [[??]?],
      (f_rank (pi_CPUPercent z)) as [[??]?]. simpl. lia.
Qed.

(** ** The process list *)

(** The processes a report is about, and their entries. *)
Definition listable (ps : list Process) : list Process := List.filter (fun p => 0 <? ps_Pid p) ps.

Definition entry_of (p : Process) (rss : Z) : ProcessInfo :=
  mkProcessInfo (ps_Pid p) (ps_Name p) (ps_CPUPercent p) (ps_MemoryPercent p) rss
    (match ps_Status p with s :: _ => s | [] => "" end) (ps_CreateTime p) (ps_Cmdline p) 0.

Definition entries (ps : list Process) : list ProcessInfo :=
  map (fun p => entry_of p (default 0 (ps_Rss p))) (listable ps).

Lemma process_loop_entries ps acc :
  Forall (fun p => ps_Rss p <> None) (listable ps) -> process_loop ps acc = Ret (acc ++ entries ps).
Proof.
  revert acc. induction ps as [|p ps IH]; intros acc Hp; [by rewrite app_nil_r|]. unfold entries, listable in *.
  cbn [process_loop List.filter] in *. destruct (0 <? ps_Pid p); [|by apply IH].
  apply Forall_cons_1 in Hp as [Hr Hp]. unfold process_info.
  destruct (ps_Rss p) as [rss|] eqn:E; [|done]. rewrite IH, <- app_assoc by done. cbn [map]. by rewrite E.
Qed.

Lemma process_loop_vanished ps acc :
  Exists (fun p => ps_Rss p = None) (listable ps) -> process_loop ps acc = Panic "nil pointer dereference".
Proof.
  revert acc. induction ps as [|p ps IH]; intros acc Hp; [by apply Exists_nil in Hp|].
  unfold listable in *. cbn [process_loop List.filter] in *. destruct (0 <? ps_Pid p); [|by apply IH].
  unfold process_info. destruct (ps_Rss p) eqn:E; [|done]. apply IH.
  apply Exists_cons in Hp as [Hp|Hp]; [congruence|done].
Qed.

(** A run of the collector is decided by the process list. *)
Lemma getSystemMetrics_processes `{SortLib} now rd g :
  match (match rd_Processes rd with Ok ps => top_processes ps | Err _ => Ret [] end) with
  | Ret l => exists rep g', getSystemMetrics now rd g = (Ret rep, g') /\ sm_Processes rep = l
  | Panic why => exists g', getSystemMetrics now rd g = (Panic why, g')
  end.
Proof.
  unfold getSystemMetrics, mbind, M_bind, mret, M_ret, modify, lift_outcome.
  destruct (rd_VirtualMemory rd), (rd_SwapMemory rd), (rd_Processes rd) as [ps|]; simpl;
    try (destruct (top_processes ps)); simpl; eauto.
Qed.

Lemma sorted_split {A} (less : A -> A -> bool) l1 l2 x y :
  sorted less (l1 ++ l2) -> In x l1 -> In y l2 -> less y x = false.
Proof.
  induction l1 as [|a l1 IH]; [done|]. intros [Hs Ha]%StronglySorted_inv [<-|Hx] Hy; [|by apply IH].
  rewrite List.Forall_forall in Ha. apply Ha, in_or_app. by right.
Qed.

Lemma sorted_take {A} (less : A -> A -> bool) n l : sorted less l -> sorted less (take n l).
Proof.
  revert n. induction l as [|x l IH]; intros [|n] Hs; simpl; try constructor.
  - apply IH. by destruct (StronglySorted_inv Hs).
  - apply StronglySorted_inv in Hs as [_ Hx]. by apply Forall_take.
Qed.

Section Report.
Context `{SortSpec}.

(** When every process with a positive pid still answers and no CPU share
    is NaN, a report is produced, and its process list is the twenty busiest
    processes, or all when there are fewer: an initial segment of the entries
    in descending order of CPU share, so that no process left out is busier
    than a listed one. *)
Theorem monitor_lists_busiest now rd g ps :
  rd_Processes rd = Ok ps ->
  Forall (fun p => ps_Rss p <> None /\ ps_CPUPercent p <> S754_nan) (listable ps) ->
  exists rep g' rest, getSystemMetrics now rd g = (Ret rep, g') /\
    length (sm_Processes rep) = Nat.min 20 (length (listable ps)) /\
    Permutation (sm_Processes rep ++ rest) (entries ps) /\
    sorted busier (sm_Processes rep) /\
    (forall a b, In a (sm_Processes rep) -> In b rest -> busier b a = false).
Proof.
  intros Hps [Hr Hn]%Forall_and. pose proof (getSystemMetrics_processes now rd g) as Hg.
  rewrite Hps in Hg. unfold top_processes in Hg. rewrite process_loop_entries in Hg by done. simpl in Hg.
  destruct (sort_Slice_ok busier (entries ps)) as [Hp Hs].
  { apply busier_swo. unfold entries. apply Forall_map. exact Hn. }
  destruct Hg as (rep & g' & Hg & Hl). set (l := sort_Slice busier (entries ps)) in *.
  exists rep, g', (drop 20 l). rewrite Hl.
  replace (if (20 <? length l)%nat then take 20 l else l) with (take 20 l) by
    (destruct (Nat.ltb_spec 20 (length l)); [done|by apply take_ge]).
  assert (length l = length (listable ps)) as Hlen
    by (rewrite Hp; unfold entries; apply length_map).
  split_and!; [done|by rewrite length_take, Hlen|by rewrite take_drop|by apply sorted_take|].
  intros a b Ha Hb. apply (sorted_split busier (take 20 l) (drop 20 l)); [by rewrite take_drop|done|done].
Qed.

(** C37: Collecting panics exactly when a process with a positive pid gives no
    memory information, as one does that ends while the list is walked: the
    nil pointer beside the ignored error is dereferenced. *)
Theorem monitor_panics_iff_process_vanished now rd g :
  (exists why g', getSystemMetrics now rd g = (Panic why, g')) <->
  (exists ps, rd_Processes rd = Ok ps /\ Exists (fun p => ps_Rss p = None) (listable ps)).
Proof.
  pose proof (getSystemMetrics_processes now rd g) as Hg. split.
  - intros (why & g' & Hp). destruct (rd_Processes rd) as [ps|e]; [|destruct Hg as (? & ? & Hg & _); congruence]. exists ps. split; [done|].
    destruct (decide (Forall (fun p => ps_Rss p <> None) (listable ps))) as [Hall|Hex].
    + unfold top_processes in Hg. rewrite process_loop_entries in Hg by done.
      destruct Hg as (? & ? & Hg & _). congruence.
    + apply not_Forall_Exists in Hex; [|apply _]. eapply Exists_impl; [exact Hex|]. simpl.
      intros p Hn. by apply dec_stable.
  - intros (ps & Hps & Hex). rewrite Hps in Hg. unfold top_processes in Hg. rewrite process_loop_vanished in Hg by done.
    destruct Hg as [g' ->]. eauto.
Qed.
End Report.

(** Two processes and a kernel one, the second gone in [demo_readings None]. *)
Definition demo_process (pid : Z) (name : string) (cpu : float64) (rss : option Z) : Process :=
  mkProcess pid name cpu f_zero rss ["S"] 0 name.

Definition demo_readings (rss : option Z) : Readings :=
  mkReadings (Ok [f_100]) [f_100] (Err "no cpu info") 1 (Err "no host") (Ok []) (Err "no memory") (Err "no swap")
    (Ok [demo_process 0 "kernel" f_zero None; demo_process 7 "sh" (f_of_Z 3) (Some 10);
         demo_process 9 "make" (f_of_Z 80) rss]) (Err "no host").

Lemma monitor_lists_busiest_witness :
  exists rep g' rest,
    @getSystemMetrics insertion_sort 0 (demo_readings (Some 20)) new_gauges = (Ret rep, g') /\
    length (sm_Processes rep) = 2%nat /\
    Permutation (sm_Processes rep ++ rest)
      [entry_of (demo_process 7 "sh" (f_of_Z 3) (Some 10)) 10;
       entry_of (demo_process 9 "make" (f_of_Z 80) (Some 20)) 20] /\
    sorted busier (sm_Processes rep) /\
    (forall a b, In a (sm_Processes rep) -> In b rest -> busier b a = false).
Proof.
  apply (@monitor_lists_busiest insertion_sort insertion_sort_spec 0 (demo_readings (Some 20)) new_gauges
           _ eq_refl).
  repeat constructor; vm_compute; done.
Defined.

(** The busier process comes first; with the second one gone the report panics. *)
Example demo_report :
  map pi_Name (match (@getSystemMetrics insertion_sort 0 (demo_readings (Some 20)) new_gauges).1 with
               | Ret rep => sm_Processes rep | Panic _ => [] end) = ["make"; "sh"] /\
  (@getSystemMetrics insertion_sort 0 (demo_readings None) new_gauges).1 = Panic "nil pointer dereference".
Proof. split; vm_compute; reflexivity. Qed.
