(* ===== verification/Fmt.v ===== *)
(** * Runes, padding and number formatting (packages utf8, strings, fmt, time)

    What the logger and the terminal screens use of Go's formatted output:
    decoding a byte string into runes, [strings.Repeat], the verbs [%-Ns],
    [%Nd], [%0Nd] and [%N.Pf], and [time.Duration.String]. Floating-point
    numbers are [spec_float]; their decimal expansion is exact and rounded half
    to even, as in [strconv]. *)

From Stdlib Require Import ZArith Lia Floats.SpecFloat Ascii String List.
From stdpp Require Import base list strings.
From S2P Require Import Prelude GoStrings Json.

(** ** UTF-8 *)

Definition cont (c : ascii) : bool := (128 <=? byte_of c) && (byte_of c <=? 191).

(** Well-formed sequences of two, three and four bytes. *)
Definition two (a b : ascii) : bool := (194 <=? byte_of a) && (byte_of a <=? 223) && cont b.
Definition three (a b c : ascii) : bool :=
  (224 <=? byte_of a) && (byte_of a <=? 239) && cont b && cont c &&
  implb (byte_of a =? 224) (160 <=? byte_of b) && implb (byte_of a =? 237) (byte_of b <=? 159).
Definition four (a b c d : ascii) : bool :=
  (240 <=? byte_of a) && (byte_of a <=? 244) && cont b && cont c && cont d &&
  implb (byte_of a =? 240) (144 <=? byte_of b) && implb (byte_of a =? 244) (byte_of b <=? 143).

(** A string as it is decoded: well-formed sequences, and single bytes that
    start none. *)
Fixpoint chunks (s : string) : list (bool * string) :=
  match s with
  | EmptyString => []
  | String a s1 =>
      if is_ascii_byte a then (true, String a "") :: chunks s1
      else match s1 with
      | EmptyString => (false, String a "") :: chunks s1
      | String b s2 =>
          if two a b then (true, String a (String b "")) :: chunks s2
          else match s2 with
          | EmptyString => (false, String a "") :: chunks s1
          | String c s3 =>
              if three a b c then (true, String a (String b (String c ""))) :: chunks s3
              else match s3 with
              | EmptyString => (false, String a "") :: chunks s1
              | String d s4 =>
                  if four a b c d then (true, String a (String b (String c (String d "")))) :: chunks s4
                  else (false, String a "") :: chunks s1
              end
          end
      end
  end.

(** U+FFFD, which stands for a byte that cannot be decoded. *)
Definition RuneError : string := String "239" (String "191" (String "189" "")).

(** The runes a [range] over a string yields, each in its encoding. *)
Definition runes (s : string) : list string :=
  map (fun c : bool * string => if c.1 then c.2 else RuneError) (chunks s).

Definition ValidString (s : string) : bool := forallb fst (chunks s).

(** [utf8.RuneCountInString]. *)
Definition RuneCount (s : string) : nat := length (chunks s).

(** ** Package [strings] *)

Definition Repeat (s : string) (count : Z) : outcome string :=
  if count <? 0 then Panic "strings: negative Repeat count" else Ret (repeat_nat s (Z.to_nat count)).

(** ** Package [fmt] *)

(** [%-Ns] and [%Ns]: the width counts runes. *)
Definition pad_right (width : nat) (s : string) : string := s +:+ repeat_nat " " (width - RuneCount s).
Definition pad_left (width : nat) (s : string) : string := repeat_nat " " (width - RuneCount s) +:+ s.

(** Digits with leading zeros. *)
Definition zeros (width : nat) (s : string) : string := repeat_nat "0" (width - slen s) +:+ s.

(** [%0Nd]: a sign takes one place. *)
Definition pad_zero (width : nat) (n : Z) : string :=
  if n <? 0 then "-" +:+ zeros (width - 1) (Itoa (- n)) else zeros width (Itoa n).

(** [m * 2^e * 10^p], rounded half to even. *)
Definition scaled (m e : Z) (p : nat) : Z :=
  let n := m * 10 ^ Z.of_nat p in
  if 0 <=? e then n * 2 ^ e
  else
    let d := 2 ^ (- e) in
    let q := n / d in
    let r := n mod d in
    if (d <? 2 * r) || ((2 * r =? d) && Z.odd q) then q + 1 else q.

(** [%.Pf] for a positive precision. *)
Definition FormatFixed (p : nat) (f : float64) : string :=
  let decimal sign n :=
    (if sign : bool then "-" else "") +:+ Itoa (n / 10 ^ Z.of_nat p) +:+ "." +:+ zeros p (Itoa (n mod 10 ^ Z.of_nat p)) in
  match f with
  | S754_nan => "NaN"
  | S754_infinity s => if s then "-Inf" else "+Inf"
  | S754_zero s => decimal s 0
  | S754_finite s m e => decimal s (scaled (Z.pos m) e p)
  end.

(** ** Package [time] *)

(** A fraction of [p] digits without its trailing zeros, and nothing for zero. *)
Definition fmtFrac (u : Z) (p : nat) : string :=
  let f := trim_right (fun c => Ascii.eqb c "0") (zeros p (Itoa (u mod 10 ^ Z.of_nat p))) in
  if String.eqb f "" then "" else "." +:+ f.

Definition micro : string := String "194" (String "181" "").

Definition Duration_String (d : Z) : string :=
  let u := Z.abs d in
  let part (p : nat) (unit : string) := Itoa (u / 10 ^ Z.of_nat p) +:+ fmtFrac u p +:+ unit in
  let text :=
    if u =? 0 then "0s"
    else if u <? 1000 then part 0%nat "ns"
    else if u <? 1000000 then part 3%nat (micro +:+ "s")
    else if u <? Second then part 6%nat "ms"
    else
      let s := u / Second in
      let seconds := Itoa (s mod 60) +:+ fmtFrac u 9 +:+ "s" in
      let m := s / 60 in
      if m =? 0 then seconds
      else
        let minutes := Itoa (m mod 60) +:+ "m" +:+ seconds in
        let h := m / 60 in
        if h =? 0 then minutes else Itoa h +:+ "h" +:+ minutes in
  if d <? 0 then "-" +:+ text else text.

(** ** Examples *)

Example duration_examples :
  map Duration_String [0; 1; 1500; 1500000; 30 * Second; 10 * Minute; 90 * Second; 36 * Hour; -1500 * Millisecond]
  = ["0s"; "1ns"; "1.5" +:+ micro +:+ "s"; "1.5ms"; "30s"; "10m0s"; "1m30s"; "36h0m0s"; "-1.5s"].
Proof. vm_compute. reflexivity. Qed.

(** 0.25 and 0.75 are halfway, 99.95 is a little more, -0 keeps its sign. *)
Example fixed_examples :
  map (FormatFixed 1) [S754_finite false 1 (-2); S754_finite false 3 (-2); S754_finite false 7033355980557517 (-46);
                       S754_zero true; S754_infinity false; S754_finite true 5 1]
  = ["0.2"; "0.8"; "100.0"; "-0.0"; "+Inf"; "-10.0"].
Proof. vm_compute. reflexivity. Qed.

(** ** Decoding a concatenation *)

Lemma chunks_app (a b : string) : ValidString a = true -> chunks (a +:+ b) = chunks a ++ chunks b.
Proof.
  unfold ValidString. remember (slen a) as n eqn:En. assert (slen a <= n)%nat as Hn by lia. clear En. revert a Hn.
  induction n as [|n IH]; intros [|x a]; simpl; intros Hn Hv; try lia; [done..|].
  destruct (is_ascii_byte x); simpl in *.
  { f_equal. apply IH; [lia|done]. }
  destruct a as [|y a]; simpl in *; [done|].
  destruct (two x y); simpl in *. { f_equal. apply IH; [lia|done]. }
  destruct a as [|z a]; simpl in *; [done|].
  destruct (three x y z); simpl in *. { f_equal. apply IH; [lia|done]. }
  destruct a as [|t a]; simpl in *; [done|].
  destruct (four x y z t); simpl in *; [|done]. f_equal. apply IH; [lia|done].
Qed.

Lemma runes_app (a b : string) : ValidString a = true -> runes (a +:+ b) = runes a ++ runes b.
Proof. intros Ha. unfold runes. by rewrite chunks_app, map_app. Qed.

Lemma ValidString_app (a b : string) : ValidString a = true -> ValidString (a +:+ b) = ValidString b.
Proof. intros Ha. unfold ValidString. rewrite chunks_app by done. rewrite forallb_app. unfold ValidString in Ha. by rewrite Ha. Qed.

Lemma RuneCount_app (a b : string) : ValidString a = true -> RuneCount (a +:+ b) = (RuneCount a + RuneCount b)%nat.
Proof. intros Ha. unfold RuneCount. by rewrite chunks_app, length_app. Qed.

Lemma ValidString_ascii (s : string) : is_ascii s = true -> ValidString s = true.
Proof.
  unfold is_ascii, ValidString. induction s as [|c s IH]; simpl; [done|].
  intros [Hc Hs]%andb_prop. rewrite Hc. simpl. auto.
Qed.

Lemma RuneCount_ascii (s : string) : is_ascii s = true -> RuneCount s = slen s.
Proof.
  unfold is_ascii, RuneCount. induction s as [|c s IH]; simpl; [done|].
  intros [Hc Hs]%andb_prop. rewrite Hc. simpl. auto.
Qed.

Lemma RuneCount_repeat (s : string) (n : nat) :
  ValidString s = true -> RuneCount (repeat_nat s n) = (n * RuneCount s)%nat.
Proof. intros Hs. induction n as [|n IH]; [done|]. simpl. by rewrite RuneCount_app, IH. Qed.

Lemma ValidString_repeat (s : string) (n : nat) : ValidString s = true -> ValidString (repeat_nat s n) = true.
Proof. intros Hs. induction n as [|n IH]; [done|]. simpl. by rewrite ValidString_app. Qed.

Lemma is_ascii_repeat (s : string) (n : nat) : is_ascii s = true -> is_ascii (repeat_nat s n) = true.
Proof.
  intros Hs. induction n as [|n IH]; [done|]. simpl. unfold is_ascii in *. by rewrite sforall_app, Hs, IH.
Qed.

Lemma slen_repeat (s : string) (n : nat) : slen (repeat_nat s n) = (n * slen s)%nat.
Proof. induction n as [|n IH]; [done|]. simpl. by rewrite slen_app, IH. Qed.
