(* ===== verification/Terminal.v ===== *)
(** * Terminal text (dashboard.go, logger.go)

    Colour sequences, [stripANSI], and how strings with colours take up columns.
    A [clean] string is valid UTF-8 and leaves no escape sequence open, which is
    what lets visible text be computed piece by piece. *)

From Stdlib Require Import ZArith Lia Ascii String List.
From stdpp Require Import base list strings.
From S2P Require Import Prelude GoStrings Fmt.

(** ** Sequences *)

Definition ESC : string := String "027" "".
Definition csi (s : string) : string := ESC +:+ "[" +:+ s.

Definition clReset : string := csi "0m".
Definition clBold : string := csi "1m".
Definition clDim : string := csi "2m".
Definition clCyan : string := csi "36m".
Definition clGreen : string := csi "32m".
Definition clYellow : string := csi "33m".
Definition clRed : string := csi "31m".
Definition clMagenta : string := csi "35m".
Definition clBlue : string := csi "34m".
Definition clWhite : string := csi "97m".
Definition clGray : string := csi "90m".
Definition clClear : string := csi "2J" +:+ csi "H".
Definition clHide : string := csi "?25l".
Definition clShow : string := csi "?25h".

(** ** [stripANSI] *)

(** The loop over the runes, with [inEsc]. *)
Fixpoint strip (inEsc : bool) (rs : list string) : string :=
  match rs with
  | [] => ""
  | c :: rest =>
      if String.eqb c ESC then strip true rest
      else if inEsc then strip (negb (String.eqb c "m")) rest
      else c +:+ strip inEsc rest
  end.

Definition stripANSI (s : string) : string := strip false (runes s).

(** Columns on a terminal, every rune being one wide. *)
Definition columns (s : string) : nat := RuneCount (stripANSI s).

(** The state the loop ends in. *)
Fixpoint esc_after (inEsc : bool) (rs : list string) : bool :=
  match rs with
  | [] => inEsc
  | c :: rest =>
      esc_after (if String.eqb c ESC then true else if inEsc then negb (String.eqb c "m") else false) rest
  end.

Definition clean (s : string) : bool := ValidString s && negb (esc_after false (runes s)).

(** Text without colours. *)
Definition plain (s : string) : bool := ValidString s && forallb (fun c => negb (String.eqb c ESC)) (runes s).

(** ** Piecewise *)

Lemma strip_app inEsc x y : strip inEsc (x ++ y) = strip inEsc x +:+ strip (esc_after inEsc x) y.
Proof.
  revert inEsc. induction x as [|c x IH]; intros inEsc; simpl; [done|].
  destruct (String.eqb c ESC); [apply IH|]. destruct inEsc; [apply IH|]. by rewrite IH, sapp_assoc.
Qed.

Lemma esc_after_app inEsc x y : esc_after inEsc (x ++ y) = esc_after (esc_after inEsc x) y.
Proof. revert inEsc. induction x as [|c x IH]; intros inEsc; simpl; [done|]. apply IH. Qed.

Lemma clean_spec s : clean s = true <-> ValidString s = true /\ esc_after false (runes s) = false.
Proof. unfold clean. by rewrite andb_true_iff, negb_true_iff. Qed.

Lemma stripANSI_app a b : clean a = true -> stripANSI (a +:+ b) = stripANSI a +:+ stripANSI b.
Proof. intros [Hv He]%clean_spec. unfold stripANSI. by rewrite runes_app, strip_app, He. Qed.

Lemma clean_app a b : clean a = true -> clean b = true -> clean (a +:+ b) = true.
Proof.
  rewrite !clean_spec. intros [Hv He] [Hv' He']. split; [by rewrite ValidString_app|].
  by rewrite runes_app, esc_after_app, He.
Qed.

Lemma chunks_single s c : In c (chunks s) -> ValidString (if c.1 then c.2 else RuneError) = true.
Proof.
  remember (slen s) as n eqn:En. assert (slen s <= n)%nat as Hn by lia. clear En. revert s Hn.
  induction n as [|n IH]; intros [|x s]; simpl; intros Hn; try lia; try done.
  destruct (is_ascii_byte x) eqn:E1; simpl.
  { intros [<-|Hc]; [unfold ValidString; simpl; by rewrite E1|]. apply (IH s); [lia|done]. }
  assert ((false, String x "") = c \/ In c (chunks s) ->
    ValidString (if c.1 then c.2 else RuneError) = true) as Hbad.
  { intros [<-|Hc]; [done|]. apply (IH s); [lia|done]. }
  destruct s as [|y s]; [done|]. destruct (two x y) eqn:E2.
  { intros [<-|Hc]; [unfold ValidString; simpl; by rewrite E1, E2|]. simpl in Hn. apply (IH s); [lia|done]. }
  destruct s as [|z s]; [done|]. destruct (three x y z) eqn:E3.
  { intros [<-|Hc]; [unfold ValidString; simpl; by rewrite E1, E2, E3|]. simpl in Hn. apply (IH s); [lia|done]. }
  destruct s as [|t s]; [done|]. destruct (four x y z t) eqn:E4; [|done].
  intros [<-|Hc]; [unfold ValidString; simpl; by rewrite E1, E2, E3, E4|]. simpl in Hn. apply (IH s); [lia|done].
Qed.

(** What is left is valid, whatever went in. *)
Lemma stripANSI_valid s : ValidString (stripANSI s) = true.
Proof.
  unfold stripANSI, runes. pose proof (chunks_single s) as Hc. generalize false.
  induction (chunks s) as [|c cs IH]; intros inEsc; simpl; [done|].
  assert (forall c', In c' cs -> ValidString (if c'.1 then c'.2 else RuneError) = true) as Hcs by (intros; apply Hc; by right).
  destruct (String.eqb _ ESC); [by apply IH|]. destruct inEsc; [by apply IH|].
  rewrite ValidString_app; [by apply IH|]. apply Hc. by left.
Qed.

Lemma columns_app a b : clean a = true -> columns (a +:+ b) = (columns a + columns b)%nat.
Proof. intros Ha. unfold columns. rewrite stripANSI_app by done. apply RuneCount_app, stripANSI_valid. Qed.

(** ** Plain text *)

Lemma valid_runes s : ValidString s = true -> runes s = map snd (chunks s).
Proof.
  unfold ValidString, runes. induction (chunks s) as [|[ok c] cs IH]; simpl; [done|].
  intros [-> Hcs]%andb_prop. by rewrite IH.
Qed.

Lemma chunks_concat s : foldr String.append "" (map snd (chunks s)) = s.
Proof.
  remember (slen s) as n eqn:En. assert (slen s <= n)%nat as Hn by lia. clear En. revert s Hn.
  induction n as [|n IH]; intros [|x s]; simpl; intros Hn; try lia; try done.
  assert (foldr String.append "" (map snd ((false, String x "") :: chunks s)) = String x s) as Hbad.
  { cbn [map snd foldr]. rewrite IH by lia. done. }
  destruct (is_ascii_byte x); [exact Hbad|].
  destruct s as [|y s]; [done|]. destruct (two x y); [simpl in Hn; cbn [map snd foldr]; rewrite IH by lia; done|].
  destruct s as [|z s]; [exact Hbad|].
  destruct (three x y z); [simpl in Hn; cbn [map snd foldr]; rewrite IH by lia; done|].
  destruct s as [|t s]; [exact Hbad|].
  destruct (four x y z t); [simpl in Hn; cbn [map snd foldr]; rewrite IH by lia; done|exact Hbad].
Qed.

Lemma plain_clean s : plain s = true -> clean s = true.
Proof.
  unfold plain. intros [Hv Hp]%andb_prop. rewrite clean_spec. split; [done|].
  induction (runes s) as [|c rs IH]; simpl in *; [done|]. apply andb_prop in Hp as [Hc Hp].
  apply negb_true_iff in Hc. rewrite Hc. by apply IH.
Qed.

Lemma stripANSI_plain s : plain s = true -> stripANSI s = s.
Proof.
  unfold plain. intros [Hv Hp]%andb_prop. unfold stripANSI. rewrite <- (chunks_concat s) at 2.
  rewrite valid_runes in * by done. induction (map snd (chunks s)) as [|c rs IH]; simpl in *; [done|].
  apply andb_prop in Hp as [Hc Hp]. apply negb_true_iff in Hc. rewrite Hc. by rewrite IH.
Qed.

Lemma plain_app a b : plain a = true -> plain b = true -> plain (a +:+ b) = true.
Proof.
  unfold plain. intros [Hv Hp]%andb_prop [Hv' Hp']%andb_prop.
  rewrite ValidString_app, runes_app, forallb_app by done. by rewrite Hv', Hp, Hp'.
Qed.

Lemma plain_repeat s n : plain s = true -> plain (repeat_nat s n) = true.
Proof. intros Hs. induction n as [|n IH]; [done|]. simpl. by apply plain_app. Qed.

Lemma clean_repeat s n : clean s = true -> clean (repeat_nat s n) = true.
Proof. intros Hs. induction n as [|n IH]; [done|]. simpl. by apply clean_app. Qed.

Lemma columns_plain s : plain s = true -> columns s = RuneCount s.
Proof. intros Hs. unfold columns. by rewrite stripANSI_plain. Qed.

Lemma columns_repeat s n : clean s = true -> columns (repeat_nat s n) = (n * columns s)%nat.
Proof. intros Hs. induction n as [|n IH]; [done|]. simpl. by rewrite columns_app, IH. Qed.

(** Visible characters one byte each. *)
Lemma columns_ascii s : is_ascii s = true -> plain s = true -> columns s = slen s.
Proof. intros Ha Hp. by rewrite columns_plain, RuneCount_ascii. Qed.

Create HintDb term.
#[export] Hint Resolve clean_app plain_clean plain_app plain_repeat clean_repeat : term.
#[export] Hint Extern 1 (clean _ = true) => reflexivity : term.
#[export] Hint Extern 1 (plain _ = true) => reflexivity : term.
#[export] Hint Rewrite columns_app stripANSI_app using (solve [eauto with term]) : term.
