(* ===== verification/Binary64.v ===== *)
(** * [float64] arithmetic: conversions, and bounds on magnitudes

    [math.Round], [int(f)] and the size of a quotient. Out of range, what
    [int(f)] gives depends on the machine; it is a parameter. The magnitude of
    [m * 2^e] is [digits m + e]: the value lies in [[2^(magnitude - 1),
    2^magnitude)]. Rounding raises a magnitude by at most one. *)

From Stdlib Require Import ZArith Lia Floats.SpecFloat String List.
From stdpp Require Import base list.
From S2P Require Import Prelude Json Monitor.

(** ** Operations *)

(** What the machine makes of a number that no [int] stands for. *)
Class IntConv := { out_of_range : float64 -> Z }.

(** amd64 gives the least integer. *)
Definition amd64 : IntConv := {| out_of_range _ := int64_min |}.

(** [int(f)] cuts off the fraction. *)
Definition int_of `{IntConv} (f : float64) : Z :=
  match f with
  | S754_zero _ => 0
  | S754_finite s m e =>
      let v := if 0 <=? e then Z.pos m * 2 ^ e else Z.pos m / 2 ^ (- e) in
      let v := if s then - v else v in
      if (int64_min <=? v) && (v <=? int64_max) then v else out_of_range f
  | _ => out_of_range f
  end.

(** [math.Round]: to the nearest integer, halves away from zero. *)
Definition math_Round (f : float64) : float64 :=
  match f with
  | S754_finite s m e =>
      if 0 <=? e then f
      else
        let n := (2 * Z.pos m + 2 ^ (- e)) / 2 ^ (1 - e) in
        if n =? 0 then S754_zero s else binary_normalize 53 1024 (if s then - n else n) 0 false
  | _ => f
  end.

Definition f_div (x y : float64) : float64 := SFdiv 53 1024 x y.
Definition f_mul (x y : float64) : float64 := SFmul 53 1024 x y.
Definition f_add (x y : float64) : float64 := SFadd 53 1024 x y.

(** ** Digits *)

Lemma digits2_size p : digits2_pos p = Pos.size p.
Proof. induction p as [p IH|p IH|]; simpl; by rewrite ?IH. Qed.

Lemma digits_log2 m : 0 < m -> Zdigits2 m = Z.log2 m + 1.
Proof. destruct m as [|p|p]; simpl; try lia. rewrite digits2_size. intros _. destruct p; simpl; lia. Qed.

Lemma log2_div m k : 0 < m -> 0 <= k -> k <= Z.log2 m -> 0 < m / 2 ^ k /\ Z.log2 (m / 2 ^ k) = Z.log2 m - k.
Proof.
  intros Hm Hk Hl. split.
  - apply Z.div_str_pos. split; [lia|]. etrans; [by apply Z.pow_le_mono_r|]. by apply Z.log2_spec.
  - rewrite <- Z.shiftr_div_pow2 by done. rewrite Z.log2_shiftr by done. lia.
Qed.

(** ** Shifting and rounding *)

Lemma shr_1_half r : 0 <= shr_m r -> shr_m (shr_1 r) = shr_m r / 2.
Proof.
  destruct r as [m b s]. simpl. intros Hm. destruct m as [|p|p]; [done| |lia].
  rewrite <- Z.div2_div. by destruct p.
Qed.

Lemma shr_iter p r : 0 <= shr_m r -> shr_m (SpecFloat.iter_pos shr_1 p r) = shr_m r / 2 ^ Z.pos p.
Proof.
  revert r. induction p as [p IH|p IH|]; intros r Hr; simpl SpecFloat.iter_pos.
  - assert (0 <= shr_m (shr_1 r)) as H1 by (rewrite shr_1_half by done; apply Z.div_pos; lia).
    assert (0 <= shr_m (SpecFloat.iter_pos shr_1 p (shr_1 r))) as H2 by (rewrite IH by done; apply Z.div_pos; lia).
    rewrite IH, IH, shr_1_half by done. rewrite !Z.div_div by lia. f_equal.
    rewrite Pos2Z.inj_xI, !Z.pow_add_r, Z.pow_1_r by lia. rewrite Z.pow_mul_r by lia.
    replace (2 ^ 2) with (2 * 2) by done. rewrite Z.pow_mul_l. lia.
  - assert (0 <= shr_m (SpecFloat.iter_pos shr_1 p r)) as H2 by (rewrite IH by done; apply Z.div_pos; lia).
    rewrite IH, IH by done. rewrite Z.div_div by lia. f_equal. rewrite <- Z.pow_add_r by lia. f_equal. lia.
  - by apply shr_1_half.
Qed.

Lemma shr_record_m m l : shr_m (shr_record_of_loc m l) = m.
Proof. by destruct l as [|[]]. Qed.

Lemma fexp_value x : fexp 53 1024 x = Z.max (x - 53) (-1074).
Proof. reflexivity. Qed.

(** [shr_fexp] on a positive mantissa that is not subnormal: the mantissa stays
    positive and the magnitude what it was. *)
Lemma shr_fexp_spec m e l :
  0 < m -> -1000 <= e ->
  exists r e', shr_fexp 53 1024 m e l = (r, e') /\ 0 < shr_m r /\ e <= e' /\ Z.log2 (shr_m r) + e' = Z.log2 m + e.
Proof.
  intros Hm He. unfold shr_fexp. rewrite digits_log2, fexp_value by done.
  pose proof (Z.log2_nonneg m). destruct (_ - e) as [|p|p] eqn:E; unfold shr.
  1,3: eexists _, _; split; [reflexivity|]; rewrite shr_record_m; lia.
  eexists _, _. split; [reflexivity|]. rewrite shr_iter by (rewrite shr_record_m; lia). rewrite shr_record_m.
  destruct (log2_div m (Z.pos p)) as [H1 H2]; [done|lia|lia|]. rewrite H2. lia.
Qed.

Lemma round_even_spec m l :
  0 < m -> m <= round_nearest_even m l <= m + 1.
Proof. intros Hm. destruct l as [|[]]; simpl; try case_if; lia. Qed.

(** Rounding raises the magnitude by at most one, and keeps the sign. *)
Lemma round_aux_spec s m e l :
  0 < m -> -1000 <= e -> Z.log2 m + e <= 900 ->
  exists m' e', binary_round_aux 53 1024 s m e l = S754_finite s m' e' /\ e <= e' /\
    Z.log2 m + e <= Z.log2 (Z.pos m') + e' <= Z.log2 m + e + 1.
Proof.
  intros Hm He Hk. unfold binary_round_aux.
  destruct (shr_fexp_spec m e l Hm He) as (r1 & e1 & -> & H1 & He1 & L1).
  pose proof (round_even_spec (shr_m r1) (loc_of_shr_record r1) H1) as Hr.
  set (m2 := round_nearest_even _ _) in *.
  assert (Z.log2 (shr_m r1) <= Z.log2 m2 <= Z.log2 (shr_m r1) + 1) as L2.
  { split; [apply Z.log2_le_mono; lia|]. etrans; [apply Z.log2_le_mono, Hr|].
    apply (Z.log2_succ_le (shr_m r1)). }
  destruct (shr_fexp_spec m2 e1 loc_Exact) as (r2 & e2 & -> & H2 & He2 & L3); [lia|lia|].
  destruct (shr_m r2) as [|m'|m'] eqn:E2; try lia. pose proof (Z.log2_nonneg (Z.pos m')).
  replace (e2 <=? 1024 - 53) with true by (symmetry; apply Z.leb_le; lia).
  exists m', e2. split; [done|]. lia.
Qed.

(** ** Conversions *)

Lemma iter_xO p d : Z.pos (Pos.iter xO p d) = Z.pos p * 2 ^ Z.pos d.
Proof.
  induction d as [|d IH] using Pos.peano_ind; [simpl; lia|].
  rewrite Pos.iter_succ, Pos2Z.inj_xO, IH, Pos2Z.inj_succ, Z.pow_succ_r by lia. lia.
Qed.

Lemma f_of_Z_spec n :
  0 < n < 2 ^ 63 ->
  exists m e, f_of_Z n = S754_finite false m e /\ -52 <= e /\
    Z.log2 n <= Z.log2 (Z.pos m) + e <= Z.log2 n + 1.
Proof.
  intros [Hn Hmax]. destruct n as [|p|p]; try lia.
  unfold f_of_Z, binary_normalize, binary_round. rewrite Z.add_0_r.
  change (Z.pos (digits2_pos p)) with (Zdigits2 (Z.pos p)). rewrite digits_log2, fexp_value by lia.
  assert (Z.log2 (Z.pos p) < 63) by (apply Z.log2_lt_pow2; lia). pose proof (Z.log2_nonneg (Z.pos p)).
  unfold shl_align. rewrite Z.sub_0_r. destruct (Z.max _ _) as [|d|d] eqn:E.
  1,2: destruct (round_aux_spec false (Z.pos p) 0 loc_Exact) as (m & e & -> & He & Hl); [lia..|];
    exists m, e; split; [done|lia].
  destruct (round_aux_spec false (Z.pos (Pos.iter xO p d)) (Z.neg d) loc_Exact) as (m & e & -> & He & Hl); [lia|lia| |].
  all: rewrite iter_xO, Z.log2_mul_pow2 in * by lia.
  - lia.
  - exists m, e. split; [done|]. lia.
Qed.

(** The quotient of two positive numbers of moderate size. *)
Lemma f_div_spec m1 e1 m2 e2 :
  -100 <= e1 -> -100 <= e2 ->
  -100 <= Z.log2 (Z.pos m1) + e1 <= 100 -> -100 <= Z.log2 (Z.pos m2) + e2 <= 100 ->
  exists m e, f_div (S754_finite false m1 e1) (S754_finite false m2 e2) = S754_finite false m e /\ -500 <= e /\
    Z.log2 (Z.pos m) + e <= (Z.log2 (Z.pos m1) + e1) - (Z.log2 (Z.pos m2) + e2) + 1.
Proof.
  intros He1 He2 H1 H2. unfold f_div, SFdiv, SFdiv_core_binary. rewrite !digits_log2, fexp_value by lia.
  set (l1 := Z.log2 (Z.pos m1)) in *. set (l2 := Z.log2 (Z.pos m2)) in *.
  pose proof (Z.log2_nonneg (Z.pos m1)) as P1. pose proof (Z.log2_nonneg (Z.pos m2)) as P2. fold l1 in P1. fold l2 in P2.
  set (e' := Z.min _ _). assert (-500 <= e' <= l1 + e1 - (l2 + e2) - 53 /\ 0 <= e1 - e2 - e') as [He' Hs] by (unfold e'; lia).
  set (s := e1 - e2 - e') in *.
  assert ((match s with Z0 => Z.pos m1 | Z.pos _ => Z.shiftl (Z.pos m1) s | Z.neg _ => 0 end) = Z.pos m1 * 2 ^ s) as ->.
  { destruct s; [simpl; lia|by rewrite Z.shiftl_mul_pow2|lia]. }
  pose proof (Z.log2_spec (Z.pos m1) ltac:(lia)) as [A1 B1]. fold l1 in A1, B1.
  pose proof (Z.log2_spec (Z.pos m2) ltac:(lia)) as [A2 B2]. fold l2 in A2, B2.
  assert (Z.pos m1 * 2 ^ s / Z.pos m2 = (Z.div_eucl (Z.pos m1 * 2 ^ s) (Z.pos m2)).1) as Eq
    by (unfold Z.div; by destruct (Z.div_eucl _ _)).
  destruct (Z.div_eucl _ _) as [q r]. simpl in Eq.
  assert (0 < q) as Hq.
  { subst q. apply Z.div_str_pos. split; [lia|]. transitivity (2 ^ (l1 + s)).
    - apply Z.lt_le_incl. eapply Z.lt_le_trans; [exact B2|]. apply Z.pow_le_mono_r; lia.
    - rewrite Z.pow_add_r by lia. apply Z.mul_le_mono_nonneg_r; [|done]. apply Z.pow_nonneg. lia. }
  assert (Z.log2 q <= l1 + s - l2) as Lq.
  { assert (q < 2 ^ (l1 + s - l2 + 1)) as Hlt; [|apply Z.log2_lt_pow2 in Hlt; lia].
    subst q. apply Z.div_lt_upper_bound; [lia|]. eapply Z.lt_le_trans with (2 ^ (Z.succ l1) * 2 ^ s).
    - apply Z.mul_lt_mono_pos_r; [|done]. apply Z.pow_pos_nonneg; lia.
    - rewrite <- Z.pow_add_r by lia. replace (Z.succ l1 + s) with (l2 + (l1 + s - l2 + 1)) by lia.
      rewrite Z.pow_add_r by lia. apply Z.mul_le_mono_nonneg_r; [|done]. apply Z.pow_nonneg. lia. }
  change (xorb false false) with false. destruct (round_aux_spec false q e' (new_location (Z.pos m2) r)) as (m & e & -> & He & Hl); [done|lia|lia|].
  exists m, e. split; [done|]. lia.
Qed.

(** The product with a power of two. *)
Lemma f_mul_pow2_spec m1 e1 k e2 :
  -500 <= e1 -> -100 <= e2 -> Z.log2 (Z.pos m1) + e1 <= 100 -> Z.log2 (2 ^ Z.pos k) + e2 <= 100 ->
  exists m e, f_mul (S754_finite false m1 e1) (S754_finite false (2 ^ k) e2) = S754_finite false m e /\
    Z.log2 (Z.pos m) + e <= Z.log2 (Z.pos m1) + e1 + (Z.pos k + e2) + 1.
Proof.
  intros He1 He2 H1 H2. unfold f_mul, SFmul. rewrite Z.log2_pow2 in H2 by lia.
  assert (Z.log2 (Z.pos (m1 * 2 ^ k)) = Z.log2 (Z.pos m1) + Z.pos k) as El.
  { rewrite Pos2Z.inj_mul, Pos2Z.inj_pow. rewrite Z.log2_mul_pow2 by lia. lia. }
  change (xorb false false) with false.
  destruct (round_aux_spec false (Z.pos (m1 * 2 ^ k)) (e1 + e2) loc_Exact) as (m & e & -> & He & Hl); [lia..|].
  exists m, e. split; [done|]. lia.
Qed.

(** A number of that size has an integer part. *)
Lemma int_of_spec `{IntConv} m e :
  Z.log2 (Z.pos m) + e <= 60 -> 0 <= int_of (S754_finite false m e).
Proof.
  intros Hl. unfold int_of. set (v := if 0 <=? e then _ else _).
  assert (0 <= v < 2 ^ 61) as Hv.
  { unfold v. destruct (0 <=? e) eqn:Ee; bool_prop.
    - split; [apply Z.mul_nonneg_nonneg; [lia|apply Z.pow_nonneg; lia]|].
      apply Z.log2_lt_pow2; [|rewrite Z.log2_mul_pow2; lia]. apply Z.mul_pos_pos; [lia|apply Z.pow_pos_nonneg; lia].
    - split; [apply Z.div_pos; [lia|apply Z.pow_pos_nonneg; lia]|].
      apply Z.div_lt_upper_bound; [apply Z.pow_pos_nonneg; lia|]. rewrite <- Z.pow_add_r by lia.
      apply Z.log2_lt_pow2; lia. }
  destruct (_ && _) eqn:E; [lia|]. apply andb_false_iff in E. unfold int64_min, int64_max in E.
  destruct E as [E|E]; bool_prop; lia.
Qed.

(** A share of at most one, counted in eighths, converts to an integer. *)
Lemma eighths_nonneg `{IntConv} v mx :
  0 <= v <= mx -> 0 < mx < 2 ^ 63 -> 0 <= int_of (f_mul (f_div (f_of_Z v) (f_of_Z mx)) (f_of_Z 8)).
Proof.
  intros Hv Hmx. destruct (f_of_Z_spec mx Hmx) as (m2 & e2 & -> & He2 & L2).
  assert (Z.log2 mx < 63) by (apply Z.log2_lt_pow2; lia). pose proof (Z.log2_nonneg mx).
  destruct (decide (v = 0)) as [-> | Hz]; [done|].
  destruct (f_of_Z_spec v) as (m1 & e1 & -> & He1 & L1); [lia|].
  assert (Z.log2 v <= Z.log2 mx) by (apply Z.log2_le_mono; lia). pose proof (Z.log2_nonneg v).
  destruct (f_div_spec m1 e1 m2 e2) as (m & e & -> & He & Hl); [lia..|].
  change (f_of_Z 8) with (S754_finite false (2 ^ 52) (-49)).
  destruct (f_mul_pow2_spec m e 52 (-49)) as (m' & e' & -> & Hl'); [lia..|vm_compute; discriminate|].
  apply int_of_spec. lia.
Qed.
