(* ===== verification/Js.v ===== *)
(** * The values of a page's script

    What the script of the monitor page needs of its language: the values a
    JSON document parses to, members, conversions to text and to numbers,
    [toFixed], [Math.floor], [Math.round] and the remainder. Numbers are doubles;
    the text of one is the shortest that reads back as it. *)

From Stdlib Require Import ZArith Lia Floats.SpecFloat Ascii String List.
From stdpp Require Import base list strings.
From S2P Require Import Prelude Logic GoStrings Json Monitor Fmt Binary64.

(** Values, as far as a document has them: arrays and objects are not written
    to after they are parsed, so that they are trees. *)
Inductive js : Type :=
| Undefined
| Null
| Boolean (b : bool)
| Number (f : float64)
| Str (s : string)
| Arr (l : list js)
| Obj (fields : list (string * js)).

(** What the language leaves to the engine or to the locale: the accuracy of
    [Math.log] and [Math.pow], the local forms of a date, and the conversions of
    the values no document of the gateway has where the script converts them
    (strings and objects to numbers, arrays and objects to text).
    [time_text] is the text Go's encoder gives a time. *)
Class BrowserLib := {
  Math_log : float64 -> float64;
  Math_pow : float64 -> float64 -> float64;
  toLocaleString : js -> string;
  toLocaleTimeString : Z -> string;
  object_number : js -> float64;
  object_text : js -> string;
  time_text : Z -> string
}.

(** The two functions on the value that is not a number. *)
Class BrowserSpec `{BrowserLib} : Prop := {
  Math_log_nan : Math_log S754_nan = S754_nan;
  Math_pow_nan x : Math_pow x S754_nan = S754_nan
}.

(** ** Numbers *)

Definition js_div (x y : float64) : float64 := SFdiv 53 1024 x y.
Definition js_mul (x y : float64) : float64 := SFmul 53 1024 x y.
Definition signed (s : bool) (m : positive) : Z := if s then Z.neg m else Z.pos m.

Definition Math_floor (x : float64) : float64 :=
  match x with
  | S754_finite s m e => if 0 <=? e then x else f_of_Z (signed s m / 2 ^ (- e))
  | _ => x
  end.

(** [Math.round]: halves upwards, and the sign stays on a zero. *)
Definition Math_round (x : float64) : float64 :=
  match x with
  | S754_finite s m e =>
      if 0 <=? e then x
      else
        let n := (2 * signed s m + 2 ^ (- e)) / 2 ^ (1 - e) in
        if n =? 0 then S754_zero s else f_of_Z n
  | _ => x
  end.

(** [x % y]: exact, with the sign of [x]. *)
Definition js_rem (x y : float64) : float64 :=
  match x, y with
  | S754_finite s m e, S754_finite _ m' e' =>
      let k := Z.min e e' in
      let r := Z.rem (Z.pos m * 2 ^ (e - k)) (Z.pos m' * 2 ^ (e' - k)) in
      if r =? 0 then S754_zero s else binary_normalize 53 1024 (if s then - r else r) k false
  | S754_zero _, S754_finite _ _ _ => x
  | S754_zero _, S754_infinity _ => x
  | S754_finite _ _ _, S754_infinity _ => x
  | _, _ => S754_nan
  end.

(** The double nearest to [s * 10^p]. *)
Definition of_decimal (s : positive) (p : Z) : float64 :=
  if 0 <=? p then f_of_Z (Z.pos s * 10 ^ p)
  else match 10 ^ (- p) with
       | Zpos d => SFdiv 53 1024 (S754_finite false s 0) (S754_finite false d 0)
       | _ => S754_nan
       end.

(** [m * 2^e * 10^p] as a fraction. *)
Definition fraction (m e p : Z) : Z * Z :=
  (m * (if 0 <=? e then 2 ^ e else 1) * (if 0 <=? p then 10 ^ p else 1),
   (if 0 <=? e then 1 else 2 ^ (- e)) * (if 0 <=? p then 1 else 10 ^ (- p))).

(** The [n] with [10^(n-1) <= m * 2^e < 10^n]. *)
Fixpoint below_one (fuel : nat) (m e j : Z) : Z :=
  match fuel with
  | O => 1 - j
  | S fuel => let '(a, b) := fraction m e j in if b <=? a then 1 - j else below_one fuel m e (j + 1)
  end.
Definition decimal_magnitude (m e : Z) : Z :=
  let '(a, b) := fraction m e 0 in
  if b <=? a then Z.of_nat (slen (Itoa (a / b))) else below_one 400 m e 1.

(** Four hundred powers of ten are enough for the least double. *)
Definition reaches (m e j : Z) : Prop := let '(a, b) := fraction m e j in b <= a.

Lemma below_one_spec fuel m e j :
  reaches m e (j + Z.of_nat fuel) ->
  exists j', below_one fuel m e j = 1 - j' /\ j <= j' /\ reaches m e j' /\
    forall i, j <= i < j' -> ~ reaches m e i.
Proof.
  revert j. induction fuel as [|fuel IH]; intros j Hr.
  - exists j. rewrite Z.add_0_r in Hr. split_and!; [done|lia|done|lia].
  - cbn [below_one]. destruct (fraction m e j) as [a b] eqn:E. destruct (Z.leb_spec b a) as [Hle|Hlt].
    + exists j. split_and!; [done|lia|by unfold reaches; rewrite E|lia].
    + destruct (IH (j + 1)) as (j' & -> & Hj & Hr' & Hmin); [by replace (j + 1 + Z.of_nat fuel) with (j + Z.of_nat (S fuel)) by lia|].
      exists j'. split_and!; [done|lia|done|]. intros i Hi. destruct (decide (i = j)) as [->|]; [|apply Hmin; lia].
      unfold reaches. rewrite E. lia.
Qed.

Lemma least_double_reaches m e : 0 < m -> -1074 <= e -> reaches m e 401.
Proof.
  intros Hm He. unfold reaches, fraction. change (0 <=? 401) with true. cbv iota beta.
  assert (2 ^ 1074 <= 10 ^ 401) as Hp by (vm_compute; discriminate).
  assert (1 <= 2 ^ 1074) as H1 by (vm_compute; discriminate).
  revert Hp. generalize (10 ^ 401). intros T HT. destruct (Z.leb_spec 0 e) as [H0|H0].
  - assert (0 < 2 ^ e) by (apply Z.pow_pos_nonneg; lia). revert HT H1. generalize (2 ^ 1074). intros L HT H1.
    assert (1 <= m * 2 ^ e) by nia. nia.
  - assert (2 ^ (- e) <= 2 ^ 1074) as H2 by (apply Z.pow_le_mono_r; lia).
    revert HT H1 H2. generalize (2 ^ 1074). intros L HT H1 H2. nia.
Qed.

(** The decimal of [k] digits that reads back as [m * 2^e], if there is one:
    the nearer of two, and of two at the same distance the even one. *)
Definition decimal_of (m e n : Z) (k : nat) : option Z :=
  let x := S754_finite false (Z.to_pos m) e in
  let p := n - Z.of_nat k in
  let '(a, b) := fraction m e (- p) in
  let lo := a / b in
  let reads s := match s with Zpos d => SFeqb (of_decimal d p) x | _ => false end in
  if reads lo && reads (lo + 1) then
    let r := 2 * (a mod b) in Some (if (r <? b) || ((r =? b) && Z.even lo) then lo else lo + 1)
  else if reads lo then Some lo
  else if reads (lo + 1) then Some (lo + 1)
  else None.

(** Seventeen digits are always enough. *)
Fixpoint shortest (m e n : Z) (k fuel : nat) : Z * nat :=
  match fuel with
  | O => (m, k)
  | S fuel => match decimal_of m e n k with Some s => (s, k) | None => shortest m e n (S k) fuel end
  end.

(** The digits of the number, laid out by the place of its point. *)
Definition layout (digits : string) (n : Z) : string :=
  let k := Z.of_nat (slen digits) in
  if (k <=? n) && (n <=? 21) then digits +:+ repeat_nat "0" (Z.to_nat (n - k))
  else if (0 <? n) && (n <=? 21) then
    stake (Z.to_nat n) digits +:+ "." +:+ sdrop (Z.to_nat n) digits
  else if (-6 <? n) && (n <=? 0) then "0." +:+ repeat_nat "0" (Z.to_nat (- n)) +:+ digits
  else
    let e := n - 1 in
    let exponent := "e" +:+ (if e <? 0 then "-" else "+") +:+ Itoa (Z.abs e) in
    if k =? 1 then digits +:+ exponent
    else stake 1 digits +:+ "." +:+ sdrop 1 digits +:+ exponent.

Definition positive_text (m : positive) (e : Z) : string :=
  let n := decimal_magnitude (Z.pos m) e in
  let '(s, k) := shortest (Z.pos m) e n 1 17 in
  if s =? 10 ^ Z.of_nat k then layout "1" (n + 1) else layout (Itoa s) n.

Definition Number_toString (x : float64) : string :=
  match x with
  | S754_nan => "NaN"
  | S754_zero _ => "0"
  | S754_infinity s => (if s then "-" else "") +:+ "Infinity"
  | S754_finite s m e => (if s then "-" else "") +:+ positive_text m e
  end.

(** [x.toFixed(d)] for a positive [d]: of two nearest decimals the larger
    one, and no sign on a zero; from [10^21] on the plain text. *)
Definition Number_toFixed (d : nat) (x : float64) : string :=
  let decimal n :=
    Itoa (n / 10 ^ Z.of_nat d) +:+ "." +:+ zeros d (Itoa (n mod 10 ^ Z.of_nat d)) in
  match x with
  | S754_zero _ => decimal 0
  | S754_finite s m e =>
      let '(a, b) := fraction (Z.pos m) e (Z.of_nat d) in
      if 10 ^ (21 + Z.of_nat d) * b <=? a then Number_toString x
      else (if s then "-" else "") +:+ decimal ((2 * a + b) / (2 * b))
  | _ => Number_toString x
  end.

(** ** Values *)

(** The length of a string counts UTF-16 units. *)
Definition utf16_length (s : string) : Z :=
  foldr (fun r n => (if (slen r =? 4)%nat then 2 else 1) + n) 0 (runes s).

Fixpoint field (fields : list (string * js)) (k : string) : js :=
  match fields with
  | [] => Undefined
  | (k', v) :: rest => if String.eqb k' k then v else field rest k
  end.

Definition truthy (v : js) : bool :=
  match v with
  | Undefined | Null => false
  | Boolean b => b
  | Number f => match f with S754_zero _ | S754_nan => false | _ => true end
  | Str s => negb (String.eqb s "")
  | Arr _ | Obj _ => true
  end.

(** [v || d]. *)
Definition or_else (v d : js) : js := if truthy v then v else d.

Section Convert.
Context `{BrowserLib}.

Definition ToNumber (v : js) : float64 :=
  match v with
  | Undefined => S754_nan
  | Null => f_zero
  | Boolean b => if b then f_of_Z 1 else f_zero
  | Number f => f
  | _ => object_number v
  end.

Definition ToString (v : js) : string :=
  match v with
  | Undefined => "undefined"
  | Null => "null"
  | Boolean b => if b then "true" else "false"
  | Number f => Number_toString f
  | Str s => s
  | _ => object_text v
  end.

(** [v > n] for a number [n]; false when either is NaN. *)
Definition above (v : js) (n : Z) : bool := SFltb (f_of_Z n) (ToNumber v).

(** What a document parses to: an integer is the nearest double, a double is
    itself since its text reads back, and a byte that is not UTF-8 was replaced. *)
Fixpoint parsed (j : json) : js :=
  match j with
  | JNull => Null
  | JBool b => Boolean b
  | JInt n => Number (f_of_Z n)
  | JFloat f => Number f
  | JString s => Str (foldr String.append "" (runes s))
  | JTime t => Str (time_text t)
  | JArray l => Arr (map parsed l)
  | JObject fields => Obj (map (fun kv => (kv.1, parsed kv.2)) fields)
  end.
End Convert.

(** ** Operations that throw *)

Definition TypeError : string := "TypeError".

Section Throw.
Context {S : Type}.

(** [v.k]. *)
Definition member (v : js) (k : string) : M S js :=
  match v with
  | Undefined | Null => panic TypeError
  | Obj fields => mret (field fields k)
  | Arr l => mret (if String.eqb k "length" then Number (f_of_Z (Z.of_nat (length l))) else Undefined)
  | Str s => mret (if String.eqb k "length" then Number (f_of_Z (utf16_length s)) else Undefined)
  | Boolean _ | Number _ => mret Undefined
  end.

(** [v.toFixed(d)]: only a number has the method. *)
Definition toFixed (d : nat) (v : js) : M S string :=
  match v with Number x => mret (Number_toFixed d x) | _ => panic TypeError end.

(** The elements of an array, whose methods no other value has. *)
Definition elements (v : js) : M S (list js) :=
  match v with Arr l => mret l | _ => panic TypeError end.
End Throw.

(** Texts of numbers, as a browser gives them. *)
Example number_texts :
  map Number_toString
    [f_of_Z 0; f_of_Z 100; f_of_Z 123456789; js_div (f_of_Z 1) (f_of_Z 3); js_div (f_of_Z 1) (f_of_Z 10);
     f_of_Z (10 ^ 21); f_of_Z (10 ^ 23); js_div (f_of_Z 5) (f_of_Z (10 ^ 7)); f_of_Z (- 25)] =
    ["0"; "100"; "123456789"; "0.3333333333333333"; "0.1"; "1e+21"; "1e+23"; "5e-7"; "-25"] /\
  map (Number_toFixed 1) [f_zero; js_div (f_of_Z 1) (f_of_Z 4); js_div (f_of_Z 3) (f_of_Z 4); f_of_Z 100] =
    ["0.0"; "0.3"; "0.8"; "100.0"] /\
  map Math_round [js_div (f_of_Z 5) (f_of_Z 2); js_div (f_of_Z (- 5)) (f_of_Z 2)] = [f_of_Z 3; f_of_Z (- 2)] /\
  js_rem (f_of_Z 90061) (f_of_Z 86400) = f_of_Z 3661.
Proof. split_and!; vm_compute; reflexivity. Qed.
