(* ===== verification/Page.v ===== *)
(** * The script of the monitor page (the template of system_monitor.go)

    The page [systemMonitorHandler] serves asks /api/system-metrics every two
    seconds and shows the answer: [updateMetrics] writes the elements of the page
    and the series of the chart. The state is what the script writes; a
    TypeError is a panic, which [fetchMetrics] catches. Answers are taken in the
    order they arrive, each handled to its end before the next. *)

From Stdlib Require Import ZArith Lia Floats.SpecFloat Ascii String List.
From stdpp Require Import base list strings gmap.
From S2P Require Import Prelude Logic GoStrings Json Monitor Fmt Binary64 Js.

(** ** The page *)

(** The elements with an identifier, and the text each starts with. *)
Definition page_elements : list (string * string) :=
  [("timestamp", ""); ("cpu-usage", "0%"); ("cpu-progress", ""); ("cpu-cores", "0"); ("cpu-model", "-");
   ("cpu-load", "-"); ("memory-usage", "0%"); ("memory-progress", ""); ("memory-total", "0 GB");
   ("memory-used", "0 GB"); ("memory-free", "0 GB"); ("swap-usage", "0%"); ("swap-progress", "");
   ("swap-total", "0 GB"); ("swap-used", "0 GB"); ("hostname", "-"); ("os", "-"); ("uptime", "-");
   ("process-count", "0"); ("usageChart", ""); ("processes-table", ""); ("processes-tbody", "")].

(** The texts, classes and widths the script assigned, the rows of the process
    table, the series, what the chart was last drawn with, and the console. *)
Record Page := mkPage {
  pg_text : gmap string string;
  pg_class : gmap string string;
  pg_width : gmap string string;
  pg_rows : list string;
  timeLabels : list string;
  cpuData : list js;
  memoryData : list js;
  pg_drawn : list string * list js * list js;
  pg_console : list string
}.

Definition new_page : Page :=
  mkPage (list_to_map page_elements) ∅ ∅ [] [] [] [] ([], [], []) [].

Definition with_text f p := mkPage (f (pg_text p)) (pg_class p) (pg_width p) (pg_rows p) (timeLabels p)
  (cpuData p) (memoryData p) (pg_drawn p) (pg_console p).
Definition with_class f p := mkPage (pg_text p) (f (pg_class p)) (pg_width p) (pg_rows p) (timeLabels p)
  (cpuData p) (memoryData p) (pg_drawn p) (pg_console p).
Definition with_width f p := mkPage (pg_text p) (pg_class p) (f (pg_width p)) (pg_rows p) (timeLabels p)
  (cpuData p) (memoryData p) (pg_drawn p) (pg_console p).
Definition with_rows f p := mkPage (pg_text p) (pg_class p) (pg_width p) (f (pg_rows p)) (timeLabels p)
  (cpuData p) (memoryData p) (pg_drawn p) (pg_console p).
Definition with_series l c m p := mkPage (pg_text p) (pg_class p) (pg_width p) (pg_rows p) l c m
  (pg_drawn p) (pg_console p).
Definition with_drawn d p := mkPage (pg_text p) (pg_class p) (pg_width p) (pg_rows p) (timeLabels p)
  (cpuData p) (memoryData p) d (pg_console p).
Definition with_console f p := mkPage (pg_text p) (pg_class p) (pg_width p) (pg_rows p) (timeLabels p)
  (cpuData p) (memoryData p) (pg_drawn p) (f (pg_console p)).

(** An assignment through [document.getElementById(id)], null when there is no
    such element. *)
Definition assign (id : string) (f : Page -> Page) : M Page unit :=
  if str_in id (map fst page_elements) then modify f else panic TypeError.

Definition maxDataPoints : nat := 60.

(** Double quotes of the markup. *)
Definition dq : string := String "034" "".

Section Script.
Context `{BrowserLib}.

(** [textContent = v]: null and undefined empty the element. *)
Definition set_text (id : string) (v : js) : M Page unit :=
  assign id (with_text <[id := match v with Undefined | Null => "" | _ => ToString v end]>).
Definition set_class (id name : string) : M Page unit := assign id (with_class <[id := name]>).
Definition set_width (id width : string) : M Page unit := assign id (with_width <[id := width]>).

(** ** Formats *)

Definition sizes : list string := ["B"; "KB"; "MB"; "GB"; "TB"].

(** [sizes[i]]. *)
Definition size_at (i : float64) : js :=
  match List.find (fun j => SFeqb i (f_of_Z (Z.of_nat j))) (seq 0 (length sizes)) with
  | Some j => Str (nth j sizes "")
  | None => Undefined
  end.

Definition formatBytes (bytes : js) : string :=
  match bytes with
  | Number (S754_zero _) => "0 B"
  | _ =>
      let b := ToNumber bytes in
      let i := Math_floor (js_div (Math_log b) (Math_log (f_of_Z 1024))) in
      let hundredths := Math_round (js_mul (js_div b (Math_pow (f_of_Z 1024) i)) (f_of_Z 100)) in
      Number_toString (js_div hundredths (f_of_Z 100)) +:+ " " +:+ ToString (size_at i)
  end.

Definition formatUptime (seconds : js) : string :=
  let s := ToNumber seconds in
  let days := Math_floor (js_div s (f_of_Z 86400)) in
  let hours := Math_floor (js_div (js_rem s (f_of_Z 86400)) (f_of_Z 3600)) in
  let minutes := Math_floor (js_div (js_rem s (f_of_Z 3600)) (f_of_Z 60)) in
  Number_toString days +:+ "d " +:+ Number_toString hours +:+ "h " +:+ Number_toString minutes +:+ "m".

Definition getUsageClass (percentage : js) : string :=
  if above percentage 80 then "high-usage"
  else if above percentage 50 then "medium-usage"
  else "low-usage".

(** ** [updateMetrics], panel by panel *)

(** The usage line of a panel, the same three statements in each. *)
Definition show_usage (panel : string) (percent : js) : M Page unit :=
  text ← toFixed 1 percent;
  set_text (panel +:+ "-usage") (Str (text +:+ "%")) ;;
  set_class (panel +:+ "-usage") ("metric-value " +:+ getUsageClass percent) ;;
  set_width (panel +:+ "-progress") (ToString percent +:+ "%").

(** [l.map(l => l.toFixed(2))]. *)
Fixpoint fixed_all (l : list js) : M Page (list string) :=
  match l with
  | [] => mret []
  | v :: rest => t ← toFixed 2 v; ts ← fixed_all rest; mret (t :: ts)
  end.

Definition show_load (load : js) : M Page unit :=
  if truthy load then
    len ← member load "length";
    if SFleb (f_of_Z 3) (ToNumber len) then
      l ← elements load;
      ts ← fixed_all l;
      set_text "cpu-load" (Str (Join ts ", "))
    else mret tt
  else mret tt.

Definition show_cpu (data : js) : M Page unit :=
  cpu ← member data "cpu";
  usage ← member cpu "usage_percent";
  show_usage "cpu" usage ;;
  cores ← member cpu "cores";
  set_text "cpu-cores" cores ;;
  model ← member cpu "model_name";
  set_text "cpu-model" (or_else model (Str "Unknown")) ;;
  load ← member cpu "load_average";
  show_load load.

Definition show_bytes (id : string) (v : js) (k : string) : M Page unit :=
  bytes ← member v k;
  set_text id (Str (formatBytes bytes)).

Definition show_memory (data : js) : M Page unit :=
  memory ← member data "memory";
  used ← member memory "used_percent";
  show_usage "memory" used ;;
  show_bytes "memory-total" memory "total" ;;
  show_bytes "memory-used" memory "used" ;;
  show_bytes "memory-free" memory "free".

Definition show_swap (data : js) : M Page unit :=
  swap ← member data "swap";
  used ← member swap "used_percent";
  show_usage "swap" used ;;
  show_bytes "swap-total" swap "total" ;;
  show_bytes "swap-used" swap "used".

Definition show_system (data : js) : M Page unit :=
  info ← member data "system_info";
  hostname ← member info "hostname";
  set_text "hostname" hostname ;;
  os ← member info "os";
  version ← member info "platform_version";
  set_text "os" (Str (ToString os +:+ " " +:+ ToString version)) ;;
  seconds ← member info "uptime_seconds";
  set_text "uptime" (Str (formatUptime seconds)) ;;
  procs ← member info "procs";
  set_text "process-count" procs.

(** The row of one process; its name and status are put in as markup. *)
Definition cell (text : string) : string := "<td>" +:+ text +:+ "</td>".
Definition usage_cell (percent : js) (text : string) : string :=
  "<td class=" +:+ dq +:+ getUsageClass percent +:+ dq +:+ ">" +:+ text +:+ "%</td>".

Definition row_html (pid name cpu mem rss status : js) (cpu_text mem_text : string) : string :=
  cell (ToString pid) +:+ cell (ToString (or_else name (Str "-"))) +:+
  usage_cell cpu cpu_text +:+ usage_cell mem mem_text +:+
  cell (formatBytes rss) +:+ cell (ToString (or_else status (Str "-"))).

(** The row is in the table before its cells are. *)
Definition show_process (proc : js) : M Page unit :=
  before ← gets pg_rows;
  modify (with_rows (fun rows => rows ++ [""])) ;;
  pid ← member proc "pid";
  name ← member proc "name";
  cpu ← member proc "cpu_percent";
  cpu_text ← toFixed 1 cpu;
  mem ← member proc "memory_percent";
  mem_text ← toFixed 1 mem;
  rss ← member proc "memory_rss";
  status ← member proc "status";
  modify (with_rows (fun _ => before ++ [row_html pid name cpu mem rss status cpu_text mem_text])).

Fixpoint show_each (procs : list js) : M Page unit :=
  match procs with
  | [] => mret tt
  | proc :: rest => show_process proc ;; show_each rest
  end.

Definition show_processes (data : js) : M Page unit :=
  assign "processes-tbody" (with_rows (fun _ => [])) ;;
  v ← member data "processes";
  procs ← elements v;
  show_each procs.

(** The chart is given the series themselves. *)
Definition update_chart (now : Z) (data : js) : M Page unit :=
  cpu ← member data "cpu";
  usage ← member cpu "usage_percent";
  memory ← member data "memory";
  used ← member memory "used_percent";
  modify (fun p => with_series (timeLabels p ++ [toLocaleTimeString now]) (cpuData p ++ [usage])
                     (memoryData p ++ [used]) p) ;;
  modify (fun p => if (maxDataPoints <? length (timeLabels p))%nat
                   then with_series (tail (timeLabels p)) (tail (cpuData p)) (tail (memoryData p)) p
                   else p) ;;
  modify (fun p => with_drawn (timeLabels p, cpuData p, memoryData p) p).

Definition updateMetrics (now : Z) (data : js) : M Page unit :=
  timestamp ← member data "timestamp";
  set_text "timestamp" (Str ("Last updated: " +:+ toLocaleString timestamp)) ;;
  show_cpu data ;;
  show_memory data ;;
  show_swap data ;;
  show_system data ;;
  show_processes data ;;
  update_chart now data.

(** One request of the page: no answer, or a body that is not JSON, throws
    before anything is shown. *)
Definition fetchMetrics (now : Z) (answer : result string json) : M Page unit := fun p =>
  match answer with
  | Err why => (Ret tt, with_console (fun l => l ++ [why]) p)
  | Ok doc =>
      match updateMetrics now (parsed doc) p with
      | (Ret _, p') => (Ret tt, p')
      | (Panic why, p') => (Ret tt, with_console (fun l => l ++ [why]) p')
      end
  end.

(** The first request and those of [setInterval], with the time of each answer. *)
Fixpoint fetch_all (answers : list (Z * result string json)) : M Page unit :=
  match answers with
  | [] => mret tt
  | (now, answer) :: rest => fetchMetrics now answer ;; fetch_all rest
  end.
End Script.

(** ** What a report shows as *)

Section Shown.
Context `{BrowserSpec}.

Lemma formatBytes_undefined : formatBytes Undefined = "NaN undefined".
Proof.
  unfold formatBytes. simpl ToNumber. rewrite Math_log_nan. cbv zeta.
  replace (Math_floor _) with S754_nan by reflexivity. rewrite Math_pow_nan. reflexivity.
Qed.

(** What the script is given of a report. *)
Definition received (rep : SystemMetrics) : js := parsed (metrics_json rep).

(** The parts of the state the panels leave alone. *)
Definition chart_of (p : Page) := (timeLabels p, cpuData p, memoryData p, pg_drawn p, pg_console p).

Lemma parsed_floats l : parsed (slice (map JFloat l)) = match l with [] => Null | _ => Arr (map Number l) end.
Proof. destruct l as [|x l]; [done|]. simpl. f_equal. f_equal. rewrite map_map. done. Qed.

Lemma fixed_all_run (l : list float64) p : fixed_all (map Number l) p = (Ret (map (Number_toFixed 2) l), p).
Proof. induction l as [|x l IH]; [done|]. cbn [map fixed_all]. unfold mbind, M_bind. simpl. by rewrite IH. Qed.

(** The load line is written or left. *)
Lemma show_load_run (l : list float64) p :
  exists f, show_load (parsed (slice (map JFloat l))) p = (Ret tt, with_text f p) /\
    (forall m k, k <> "cpu-load" -> f m !! k = m !! k).
Proof.
  rewrite parsed_floats. destruct l as [|x l]; [exists id; by destruct p|].
  generalize (x :: l). clear x l. intros l. unfold show_load. cbn [truthy].
  rewrite (bind_Ret _ _ p (Number (f_of_Z (Z.of_nat (length (map Number l)))))  p) by done.
  destruct (SFleb _ _); [|exists id; by destruct p].
  rewrite (bind_Ret _ _ p (map Number l) p), (bind_Ret _ _ p (map (Number_toFixed 2) l) p) by (done || apply fixed_all_run).
  eexists. split; [reflexivity|]. intros m k Hk. by rewrite lookup_insert_ne.
Qed.

(** The texts a report leaves: of the byte counts and of the number of
    processes the script asks for names the report does not have. *)
Definition report_texts (rep : SystemMetrics) (m : gmap string string) : Prop :=
  Forall (fun id => m !! id = Some "NaN undefined")
    ["memory-total"; "memory-used"; "memory-free"; "swap-total"; "swap-used"] /\
  m !! "process-count" = Some "" /\
  Forall (fun kv => m !! kv.1 = Some (Number_toFixed 1 kv.2 +:+ "%"))
    [("cpu-usage", cpu_UsagePercent (sm_CPU rep)); ("memory-usage", vm_UsedPercent (sm_Memory rep));
     ("swap-usage", sw_UsedPercent (sm_Swap rep))] /\
  m !! "uptime" = Some (formatUptime (Number (f_of_Z (hi_Uptime (sm_SystemInfo rep))))).

#[local] Opaque formatBytes formatUptime getUsageClass Number_toFixed Number_toString f_of_Z.

Lemma show_cpu_run rep p :
  exists p', show_cpu (received rep) p = (Ret tt, p') /\ chart_of p' = chart_of p /\
    pg_text p' !! "cpu-usage" = Some (Number_toFixed 1 (cpu_UsagePercent (sm_CPU rep)) +:+ "%").
Proof.
  unfold show_cpu, received. do 7 (erewrite bind_Ret by reflexivity).
  match goal with |- exists _, _ ?q = _ /\ _ =>
    destruct (show_load_run (cpu_LoadAverage (sm_CPU rep)) q) as (f & Hf & Hk) end.
  eexists. split; [exact Hf|]. split; [reflexivity|].
  etrans; [by apply Hk|]. cbn -[insert]. by rewrite !lookup_insert_ne, lookup_insert_eq by done.
Qed.

Ltac settle :=
  cbn -[insert]; rewrite ?lookup_insert_ne by done; first [apply lookup_insert_eq | done].

Lemma panels_run now rep p :
  exists p', updateMetrics now (received rep) p =
      (show_processes (received rep) ;; update_chart now (received rep)) p' /\
    chart_of p' = chart_of p /\ report_texts rep (pg_text p').
Proof.
  unfold updateMetrics.
  do 2 (erewrite bind_Ret by reflexivity).
  match goal with |- exists _, _ ?q = _ /\ _ => destruct (show_cpu_run rep q) as (p2 & E & Hc & Ht) end.
  rewrite (bind_Ret _ _ _ _ _ E). clear E. do 3 (erewrite bind_Ret by reflexivity).
  eexists. split; [reflexivity|]. split; [exact Hc|]. unfold report_texts.
  split_and!; [|settle| |settle]; repeat (apply Forall_cons; split); try apply Forall_nil; rewrite <- ?formatBytes_undefined; settle.
Qed.

(** ** The process table and the chart *)

Lemma show_each_run (ps : list ProcessInfo) p :
  exists p', show_each (map (fun i => parsed (process_json i)) ps) p = (Ret tt, p') /\
    chart_of p' = chart_of p /\ pg_text p' = pg_text p /\
    length (pg_rows p') = (length (pg_rows p) + length ps)%nat.
Proof.
  revert p. induction ps as [|i ps IH]; intros p; [exists p; split_and!; [done..|simpl; lia]|].
  cbn [map show_each]. erewrite bind_Ret by reflexivity.
  match goal with |- exists _, _ ?q = _ /\ _ => destruct (IH q) as (p' & E & Hc & Ht & Hr) end.
  exists p'. rewrite Hc, Ht, Hr. split_and!; [exact E|done|done|]. simpl. rewrite length_app. simpl. lia.
Qed.

Lemma received_processes rep p :
  member (S := Page) (received rep) "processes" p = (Ret (match sm_Processes rep with [] => Null
    | ps => Arr (map (fun i => parsed (process_json i)) ps) end), p).
Proof.
  unfold received, metrics_json. destruct (sm_Processes rep); [reflexivity|]. cbn. by rewrite map_map.
Qed.

(** What a completed update does to the series. *)
Definition plot (now : Z) (rep : SystemMetrics) (p : Page) : Page :=
  let l := timeLabels p ++ [toLocaleTimeString now] in
  let c := cpuData p ++ [Number (cpu_UsagePercent (sm_CPU rep))] in
  let m := memoryData p ++ [Number (vm_UsedPercent (sm_Memory rep))] in
  let long := (maxDataPoints <? length l)%nat in
  let l' := if long then tail l else l in
  let c' := if long then tail c else c in
  let m' := if long then tail m else m in
  with_drawn (l', c', m') (with_series l' c' m' p).

Lemma update_chart_run now rep p : update_chart now (received rep) p = (Ret tt, plot now rep p).
Proof.
  unfold update_chart, received. do 4 (erewrite bind_Ret by reflexivity).
  unfold mbind, M_bind, modify, plot. simpl. by destruct (_ <? _)%nat.
Qed.

(** An update of a page with a report. *)
Lemma updateMetrics_run now rep p :
  exists p1, chart_of p1 = chart_of p /\ report_texts rep (pg_text p1) /\
    length (pg_rows p1) = length (sm_Processes rep) /\
    updateMetrics now (received rep) p =
      match sm_Processes rep with [] => (Panic TypeError, p1) | _ => (Ret tt, plot now rep p1) end.
Proof.
  destruct (panels_run now rep p) as (p' & -> & Hc & Ht). unfold show_processes.
  destruct (sm_Processes rep) as [|i ps] eqn:Eps.
  - exists (with_rows (fun _ => []) p'). split_and!; [done|done|done|]. apply bind_Panic.
    erewrite bind_Ret by reflexivity. rewrite (bind_Ret _ _ _ _ _ (received_processes rep _)). by rewrite Eps.
  - destruct (show_each_run (i :: ps) (with_rows (fun _ => []) p')) as (p1 & E & Hc1 & Ht1 & Hr1).
    exists p1. rewrite Hc1, Ht1, Hr1. split_and!; [done|done|done|].
    rewrite (bind_Ret _ _ p' tt p1); [apply update_chart_run|].
    erewrite bind_Ret by reflexivity. rewrite (bind_Ret _ _ _ _ _ (received_processes rep _)). by rewrite Eps.
Qed.

(** C38: A report that reaches the page shows the usage shares and the uptime,
    but for the three sizes of memory and the two of swap the text "NaN
    undefined" and for the number of processes nothing, since the script reads
    members the report does not have. The table has a row per process. When the
    process list is empty (null in the report) the update stops there with a
    TypeError, and the chart is not touched. *)
Theorem monitor_page_shows now rep p :
  let p' := (fetchMetrics now (Ok (metrics_json rep)) p).2 in
  report_texts rep (pg_text p') /\ length (pg_rows p') = length (sm_Processes rep) /\
  (if decide (sm_Processes rep = [])
   then pg_console p' = pg_console p ++ [TypeError] /\ pg_drawn p' = pg_drawn p /\ timeLabels p' = timeLabels p
   else pg_console p' = pg_console p /\ pg_drawn p' = (timeLabels p', cpuData p', memoryData p') /\
        exists l, timeLabels p' = l ++ [toLocaleTimeString now]).
Proof.
  destruct (updateMetrics_run now rep p) as (p1 & Hc & Ht & Hr & E). unfold fetchMetrics, received in *.
  rewrite E. injection Hc as E1 E2 E3 E4 E5.
  destruct (sm_Processes rep) as [|i ps]; (rewrite decide_True by done) || (rewrite decide_False by done); simpl.
  - by rewrite E1, E4, E5.
  - split_and!; [done|done|by rewrite E5|done|]. rewrite E1.
    destruct (_ <? _)%nat eqn:El; [|by eexists]. destruct (timeLabels p) as [|a l]; [done|by exists l].
Qed.

(** ** The series *)

(** The answers with a report that has processes, which is what is plotted. *)
Definition plotted (answers : list (Z * option SystemMetrics)) : list (Z * SystemMetrics) :=
  omap (fun a => match a.2 with
                 | Some rep => if decide (sm_Processes rep = []) then None else Some (a.1, rep)
                 | None => None
                 end) answers.

Definition answer_of (o : option SystemMetrics) : result string json :=
  match o with Some rep => Ok (metrics_json rep) | None => Err "Error fetching metrics" end.

(** The last [n] elements. *)
Definition lastn {A} (n : nat) (l : list A) : list A := drop (length l - n) l.

Lemma lastn_snoc {A} n (l : list A) x :
  (0 < n)%nat ->
  lastn n (l ++ [x]) =
    (if (n <? length (lastn n l ++ [x]))%nat then tail (lastn n l ++ [x]) else lastn n l ++ [x]).
Proof.
  intros Hn. unfold lastn. rewrite !length_app, length_drop. simpl.
  destruct (Nat.ltb_spec n (length l - (length l - n) + 1)) as [Hl|Hl].
  - replace (length l + 1 - n)%nat with (S (length l - n)) by lia.
    rewrite drop_app_le by lia.
    replace (drop (S (length l - n)) l) with (drop 1 (drop (length l - n) l)) by (rewrite drop_drop; f_equal; lia).
    destruct (drop (length l - n) l) eqn:E; [|done].
    apply (f_equal length) in E. rewrite length_drop in E. simpl in E. lia.
  - rewrite drop_app_le by lia. by replace (length l + 1 - n)%nat with (length l - n)%nat by lia.
Qed.

(** The series are the sliding window over what was plotted. *)
Definition windowed (past : list (Z * SystemMetrics)) (p : Page) : Prop :=
  timeLabels p = lastn maxDataPoints (map (fun a => toLocaleTimeString a.1) past) /\
  cpuData p = lastn maxDataPoints (map (fun a => Number (cpu_UsagePercent (sm_CPU a.2))) past) /\
  memoryData p = lastn maxDataPoints (map (fun a => Number (vm_UsedPercent (sm_Memory a.2))) past) /\
  pg_drawn p = (timeLabels p, cpuData p, memoryData p).

Lemma lastn_map_length {A B C} (f : A -> B) (g : A -> C) n l : length (lastn n (map f l)) = length (lastn n (map g l)).
Proof. unfold lastn. by rewrite !length_drop, !length_map. Qed.

Lemma plot_windowed now rep past p : windowed past p -> windowed (past ++ [(now, rep)]) (plot now rep p).
Proof.
  intros (Hl & Hc & Hm & Hd). unfold windowed. rewrite !map_app. cbn [map].
  rewrite !lastn_snoc by (unfold maxDataPoints; lia). unfold plot. cbn. rewrite Hl, Hc, Hm.
  rewrite !length_app. rewrite (lastn_map_length (fun a : Z * SystemMetrics => Number (cpu_UsagePercent (sm_CPU a.2))) (fun a => toLocaleTimeString a.1)).
  rewrite (lastn_map_length (fun a : Z * SystemMetrics => Number (vm_UsedPercent (sm_Memory a.2))) (fun a => toLocaleTimeString a.1)).
  done.
Qed.

Lemma fetch_windowed now o past p :
  windowed past p -> windowed (past ++ plotted [(now, o)]) (fetchMetrics now (answer_of o) p).2.
Proof.
  intros Hw. destruct o as [rep|]; [|simpl; by rewrite app_nil_r]. cbn [answer_of]. unfold fetchMetrics.
  destruct (updateMetrics_run now rep p) as (p1 & Hc & _ & _ & E). unfold received in E. rewrite E.
  assert (windowed past p1) as Hw1
    by (injection Hc as E1 E2 E3 E4 _; unfold windowed; by rewrite E1, E2, E3, E4).
  unfold plotted. cbn [omap list_omap fst snd]. destruct (sm_Processes rep);
    [rewrite decide_True by done; by rewrite app_nil_r|rewrite decide_False by done]. by apply plot_windowed.
Qed.

(** C39: Whatever answers arrive, and in whatever order reports, failed requests
    and reports without processes come, the three series of the chart are the
    last sixty of the reports plotted, aligned with one another, and the chart
    is drawn with them. *)
Theorem page_series_window (answers : list (Z * option SystemMetrics)) :
  let p := (fetch_all (map (fun a => (a.1, answer_of a.2)) answers) new_page).2 in
  windowed (plotted answers) p /\
  length (timeLabels p) = Nat.min maxDataPoints (length (plotted answers)) /\
  length (cpuData p) = length (timeLabels p) /\ length (memoryData p) = length (timeLabels p).
Proof.
  assert (forall past p, windowed past p ->
    windowed (past ++ plotted answers) (fetch_all (map (fun a => (a.1, answer_of a.2)) answers) p).2) as Hall.
  { induction answers as [|[now o] rest IH]; intros past p Hw; [by rewrite app_nil_r|].
    cbn [map fetch_all fst snd]. pose proof (fetch_windowed now o past p Hw) as H1.
    assert (exists p', fetchMetrics now (answer_of o) p = (Ret tt, p')) as [p' E].
    { unfold fetchMetrics. destruct (answer_of o); [|by eexists]. destruct (updateMetrics _ _ _) as [[]]; by eexists. }
    rewrite (bind_Ret _ _ _ _ _ E). rewrite E in H1. apply IH in H1.
    change ((now, o) :: rest) with ([(now, o)] ++ rest). unfold plotted in *. by rewrite omap_app, app_assoc. }
  specialize (Hall [] new_page). destruct Hall as (Hl & Hc & Hm & Hd); [done|]. simpl app in *.
  cbv zeta. split; [done|]. rewrite Hl, Hc, Hm. unfold lastn. rewrite !length_drop, !length_map. lia.
Qed.
End Shown.

#[local] Transparent formatBytes formatUptime getUsageClass Number_toFixed Number_toString f_of_Z.

(** ** A browser *)

(** Logarithms to base two, rounded down, and powers of whole numbers: enough
    for the unit of a size. *)
Definition demo_browser : BrowserLib := {|
  Math_log x := match x with
                | S754_finite false m e => f_of_Z (Z.log2 (Z.pos m) + e)
                | _ => S754_nan
                end;
  Math_pow x y := match x, y with
                  | S754_finite false m e, S754_finite false m' e' =>
                      f_of_Z ((Z.pos m / 2 ^ (- e)) ^ (Z.pos m' / 2 ^ (- e')))
                  | _, S754_zero _ => f_of_Z 1
                  | _, _ => S754_nan
                  end;
  toLocaleString _ := "today"; toLocaleTimeString t := Itoa t;
  object_number _ := S754_nan; object_text _ := "[object Object]"; time_text t := Itoa t
|}.

Lemma demo_browser_spec : @BrowserSpec demo_browser.
Proof. constructor; [done|]. by intros [?|?| |[]]. Qed.

Example demo_formats :
  map (formatBytes (H := demo_browser)) [Number (f_of_Z 0); Number (f_of_Z 1536); Number (f_of_Z 16000000000); Undefined] =
    ["0 B"; "1.5 KB"; "14.9 GB"; "NaN undefined"] /\
  formatUptime (H := demo_browser) (Number (f_of_Z 93784)) = "1d 2h 3m" /\
  map (getUsageClass (H := demo_browser)) [Number (f_of_Z 80); Number (f_of_Z 81); Number (f_of_Z 50); Undefined] =
    ["medium-usage"; "high-usage"; "low-usage"; "low-usage"].
Proof. split_and!; vm_compute; reflexivity. Qed.

(** The report of [demo_readings], and one of a host whose process list could
    not be read. *)
Definition demo_metrics (ps : list ProcessInfo) : SystemMetrics :=
  mkSystemMetrics 7 (mkCPU (f_of_Z 81) 4 "" f_zero [] []) (mkMemInfo 1024 0 512 (f_of_Z 50) 512 0 0) zero_swap zero_gpu ps
    (mkHostInfo "host" "linux" "debian" "12" 93784 0 2).
Definition demo_listed : SystemMetrics := demo_metrics [mkProcessInfo 9 "make" (f_of_Z 80) f_zero 1536 "S" 0 "" 0].

Lemma monitor_page_shows_witness :
  let show p rep := (fetchMetrics (H := demo_browser) 7 (Ok (metrics_json rep)) p).2 in
  pg_text (show new_page demo_listed) !! "memory-total" = Some "NaN undefined" /\
  pg_drawn (show new_page demo_listed) = (["7"], [Number (f_of_Z 81)], [Number (f_of_Z 50)]) /\
  pg_console (show new_page (demo_metrics [])) = [TypeError].
Proof.
  cbv zeta. destruct (@monitor_page_shows demo_browser demo_browser_spec 7 demo_listed new_page) as ((Hm & _) & _).
  destruct (@monitor_page_shows demo_browser demo_browser_spec 7 (demo_metrics []) new_page) as (_ & _ & Hc & _).
  split_and!; [exact (Forall_inv Hm)|vm_compute; reflexivity|exact Hc].
Defined.

Lemma page_series_window_witness :
  let answers := [(1, Some demo_listed); (2, None); (3, Some (demo_metrics [])); (4, Some demo_listed)] in
  let p := (fetch_all (H := demo_browser) (map (fun a => (a.1, answer_of a.2)) answers) new_page).2 in
  timeLabels p = ["1"; "4"] /\ length (timeLabels p) = 2%nat /\ length (cpuData p) = 2%nat.
Proof.
  cbv zeta.
  destruct (@page_series_window demo_browser demo_browser_spec
    [(1, Some demo_listed); (2, None); (3, Some (demo_metrics [])); (4, Some demo_listed)]) as ((Ht & _) & Hl & Hc & _).
  split_and!; [exact Ht|exact Hl|]. rewrite Hc. exact Hl.
Defined.
