(* ===== verification/Logger.v ===== *)
(** * The logger (logger.go)

    Levels, colours, the line one call writes, the request logger and the
    banner. The writer is the list of the writes made to it; the text of the
    time stamp is an argument. *)

From Stdlib Require Import ZArith Lia Ascii String List.
From stdpp Require Import base list strings.
From S2P Require Import Prelude GoStrings Urls Http Fmt Terminal.

(** ** Levels *)

Definition LevelDebug : Z := 0.
Definition LevelInfo : Z := 1.
Definition LevelWarn : Z := 2.
Definition LevelError : Z := 3.

Definition LogLevel_String (l : Z) : string :=
  if l =? LevelDebug then "DEBUG" else if l =? LevelInfo then "INFO"
  else if l =? LevelWarn then "WARN" else if l =? LevelError then "ERROR" else "?".

Definition parseLogLevel `{UnicodeTables} (s : string) : Z :=
  let u := ToUpper (TrimSpace s) in
  if String.eqb u "DEBUG" then LevelDebug
  else if String.eqb u "INFO" || String.eqb u "" then LevelInfo
  else if String.eqb u "WARN" || String.eqb u "WARNING" then LevelWarn
  else if String.eqb u "ERROR" then LevelError
  else LevelInfo.

(** ** Loggers *)

Record Logger := mkLogger { l_level : Z; l_useColor : bool; l_component : string }.

Definition useColorEnv `{UnicodeTables} (Getenv : string -> string) (GOOS : string) : bool :=
  if negb (String.eqb (Getenv "NO_COLOR") "") then false
  else if negb (String.eqb (Getenv "FORCE_COLOR") "") then true
  else if String.eqb GOOS "windows" then
    let term := ToLower (Getenv "TERM") in
    let colorTerm := Getenv "COLORTERM" in
    Contains term "color" || Contains term "256" || String.eqb colorTerm "truecolor" ||
    String.eqb colorTerm "24bit" || negb (String.eqb colorTerm "")
  else true.

Definition defaultLogger `{UnicodeTables} (Getenv : string -> string) (GOOS : string) : Logger :=
  mkLogger (parseLogLevel (Getenv "LOG_LEVEL")) (useColorEnv Getenv GOOS) "".

Definition WithComponent (component : string) (l : Logger) : Logger :=
  mkLogger (l_level l) (l_useColor l) component.

(** ** A line *)

Definition ansiReset : string := csi "0m".
Definition ansiDim : string := csi "2m".
Definition ansiBold : string := csi "1m".
Definition ansiCyan : string := csi "36m".
Definition ansiGreen : string := csi "32m".
Definition ansiYellow : string := csi "33m".
Definition ansiRed : string := csi "31m".
Definition ansiBlue : string := csi "34m".
Definition ansiGray : string := csi "90m".

(** The values passed as [interface{}], and [fmt.Sprint] of one. *)
Inductive any : Type :=
| AString (s : string)
| AInt (n : Z)
| ABool (b : bool)
| ADuration (d : Z)
| AError (text : string).

Definition Sprint (v : any) : string :=
  match v with
  | AString s => s
  | AInt n => Itoa n
  | ABool b => if b then "true" else "false"
  | ADuration d => Duration_String d
  | AError text => text
  end.

Definition level_color (level : Z) : string :=
  if level =? LevelDebug then ansiCyan else if level =? LevelInfo then ansiGreen
  else if level =? LevelWarn then ansiYellow else if level =? LevelError then ansiRed else "".

Section Line.
Context (useColor : bool).

(** What is written only with colours. *)
Definition paint (s : string) : string := if useColor then s else "".

(** The pairs, and a last key without a value. *)
Fixpoint pairs_text (kvs : list any) : string :=
  match kvs with
  | k :: v :: rest =>
      " " +:+ paint ansiDim +:+ Sprint k +:+ "=" +:+ paint ansiReset +:+ Sprint v +:+ pairs_text rest
  | [x] => " " +:+ Sprint x
  | [] => ""
  end.

(** From the request id on. *)
Definition line_tail (requestID msg : string) (kvs : list any) : string :=
  (if String.eqb requestID "" then ""
   else paint ansiDim +:+ " req=" +:+ requestID +:+ paint ansiReset) +:+
  " " +:+ msg +:+ pairs_text kvs +:+ newline.

Definition line (component ts : string) (level : Z) (requestID msg : string) (kvs : list any) : string :=
  let comp := if String.eqb component "" then "gateway" else component in
  paint ansiGray +:+ "[" +:+ ts +:+ "]" +:+
  paint (ansiReset +:+ " " +:+ level_color level) +:+
  pad_right 5 (LogLevel_String level) +:+
  paint (ansiReset +:+ " " +:+ ansiBlue) +:+
  "[" +:+ comp +:+ "]" +:+ paint ansiReset +:+
  line_tail requestID msg kvs.
End Line.

(** [l.log]: one write, or none below the level of the logger. *)
Definition log (l : Logger) (ts : string) (level : Z) (requestID msg : string) (kvs : list any)
    (out : list string) : list string :=
  if level <? l_level l then out
  else out ++ [line (l_useColor l) (l_component l) ts level requestID msg kvs].

Definition Log := log.
Definition Debug_ (l : Logger) (ts msg : string) (kvs : list any) := log l ts LevelDebug "" msg kvs.
Definition Info_ (l : Logger) (ts msg : string) (kvs : list any) := log l ts LevelInfo "" msg kvs.
Definition Warn_ (l : Logger) (ts msg : string) (kvs : list any) := log l ts LevelWarn "" msg kvs.
Definition Error_ (l : Logger) (ts msg : string) (kvs : list any) := log l ts LevelError "" msg kvs.

(** ** Request loggers *)

Record requestLogger := mkRequestLogger { rl_Logger : Logger; rl_requestID : string }.

Definition WithRequestID (requestID : string) (l : Logger) : requestLogger := mkRequestLogger l requestID.

Definition request_log (r : requestLogger) (ts : string) (level : Z) (msg : string) (kvs : list any) :=
  Log (rl_Logger r) ts level (rl_requestID r) msg kvs.

Definition request_Debug (r : requestLogger) (ts msg : string) (kvs : list any) := request_log r ts LevelDebug msg kvs.
Definition request_Info (r : requestLogger) (ts msg : string) (kvs : list any) := request_log r ts LevelInfo msg kvs.
Definition request_Warn (r : requestLogger) (ts msg : string) (kvs : list any) := request_log r ts LevelWarn msg kvs.
Definition request_Error (r : requestLogger) (ts msg : string) (kvs : list any) := request_log r ts LevelError msg kvs.

(** The package-level helpers, on the default logger. *)
Definition logGateway (d : Logger) : Logger := WithComponent "gateway" d.
Definition logCache (d : Logger) : Logger := WithComponent "cache" d.
Definition logRouter (d : Logger) : Logger := WithComponent "router" d.
Definition logAuth (d : Logger) : Logger := WithComponent "auth" d.
Definition logCircuit (d : Logger) : Logger := WithComponent "circuit" d.
Definition logDDoS (d : Logger) : Logger := WithComponent "ddos" d.
Definition logConfig (d : Logger) : Logger := WithComponent "config" d.
Definition logAdmin (d : Logger) : Logger := WithComponent "admin" d.
Definition logHealth (d : Logger) : Logger := WithComponent "health" d.
Definition logTracer (d : Logger) : Logger := WithComponent "tracer" d.
Definition logProxy (d : Logger) : Logger := WithComponent "proxy" d.

(** ** The banner *)

Definition separator : string := repeat_nat "-" 60.

Definition PrintBanner (l : Logger) (lines : list string) (out : list string) : list string :=
  let c := paint (l_useColor l) in
  out ++ [newline +:+ c ansiCyan +:+ separator +:+ c ansiReset +:+ newline] ++
  imap (fun i text =>
    "  " +:+ c (match i with O => ansiBold | _ => ansiDim end) +:+ text +:+ c ansiReset +:+ newline) lines ++
  [c ansiCyan +:+ separator +:+ c ansiReset +:+ newline +:+ newline].

(** ** Lines *)

Fixpoint newlines (s : string) : nat :=
  match s with
  | EmptyString => O
  | String c s' => ((if Ascii.eqb c "010" then 1 else 0) + newlines s')%nat
  end.

Lemma newlines_app a b : newlines (a +:+ b) = (newlines a + newlines b)%nat.
Proof. induction a as [|c a IH]; simpl; [done|]. rewrite IH. lia. Qed.

Lemma newlines_repeat s n : newlines s = O -> newlines (repeat_nat s n) = O.
Proof. intros Hs. induction n as [|n IH]; [done|]. simpl. by rewrite newlines_app, Hs, IH. Qed.

Lemma newlines_paint uc s : newlines s = O -> newlines (paint uc s) = O.
Proof. by destruct uc. Qed.

Lemma newlines_level_color level : newlines (level_color level) = O.
Proof. unfold level_color. by repeat case_if. Qed.

Lemma level_names level : In (LogLevel_String level) ["DEBUG"; "INFO"; "WARN"; "ERROR"; "?"].
Proof. unfold LogLevel_String. repeat case_if; simpl; auto 6. Qed.

Lemma newlines_level level : newlines (pad_right 5 (LogLevel_String level)) = O.
Proof. by destruct (level_names level) as [<-|[<-|[<-|[<-|[<-|[]]]]]]. Qed.

Lemma newlines_pairs uc kvs :
  newlines (pairs_text uc kvs) = list_sum (map (fun v => newlines (Sprint v)) kvs).
Proof.
  remember (length kvs) as n eqn:En. assert (length kvs <= n)%nat as Hn by lia. clear En. revert kvs Hn.
  induction n as [|n IH]; intros [|k [|v rest]] Hn; cbn [length] in Hn; try lia; [done..| |].
  - cbn [pairs_text map list_sum foldr]. rewrite newlines_app. simpl. lia.
  - cbn [pairs_text map]. rewrite !newlines_app, IH, !newlines_paint by (done || lia).
    change (list_sum (?x :: ?l)) with (x + list_sum l)%nat. simpl. lia.
Qed.

(** A call below the logger's level writes nothing, and any other makes one
    write, a text ended by a newline. The text has exactly the newlines of its
    time stamp, component, request id, message and values: nothing is escaped,
    so that a value with a newline in it, such as a request path with [%0A],
    starts a log line of the client's making. *)
Theorem log_writes_lines (l : Logger) (ts : string) (level : Z) (requestID msg : string) (kvs : list any)
    (out : list string) :
  let out' := log l ts level requestID msg kvs out in
  (level < l_level l -> out' = out) /\
  (l_level l <= level ->
   exists text, out' = out ++ [text +:+ newline] /\
     newlines text = (newlines ts + newlines (l_component l) + newlines requestID + newlines msg +
                      list_sum (map (fun v => newlines (Sprint v)) kvs))%nat).
Proof.
  unfold log. split; intros Hl.
  - by destruct (level <? l_level l) eqn:E; bool_prop; [|lia].
  - destruct (level <? l_level l) eqn:E; bool_prop; [lia|]. unfold line, line_tail.
    eexists. split; [f_equal; f_equal; rewrite <- !sapp_assoc; reflexivity|].
    rewrite !newlines_app, newlines_level, newlines_pairs, !newlines_paint
      by (rewrite ?newlines_app, ?newlines_level_color; done).
    assert (newlines (if String.eqb (l_component l) "" then "gateway" else l_component l) = newlines (l_component l)) as ->
      by (destruct (String.eqb (l_component l) "") eqn:Ec; bool_prop; [by rewrite Ec|done]).
    destruct (String.eqb requestID "") eqn:Er; bool_prop.
    + subst requestID. simpl. lia.
    + rewrite !newlines_app, !newlines_paint by done. simpl. lia.
Qed.

(** What a client gets into the log with one request. *)
Example forged_line :
  let path := u_Path (default (mkURL "" "" "" "" "") (url_Parse "/x%0A[now]ERROR[gateway]%20disk%20full")) in
  log (mkLogger LevelInfo false "gateway") "now" LevelInfo "" "request rejected" [AString "path"; AString path] []
  = ["[now]INFO [gateway] request rejected path=/x" +:+ newline +:+ "[now]ERROR[gateway] disk full" +:+ newline].
Proof. vm_compute. reflexivity. Qed.

(** ** Colours *)

Lemma plain_paint_reset a b : plain a = true ->
  stripANSI (paint true ansiDim +:+ a +:+ paint true ansiReset +:+ b) = a +:+ stripANSI b.
Proof.
  intros Ha. cbn [paint]. rewrite stripANSI_app, stripANSI_app by eauto with term.
  rewrite stripANSI_app by done. by rewrite (stripANSI_plain a Ha).
Qed.

Lemma stripANSI_cons a b : plain a = true -> stripANSI (a +:+ b) = a +:+ stripANSI b.
Proof. intros Ha. by rewrite stripANSI_app, stripANSI_plain by eauto with term. Qed.

(** The colours of the pairs vanish. *)
Lemma strip_pairs kvs s :
  forallb (fun v => plain (Sprint v)) kvs = true ->
  stripANSI (pairs_text true kvs +:+ s) = pairs_text false kvs +:+ stripANSI s.
Proof.
  remember (length kvs) as n eqn:En. assert (length kvs <= n)%nat as Hn by lia. clear En. revert kvs Hn.
  induction n as [|n IH]; intros [|k [|v rest]] Hn Hp; cbn [length] in Hn; try lia; [done..| |].
  - cbn [forallb] in Hp. apply andb_prop in Hp as [Hk _]. cbn [pairs_text].
    rewrite sapp_assoc, stripANSI_cons by done. by rewrite stripANSI_cons, sapp_assoc.
  - cbn [forallb] in Hp. apply andb_prop in Hp as [Hk [Hv Hp]%andb_prop].
    cbn [pairs_text]. rewrite !sapp_assoc, stripANSI_cons by done. f_equal.
    change (paint true ansiDim +:+ Sprint k +:+ "=" +:+ paint true ansiReset +:+ ?r)
      with (paint true ansiDim +:+ Sprint k +:+ "=" +:+ paint true ansiReset +:+ r).
    rewrite <- (sapp_assoc (Sprint k) "="), plain_paint_reset by eauto with term.
    rewrite stripANSI_cons, IH by (done || lia). cbn [paint]. by rewrite !sapp_assoc.
Qed.

(** The colours only decorate, but for two spaces: a coloured line without
    its escape sequences is the plain line with a space before and a space after
    the level. The format the comment announces, [[timestamp] LEVEL
    [component]], is thus written only with colours; without them the three run
    together. *)
Theorem colours_only_decorate (component ts : string) (level : Z) (requestID msg : string) (kvs : list any) :
  plain ts = true -> plain component = true -> plain requestID = true -> plain msg = true ->
  forallb (fun v => plain (Sprint v)) kvs = true ->
  let comp := if String.eqb component "" then "gateway" else component in
  let lvl := pad_right 5 (LogLevel_String level) in
  let tail := line_tail false requestID msg kvs in
  stripANSI (line true component ts level requestID msg kvs)
    = "[" +:+ ts +:+ "] " +:+ lvl +:+ " [" +:+ comp +:+ "]" +:+ tail /\
  line false component ts level requestID msg kvs = "[" +:+ ts +:+ "]" +:+ lvl +:+ "[" +:+ comp +:+ "]" +:+ tail.
Proof.
  intros Ht Hc Hr Hm Hk comp lvl tail. split; [|reflexivity].
  assert (plain lvl = true) as Hl by (unfold lvl; destruct (level_names level) as [<-|[<-|[<-|[<-|[<-|[]]]]]]; reflexivity).
  assert (plain comp = true) as Hcomp by (unfold comp; by case_if).
  assert (clean (level_color level) = true) as Hlc by (unfold level_color; by repeat case_if).
  assert (stripANSI (level_color level) = "") as Hls by (unfold level_color; by repeat case_if).
  unfold line. fold comp lvl. cbn [paint].
  rewrite (stripANSI_app ansiGray) by done. rewrite !(stripANSI_cons "["), (stripANSI_cons ts), (stripANSI_cons "]") by done.
  rewrite !sapp_assoc, (stripANSI_app ansiReset), (stripANSI_cons " "), (stripANSI_app (level_color level)) by done.
  rewrite Hls, (stripANSI_cons lvl), (stripANSI_app ansiReset), (stripANSI_cons " "), (stripANSI_app ansiBlue) by done.
  rewrite (stripANSI_cons "["), (stripANSI_cons comp), (stripANSI_cons "]"), (stripANSI_app ansiReset) by done.
  change (stripANSI ansiGray) with "". change (stripANSI ansiReset) with "". change (stripANSI ansiBlue) with "".
  assert (stripANSI (line_tail true requestID msg kvs) = tail) as ->; [|reflexivity].
  unfold tail, line_tail. assert (stripANSI (pairs_text true kvs +:+ newline) = pairs_text false kvs +:+ newline) as Hpairs
    by (by rewrite strip_pairs).
  destruct (String.eqb requestID "").
  - change (stripANSI (" " +:+ msg +:+ pairs_text true kvs +:+ newline) = " " +:+ msg +:+ pairs_text false kvs +:+ newline).
    by rewrite stripANSI_cons, stripANSI_cons, Hpairs.
  - rewrite !sapp_assoc, <- (sapp_assoc " req="), plain_paint_reset by eauto with term.
    rewrite stripANSI_cons, stripANSI_cons, Hpairs by done. cbn [paint]. by rewrite !sapp_assoc.
Qed.

Lemma colours_only_decorate_witness :
  stripANSI (line true "router" "now" LevelInfo "7f" "route registered" [AString "backends"; AInt 2])
    = "[now] INFO  [router] req=7f route registered backends=2" +:+ newline /\
  line false "router" "now" LevelInfo "7f" "route registered" [AString "backends"; AInt 2]
    = "[now]INFO [router] req=7f route registered backends=2" +:+ newline.
Proof.
  apply (colours_only_decorate "router" "now" LevelInfo "7f" "route registered" [AString "backends"; AInt 2]);
    reflexivity.
Defined.

(** ** Levels *)

(** The name of a level, in capitals or in small letters and with blanks
    around it, parses to that level. *)
Theorem parseLogLevel_String `{UnicodeTables} (level : Z) (l name r : string) :
  LevelDebug <= level <= LevelError ->
  name = LogLevel_String level \/ name = smap lower_byte (LogLevel_String level) ->
  sforall space1 l = true -> sforall space1 r = true ->
  parseLogLevel (l +:+ name +:+ r) = level.
Proof.
  unfold LevelDebug, LevelError. intros Hl Hn Hs Hr.
  assert (level = 0 \/ level = 1 \/ level = 2 \/ level = 3) as [-> | [-> | [-> | ->]]] by lia;
    destruct Hn as [-> | ->]; unfold parseLogLevel; rewrite TrimSpace_pad by done; reflexivity.
Qed.

Lemma parseLogLevel_String_witness : @parseLogLevel ascii_tables "  warn " = LevelWarn.
Proof. apply (@parseLogLevel_String ascii_tables LevelWarn "  " "warn" " "); [done|by right|done|done]. Defined.
