(* ===== verification/Tracing.v ===== *)
(** * Tracing and the request log (handlers.go, main.go)

    What the gateway tells the tracer and writes to its request log. Jaeger is
    a parameter: creating a tracer succeeds or fails, and a tracer is the
    sequence of the calls made to it. *)

From Stdlib Require Import ZArith String List.
From stdpp Require Import base list strings.
From S2P Require Import Prelude Fmt Logger.

(** ** The tracer *)

Record SamplerConfig := mkSampler { sampler_Type : string; sampler_Param : Z }.
Record ReporterConfig := mkReporter { reporter_LogSpans : bool; reporter_LocalAgentHostPort : string }.
Record Configuration := mkConfiguration {
  jc_ServiceName : string;
  jc_Sampler : SamplerConfig;
  jc_Reporter : ReporterConfig
}.

(** The constant of the Jaeger client. *)
Definition SamplerTypeConst : string := "const".

(** Calls on the tracer, on the span of a request and on the closer. *)
Inductive tracer_call : Type :=
| StartSpan (operation : string)
| SetTag (key : string) (value : any)
| Finish
| CloseTracer.

(** [initTracer]: the configuration it hands to [NewTracer], and whether there
    is a tracer (then it is also the global one) or an error. *)
Definition initTracer (NewTracer : Configuration -> option string) (serviceName : string)
    : result string unit :=
  let cfg := mkConfiguration serviceName (mkSampler SamplerTypeConst 1) (mkReporter true "localhost:6831") in
  match NewTracer cfg with
  | Some err => Err err
  | None => Ok tt
  end.

(** ** The request log *)

(** One call of the request logger of [ServeHTTP]. *)
Record log_entry := mkLogEntry {
  le_level : Z;
  le_requestID : string;
  le_msg : string;
  le_kvs : list any
}.

(** What [logGateway] makes of an entry. *)
Definition write_entry (d : Logger) (ts : string) (e : log_entry) : list string -> list string :=
  request_log (WithRequestID (le_requestID e) (logGateway d)) ts (le_level e) (le_msg e) (le_kvs e).

(** ** The trace of a run *)

Record Trace := mkTrace { tr_log : list log_entry; tr_calls : list tracer_call }.

Definition no_trace : Trace := mkTrace [] [].

Definition add_entry (e : log_entry) (t : Trace) : Trace := mkTrace (tr_log t ++ [e]) (tr_calls t).
Definition add_calls (l : list tracer_call) (t : Trace) : Trace := mkTrace (tr_log t) (tr_calls t ++ l).

(** [Gateway.Close]. *)
Definition Close (has_closer : bool) (t : Trace) : Trace :=
  if has_closer then add_calls [CloseTracer] t else t.
