(* ===== verification/Collectors.v ===== *)
(** * The metric collectors and their registration (metrics.go, system_monitor.go)

    The descriptors of the collectors, and the functions [init] that register
    them. The registry of the Prometheus client is an interface: what it
    documents is that a collector with valid names is accepted when no collector
    of that name is registered yet, and that [MustRegister] panics otherwise. *)

From Stdlib Require Import ZArith Ascii String List.
From stdpp Require Import base list strings.
From S2P Require Import Prelude GoStrings.

(** ** Descriptors *)

Inductive collector_kind : Type := KCounter | KGauge | KHistogram.

Record Desc := mkDesc {
  de_kind : collector_kind;
  de_name : string;
  de_help : string;
  de_labels : list string
}.

Definition requestsTotal : Desc :=
  mkDesc KCounter "http_requests_total" "Total number of HTTP requests" ["method"; "endpoint"; "status"].
Definition requestDuration : Desc :=
  mkDesc KHistogram "http_request_duration_seconds" "HTTP request latencies in seconds" ["method"; "endpoint"].
Definition activeConnections : Desc :=
  mkDesc KGauge "active_connections" "Number of active connections" [].
Definition backendHealthStatus : Desc :=
  mkDesc KGauge "backend_health_status" "Health status of backend servers (1=healthy, 0=unhealthy)" ["backend"].
Definition circuitBreakerTrips : Desc :=
  mkDesc KCounter "circuit_breaker_trips_total" "Total number of circuit breaker trips" [].
Definition blockedIPsTotal : Desc :=
  mkDesc KCounter "blocked_ips_total" "Total number of IPs blocked by DDoS protection" [].
Definition cacheHitsTotal : Desc :=
  mkDesc KCounter "cache_hits_total" "Total number of cache hits" [].

Definition systemCPUUsage : Desc :=
  mkDesc KGauge "system_cpu_usage_percent" "System CPU usage percentage" ["core"].
Definition systemMemoryUsage : Desc :=
  mkDesc KGauge "system_memory_usage_percent" "System memory usage percentage" [].
Definition systemSwapUsage : Desc :=
  mkDesc KGauge "system_swap_usage_percent" "System swap usage percentage" [].
Definition systemProcessCount : Desc :=
  mkDesc KGauge "system_process_count" "Number of running processes" [].

(** ** Names *)

Definition is_letter (c : ascii) : bool :=
  (65 <=? byte_of c) && (byte_of c <=? 90) || (97 <=? byte_of c) && (byte_of c <=? 122).

(** [[a-zA-Z_:][a-zA-Z0-9_:]*], and without the colon for labels; labels that
    start with two underscores are reserved, as is [le] on a histogram. *)
Definition valid_name (colon : bool) (s : string) : bool :=
  let start c := is_letter c || Ascii.eqb c "_" || colon && Ascii.eqb c ":" in
  match s with
  | EmptyString => false
  | String c rest => start c && sforall (fun c => start c || is_digit c) rest
  end.

Fixpoint distinct (l : list string) : bool :=
  match l with
  | [] => true
  | x :: rest => negb (existsb (String.eqb x) rest) && distinct rest
  end.

Definition valid_label (kind : collector_kind) (l : string) : bool :=
  valid_name false l && negb (HasPrefix l "__") &&
  match kind with KHistogram => negb (String.eqb l "le") | _ => true end.

Definition valid_desc (d : Desc) : bool :=
  valid_name true (de_name d) && forallb (valid_label (de_kind d)) (de_labels d) && distinct (de_labels d).

(** ** The registry *)

(** [Register] returns an error, if any, and the registry it leaves. *)
Class PromLib := {
  registry : Type;
  Register : Desc -> registry -> option string * registry;
  registered_names : registry -> list string
}.

Class PromSpec `{PromLib} : Prop := {
  Register_fresh d r :
    valid_desc d = true -> ~ In (de_name d) (registered_names r) ->
    (Register d r).1 = None /\
    (forall n, In n (registered_names (Register d r).2) <-> n = de_name d \/ In n (registered_names r))
}.

Section Init.
Context `{PromLib}.

Definition MustRegister (d : Desc) : M registry unit := fun r =>
  match Register d r with
  | (None, r') => (Ret tt, r')
  | (Some err, r') => (Panic err, r')
  end.

(** [init] of metrics.go. *)
Definition init_metrics : M registry unit :=
  MustRegister requestsTotal ;;
  MustRegister requestDuration ;;
  MustRegister activeConnections ;;
  MustRegister backendHealthStatus ;;
  MustRegister circuitBreakerTrips ;;
  MustRegister blockedIPsTotal ;;
  MustRegister cacheHitsTotal.

(** [init] of system_monitor.go. *)
Definition init_system_monitor : M registry unit :=
  MustRegister systemCPUUsage ;;
  MustRegister systemMemoryUsage ;;
  MustRegister systemSwapUsage ;;
  MustRegister systemProcessCount.

Definition collectors : list Desc :=
  [requestsTotal; requestDuration; activeConnections; backendHealthStatus; circuitBreakerTrips; blockedIPsTotal;
   cacheHitsTotal; systemCPUUsage; systemMemoryUsage; systemSwapUsage; systemProcessCount].

(** ** Registration succeeds *)

Context `{!PromSpec}.

(** The collectors of [ds], in turn. *)
Fixpoint register_each (ds : list Desc) : M registry unit :=
  match ds with
  | [] => mret tt
  | d :: rest => MustRegister d ;; register_each rest
  end.

Lemma register_each_fresh ds r :
  forallb valid_desc ds = true -> List.NoDup (map de_name ds) ->
  (forall d, In d ds -> ~ In (de_name d) (registered_names r)) ->
  exists r', register_each ds r = (Ret tt, r') /\
    forall n, In n (registered_names r') <-> In n (map de_name ds) \/ In n (registered_names r).
Proof.
  revert r. induction ds as [|d ds IH]; intros r Hv Hn Hf.
  { exists r. split; [done|]. simpl. tauto. }
  cbn [forallb] in Hv. apply andb_prop in Hv as [Hd Hv]. cbn [map] in Hn. inversion Hn as [|x l Hx Hn']; subst.
  destruct (Register_fresh d r Hd (Hf d ltac:(by left))) as [He Hnames].
  cbn [register_each]. unfold mbind, M_bind, MustRegister.
  destruct (Register d r) as [err r1]. cbn [fst snd] in *. subst err.
  destruct (IH r1 Hv Hn') as (r' & -> & Hr').
  - intros d' Hd' Hin. apply Hnames in Hin as [Heq|Hin].
    + apply Hx. rewrite <- Heq. apply in_map_iff. by exists d'.
    + apply (Hf d'); [by right|done].
  - exists r'. split; [done|]. intros n. rewrite Hr', Hnames. cbn [map]. simpl. intuition congruence.
Qed.

(** The two functions register the collectors in order. *)
Lemma init_register_each r : (init_metrics ;; init_system_monitor) r = register_each collectors r.
Proof.
  unfold init_metrics, init_system_monitor, collectors. cbn [register_each]. unfold mbind, M_bind.
  repeat (match goal with |- context [MustRegister ?d ?r0] => destruct (MustRegister d r0) as [[[]|] ?] end; try done).
Qed.

Lemma collectors_valid : forallb valid_desc collectors = true /\ List.NoDup (map de_name collectors).
Proof.
  split; [reflexivity|]. assert (distinct (map de_name collectors) = true) as Hd by reflexivity.
  revert Hd. generalize (map de_name collectors) as l. induction l as [|x l IH]; [constructor|].
  cbn [distinct]. intros [Hx Hl]%andb_prop. constructor; [|by apply IH].
  intros Hin. apply negb_true_iff in Hx. assert (existsb (String.eqb x) l = true) as E; [|by rewrite E in Hx].
  apply existsb_exists. exists x. split; [done|]. apply String.eqb_refl.
Qed.
End Init.

(** A registry that checks what is documented. *)
Definition list_registry : PromLib := {|
  registry := list Desc;
  Register d r :=
    if valid_desc d && negb (existsb (String.eqb (de_name d)) (map de_name r)) then (None, d :: r)
    else (Some "duplicate metrics collector registration attempted", r);
  registered_names r := map de_name r
|}.

#[export] Instance list_registry_spec : @PromSpec list_registry.
Proof.
  split. intros d r Hv Hf. cbn in *. rewrite Hv.
  destruct (existsb _ _) eqn:E; cbn.
  - apply existsb_exists in E as (x & Hx & He). apply String.eqb_eq in He. by subst x.
  - split; [done|]. intros n. simpl. intuition congruence.
Qed.
