(* ===== verification/Bars.v ===== *)
(** * Bars, labels and the sparkline (dashboard.go)

    The widgets of the live dashboard. A [strings.Builder] is the state of a
    computation in the monad [M]; a negative [Repeat] count and an index out of
    range are panics. *)

From Stdlib Require Import ZArith Lia Floats.SpecFloat Ascii String List.
From stdpp Require Import base list strings gmap.
From S2P Require Import Prelude Logic GoStrings Json Monitor Fmt Terminal Binary64 Dashboard.

(** ** Builders *)

Definition write (s : string) : M string unit := modify (fun sb => sb +:+ s).
Definition write_of (o : outcome string) : M string unit := s ← lift_outcome o; write s.

(** The text a builder ends with. *)
Definition built (m : M string unit) : outcome string :=
  match m "" with (Ret _, sb) => Ret sb | (Panic why, _) => Panic why end.

(** ** Labels *)

Definition pctLabel (p : float64) : string := pad_left 5 (FormatFixed 1 p) +:+ "%".
Definition gbLabel (b : Z) : string := FormatFixed 1 (f_div (f_of_Z b) (f_of_Z 1000000000)) +:+ "G".

Section Conv.
Context `{IntConv}.

(** [d.Hours()], [d.Minutes()] and [d.Seconds()]: whole units and a fraction. *)
Definition in_units (d unit : Z) : float64 :=
  f_add (f_of_Z (Z.quot d unit)) (f_div (f_of_Z (Z.rem d unit)) (f_of_Z unit)).

Definition uptimeStr (d : Z) : string :=
  let h := int_of (in_units d Hour) in
  let m := go_rem (int_of (in_units d Minute)) 60 in
  let s := go_rem (int_of (in_units d Second)) 60 in
  if 24 <=? h
  then Itoa (Z.quot h 24) +:+ "d " +:+ pad_zero 2 (go_rem h 24) +:+ "h " +:+ pad_zero 2 m +:+ "m"
  else pad_zero 2 h +:+ "h " +:+ pad_zero 2 m +:+ "m " +:+ pad_zero 2 s +:+ "s".

(** ** Bars *)

Definition bar_color (pct : float64) : string :=
  if SFltb (f_of_Z 80) pct then clRed else if SFltb (f_of_Z 60) pct then clYellow else clGreen.

(** The number of full cells. *)
Definition filled (pct : float64) (width : Z) : Z :=
  let n := int_of (math_Round (f_mul (f_div pct (f_of_Z 100)) (f_of_Z width))) in
  let n := if n <? 0 then 0 else n in
  if width <? n then width else n.

Definition colorBar (pct : float64) (width : Z) : outcome string :=
  let n := filled pct width in
  built (write (bar_color pct) ;; write_of (Repeat "█" n) ;;
         write clGray ;; write_of (Repeat "·" (width - n)) ;; write clReset).

(** ** The sparkline *)

Definition sparkChars : list string := [" "; "▁"; "▂"; "▃"; "▄"; "▅"; "▆"; "▇"; "█"].

Fixpoint spark_max (vals : list Z) (mx : Z) : Z :=
  match vals with
  | [] => mx
  | v :: rest => spark_max rest (if mx <? v then v else mx)
  end.

(** The cell of one value, a panic for an index out of range. *)
Definition spark_cell (v mx : Z) : outcome string :=
  let idx := int_of (f_mul (f_div (f_of_Z v) (f_of_Z mx)) (f_of_Z 8)) in
  let idx := if 8 <? idx then 8 else idx in
  if idx <? 0 then Panic "index out of range"
  else match sparkChars !! Z.to_nat idx with
       | Some c => Ret (clCyan +:+ c +:+ clReset)
       | None => Panic "index out of range"
       end.

Fixpoint spark_loop (vals : list Z) (mx : Z) (i left : nat) : M string unit :=
  match left with
  | O => mret tt
  | S left' =>
      match vals !! (i mod 48)%nat with
      | None => panic "index out of range"
      | Some v => write_of (spark_cell v mx) ;; spark_loop vals mx (S i) left'
      end
  end.

Definition sparkline (vals : list Z) (width : nat) : outcome string :=
  built (spark_loop vals (spark_max vals 1) 0 width).
End Conv.

(** ** Examples *)

Example labels :
  (map pctLabel [f_zero; f_of_Z 7; f_of_Z 100], map gbLabel [16777216000; 950000000],
   map (@uptimeStr amd64) [3725 * Second; 90000 * Second])
  = (["  0.0%"; "  7.0%"; "100.0%"], ["16.8G"; "0.9G"], ["01h 02m 05s"; "1d 01h 00m"]).
Proof. vm_compute. reflexivity. Qed.

Example bars :
  map (fun p => @filled amd64 (f_of_Z p) 20) [0; 2; 3; 50; 99; 100; 250; -5] = [0; 0; 1; 10; 20; 20; 20; 0].
Proof. vm_compute. reflexivity. Qed.

(** ** Bounds *)

Section Bounds.
Context `{IntConv}.

Lemma filled_range pct width : 0 <= width -> 0 <= filled pct width <= width.
Proof. intros Hw. unfold filled. repeat case_if; bool_prop; lia. Qed.

Lemma Repeat_nonneg s n : 0 <= n -> Repeat s n = Ret (repeat_nat s (Z.to_nat n)).
Proof. intros Hn. unfold Repeat. destruct (n <? 0) eqn:E; bool_prop; [lia|done]. Qed.

Lemma bar_color_clean pct : clean (bar_color pct) = true /\ columns (bar_color pct) = O.
Proof. unfold bar_color. by repeat case_if. Qed.

(** Whole percentages are rounded to a nearest cell in the widths the screen
    uses; halves go either way, 29% of 50 being 14 cells and 25% of 50 being 13. *)
Lemma filled_exact (p : nat) :
  (p <= 100)%nat ->
  Forall (fun w => Z.abs (100 * filled (f_of_Z (Z.of_nat p)) w - Z.of_nat p * w) <= 50) [20; 32; 50].
Proof.
  intros Hp. assert (forallb (fun p => forallb (fun w =>
    Z.abs (100 * filled (f_of_Z (Z.of_nat p)) w - Z.of_nat p * w) <=? 50) [20; 32; 50]) (seq 0 101) = true) as Hall
    by (vm_compute; reflexivity).
  rewrite forallb_forall in Hall. specialize (Hall p). rewrite forallb_forall in Hall.
  apply List.Forall_forall. intros w Hw. apply Z.leb_le, Hall; [|done]. apply in_seq. lia.
Qed.

(** A bar of a non-negative width is drawn for every [float64], also for
    NaN, the infinities and percentages out of range and whatever the machine
    makes of an integer conversion that overflows: it takes exactly [width]
    columns. For a whole percentage and the widths of the screen the number of
    full cells is within half a cell of that share of the width. *)
Theorem colorBar_fits (pct : float64) (width : Z) :
  0 <= width ->
  (exists n text, 0 <= n <= width /\ colorBar pct width = Ret text /\
    text = bar_color pct +:+ repeat_nat "█" (Z.to_nat n) +:+ clGray +:+
           repeat_nat "·" (Z.to_nat (width - n)) +:+ clReset /\
    columns text = Z.to_nat width /\
    forall p : nat, (p <= 100)%nat -> pct = f_of_Z (Z.of_nat p) -> In width [20; 32; 50] ->
      Z.abs (100 * n - Z.of_nat p * width) <= 50).
Proof.
  intros Hw. pose proof (filled_range pct width Hw) as Hn. exists (filled pct width). eexists.
  split; [done|]. split_and!.
  - unfold colorBar. set (n := filled pct width) in *. rewrite !Repeat_nonneg by lia.
    unfold built, write_of, write, lift_outcome, modify, mbind, M_bind. simpl. by rewrite !sapp_assoc.
  - reflexivity.
  - destruct (bar_color_clean pct) as [Hc Hcol].
    rewrite !columns_app, Hcol, !columns_repeat by eauto with term.
    change (columns "█") with 1%nat. change (columns "·") with 1%nat.
    change (columns clGray) with 0%nat. change (columns clReset) with 0%nat. lia.
  - intros p Hp -> Hin. pose proof (filled_exact p Hp) as Hf. rewrite List.Forall_forall in Hf. by apply Hf.
Qed.

(** ** The sparkline *)

Lemma spark_max_spec vals mx :
  mx <= spark_max vals mx /\ Forall (fun v => v <= spark_max vals mx) vals /\
  (spark_max vals mx = mx \/ In (spark_max vals mx) vals).
Proof.
  revert mx. induction vals as [|v vals IH]; intros mx; cbn [spark_max]; [repeat split; [lia|constructor|by left]|].
  destruct (IH (if mx <? v then v else mx)) as (H1 & H2 & H3).
  split_and!.
  - destruct (mx <? v) eqn:E; bool_prop; lia.
  - constructor; [|done]. destruct (mx <? v) eqn:E; bool_prop; lia.
  - destruct H3 as [H3|H3]; [|by right; right]. rewrite H3. destruct (mx <? v); [right; by left|by left].
Qed.

Lemma spark_cell_ok v mx :
  0 <= v <= mx -> 0 < mx < 2 ^ 63 -> exists c, spark_cell v mx = Ret c /\ clean c = true /\ columns c = 1%nat.
Proof.
  intros Hv Hmx. pose proof (eighths_nonneg v mx Hv Hmx) as Hi. unfold spark_cell.
  set (i := int_of _) in *. set (j := if 8 <? i then 8 else i).
  assert (0 <= j <= 8) as Hj by (unfold j; case_if; bool_prop; lia).
  destruct (j <? 0) eqn:E; bool_prop; [lia|].
  destruct (lookup_lt_is_Some_2 sparkChars (Z.to_nat j)) as [c Ec]; [simpl; lia|]. rewrite Ec.
  eexists. split; [reflexivity|]. assert (Forall (fun c => clean (clCyan +:+ c +:+ clReset) = true /\
    columns (clCyan +:+ c +:+ clReset) = 1%nat) sparkChars) as Hall by (repeat constructor).
  exact (Forall_lookup_1 _ _ _ _ Hall Ec).
Qed.

Lemma spark_loop_ok vals mx i left sb :
  length vals = 48%nat -> Forall (fun v => 0 <= v <= mx) vals -> 0 < mx < 2 ^ 63 ->
  exists text, spark_loop vals mx i left sb = (Ret tt, sb +:+ text) /\ clean text = true /\ columns text = left.
Proof.
  intros Hl Hv Hmx. revert i sb. induction left as [|left IH]; intros i sb; cbn [spark_loop].
  { exists "". rewrite sapp_nil_r. split_and!; [done|reflexivity|reflexivity]. }
  pose proof (Nat.mod_upper_bound i 48 ltac:(lia)) as Hi.
  destruct (lookup_lt_is_Some_2 vals (i mod 48)) as [v Ev]; [lia|]. rewrite Ev.
  destruct (spark_cell_ok v mx) as (c & -> & Hc & Hcol); [by apply (Forall_lookup_1 _ _ _ _ Hv Ev)|done|].
  destruct (IH (S i) (sb +:+ c)) as (text & E & Ht & Htc).
  exists (c +:+ text). unfold write_of, lift_outcome, write, modify, mbind, M_bind. cbn [fst snd]. rewrite E.
  split_and!; [by rewrite sapp_assoc|by apply clean_app|]. by rewrite columns_app, Hcol, Htc.
Qed.

(** C34: a sparkline is drawn without a panic for every history of 48 counts
    that are not negative: the rounded quotient never leaves the table of the
    nine cells, whatever the machine makes of an overflowing conversion, and
    the line has exactly [width] cells. *)
Theorem sparkline_fits (vals : list Z) (width : nat) :
  length vals = 48%nat -> Forall (fun v => 0 <= v <= int64_max) vals ->
  exists text, sparkline vals width = Ret text /\ clean text = true /\ columns text = width.
Proof.
  intros Hl Hv. destruct (spark_max_spec vals 1) as (H1 & H2 & H3).
  assert (spark_max vals 1 <= int64_max) as Hmx.
  { destruct H3 as [-> | H3]; [done|]. rewrite List.Forall_forall in Hv. by apply Hv. }
  destruct (spark_loop_ok vals (spark_max vals 1) 0 width "") as (text & E & Hc & Hcol); [done| |unfold int64_max in *; lia|].
  { apply Forall_lookup. intros i v Ev. split; [by apply (Forall_lookup_1 _ _ _ _ Hv Ev)|].
    by apply (Forall_lookup_1 _ _ _ _ H2 Ev). }
  exists text. unfold sparkline, built. by rewrite E.
Qed.
End Bounds.

Lemma colorBar_fits_witness :
  exists n text, @colorBar amd64 S754_nan 20 = Ret text /\ columns text = 20%nat /\ 0 <= n <= 20.
Proof.
  destruct (@colorBar_fits amd64 S754_nan 20) as (n & text & Hn & Et & _ & Hc & _); [lia|].
  exists n, text. split_and!; [exact Et|exact Hc|apply Hn|apply Hn].
Defined.

Lemma sparkline_fits_witness :
  exists text, @sparkline amd64 (repeat 3 4 ++ repeat 2 44) 48 = Ret text /\ columns text = 48%nat.
Proof.
  destruct (@sparkline_fits amd64 (repeat 3 4 ++ repeat 2 44) 48) as (text & E & _ & Hc).
  - reflexivity.
  - apply Forall_app. split; apply List.Forall_forall; intros v ->%repeat_spec; unfold int64_max; lia.
  - exists text. split; [exact E|exact Hc].
Defined.
