(* ===== verification/Gateway.v ===== *)
(** * The gateway's request handler (main.go)

    [ServeHTTP] with everything it calls: admission (DDoS protection, rate
    limiting), routing, authentication, the cache, balancing, the circuit
    breaker, and the retry loop around the reverse proxy, with the metrics, the
    span and the log lines of a request. The world a request runs in is one record; a request's outcome is a value or a panic, with the
    world it left. *)

From Stdlib Require Import ZArith Lia Ascii String List.
From stdpp Require Import base list strings gmap.
From S2P Require Import Prelude GoStrings Hosts Urls Pool Router Breaker DDoS Http Recorder.
From S2P Require Import Auth RateLimiter Proxy Config Dashboard Cache Monitor Fmt.
From S2P Require Import Logger Tracing Collectors.

(** ** State *)

(** [Gateway]: the components, and whether there is a tracer (its closer is
    there exactly when it is). *)
Record Gateway `{RateLib} := mkGateway {
  gw_router : ServiceRouter;
  gw_rateLimiter : IPRateLimiter;
  gw_ddosProtection : DDoSProtection;
  gw_circuitBreaker : CircuitBreaker;
  gw_cacheManager : CacheManager;
  gw_tracer : bool;
  gw_cfg : Config
}.

(** The collectors of metrics.go, [dashStats], and the gauges of the system
    monitor. The request counter is the
    list of the labels (method, endpoint, status) it was incremented with, and
    the duration histogram the list of the labels (method, endpoint) it was
    observed with and the durations, in nanoseconds. *)
Record Metrics := mkMetrics {
  mt_requestsTotal : list (string * string * string);
  mt_requestDuration : list (string * string * Z);
  mt_activeConnections : Z;
  mt_circuitBreakerTrips : Z;
  mt_blockedIPsTotal : Z;
  mt_cacheHitsTotal : Z;
  mt_dashStats : DashboardStats;
  mt_system : SystemGauges
}.

(** The world of one request: the gateway, its metrics, Redis, the clock (its
    value and how often it was read), the requests sent upstream so far, the
    request and response being served, and the trace. *)
Record World `{RateLib, RedisLib} := mkWorld {
  w_gw : Gateway;
  w_metrics : Metrics;
  w_redis : redis;
  w_now : Z;
  w_ticks : nat;
  w_calls : list (ptr * Request);
  w_req : Request;
  w_rec : responseRecorder;
  w_trace : Trace
}.

(** What the environment does: how much time passes before the [n]-th reading
    of the clock, how times are printed, what the upstream makes of the [n]-th
    request sent, given its deadline, whether the handler runs in an
    [http.Server], and which label values the metrics client accepts:
    [WithLabelValues] panics on any other. *)
Class Env := {
  env_delay : nat -> N;
  env_rfc3339 : Z -> string;
  env_upstream : nat -> Request -> Z -> exchange;
  env_in_server : bool;
  env_label_ok : string -> bool
}.

(** What the metrics client documents: a label value is any UTF-8 text, and
    nothing else. *)
Class LabelSpec `{Env} : Prop := { label_ok_valid s : env_label_ok s = ValidString s }.

Section Gateway.
Context `{UnicodeTables, JwtLib, RateLib, RedisLib, Env}.

(** *** Parts of the world *)

Definition on_gw (f : Gateway -> Gateway) (w : World) : World :=
  mkWorld _ _ (f (w_gw w)) (w_metrics w) (w_redis w) (w_now w) (w_ticks w) (w_calls w) (w_req w) (w_rec w) (w_trace w).
Definition on_metrics (f : Metrics -> Metrics) (w : World) : World :=
  mkWorld _ _ (w_gw w) (f (w_metrics w)) (w_redis w) (w_now w) (w_ticks w) (w_calls w) (w_req w) (w_rec w) (w_trace w).
Definition on_req (f : Request -> Request) (w : World) : World :=
  mkWorld _ _ (w_gw w) (w_metrics w) (w_redis w) (w_now w) (w_ticks w) (w_calls w) (f (w_req w)) (w_rec w) (w_trace w).
Definition set_rec (rr : responseRecorder) (w : World) : World :=
  mkWorld _ _ (w_gw w) (w_metrics w) (w_redis w) (w_now w) (w_ticks w) (w_calls w) (w_req w) rr (w_trace w).
Definition log_call (p : ptr) (out : Request) (w : World) : World :=
  mkWorld _ _ (w_gw w) (w_metrics w) (w_redis w) (w_now w) (w_ticks w) (w_calls w ++ [(p, out)])
    (w_req w) (w_rec w) (w_trace w).

Definition on_trace (f : Trace -> Trace) (w : World) : World :=
  mkWorld _ _ (w_gw w) (w_metrics w) (w_redis w) (w_now w) (w_ticks w) (w_calls w) (w_req w) (w_rec w)
    (f (w_trace w)).

Definition with_router (x : ServiceRouter) (g : Gateway) : Gateway :=
  mkGateway _ x (gw_rateLimiter g) (gw_ddosProtection g) (gw_circuitBreaker g) (gw_cacheManager g) (gw_tracer g) (gw_cfg g).
Definition with_limiter (x : IPRateLimiter) (g : Gateway) : Gateway :=
  mkGateway _ (gw_router g) x (gw_ddosProtection g) (gw_circuitBreaker g) (gw_cacheManager g) (gw_tracer g) (gw_cfg g).
Definition with_ddos (x : DDoSProtection) (g : Gateway) : Gateway :=
  mkGateway _ (gw_router g) (gw_rateLimiter g) x (gw_circuitBreaker g) (gw_cacheManager g) (gw_tracer g) (gw_cfg g).
Definition with_breaker (x : CircuitBreaker) (g : Gateway) : Gateway :=
  mkGateway _ (gw_router g) (gw_rateLimiter g) (gw_ddosProtection g) x (gw_cacheManager g) (gw_tracer g) (gw_cfg g).

Definition with_heap (f : heap -> heap) (g : Gateway) : Gateway :=
  with_router (mkRouter (sr_routes (gw_router g)) (sr_pools (gw_router g)) (f (sr_heap (gw_router g)))) g.

Definition count_labels (l : string * string * string) (m : Metrics) : Metrics :=
  mkMetrics (mt_requestsTotal m ++ [l]) (mt_requestDuration m) (mt_activeConnections m)
    (mt_circuitBreakerTrips m) (mt_blockedIPsTotal m) (mt_cacheHitsTotal m) (mt_dashStats m) (mt_system m).
Definition observe_labels (l : string * string * Z) (m : Metrics) : Metrics :=
  mkMetrics (mt_requestsTotal m) (mt_requestDuration m ++ [l]) (mt_activeConnections m)
    (mt_circuitBreakerTrips m) (mt_blockedIPsTotal m) (mt_cacheHitsTotal m) (mt_dashStats m) (mt_system m).
Definition add_activeConnections (n : Z) (m : Metrics) : Metrics :=
  mkMetrics (mt_requestsTotal m) (mt_requestDuration m) (mt_activeConnections m + n)
    (mt_circuitBreakerTrips m) (mt_blockedIPsTotal m) (mt_cacheHitsTotal m) (mt_dashStats m) (mt_system m).
Definition count_hit (m : Metrics) : Metrics :=
  mkMetrics (mt_requestsTotal m) (mt_requestDuration m) (mt_activeConnections m)
    (mt_circuitBreakerTrips m) (mt_blockedIPsTotal m) (mt_cacheHitsTotal m + 1) (mt_dashStats m) (mt_system m).
Definition count_block (m : Metrics) : Metrics :=
  mkMetrics (mt_requestsTotal m) (mt_requestDuration m) (mt_activeConnections m)
    (mt_circuitBreakerTrips m) (mt_blockedIPsTotal m + 1) (mt_cacheHitsTotal m)
    (count_blocked (mt_dashStats m)) (mt_system m).
Definition count_trip (m : Metrics) : Metrics :=
  mkMetrics (mt_requestsTotal m) (mt_requestDuration m) (mt_activeConnections m)
    (mt_circuitBreakerTrips m + 1) (mt_blockedIPsTotal m) (mt_cacheHitsTotal m)
    (count_circuit_trip (mt_dashStats m)) (mt_system m).
Definition on_stats (f : DashboardStats -> DashboardStats) (m : Metrics) : Metrics :=
  mkMetrics (mt_requestsTotal m) (mt_requestDuration m) (mt_activeConnections m)
    (mt_circuitBreakerTrips m) (mt_blockedIPsTotal m) (mt_cacheHitsTotal m) (f (mt_dashStats m)) (mt_system m).

Definition set_system (g : SystemGauges) (m : Metrics) : Metrics :=
  mkMetrics (mt_requestsTotal m) (mt_requestDuration m) (mt_activeConnections m)
    (mt_circuitBreakerTrips m) (mt_blockedIPsTotal m) (mt_cacheHitsTotal m) (mt_dashStats m) g.

Definition set_clock (t : Z) (n : nat) (w : World) : World :=
  mkWorld _ _ (w_gw w) (w_metrics w) (w_redis w) t n (w_calls w) (w_req w) (w_rec w) (w_trace w).

(** [time.Now()] and [time.Sleep]. *)
Definition Now : M World Z := fun w =>
  let t := w_now w + Z.of_N (env_delay (w_ticks w)) in (Ret t, set_clock t (S (w_ticks w)) w).
Definition Sleep (d : Z) : M World unit := modify (fun w => set_clock (w_now w + d) (w_ticks w) w).

(** Writing to the recorder, and to the response writer beneath it. *)
Definition on_rec {A} (m : M responseRecorder A) : M World A := fun w =>
  let '(o, rr) := m (w_rec w) in (o, set_rec rr w).
Definition on_response {A} (m : M response A) : M World A := on_rec (on_rw m).

(** *** Metrics with labels *)

Definition label_panic : string := "label value is not valid UTF-8".

(** [WithLabelValues], up to the collector it returns. *)
Definition WithLabelValues (d : Desc) (values : list string) : M World unit :=
  if negb (length values =? length (de_labels d))%nat then panic "inconsistent label cardinality"
  else if forallb env_label_ok values then mret tt
  else panic label_panic.

Definition w_method (w : World) : string := rq_Method (w_req w).
Definition w_path (w : World) : string := u_Path (rq_URL (w_req w)).

(** [requestsTotal.WithLabelValues(r.Method, r.URL.Path, status).Inc()]. *)
Definition count (status : string) : M World unit :=
  method ← gets w_method;
  path ← gets w_path;
  WithLabelValues requestsTotal [method; path; status] ;;
  modify (on_metrics (count_labels (method, path, status))).

(** [http.Error(w, msg, code)] and the request counter. *)
Definition reject (msg : string) (code : Z) (status : string) : M World unit :=
  on_response (http_Error msg code) ;; count status.

(** *** The span and the log of a request *)

(** The variables of [ServeHTTP] that live through the whole request: [start],
    the request id of [reqLog], [ip], and whether [span] is not nil. *)
Record Locals := mkLocals {
  lc_start : Z;
  lc_requestID : string;
  lc_ip : string;
  lc_span : bool
}.

Section Request.
Context (c : Locals).

(** [reqLog.Warn(msg, kvs...)] and the other levels. *)
Definition reqLog (level : Z) (msg : string) (kvs : World -> list any) : M World unit :=
  modify (fun w => on_trace (add_entry (mkLogEntry level (lc_requestID c) msg (kvs w))) w).

(** Calls on the span, if there is one. *)
Definition on_span (calls : list tracer_call) : M World unit :=
  modify (if lc_span c then on_trace (add_calls calls) else id).

Definition tag_error (msg : string) : M World unit :=
  on_span [SetTag "error" (ABool true); SetTag "error.message" (AString msg)].

(** [backend.URL.String()]; a backend that was chosen is on the heap. *)
Definition backend_text (p : ptr) (w : World) : string :=
  match sr_heap (gw_router (w_gw w)) !! p with
  | Some b => url_String (b_URL b)
  | None => ""
  end.

(** [time.Since(start)]: a duration is a 64-bit number, and [Sub] saturates. *)
Definition Since : M World Z :=
  now ← Now; mret (Z.max int64_min (Z.min int64_max (now - lc_start c))).

Definition Milliseconds (d : Z) : Z := Z.quot d Millisecond.

(** A refusal of the protections at the front: the client's address, the method
    and the path are logged with the reason. *)
Definition refuse (reason msg : string) (code : Z) (status : string) (tag : string) : M World unit :=
  reqLog LevelWarn "request rejected" (fun w =>
    [AString "reason"; AString reason; AString "client_ip"; AString (lc_ip c);
     AString "method"; AString (w_method w); AString "path"; AString (w_path w)]) ;;
  reject msg code status ;;
  tag_error tag.
End Request.

(** *** Admission *)

Definition ddos_blocked (ip : string) : M World bool :=
  now ← Now;
  d ← gets (fun w => gw_ddosProtection (w_gw w));
  let '(blocked, d') := IsBlocked ip now d in
  modify (on_gw (with_ddos d')) ;; mret blocked.

Definition ddos_record (ip : string) : M World bool :=
  now ← Now;
  d ← gets (fun w => gw_ddosProtection (w_gw w));
  let '(triggered, d') := RecordRequest ip now d in
  modify (on_gw (with_ddos d')) ;;
  modify (if triggered : bool then on_metrics count_block else id) ;;
  mret triggered.

Definition limiter_allow (ip : string) : M World bool :=
  now ← Now;
  l ← gets (fun w => gw_rateLimiter (w_gw w));
  let '(o, l') := rate_allow ip now l in
  modify (on_gw (with_limiter l')) ;; lift_outcome o.

(** *** Proxying *)

Definition NextPeer_of (pool : ptr) (ip : string) : M World (option ptr) :=
  sr ← gets (fun w => gw_router (w_gw w));
  match sr_pools sr !! pool with
  | None => panic "nil pointer dereference"
  | Some s =>
      let '(o, s') := NextPeer (sr_heap sr) s ip in
      modify (on_gw (with_router (mkRouter (sr_routes sr) (<[pool := s']> (sr_pools sr)) (sr_heap sr)))) ;;
      lift_outcome o
  end.

(** [backend.ReverseProxy.ServeHTTP(rec, attemptReq)]; the value is what it
    leaves in the sink. *)
Definition proxy_ServeHTTP (backend : ptr) (timeout : Z) : M World (option string) :=
  h ← gets (fun w => sr_heap (gw_router (w_gw w)));
  b ← lift_outcome (deref h backend);
  r ← gets w_req;
  match outgoing (b_ReverseProxy b) r with
  | Err e => on_rec (ErrorHandler true e)
  | Ok out =>
      n ← gets (fun w => length (w_calls w));
      modify (log_call backend out) ;;
      on_rec (forward env_in_server (env_upstream n out timeout))
  end.

(** Inside an attempt: the forwarding headers, then the proxy. The attempt's
    request shares its header map with the client's. *)
Definition forward_attempt (backend : ptr) (timeout : Z) (ip : string) : M World (option string) :=
  now ← Now;
  modify (on_req (attempt_headers ip (env_rfc3339 now))) ;;
  proxy_ServeHTTP backend timeout.

(** The function a circuit breaker call runs. *)
Definition attempt (backend : ptr) (timeout : Z) (ip : string) : M World (option string) :=
  modify (on_gw (with_heap (on_backend IncConnections backend))) ;;
  deferring (on_gw (with_heap (on_backend DecConnections backend)))
    (modify (on_metrics (add_activeConnections 1)) ;;
     modify (on_metrics (on_stats (add_active 1))) ;;
     deferring (on_metrics (add_activeConnections (-1)))
       (deferring (on_metrics (on_stats (add_active (-1))))
          (forward_attempt backend timeout ip))).

(** [g.circuitBreaker.Call]. *)
Definition breaker_Call (fn : M World (option string)) : M World (option string) :=
  Call (fun w => gw_circuitBreaker (w_gw w)) (fun cb => on_gw (with_breaker cb)) Now
    (on_metrics count_trip) fn.

Definition maxRetries : nat := 3.

(** [time.Duration(1<<uint(attempt)) * 100 * time.Millisecond]. *)
Definition backoff (n : nat) : Z := Z.shiftl 1 (Z.of_nat n) * 100 * Millisecond.

(** After a call that succeeded. *)
Definition completed (c : Locals) (m : MatchedRoute) (backend : ptr) : M World unit :=
  status ← gets (fun w => Status (w_rec w));
  d ← Since c;
  reqLog c LevelInfo "request completed" (fun w =>
    [AString "method"; AString (w_method w); AString "path"; AString (w_path w);
     AString "host"; AString (rq_Host (w_req w)); AString "route"; AString (m_Name m);
     AString "backend"; AString (backend_text backend w);
     AString "status"; AInt status; AString "duration_ms"; AInt (Milliseconds d)]) ;;
  count (Itoa status) ;;
  on_span c [SetTag "http.status_code" (AInt status)].

(** After a failure that the client has seen part of. *)
Definition cut_off (c : Locals) (backend : ptr) : M World unit :=
  status ← gets (fun w => Status (w_rec w));
  reqLog c LevelError "upstream failed mid-response; cannot retry" (fun w =>
    [AString "backend"; AString (backend_text backend w); AString "status"; AInt status]) ;;
  count (Itoa status).

(** After the last attempt. *)
Definition exhausted (c : Locals) (m : MatchedRoute) (lastErr : string) : M World unit :=
  d ← Since c;
  reqLog c LevelError "request failed after retries" (fun w =>
    [AString "method"; AString (w_method w); AString "path"; AString (w_path w);
     AString "host"; AString (rq_Host (w_req w)); AString "route"; AString (m_Name m);
     AString "duration_ms"; AInt (Milliseconds d); AString "error"; AError lastErr]) ;;
  on_rec (http_Error ("Service temporarily unavailable: " +:+ lastErr) 503) ;;
  count "503" ;;
  tag_error c lastErr.

(** Between two attempts: back off and prefer another backend. *)
Definition choose_next (m : MatchedRoute) (ip : string) (n : nat) (backend : ptr) : M World ptr :=
  if (n <? maxRetries - 1)%nat then
    Sleep (backoff n) ;;
    peer ← NextPeer_of (m_Pool m) ip;
    mret (default backend peer)
  else mret backend.

(** The loop from attempt [n] on, with [left] attempts left. *)
Fixpoint retry (m : MatchedRoute) (c : Locals) (timeout : Z) (left n : nat) (backend : ptr)
    (lastErr : string) : M World unit :=
  match left with
  | O => exhausted c m lastErr
  | S left' =>
      err ← breaker_Call (attempt backend timeout (lc_ip c));
      match err with
      | None => completed c m backend
      | Some e =>
          now ← Now;
          modify (on_gw (with_heap (on_backend (RecordFailure now) backend))) ;;
          reqLog c LevelWarn "backend attempt failed" (fun w =>
            [AString "attempt"; AInt (Z.of_nat n + 1); AString "max_retries"; AInt (Z.of_nat maxRetries);
             AString "backend"; AString (backend_text backend w); AString "error"; AError e]) ;;
          committed ← gets (fun w => Committed (w_rec w));
          if committed : bool then cut_off c backend
          else
            next ← choose_next m (lc_ip c) n backend;
            retry m c timeout left' (S n) next e
      end
  end.

(** Rewriting the path of the request when a prefix was stripped. *)
Definition rewrite_path (path : string) (r : Request) : Request :=
  let u := rq_URL r in
  if String.eqb path (u_Path u) then r
  else with_url (MkURL (u_Scheme u) (u_Opaque u) (u_User u) (u_Host u) path path (u_OmitHost u)
                   (u_ForceQuery u) (u_RawQuery u) (u_Fragment u) (u_RawFragment u)) r.

(** From the choice of a backend on. *)
Definition proxy_request (m : MatchedRoute) (c : Locals) : M World unit :=
  peer ← NextPeer_of (m_Pool m) (lc_ip c);
  match peer with
  | None =>
      reqLog c LevelError "no healthy backends available" (fun w =>
        [AString "path"; AString (w_path w); AString "method"; AString (w_method w)]) ;;
      reject "No healthy backends available" 503 "503" ;;
      tag_error c "No backends available"
  | Some backend =>
      reqLog c LevelDebug "backend selected" (fun w =>
        [AString "backend"; AString (backend_text backend w); AString "path"; AString (w_path w)]) ;;
      url ← gets (backend_text backend);
      on_span c [SetTag "backend" (AString url)] ;;
      modify (on_req (rewrite_path (m_BackendPath m))) ;;
      cfg ← gets (fun w => gw_cfg (w_gw w));
      let timeout := if m_Timeout m <=? 0 then c_ConnectionTimeout cfg else m_Timeout m in
      modify (fun w => set_rec (newResponseRecorder (rr_ResponseWriter (w_rec w))) w) ;;
      retry m c timeout maxRetries 0 backend ""
  end.

(** *** Authentication and caching *)

Definition set_response_header (k v : string) : M World unit :=
  on_response (modify (fun s => with_rs_header (header_Set k v (rs_header s)) s)).

(** The cache step; [true] when the response was served. *)
Definition serve_cached (c : Locals) : M World bool :=
  r ← gets w_req;
  g ← gets w_gw;
  if String.eqb (rq_Method r) "GET" && c_EnableCaching (gw_cfg g) then
    rdb ← gets w_redis;
    match cache_Get (gw_cacheManager g) rdb (GenerateKey r) with
    | Some cached =>
        modify (on_metrics count_hit) ;;
        reqLog c LevelInfo "request served from cache" (fun w =>
          [AString "path"; AString (w_path w); AString "method"; AString (w_method w);
           AString "cache"; AString "HIT"]) ;;
        set_response_header "X-Cache" "HIT" ;;
        on_response (response_WriteHeader 200) ;;
        on_response (response_Write cached) ;;
        count "200" ;;
        on_span c [SetTag "cache" (AString "hit")] ;;
        mret true
    | None =>
        reqLog c LevelDebug "cache miss" (fun w =>
          [AString "path"; AString (w_path w); AString "key"; AString (GenerateKey r)]) ;;
        set_response_header "X-Cache" "MISS" ;;
        mret false
    end
  else mret false.

(** Whether the route lets this request through at time [now]. *)
Definition authorized (m : MatchedRoute) (r : Request) (cfg : Config) (now : Z) : bool :=
  negb (m_RequireAuth m) || isPublicEndpoint (u_Path (rq_URL r)) ||
  (authenticate r (c_JWTSecret cfg) now).1.

(** From the match on. *)
Definition serve_matched (m : MatchedRoute) (c : Locals) : M World unit :=
  now ← Now;
  r ← gets w_req;
  cfg ← gets (fun w => gw_cfg (w_gw w));
  if negb (authorized m r cfg now) then
    reqLog c LevelWarn "request rejected" (fun w =>
      [AString "reason"; AString "unauthorized"; AString "path"; AString (w_path w);
       AString "method"; AString (w_method w)]) ;;
    reject "Unauthorized" 401 "401" ;;
    tag_error c "Unauthorized"
  else
    let userID := (authenticate r (c_JWTSecret cfg) now).2 in
    on_span c (if String.eqb userID "" then [] else [SetTag "user.id" (AString userID)]) ;;
    hit ← serve_cached c;
    if hit : bool then mret tt else proxy_request m c.

(** *** The handler *)

Definition serve_body (c : Locals) : M World unit :=
  blocked ← ddos_blocked (lc_ip c);
  if blocked : bool then
    refuse c "IP blocked" "Too many requests - IP blocked" 429 "429" "IP blocked"
  else
    triggered ← ddos_record (lc_ip c);
    if triggered : bool then
      refuse c "DDoS protection triggered" "DDoS protection triggered" 429 "429" "DDoS triggered"
    else
      ok ← limiter_allow (lc_ip c);
      if negb ok then
        refuse c "rate limit exceeded" "Rate limit exceeded" 429 "429" "Rate limit exceeded"
      else
        r ← gets w_req;
        sr ← gets (fun w => gw_router (w_gw w));
        match Route sr (rq_Host r) (u_Path (rq_URL r)) with
        | None =>
            reqLog c LevelInfo "request rejected" (fun w =>
              [AString "reason"; AString "no route matched"; AString "host"; AString (rq_Host (w_req w));
               AString "path"; AString (w_path w); AString "method"; AString (w_method w)]) ;;
            reject "No route matched" 404 "404"
        | Some m => serve_matched m c
        end.

(** The deferred observation reads the clock and the labels when the handler
    ends. *)
Definition observe_duration (c : Locals) : M World unit :=
  d ← Since c;
  method ← gets w_method;
  path ← gets w_path;
  WithLabelValues requestDuration [method; path] ;;
  modify (on_metrics (observe_labels (method, path, d))).

Definition record_dash : M World unit := fun w =>
  let '(o, d) := stats_RecordRequest (mt_dashStats (w_metrics w)) in
  (o, on_metrics (on_stats (fun _ => d)) w).

(** The locals of a request that arrives at time [start]. *)
Definition locals (start : Z) (w : World) : Locals :=
  mkLocals start (hget (w_req w) "x-request-id") (getClientIP (w_req w)) (gw_tracer (w_gw w)).

Definition start_span (c : Locals) : M World unit :=
  method ← gets w_method;
  path ← gets w_path;
  on_span c [StartSpan "gateway.request"; SetTag "method" (AString method); SetTag "path" (AString path)].

Definition finish_span (c : Locals) (w : World) : World :=
  if lc_span c then on_trace (add_calls [Finish]) w else w.

Definition ServeHTTP : M World unit :=
  start ← Now;
  c ← gets (locals start);
  record_dash ;;
  reqLog c LevelDebug "request started" (fun w =>
    [AString "method"; AString (w_method w); AString "path"; AString (w_path w);
     AString "client_ip"; AString (lc_ip c)]) ;;
  start_span c ;;
  deferring (finish_span c)
    (deferring_call (observe_duration c) (serve_body c)).

(** [NewGateway]: the tracer if there is to be one, the components from the
    configuration, then the routes. *)
Definition NewGateway (NewTracer : Configuration -> option string) (cfg : Config) (rdb : redis) : Gateway :=
  mkGateway _
    (register_all (c_ServiceRoutes cfg) (c_LoadBalancingAlgo cfg) NewServiceRouter)
    (NewIPRateLimiter (c_MaxRequestsPerSecond cfg) (c_MaxBurstSize cfg))
    (NewDDoSProtection (c_DDoSThreshold cfg) (c_BlockDuration cfg))
    (NewCircuitBreaker (c_CircuitBreakerMax cfg) (c_CircuitBreakerTimeout cfg))
    (NewCacheManager rdb (c_CacheTTL cfg) (c_EnableCaching cfg))
    (match initTracer NewTracer "api-gateway" with Ok _ => true | Err _ => false end)
    cfg.
End Gateway.
