(* ===== verification/GatewayDemo.v ===== *)
(** * A concrete gateway

    Instances of the libraries and of the environment, and a small gateway, to
    evaluate the handler on and to instantiate its theorems with. *)

From Stdlib Require Import ZArith Ascii String List.
From stdpp Require Import base list strings gmap.
From S2P Require Import Prelude GoStrings Urls Pool Router Breaker DDoS Http Recorder Auth.
From S2P Require Import RateLimiter Proxy Config Dashboard Cache Monitor Fmt Logger Tracing.
From S2P Require Import Gateway.

(** A Redis that keeps everything. *)
Definition demo_redis : RedisLib := {|
  redis := gmap string string;
  redis_Ping _ := None;
  redis_Get r k := match r !! k with Some v => RedisValue v | None => RedisNil end;
  redis_Set r k v _ := (None, <[k := v]> r)
|}.

(** Upstreams that answer the given exchanges in turn, and then refuse. *)
Definition demo_env (xs : list exchange) : Env := {|
  env_delay _ := 0%N;
  env_rfc3339 _ := "2024-01-01T00:00:00Z";
  env_upstream n _ _ := nth n xs (mkExchange [] (RtError "connection refused"));
  env_in_server := true;
  env_label_ok := ValidString
|}.

Definition demo_config (routes : list ServiceRoute) (breaker_max : Z) : Config :=
  mkConfig ":9777" 100 200 1000 (10 * Minute) "s3cret" (10 * Second) (30 * Second) 100 (90 * Second)
    breaker_max (30 * Second) true true (5 * Minute) "localhost:6379" "round-robin" routes ["*"].

(** A public shop route with two upstreams, and a private one. *)
Definition demo_routes : list ServiceRoute :=
  [ mkServiceRoute "" "/shop" "" ["http://10.0.0.1:80"; "http://10.0.0.2:80"] true false 1 [] 30 "" false "shop";
    mkServiceRoute "" "/private" "http://10.0.0.3:80" [] true true 1 [] 30 "" false "private" ].

Definition demo_request (path : string) (h : Header) : Request :=
  mkRequest "GET" (mkURL "" "" path "" "") "gw.example.com" h "9.9.9.9:4242" false.

Definition demo_metrics : Metrics := mkMetrics [] [] 0 0 0 0 new_stats new_gauges.

Definition demo_world (breaker_max : Z) (rdb : gmap string string) (r : Request)
    : @World exact_rate demo_redis :=
  @mkWorld exact_rate demo_redis
    (@NewGateway ascii_tables exact_rate demo_redis (fun _ => None) (demo_config demo_routes breaker_max) rdb)
    demo_metrics rdb 0 0 [] r (newResponseRecorder (new_response true)) no_trace.

(** The handler on that gateway. *)
Definition demo_serve (xs : list exchange) : M (@World exact_rate demo_redis) unit :=
  @ServeHTTP ascii_tables demo_jwt exact_rate demo_redis (demo_env xs).

Definition demo_ok (body : string) : exchange := mkExchange [] (RtResponse 200 ∅ [body] false).

(** A request that fails over to the second upstream. *)
Example demo_failover :
  let w := (demo_serve [mkExchange [] (RtError "refused"); demo_ok "hi"]
              (demo_world 5 ∅ (demo_request "/shop/cart" ∅))).2 in
  (map fst (w_calls w), client_status (rr_ResponseWriter (w_rec w)), rs_body (rr_ResponseWriter (w_rec w)),
   mt_requestsTotal (w_metrics w))
  = ([1; 0]%nat, 200, "hi", [("GET", "/cart", "200")]).
Proof. vm_compute. reflexivity. Qed.

(** Without credentials the private route answers 401. *)
Example demo_unauthorized :
  let w := (demo_serve [] (demo_world 5 ∅ (demo_request "/private/x" ∅))).2 in
  (w_calls w, client_status (rr_ResponseWriter (w_rec w))) = ([], 401).
Proof. vm_compute. reflexivity. Qed.

Example demo_authorized :
  let w := (demo_serve [demo_ok "secret"]
              (demo_world 5 ∅ (demo_request "/private/x" {["Authorization" := ["Bearer s3cret/ann"]]}))).2 in
  (length (w_calls w), rs_body (rr_ResponseWriter (w_rec w))) = (1%nat, "secret").
Proof. vm_compute. reflexivity. Qed.

(** A broken body aborts the request after the status line has gone out. *)
Example demo_abort :
  let '(o, w) := demo_serve [mkExchange [] (RtResponse 200 ∅ ["par"] true)]
                   (demo_world 5 ∅ (demo_request "/shop/cart" ∅)) in
  (o, mt_requestsTotal (w_metrics w), mt_activeConnections (w_metrics w)) = (Panic ErrAbortHandler, [], 0).
Proof. vm_compute. reflexivity. Qed.
