(* ===== verification/Gzip.v ===== *)
(** * Compressed responses (handlers.go)

    [makeGzipHandler] and its response writer. The compressor is a parameter: it
    turns each write into writes of its own, may hold bytes back until [Close],
    and a decompressor undoes the whole. A handler is a program over any
    [http.ResponseWriter]. *)

From Stdlib Require Import ZArith Lia Ascii String List.
From stdpp Require Import base list strings gmap.
From S2P Require Import Prelude GoStrings Urls Http GatewayDemo.

(** ** The library *)

(** [gzip.Writer]: what a [Write] and the [Close] pass on to the writer below. *)
Class GzipLib := {
  gz : Type;
  gz_New : gz;
  gz_Write : string -> gz -> list string * gz;
  gz_Close : gz -> list string;
  gunzip : string -> option string
}.

(** All that goes below for a sequence of writes and the close. *)
Fixpoint gz_run `{GzipLib} (ws : list string) (g : gz) : list string :=
  match ws with
  | [] => gz_Close g
  | w :: rest => let '(out, g') := gz_Write w g in out ++ gz_run rest g'
  end.

Definition bytes (l : list string) : string := foldr String.append "" l.

(** The contract of the format. *)
Class GzipSpec `{GzipLib} : Prop := {
  gunzip_run ws : gunzip (bytes (gz_run ws gz_New)) = Some (bytes ws)
}.

(** ** The writer *)

(** [gzipResponseWriter]; [None] is a compressor whose writer has failed. *)
Record gzipResponseWriter `{GzipLib} (T : Type) := mkGzip { gr_Writer : option gz; gr_ResponseWriter : T }.
Arguments mkGzip {_ _} _ _.
Arguments gr_Writer {_ _} _.
Arguments gr_ResponseWriter {_ _} _.

Section Gzip.
Context `{GzipLib}.

Section Writer.
Context {T : Type} `{ResponseWriter T}.

Definition below {A} (m : M T A) : M (gzipResponseWriter T) A := fun w =>
  let '(o, t) := m (gr_ResponseWriter w) in (o, mkGzip (gr_Writer w) t).

(** Writing below until an error. *)
Fixpoint write_below (out : list string) : M T (option string) :=
  match out with
  | [] => mret None
  | b :: rest => r ← rw_Write b; match r.2 with Some e => mret (Some e) | None => write_below rest end
  end.

Definition gzip_Write (b : string) : M (gzipResponseWriter T) (Z * option string) := fun w =>
  match gr_Writer w with
  | None => (Ret (0, Some "write error"), w)
  | Some g =>
      let '(out, g') := gz_Write b g in
      match write_below out (gr_ResponseWriter w) with
      | (Ret None, t) => (Ret (Z.of_nat (slen b), None), mkGzip (Some g') t)
      | (Ret (Some e), t) => (Ret (0, Some e), mkGzip None t)
      | (Panic why, t) => (Panic why, mkGzip None t)
      end
  end.

Definition gzip_Close : M (gzipResponseWriter T) unit := fun w =>
  match gr_Writer w with
  | None => (Ret tt, w)
  | Some g =>
      match write_below (gz_Close g) (gr_ResponseWriter w) with
      | (Ret _, t) => (Ret tt, mkGzip (Some g) t)
      | (Panic why, t) => (Panic why, mkGzip None t)
      end
  end.

(** The methods of the embedded [http.ResponseWriter], and its own [Write]. *)
#[export] Instance gzip_writer : ResponseWriter (gzipResponseWriter T) := {|
  rw_Header w := rw_Header (gr_ResponseWriter w);
  rw_setHeader h w := mkGzip (gr_Writer w) (rw_setHeader h (gr_ResponseWriter w));
  rw_WriteHeader code := below (rw_WriteHeader code);
  rw_Write := gzip_Write
|}.
End Writer.

(** [http.HandlerFunc]. *)
Definition HandlerFunc : Type := forall T, ResponseWriter T -> Request -> M T unit.

Definition makeGzipHandler (fn : HandlerFunc) : HandlerFunc := fun T RW r =>
  if negb (Contains (hget r "Accept-Encoding") "gzip") then fn T RW r
  else fun w =>
    let w := rw_setHeader (header_Set "Content-Encoding" "gzip" (rw_Header w)) w in
    let '(o, g) := fn (gzipResponseWriter T) gzip_writer r (mkGzip (Some gz_New) w) in
    let '(oc, g') := gzip_Close g in
    (match oc with Ret _ => o | Panic why => Panic why end, gr_ResponseWriter g').
End Gzip.

(** ** A handler *)

Definition set_header {T} `{ResponseWriter T} (kv : string * string) : M T unit :=
  modify (fun w => rw_setHeader (header_Set kv.1 kv.2 (rw_Header w)) w).

(** Headers, a status and then a body in pieces, as handlers do. *)
Fixpoint in_order {T A} (f : A -> M T unit) (l : list A) : M T unit :=
  match l with [] => mret tt | x :: rest => f x ;; in_order f rest end.

Definition respond (headers : list (string * string)) (code : Z) (ws : list string) : HandlerFunc := fun T RW _ =>
  in_order set_header headers ;; rw_WriteHeader code ;; in_order (fun b => rw_Write b ;; mret tt) ws.

(** ** Round trip *)

(** A response whose status line is out and which takes any body. *)
Definition taking (s : response) : Prop :=
  rs_hijacked s = false /\ rs_wroteHeader s = true /\ bodyAllowedForStatus (rs_status s) = true /\
  declared_length (rs_sent s) = None.

(** [s'] is [s] with [b] added to the body. *)
Record grown (b : string) (s s' : response) : Prop := {
  gw_taking : taking s';
  gw_body : rs_body s' = rs_body s +:+ b;
  gw_status : rs_status s' = rs_status s;
  gw_sent : rs_sent s' = rs_sent s
}.

Lemma grown_empty s : taking s -> grown "" s s.
Proof. intros Hs. split; [done|by rewrite sapp_nil_r|done|done]. Qed.

Lemma grown_trans a b s s1 s2 : grown a s s1 -> grown b s1 s2 -> grown (a +:+ b) s s2.
Proof.
  intros [T1 B1 S1 H1] [T2 B2 S2 H2]. split; [done| |congruence|congruence].
  by rewrite B2, B1, sapp_assoc.
Qed.

Lemma bytes_app a b : bytes (a ++ b) = bytes a +:+ bytes b.
Proof. induction a as [|x a IH]; simpl; [done|]. by rewrite IH, sapp_assoc. Qed.

Lemma response_Write_taking b s :
  taking s -> exists s', response_Write b s = (Ret (Z.of_nat (slen b), None), s') /\ grown b s s'.
Proof.
  intros Hs. pose proof Hs as (Hh & Hw & Hb & Hd).
  unfold response_Write, gets, mbind, M_bind. simpl. rewrite Hh. simpl. rewrite Hw.
  unfold mret, M_ret. simpl. destruct (String.eqb b "") eqn:E; bool_prop.
  - subst b. exists s. split; [done|by apply grown_empty].
  - rewrite Hb. cbn [negb]. rewrite take_bytes_free by done. eexists. split; [done|]. by split.
Qed.

Lemma write_below_taking out s :
  taking s -> exists s', write_below out s = (Ret None, s') /\ grown (bytes out) s s'.
Proof.
  revert s. induction out as [|b out IH]; intros s Hs; cbn [write_below bytes foldr].
  - exists s. split; [done|by apply grown_empty].
  - destruct (response_Write_taking b s Hs) as (s1 & E1 & G1). destruct (IH s1 (gw_taking _ _ _ G1)) as (s2 & E2 & G2).
    exists s2. split; [|by eapply grown_trans]. unfold mbind, M_bind. simpl. rewrite E1. exact E2.
Qed.

Lemma writes_plain ws s :
  taking s -> exists s', in_order (fun b => rw_Write b ;; mret tt) ws s = (Ret tt, s') /\ grown (bytes ws) s s'.
Proof.
  revert s. induction ws as [|b ws IH]; intros s Hs; cbn [in_order bytes foldr].
  - exists s. split; [done|by apply grown_empty].
  - destruct (response_Write_taking b s Hs) as (s1 & E1 & G1). destruct (IH s1 (gw_taking _ _ _ G1)) as (s2 & E2 & G2).
    exists s2. split; [|by eapply grown_trans]. unfold mbind, M_bind in *. simpl. rewrite E1. exact E2.
Qed.

Section RoundTrip.
Context `{GL : GzipLib}.

Lemma writes_packed ws g s :
  taking s ->
  exists w w', in_order (fun b => rw_Write b ;; mret tt) ws (mkGzip (Some g) s) = (Ret tt, w) /\
    gzip_Close w = (Ret tt, w') /\ grown (bytes (gz_run ws g)) s (gr_ResponseWriter w').
Proof.
  revert g s. induction ws as [|b ws IH]; intros g s Hs; cbn [in_order gz_run].
  - destruct (write_below_taking (gz_Close g) s Hs) as (s1 & E1 & G1).
    eexists _, _. split; [done|]. unfold gzip_Close. simpl. rewrite E1. done.
  - destruct (gz_Write b g) as [out g'] eqn:E. destruct (write_below_taking out s Hs) as (s1 & E1 & G1).
    destruct (IH g' s1 (gw_taking _ _ _ G1)) as (w & w' & H1 & H2 & H3).
    exists w, w'. split_and!; [|done|rewrite bytes_app; by eapply grown_trans].
    unfold mbind, M_bind. cbn [rw_Write gzip_writer]. unfold gzip_Write. simpl. rewrite E, E1. exact H1.
Qed.

Definition with_headers (headers : list (string * string)) (s : response) : response :=
  fold_left (fun s kv => with_rs_header (header_Set kv.1 kv.2 (rs_header s)) s) headers s.

Lemma headers_plain headers s : in_order set_header headers s = (Ret tt, with_headers headers s).
Proof. revert s. induction headers as [|kv headers IH]; intros s; [done|]. apply IH. Qed.

Lemma headers_packed headers g s :
  in_order set_header headers (mkGzip g s) = (Ret tt, mkGzip g (with_headers headers s)).
Proof. revert s. induction headers as [|kv headers IH]; intros s; [done|]. apply IH. Qed.

Lemma with_headers_spec headers s :
  with_headers headers s = with_rs_header (rs_header (with_headers headers s)) s /\
  forall k, (forall kv, In kv headers -> CanonicalHeaderKey kv.1 <> CanonicalHeaderKey k) ->
    header_Get (rs_header (with_headers headers s)) k = header_Get (rs_header s) k.
Proof.
  revert s. induction headers as [|kv headers IH]; intros s; cbn [with_headers fold_left].
  - split; [by destruct s|done].
  - destruct (IH (with_rs_header (header_Set kv.1 kv.2 (rs_header s)) s)) as [E Hk]. unfold with_headers in E, Hk.
    split; [rewrite E; done|]. intros k Hin. rewrite Hk by (intros; apply Hin; by right).
    simpl. rewrite header_Get_Set. destruct (String.eqb _ _) eqn:Ek; bool_prop; [|done].
    exfalso. by apply (Hin kv); [left|].
Qed.

Lemma status_line code s :
  rs_hijacked s = false -> rs_wroteHeader s = false -> 200 <= code <= 999 -> bodyAllowedForStatus code = true ->
  declared_length (rs_header s) = None ->
  exists s', response_WriteHeader code s = (Ret tt, s') /\ taking s' /\ rs_status s' = code /\
    rs_sent s' = rs_header s /\ rs_body s' = rs_body s.
Proof. intros Hh Hw Hc Hb Hd. rewrite response_WriteHeader_final by done. eexists. split; [done|]. by repeat split. Qed.

(** The response when its headers are set, and the client's view of it. *)
Lemma ready headers s :
  (forall kv, In kv headers -> CanonicalHeaderKey kv.1 <> "Content-Length") ->
  rs_hijacked s = false -> rs_wroteHeader s = false -> header_Get (rs_header s) "Content-Length" = "" ->
  let s' := with_headers headers s in
  rs_hijacked s' = false /\ rs_wroteHeader s' = false /\ declared_length (rs_header s') = None /\ rs_body s' = rs_body s.
Proof.
  intros Hl H1 H2 H3 s'. destruct (with_headers_spec headers s) as [E Hk]. unfold s'. rewrite E. split_and!; try done.
  simpl. unfold declared_length. rewrite Hk by (intros; by apply Hl). by rewrite H3.
Qed.

End RoundTrip.

(** ** A concrete compressor *)

(** It marks the start and the end of the stream and stores the rest, holding
    every write back until the next. *)
Definition stored : GzipLib := {|
  gz := string;
  gz_New := "<";
  gz_Write b held := ([held], b);
  gz_Close held := [held; ">"];
  gunzip s := Some (sdrop 1 (stake (slen s - 1) s))
|}.

Lemma stored_run ws held : bytes (@gz_run stored ws held) = held +:+ bytes ws +:+ ">".
Proof. revert held. induction ws as [|b ws IH]; intros held; [done|]. simpl. by rewrite IH, !sapp_assoc. Qed.

Lemma stored_spec : @GzipSpec stored.
Proof.
  constructor. intros ws. rewrite stored_run. simpl. do 2 f_equal. rewrite slen_app. simpl.
  replace (slen (bytes ws) + 1 - 0)%nat with (S (slen (bytes ws))) by lia. simpl. by rewrite stake_app.
Qed.


(** A handler that declares the length of its body loses the stream: the
    wrapper keeps the header, and the server takes no byte beyond it. *)
Example declared_length_cuts_stream :
  let fn := respond [("Content-Length", "5")] 200 ["hello"] in
  let r := demo_request "/" {["Accept-Encoding" := ["gzip"]]} in
  let packed := @makeGzipHandler stored fn response response_writer r (new_response true) in
  rs_body packed.2 = "<" /\ header_Get (rs_sent packed.2) "Content-Length" = "5" /\
  rs_body (fn response response_writer r (new_response true)).2 = "hello".
Proof. split_and!; vm_compute; reflexivity. Qed.
