(* ===== verification/GatewayLaws.v ===== *)
(** * Properties of the request handler

    What every request does, whatever the upstreams, the clock and the other
    components answer: it is counted once, it leaves the gauges as it found
    them, and it reaches a cached response or an upstream only if it was
    admitted and authorized, and then at most three times. *)

From Stdlib Require Import ZArith Lia Ascii String List.
From stdpp Require Import base list strings gmap.
From S2P Require Import Prelude Logic GoStrings Hosts Urls Pool Router Breaker DDoS Http.
From S2P Require Import Recorder Auth RateLimiter Proxy Config Dashboard Cache Fmt Logger.
From S2P Require Import Tracing Gateway.
From S2P Require Import GatewayDemo.

Section Laws.
Context `{UnicodeTables, JwtLib, RateLib, RedisLib, Env}.

(** ** Frames

    A relation on worlds that the clock, the response, the log and the span
    cannot break. *)
Class Frame (R : World -> World -> Prop) : Prop := {
  frame_pre :: PreOrder R;
  frame_clock t n w : R w (set_clock t n w);
  frame_rec rr w : R w (set_rec rr w);
  frame_trace f w : R w (on_trace f w)
}.

(** The view [v] is the same before and after. *)
Definition same {X} (v : World -> X) (w w' : World) : Prop := v w' = v w.

#[local] Instance same_pre {X} (v : World -> X) : PreOrder (same v).
Proof. split; [done|]. unfold same. intros ? ? ?. congruence. Qed.

Lemma keeps_Now R `{!Frame R} : keeps R Now.
Proof. intros w. apply frame_clock. Qed.

Lemma keeps_Sleep R `{!Frame R} d : keeps R (Sleep d).
Proof. apply keeps_modify. intros w. apply frame_clock. Qed.

Lemma keeps_on_rec R `{!Frame R} {A} (m : M responseRecorder A) : keeps R (on_rec m).
Proof. intros w. unfold on_rec. destruct (m (w_rec w)). apply frame_rec. Qed.

Lemma keeps_on_response R `{!Frame R} {A} (m : M response A) : keeps R (on_response m).
Proof. by apply keeps_on_rec. Qed.

Lemma keeps_reqLog R `{!Frame R} c level msg kvs : keeps R (reqLog c level msg kvs).
Proof. apply keeps_modify. intros w. apply frame_trace. Qed.

Lemma on_span_run c calls w : exists f, on_span c calls w = (Ret tt, on_trace f w).
Proof. unfold on_span, modify. case_if; [by eexists|]. exists id. by destruct w. Qed.

Lemma keeps_on_span R `{!Frame R} c calls : keeps R (on_span c calls).
Proof. apply keeps_modify. intros w. case_if; [apply frame_trace|reflexivity]. Qed.

Lemma keeps_Since R `{!Frame R} c : keeps R (Since c).
Proof. apply keeps_bind; [typeclasses eauto|by apply keeps_Now|]. intros now. apply keeps_ret. typeclasses eauto. Qed.

Lemma keeps_WithLabelValues R `{!Frame R} d values : keeps R (WithLabelValues d values).
Proof. unfold WithLabelValues. repeat case_if; first [apply keeps_ret|apply keeps_panic]; typeclasses eauto. Qed.

Lemma keeps_start_span R `{!Frame R} c : keeps R (start_span c).
Proof. do 2 (apply keeps_bind; [typeclasses eauto|apply keeps_gets; typeclasses eauto|intros ?]). by apply keeps_on_span. Qed.

Lemma keeps_finish_span R `{!Frame R} c w : R w (finish_span c w).
Proof. unfold finish_span. case_if; [apply frame_trace|reflexivity]. Qed.

#[local] Hint Resolve keeps_Now keeps_Sleep keeps_on_rec keeps_on_response keeps_reqLog keeps_on_span
  keeps_Since keeps_WithLabelValues keeps_start_span : gw.
#[local] Hint Extern 2 => apply keeps_finish_span : gw.

(** The counter: one more entry, or a panic over the labels. *)
Lemma count_run status w :
  count status w =
    if env_label_ok (w_method w) && env_label_ok (w_path w) && env_label_ok status
    then (Ret tt, on_metrics (count_labels (w_method w, w_path w, status)) w)
    else (Panic label_panic, w).
Proof.
  unfold count, WithLabelValues, gets, mbind, M_bind. simpl. rewrite !andb_true_r, andb_assoc. by case_if.
Qed.

Section Steps.
Context (R : World -> World -> Prop) `{!Frame R}.

Lemma keeps_ddos_blocked ip :
  (forall d w, R w (on_gw (with_ddos d) w)) -> keeps R (ddos_blocked ip).
Proof. intros Hd. unfold ddos_blocked. keep_steps. Qed.

Lemma keeps_ddos_record ip :
  (forall d w, R w (on_gw (with_ddos d) w)) -> (forall w, R w (on_metrics count_block w)) ->
  keeps R (ddos_record ip).
Proof. intros Hd Hc. unfold ddos_record. keep_steps. Qed.

Lemma keeps_limiter_allow ip :
  (forall l w, R w (on_gw (with_limiter l) w)) -> keeps R (limiter_allow ip).
Proof. intros Hl. unfold limiter_allow. keep_steps. Qed.

Lemma keeps_NextPeer_of pool ip :
  (forall w s s', sr_pools (gw_router (w_gw w)) !! pool = Some s -> sp_backends s' = sp_backends s ->
     R w (on_gw (with_router (mkRouter (sr_routes (gw_router (w_gw w)))
            (<[pool := s']> (sr_pools (gw_router (w_gw w)))) (sr_heap (gw_router (w_gw w))))) w)) ->
  keeps R (NextPeer_of pool ip).
Proof.
  intros Hp w. unfold NextPeer_of, gets, mbind, M_bind, modify.
  destruct (sr_pools (gw_router (w_gw w)) !! pool) as [s|] eqn:Es; simpl; [|done].
  destruct (NextPeer _ s ip) as [o s'] eqn:En. simpl. apply (Hp w s s' Es).
  by apply NextPeer_pick in En as [-> _].
Qed.

Lemma keeps_breaker_Call fn :
  keeps R fn -> (forall cb w, R w (on_gw (with_breaker cb) w)) ->
  (forall w, R w (on_metrics count_trip w)) -> keeps R (breaker_Call fn).
Proof.
  intros Hf Hb Ht. unfold breaker_Call, Call. keep_steps.
Qed.

Lemma keeps_proxy_ServeHTTP backend timeout :
  (forall out w, R w (log_call backend out w)) -> keeps R (proxy_ServeHTTP backend timeout).
Proof. intros Hl. unfold proxy_ServeHTTP. keep_steps. Qed.

Lemma keeps_set_response_header k v : keeps R (set_response_header k v).
Proof. apply keeps_on_response. typeclasses eauto. Qed.

Section Counting.
Hypothesis Hc : forall l w, R w (on_metrics (count_labels l) w).

Lemma keeps_count status : keeps R (count status).
Proof. unfold count. keep_steps. Qed.

#[local] Hint Resolve keeps_count : gw.

Lemma keeps_reject msg code status : keeps R (reject msg code status).
Proof. unfold reject. keep_steps. Qed.

#[local] Hint Resolve keeps_reject : gw.

Lemma keeps_refuse c reason msg code status tag : keeps R (refuse c reason msg code status tag).
Proof. unfold refuse, tag_error. keep_steps. Qed.

Lemma keeps_completed c m backend : keeps R (completed c m backend).
Proof. unfold completed. keep_steps. Qed.

Lemma keeps_cut_off c backend : keeps R (cut_off c backend).
Proof. unfold cut_off. keep_steps. Qed.

Lemma keeps_exhausted c m e : keeps R (exhausted c m e).
Proof. unfold exhausted, tag_error. keep_steps. Qed.

Lemma keeps_serve_cached c : (forall w, R w (on_metrics count_hit w)) -> keeps R (serve_cached c).
Proof. intros Hh. unfold serve_cached. keep_steps. Qed.
End Counting.
End Steps.

#[local] Hint Resolve keeps_count keeps_reject keeps_refuse keeps_completed keeps_cut_off keeps_exhausted
  keeps_serve_cached keeps_ddos_blocked keeps_ddos_record keeps_limiter_allow keeps_NextPeer_of
  keeps_breaker_Call keeps_proxy_ServeHTTP keeps_set_response_header : gw.
#[local] Hint Extern 1 (Frame _) => typeclasses eauto : gw.
#[local] Hint Extern 1 (same _ _ _) => done : gw.

(** ** Accounting *)

Definition counted (w : World) := mt_requestsTotal (w_metrics w).

#[local] Instance counted_frame : Frame (same counted).
Proof. by split; [typeclasses eauto|..]. Qed.

(** One more request has been counted, under the method and path it has now,
    and these are labels the metrics client accepts. *)
Definition counted_now (w w' : World) : Prop :=
  exists status, counted w' = counted w ++ [(w_method w', w_path w', status)] /\
    env_label_ok (w_method w') = true /\ env_label_ok (w_path w') = true.

(** [m] counts one request when it returns, and none when it panics. *)
Definition counts_once {A} (m : M World A) : Prop :=
  forall w, match m w with
            | (Ret _, w') => counted_now w w'
            | (Panic _, w') => counted w' = counted w
            end.

Lemma counts_once_bind {A B} (m : M World A) (k : A -> M World B) :
  keeps (same counted) m -> (forall a, counts_once (k a)) -> counts_once (m ≫= k).
Proof.
  intros Hm Hk w. unfold mbind, M_bind. specialize (Hm w). unfold same in Hm.
  destruct (m w) as [[a|why] w1]; simpl in Hm; [|done]. specialize (Hk a w1).
  destruct (k a w1) as [[b|why] w2]; unfold counted_now in *; by rewrite Hm in Hk.
Qed.

Lemma counts_once_count status : counts_once (count status).
Proof.
  intros w. rewrite count_run. case_if; [|done]. bool_prop. unfold counted_now. cbn. eauto.
Qed.

(** After the request was counted, only the span is touched. *)
Lemma counts_once_span (m : M World unit) c calls :
  counts_once m -> counts_once (m ;; on_span c calls).
Proof.
  intros Hm w. specialize (Hm w). unfold mbind, M_bind, on_span, modify.
  destruct (m w) as [[a|why] w1]; [|done]. by destruct (lc_span c).
Qed.

#[local] Hint Resolve counts_once_count : gw.

Lemma counts_once_reject msg code status : counts_once (reject msg code status).
Proof. apply counts_once_bind; eauto with gw. Qed.

Lemma counts_once_refusal (l : M World unit) msg code status c calls :
  keeps (same counted) l -> counts_once (l ;; reject msg code status ;; on_span c calls).
Proof. intros Hl. apply counts_once_bind; [done|]. intros _. apply counts_once_span, counts_once_reject. Qed.

Lemma counts_once_completed c m backend : counts_once (completed c m backend).
Proof.
  unfold completed. do 3 (apply counts_once_bind; [by keep_steps; eauto with gw|intros ?]).
  apply counts_once_span, counts_once_count.
Qed.

Lemma counts_once_cut_off c backend : counts_once (cut_off c backend).
Proof.
  unfold cut_off. do 2 (apply counts_once_bind; [by keep_steps; eauto with gw|intros ?]).
  apply counts_once_count.
Qed.

Lemma counts_once_exhausted c m e : counts_once (exhausted c m e).
Proof.
  unfold exhausted. do 3 (apply counts_once_bind; [by keep_steps; eauto with gw|intros ?]).
  apply counts_once_span, counts_once_count.
Qed.

Lemma quiet_attempt backend timeout ip : keeps (same counted) (attempt backend timeout ip).
Proof. unfold attempt, forward_attempt. keep_steps. Qed.

Lemma quiet_NextPeer_of pool ip : keeps (same counted) (NextPeer_of pool ip).
Proof. eauto with gw. Qed.

Lemma quiet_choose_next m ip n backend : keeps (same counted) (choose_next m ip n backend).
Proof. unfold choose_next. keep_steps. Qed.

#[local] Hint Resolve quiet_attempt quiet_NextPeer_of quiet_choose_next counts_once_reject
  counts_once_refusal counts_once_completed counts_once_cut_off counts_once_exhausted : gw.

Lemma counts_once_retry m c timeout left n backend e :
  counts_once (retry m c timeout left n backend e).
Proof.
  revert n backend e. induction left as [|left IH]; intros n backend e; cbn [retry]; [eauto with gw|].
  apply counts_once_bind; [eauto 6 with gw|]. intros [err|]; [|eauto with gw].
  do 4 (apply counts_once_bind; [by keep_steps; eauto with gw|intros ?]). case_if; [eauto with gw|].
  apply counts_once_bind; eauto with gw.
Qed.

Lemma counts_once_proxy_request m c : counts_once (proxy_request m c).
Proof.
  unfold proxy_request, tag_error. apply counts_once_bind; [eauto with gw|].
  intros [backend|]; [|eauto with gw].
  do 6 (apply counts_once_bind; [by keep_steps; eauto with gw|intros ?]). apply counts_once_retry.
Qed.

(** A step that answers the request and counts it when it returns true. *)
Definition counts_if (m : M World bool) : Prop :=
  forall w, match m w with
            | (Ret true, w') => counted_now w w'
            | (_, w') => counted w' = counted w
            end.

Lemma counts_if_bind {A} (m : M World A) (k : A -> M World bool) :
  keeps (same counted) m -> (forall a, counts_if (k a)) -> counts_if (m ≫= k).
Proof.
  intros Hm Hk w. unfold mbind, M_bind. specialize (Hm w). unfold same in Hm.
  destruct (m w) as [[a|why] w1]; simpl in Hm; [|done]. specialize (Hk a w1).
  destruct (k a w1) as [[[]|why] w2]; unfold counted_now in *; by rewrite Hm in Hk.
Qed.

Lemma counts_if_count status c calls : counts_if (count status ;; on_span c calls ;; mret true).
Proof.
  intros w. pose proof (counts_once_count status w) as Hc. unfold mbind at 1, M_bind at 1.
  destruct (count status w) as [[u|why] w1]; [|done]. by destruct c as [? ? ? []].
Qed.

Lemma counts_if_not (m : M World unit) : keeps (same counted) m -> counts_if (m ;; mret false).
Proof. intros Hm. apply counts_if_bind; [done|]. by intros _ w. Qed.

Lemma counts_if_then (m : M World bool) (k : M World unit) :
  counts_if m -> counts_once k -> counts_once (m ≫= fun b => if b : bool then mret tt else k).
Proof.
  intros Hm Hk w. unfold mbind, M_bind. specialize (Hm w).
  destruct (m w) as [[[]|why] w1]; simpl; try done.
  specialize (Hk w1). destruct (k w1) as [[[]|why] w2]; unfold counted_now in *; by rewrite Hm in Hk.
Qed.

Lemma counts_if_serve_cached c : counts_if (serve_cached c).
Proof.
  unfold serve_cached. do 2 (apply counts_if_bind; [by keep_steps|intros ?]).
  case_if; [|by intros w]. apply counts_if_bind; [by keep_steps|]. intros rdb.
  destruct (cache_Get _ _ _).
  - do 5 (apply counts_if_bind; [by keep_steps; eauto with gw|intros ?]). apply counts_if_count.
  - apply counts_if_bind; [eauto with gw|]. intros _. apply counts_if_not. eauto with gw.
Qed.

Lemma counts_once_serve_body c : counts_once (serve_body c).
Proof.
  unfold serve_body, refuse, tag_error. apply counts_once_bind; [eauto with gw|]. intros []; [eauto with gw|].
  apply counts_once_bind; [eauto with gw|]. intros []; [eauto with gw|].
  apply counts_once_bind; [eauto with gw|]. intros []; simpl; [|eauto with gw].
  do 2 (apply counts_once_bind; [by keep_steps|intros ?]).
  destruct (Route _ _ _) as [m|]; [|apply counts_once_bind; eauto with gw].
  unfold serve_matched, tag_error. do 3 (apply counts_once_bind; [by keep_steps|intros ?]).
  case_if; [eauto with gw|]. apply counts_once_bind; [eauto with gw|]. intros _.
  apply counts_if_then; [apply counts_if_serve_cached|apply counts_once_proxy_request].
Qed.

(** A relation that no step of the handler's body breaks. *)
Class BodyFrame (R : World -> World -> Prop) : Prop := {
  body_frame :: Frame R;
  body_gw f w : R w (on_gw f w);
  body_req f w : R w (on_req f w);
  body_call p out w : R w (log_call p out w);
  body_count l w : R w (on_metrics (count_labels l) w);
  body_hit w : R w (on_metrics count_hit w);
  body_block w : R w (on_metrics count_block w);
  body_trip w : R w (on_metrics count_trip w);
  body_active n w : R w (on_metrics (add_activeConnections n) w);
  body_conns n w : R w (on_metrics (on_stats (add_active n)) w)
}.

Section Body.
Context (R : World -> World -> Prop) `{!BodyFrame R}.

#[local] Hint Extern 1 (R _ _) =>
  first [ apply body_gw | apply body_req | apply body_call | apply body_count | apply body_hit
        | apply body_block | apply body_trip | apply body_active | apply body_conns
        | apply frame_rec ] : gw.

Lemma body_attempt backend timeout ip : keeps R (attempt backend timeout ip).
Proof. unfold attempt, forward_attempt. keep_steps. Qed.

#[local] Hint Resolve body_attempt : gw.

Lemma body_retry m c timeout left n backend e : keeps R (retry m c timeout left n backend e).
Proof.
  revert n backend e. induction left as [|left IH]; intros n backend e; cbn [retry];
    unfold choose_next; keep_steps; eauto 6 with gw.
Qed.

#[local] Hint Resolve body_retry : gw.

Lemma body_serve_body c : keeps R (serve_body c).
Proof. unfold serve_body, serve_matched, proxy_request, tag_error. keep_steps. Qed.
End Body.

Definition observed (w : World) :=
  (mt_requestDuration (w_metrics w), ds_TotalRequests (mt_dashStats (w_metrics w))).

#[local] Instance observed_body : BodyFrame (same observed).
Proof. split; try done. by split; [typeclasses eauto|..]. Qed.

(** The handler up to its body: the clock, the dashboard, the log and the span. *)
Lemma ServeHTTP_run w :
  let w0 := (Now w).2 in
  let c := locals (w_now w0) w0 in
  exists f, ServeHTTP w =
    match record_dash w0 with
    | (Ret _, w1) => deferring (finish_span c) (deferring_call (observe_duration c) (serve_body c)) (on_trace f w1)
    | (Panic why, w1) => (Panic why, w1)
    end.
Proof.
  intros w0 c. unfold ServeHTTP. rewrite (bind_Ret Now _ w (w_now w0) w0 eq_refl).
  rewrite (bind_Ret (gets _) _ w0 c w0 eq_refl).
  destruct (record_dash w0) as [[u|why] w1] eqn:E; last first.
  { exists id. by rewrite (bind_Panic _ _ _ _ _ E). }
  rewrite (bind_Ret _ _ _ _ _ E), (bind_Ret (reqLog _ _ _ _) _ _ tt _ eq_refl).
  unfold start_span, on_span. clearbody c. destruct (lc_span c) eqn:Ec; by eexists (fun t => _).
Qed.

(** The deferred observation: one more duration, under the labels of the
    request, or a panic over them. *)
Lemma observe_duration_run c w :
  exists w1, w_req w1 = w_req w /\ w_metrics w1 = w_metrics w /\
    observe_duration c w =
      (if env_label_ok (w_method w) && env_label_ok (w_path w) then
         (Ret tt, on_metrics (observe_labels (w_method w, w_path w,
            Z.max int64_min (Z.min int64_max (w_now w1 - lc_start c)))) w1)
       else (Panic label_panic, w1)).
Proof.
  exists (Now w).2. split_and!; [done..|].
  unfold observe_duration, Since, WithLabelValues, mbind, M_bind, gets, Now. simpl.
  change (w_method _) with (w_method w). change (w_path _) with (w_path w).
  destruct (env_label_ok (w_method w)); [|done]. by destruct (env_label_ok (w_path w)).
Qed.

(** C4: every request is accounted for exactly once. The dashboard's total grows
    by one. When the handler returns, on any of its paths, the request counter is
    incremented once and the duration observed once, under the same method and
    path; when it panics the counter is not incremented, and the duration is
    observed all the same unless the panic is the metrics client's, over a label
    that it does not accept. *)
Theorem request_accounting (w : World) :
  0 <= ds_histIdx (mt_dashStats (w_metrics w)) ->
  let '(o, w') := ServeHTTP w in
  let m := w_metrics w in
  let m' := w_metrics w' in
  ds_TotalRequests (mt_dashStats m') = wrap64 (ds_TotalRequests (mt_dashStats m) + 1) /\
  match o with
  | Ret _ => exists status d,
      mt_requestsTotal m' = mt_requestsTotal m ++ [(w_method w', w_path w', status)] /\
      mt_requestDuration m' = mt_requestDuration m ++ [(w_method w', w_path w', d)]
  | Panic why =>
      mt_requestsTotal m' = mt_requestsTotal m /\
      (why = label_panic /\ mt_requestDuration m' = mt_requestDuration m \/
       exists d, mt_requestDuration m' = mt_requestDuration m ++ [(w_method w', w_path w', d)])
  end.
Proof.
  intros Hi. destruct (ServeHTTP_run w) as [f ->]. set (c := locals _ _). clearbody c.
  unfold record_dash, stats_RecordRequest. cbn [w_metrics Now set_clock snd].
  replace (go_rem (ds_histIdx (mt_dashStats (w_metrics w))) 48 <? 0) with false
    by (unfold go_rem; pose proof (Z.rem_nonneg (ds_histIdx (mt_dashStats (w_metrics w))) 48); lia).
  set (w1 := on_trace f _). unfold deferring, deferring_call.
  pose proof (counts_once_serve_body c w1) as Hc.
  pose proof (body_serve_body (same observed) c w1) as Ho. unfold same, observed in Ho.
  destruct (serve_body c w1) as [o w2]. cbn [snd] in Ho. injection Ho as Hd Ht.
  destruct (observe_duration_run c w2) as (w3 & Eq & Em & ->). unfold finish_span, w_method, w_path in *.
  unfold counted_now, counted, w_method, w_path in Hc.
  destruct (env_label_ok _ && env_label_ok _) eqn:El; destruct o as [u|why];
    [destruct Hc as (status & Hc & _)| |destruct Hc as (status & _ & Em' & Ep')|]; destruct (lc_span c);
    cbn in *; rewrite ?Em, ?Eq, ?Hd, ?Ht, ?Hc; split; eauto; by rewrite Em', Ep' in El.
Qed.

(** ** Gauges *)

Definition conns (h : heap) : list Z := map b_Connections h.

Definition gauges (w : World) :=
  (mt_activeConnections (w_metrics w), ds_ActiveConns (mt_dashStats (w_metrics w)),
   conns (sr_heap (gw_router (w_gw w)))).

(** The counters are values of their type. *)
Definition gauges_ok (w : World) : Prop :=
  is_int64 (ds_ActiveConns (mt_dashStats (w_metrics w))) /\
  List.Forall is_int64 (conns (sr_heap (gw_router (w_gw w)))).

Definition balanced (w w' : World) : Prop := gauges_ok w -> gauges w' = gauges w.

Lemma gauges_ok_same w w' : gauges w' = gauges w -> gauges_ok w -> gauges_ok w'.
Proof. unfold gauges, gauges_ok. intros [= _ -> ->]. done. Qed.

#[local] Instance balanced_pre : PreOrder balanced.
Proof.
  split; [by intros w|]. intros w1 w2 w3 H12 H23 Hok. rewrite H23, H12; [done..|].
  by eapply gauges_ok_same; [apply H12|].
Qed.

#[local] Instance balanced_frame : Frame balanced.
Proof. split; [typeclasses eauto|by intros..]. Qed.

#[local] Instance gauges_frame : Frame (same gauges).
Proof. by split; [typeclasses eauto|..]. Qed.

Lemma conns_on_backend f g p h :
  (forall b, b_Connections (f b) = g (b_Connections b)) ->
  conns (on_backend f p h) = alter g p (conns h).
Proof.
  intros Hf. unfold conns, on_backend. revert p. induction h as [|b h IH]; intros [|p]; try done.
  - cbn. by rewrite Hf.
  - cbn. f_equal. apply IH.
Qed.

Lemma conns_inc_dec p l :
  List.Forall is_int64 l ->
  alter (fun c => wrap64 (c + -1)) p (alter (fun c => wrap64 (c + 1)) p l) = l.
Proof.
  intros Hl. apply list_eq. intros i. rewrite Forall_lookup in Hl.
  destruct (decide (i = p)) as [->|]; [|by rewrite !list_lookup_alter_ne].
  rewrite !list_lookup_alter_eq. destruct (l !! p) as [c|] eqn:E; simpl; [|done].
  f_equal. apply (wrap64_add_sub c 1). eauto.
Qed.

(** An attempt puts back what it took, also when the proxy panics. *)
Lemma balanced_attempt backend timeout ip : keeps balanced (attempt backend timeout ip).
Proof.
  intros w Hok. pose proof Hok as [Ha Hc].
  unfold attempt, mbind, M_bind, modify, deferring. cbv beta iota.
  assert (keeps (same gauges) (forward_attempt backend timeout ip)) as Hb
    by (unfold forward_attempt; keep_steps).
  match goal with |- context [forward_attempt backend timeout ip ?x] =>
    specialize (Hb x); destruct (forward_attempt backend timeout ip x) as [o w2] end.
  unfold same, gauges in *. cbn in *. injection Hb as E1 E2 E3.
  rewrite E1, E2. rewrite (conns_on_backend DecConnections (fun c => wrap64 (c + -1))), E3 by done.
  rewrite (conns_on_backend IncConnections (fun c => wrap64 (c + 1))) by done.
  rewrite conns_inc_dec by done. f_equal. f_equal; [lia|]. by apply (wrap64_add_sub _ 1).
Qed.

Lemma balanced_RecordFailure now p w :
  balanced w (on_gw (with_heap (on_backend (RecordFailure now) p)) w).
Proof.
  intros _. unfold gauges. cbn. rewrite (conns_on_backend _ id) by done.
  by rewrite list_alter_id.
Qed.

#[local] Hint Resolve balanced_attempt balanced_RecordFailure : gw.
#[local] Hint Extern 1 (balanced _ _) => done : gw.

Lemma balanced_retry m c timeout left n backend e : keeps balanced (retry m c timeout left n backend e).
Proof.
  revert n backend e. induction left as [|left IH]; intros n backend e; cbn [retry]; unfold choose_next;
    keep_steps; eauto 6 with gw.
Qed.

#[local] Hint Resolve balanced_retry : gw.

Lemma balanced_serve_body c : keeps balanced (serve_body c).
Proof. unfold serve_body, serve_matched, proxy_request, tag_error. keep_steps. Qed.

(** C5: no request leaks a connection. After a request, whether it returned or
    panicked, the gauge of active connections, the dashboard's, and the
    connection count of every backend are what they were before: so
    least-connections balancing is never skewed by requests that have ended. *)
Theorem connections_balanced (w : World) :
  gauges_ok w -> gauges (ServeHTTP w).2 = gauges w.
Proof.
  revert w. change (keeps balanced ServeHTTP). unfold ServeHTTP, observe_duration. keep_steps.
  - intros w. unfold record_dash, stats_RecordRequest. by case_if.
  - apply balanced_serve_body.
Qed.

(** ** Contact with the upstreams *)

Definition pool_backends (pool : ptr) (w : World) : option (list ptr) :=
  sp_backends <$> sr_pools (gw_router (w_gw w)) !! pool.

(** The calls between two worlds: at most [n], to the given backends only. *)
Definition extends (n : nat) (L : list ptr) (w w' : World) : Prop :=
  exists l, w_calls w' = w_calls w ++ l /\ (length l <= n)%nat /\ List.Forall (fun c => In c.1 L) l.

Lemma extends_same n L w w' : w_calls w' = w_calls w -> extends n L w w'.
Proof. intros E. exists []. rewrite app_nil_r. split_and!; [done|simpl; lia|constructor]. Qed.

Lemma extends_trans n n' L w1 w2 w3 :
  extends n L w1 w2 -> extends n' L w2 w3 -> extends (n + n') L w1 w3.
Proof.
  intros (l & E & Hn & Hl) (l' & E' & Hn' & Hl'). exists (l ++ l').
  rewrite E', E, app_assoc, length_app. split_and!; [done|lia|]. by apply List.Forall_app.
Qed.

Section Sends.
Context (pool : ptr) (L : list ptr).

(** [m] sends at most [n] requests, to backends of the pool, and returns values
    in [Q]. *)
Definition sends {A} (n : nat) (Q : A -> Prop) (m : M World A) : Prop :=
  forall w, pool_backends pool w = Some L ->
    pool_backends pool (m w).2 = Some L /\ extends n L w (m w).2 /\
    (forall a, (m w).1 = Ret a -> Q a).

Lemma sends_bind {A B} n n' (Q : A -> Prop) (Q' : B -> Prop) m k :
  sends n Q m -> (forall a, Q a -> sends n' Q' (k a)) -> sends (n + n') Q' (m ≫= k).
Proof.
  intros Hm Hk w Hw. unfold mbind, M_bind. destruct (Hm w Hw) as (Hp & He & Hq).
  destruct (m w) as [[a|why] w1]; simpl in *.
  - destruct (Hk a (Hq a eq_refl) w1 Hp) as (Hp' & He' & Hq'). split_and!; auto.
    by eapply extends_trans.
  - split_and!; [done| |done]. destruct He as (l & ? & ? & ?). exists l. split_and!; [done|lia|done].
Qed.

Lemma sends_weaken {A} n n' (Q Q' : A -> Prop) m :
  sends n Q m -> (n <= n')%nat -> (forall a, Q a -> Q' a) -> sends n' Q' m.
Proof.
  intros Hm Hn HQ w Hw. destruct (Hm w Hw) as (Hp & (l & ? & ? & ?) & Hq). split_and!; auto.
  exists l. split_and!; [done|lia|done].
Qed.

(** The pool's backends and the calls so far. *)
Definition traffic (w : World) := (pool_backends pool w, w_calls w).

#[local] Instance traffic_frame : Frame (same traffic).
Proof. by split; [typeclasses eauto|..]. Qed.

Lemma sends_quiet {A} (m : M World A) : keeps (same traffic) m -> sends 0 (fun _ => True) m.
Proof.
  intros Hm w Hw. specialize (Hm w). unfold same, traffic in Hm. injection Hm as E1 E2.
  split_and!; [congruence|by apply extends_same|done].
Qed.

Lemma sends_deferring {A} n (Q : A -> Prop) f m :
  sends n Q m -> (forall w, traffic (f w) = traffic w) -> sends n Q (deferring f m).
Proof.
  intros Hm Hf w Hw. unfold deferring. destruct (Hm w Hw) as (Hp & (l & He & Hn & Hl) & Hq).
  destruct (m w) as [o w1]. simpl in *. specialize (Hf w1). unfold traffic in Hf.
  injection Hf as E1 E2. split_and!; [congruence| |done]. exists l. by rewrite E2.
Qed.

Lemma traffic_NextPeer_of ip : keeps (same traffic) (NextPeer_of pool ip).
Proof.
  apply keeps_NextPeer_of; [typeclasses eauto|]. intros w s s' Hs Eb. unfold same, traffic, pool_backends.
  cbn. rewrite list_lookup_insert_eq by (by apply lookup_lt_Some in Hs). rewrite Hs. cbn. by rewrite Eb.
Qed.

Lemma sends_NextPeer_of ip :
  sends 0 (fun peer => forall p, peer = Some p -> In p L) (NextPeer_of pool ip).
Proof.
  intros w Hw. destruct (sends_quiet _ (traffic_NextPeer_of ip) w Hw) as (Hp & He & _).
  split_and!; [done..|]. unfold NextPeer_of, mbind, M_bind, gets, modify.
  unfold pool_backends in Hw. destruct (sr_pools _ !! pool) as [s|]; [|done]. injection Hw as Hw.
  destruct (NextPeer _ s ip) as [o s'] eqn:En. simpl. apply NextPeer_pick in En as [_ Hpick].
  intros a -> p ->. rewrite <- Hw. by apply Hpick.
Qed.

Lemma sends_forward_attempt backend timeout ip :
  In backend L -> sends 1 (fun _ => True) (forward_attempt backend timeout ip).
Proof.
  intros Hb. unfold forward_attempt. apply (sends_bind 0 1 (fun _ => True)).
  { apply sends_quiet. keep_steps. }
  intros now _. apply (sends_bind 0 1 (fun _ => True)); [apply sends_quiet; keep_steps|]. intros _ _.
  unfold proxy_ServeHTTP. do 3 (apply (sends_bind 0 1 (fun _ => True));
    [apply sends_quiet; keep_steps|intros ? _]).
  destruct (outgoing _ _) as [out|e].
  - apply (sends_bind 0 1 (fun _ => True)); [apply sends_quiet; keep_steps|]. intros n _.
    apply (sends_bind 1 0 (fun _ => True)); [|intros _ _; apply sends_quiet; keep_steps].
    intros w Hw. split_and!; [done| |done]. exists [(backend, out)]. split_and!; [done|simpl; lia|].
    by repeat constructor.
  - apply (sends_weaken 0 1 (fun _ => True)); [|lia|done]. apply sends_quiet. keep_steps.
Qed.

Lemma traffic_heap f w : traffic (on_gw (with_heap f) w) = traffic w.
Proof. done. Qed.

Lemma sends_attempt backend timeout ip :
  In backend L -> sends 1 (fun _ => True) (attempt backend timeout ip).
Proof.
  intros Hb. unfold attempt. apply (sends_bind 0 1 (fun _ => True)); [apply sends_quiet; keep_steps|].
  intros _ _. apply sends_deferring; [|done].
  do 2 (apply (sends_bind 0 1 (fun _ => True)); [apply sends_quiet; keep_steps|intros _ _]).
  do 2 (apply sends_deferring; [|done]). by apply sends_forward_attempt.
Qed.

Lemma sends_breaker_Call fn :
  sends 1 (fun _ => True) fn -> sends 1 (fun _ => True) (breaker_Call fn).
Proof.
  intros Hf. unfold breaker_Call, Call.
  do 2 (apply (sends_bind 0 1 (fun _ => True)); [apply sends_quiet; keep_steps|intros ? _]).
  destruct (cb_admit _ _) as [cb|].
  - apply (sends_bind 0 1 (fun _ => True)); [apply sends_quiet; keep_steps|]. intros _ _.
    apply (sends_bind 1 0 (fun _ => True)); [done|]. intros err _. apply sends_quiet. keep_steps.
  - apply (sends_weaken 0 1 (fun _ => True)); [|lia|done]. apply sends_quiet. keep_steps.
Qed.

(** A last step without calls. *)
Lemma sends_none n {A} (m : M World A) : keeps (same traffic) m -> sends n (fun _ => True) m.
Proof. intros Hm. apply (sends_weaken 0 n (fun _ => True)); [by apply sends_quiet|lia|done]. Qed.

Lemma sends_choose_next m ip n backend :
  m_Pool m = pool -> In backend L -> sends 0 (fun p => In p L) (choose_next m ip n backend).
Proof.
  intros Hm Hb. unfold choose_next.
  case_if; [|by intros w Hw; split_and!; [|apply extends_same|intros ? [= <-]]].
  apply (sends_bind 0 0 (fun _ => True)); [apply sends_quiet; keep_steps|]. intros _ _.
  apply (sends_bind 0 0 (fun peer => forall p, peer = Some p -> In p L)).
  - rewrite Hm. apply sends_NextPeer_of.
  - intros [p|] Hp w Hw; (split_and!; [done|by apply extends_same|]); intros ? [= <-]; auto.
Qed.

Lemma sends_retry m c timeout left n backend e :
  m_Pool m = pool -> In backend L ->
  sends left (fun _ => True) (retry m c timeout left n backend e).
Proof.
  intros Hm. revert n backend e. induction left as [|left IH]; intros n backend e Hb; cbn [retry].
  { apply sends_none. eauto with gw. }
  apply (sends_bind 1 left (fun _ => True)); [by apply sends_breaker_Call, sends_attempt|].
  intros [err|] _; [|apply sends_none; eauto with gw].
  do 4 (apply (sends_bind 0 left (fun _ => True)); [apply sends_quiet; keep_steps; eauto with gw|intros ? _]).
  case_if; [apply sends_none; eauto with gw|].
  apply (sends_bind 0 left (fun p => In p L)); [by apply sends_choose_next|]. intros p Hp. by apply IH.
Qed.
End Sends.

(** The backends a route may send to. *)
Definition route_backend (w : World) (m : MatchedRoute) (p : ptr) : Prop :=
  exists s, sr_pools (gw_router (w_gw w)) !! m_Pool m = Some s /\ In p (sp_backends s).

Lemma proxy_request_sends m ip w :
  exists l, w_calls (proxy_request m ip w).2 = w_calls w ++ l /\ (length l <= maxRetries)%nat /\
    List.Forall (fun c => route_backend w m c.1) l.
Proof.
  destruct (sr_pools (gw_router (w_gw w)) !! m_Pool m) as [s|] eqn:Es; last first.
  { exists []. unfold proxy_request, NextPeer_of, mbind, M_bind, gets. rewrite Es. cbn.
    rewrite app_nil_r. split_and!; [done|lia|constructor]. }
  assert (sends (m_Pool m) (sp_backends s) maxRetries (fun _ => True) (proxy_request m ip)) as Hs.
  { unfold proxy_request.
    apply (sends_bind _ _ 0 maxRetries (fun peer => forall p, peer = Some p -> In p (sp_backends s)));
      [apply sends_NextPeer_of|].
    intros [p|] Hp; last first.
    { apply sends_none. unfold tag_error. pose proof (traffic_frame (m_Pool m)). keep_steps. }
    pose proof (traffic_frame (m_Pool m)).
    do 6 (apply (sends_bind _ _ 0 maxRetries (fun _ => True)); [apply sends_quiet; keep_steps; eauto with gw|intros ? _]).
    apply sends_retry; auto. }
  destruct (Hs w) as (_ & (l & E & Hl & Hin) & _); [unfold pool_backends; by rewrite Es|].
  exists l. split_and!; [done..|]. eapply List.Forall_impl; [|exact Hin]. intros c Hc. by exists s.
Qed.

(** What the steps before the cache leave alone. *)
Definition front (w : World) :=
  (gw_router (w_gw w), gw_cfg (w_gw w), w_req w, w_calls w, mt_cacheHitsTotal (w_metrics w)).

Definition untouched (w : World) := (w_calls w, mt_cacheHitsTotal (w_metrics w)).

#[local] Instance front_frame : Frame (same front).
Proof. by split; [typeclasses eauto|..]. Qed.
#[local] Instance untouched_frame : Frame (same untouched).
Proof. by split; [typeclasses eauto|..]. Qed.

Definition hits (w : World) := mt_cacheHitsTotal (w_metrics w).

(** The world after the clock has been read, and the time of the [k]-th
    reading from a world on. *)
Definition tick (w : World) : World := (Now w).2.
Definition reading (k : nat) (w : World) : Z := w_now (Nat.iter k tick w).

(** *** Admission: each step reads the clock once *)

Lemma ddos_blocked_run ip w :
  let d := IsBlocked ip (reading 1 w) (gw_ddosProtection (w_gw w)) in
  ddos_blocked ip w = (Ret d.1, on_gw (with_ddos d.2) (tick w)).
Proof.
  unfold ddos_blocked, reading, tick, mbind, M_bind, gets, modify, Now. cbn.
  by destruct (IsBlocked ip _ _).
Qed.

Lemma ddos_record_run ip w :
  let d := RecordRequest ip (reading 1 w) (gw_ddosProtection (w_gw w)) in
  ddos_record ip w =
    (Ret d.1, (if d.1 then on_metrics count_block else id) (on_gw (with_ddos d.2) (tick w))).
Proof.
  unfold ddos_record, reading, tick, mbind, M_bind, gets, modify, Now. cbn.
  by destruct (RecordRequest ip _ _).
Qed.

Lemma limiter_allow_run ip w :
  let l := rate_allow ip (reading 1 w) (gw_rateLimiter (w_gw w)) in
  limiter_allow ip w = (l.1, on_gw (with_limiter l.2) (tick w)).
Proof.
  unfold limiter_allow, reading, tick, mbind, M_bind, gets, modify, Now, lift_outcome. cbn.
  by destruct (rate_allow ip _ _).
Qed.

(** A request that reaches the cache or an upstream was authorized. *)
Lemma serve_matched_contact m c w :
  exists l, w_calls (serve_matched m c w).2 = w_calls w ++ l /\ (length l <= maxRetries)%nat /\
    List.Forall (fun c => route_backend w m c.1) l /\
    (l <> [] \/ hits (serve_matched m c w).2 <> hits w ->
     authorized m (w_req w) (gw_cfg (w_gw w)) (reading 1 w) = true).
Proof.
  unfold serve_matched.
  rewrite (bind_Ret Now _ w _ _ eq_refl), (bind_Ret (gets _) _ _ _ _ eq_refl), (bind_Ret (gets _) _ _ _ _ eq_refl).
  cbn [w_req w_gw set_clock]. change (w_now w + Z.of_N (env_delay (w_ticks w))) with (reading 1 w).
  set (t := reading 1 w). set (w1 := set_clock t _ w).
  assert (w_calls w1 = w_calls w /\ hits w1 = hits w /\ gw_router (w_gw w1) = gw_router (w_gw w))
    as (Ec & Eh & Er) by done.
  clearbody w1.
  destruct (authorized m (w_req w) (gw_cfg (w_gw w)) t) eqn:Ea; cbn [negb]; last first.
  { exists []. match goal with |- context [(?refusal w1).2] =>
      assert (keeps (same untouched) refusal) as Hu by (unfold tag_error; keep_steps) end.
    specialize (Hu w1). unfold same, untouched in Hu. injection Hu as Hc Hh. unfold hits in *.
    rewrite app_nil_r. split_and!; [congruence|simpl; lia|constructor|].
    intros [?|Hne]; [done|]. exfalso. apply Hne. congruence. }
  set (pre := fun w => (gw_router (w_gw w), w_calls w)).
  assert (Frame (same pre)) as Hf by (by split; [typeclasses eauto|..]).
  match goal with |- context [on_span c ?l] => destruct (on_span_run c l w1) as [f Ef] end.
  rewrite (bind_Ret _ _ _ _ _ Ef). set (w2 := on_trace f w1).
  assert (keeps (same pre) (serve_cached c)) as Hk by eauto with gw.
  specialize (Hk w2). unfold same, pre in Hk. cbn [w_gw w_calls w2 on_trace] in Hk.
  destruct (serve_cached c w2) as [[[]|why] w3] eqn:E3; cbn [snd] in Hk; injection Hk as Hr Hc;
    [rewrite (bind_Ret _ _ _ _ _ E3)..|rewrite (bind_Panic _ _ _ _ _ E3)].
  - exists []. rewrite app_nil_r. split_and!; [cbn; congruence|simpl; lia|constructor|eauto].
  - destruct (proxy_request_sends m c w3) as (l & E & Hl & Hin). exists l.
    split_and!; [congruence|done| |eauto]. eapply List.Forall_impl; [|exact Hin].
    unfold route_backend. intros q. by rewrite Hr, Er.
  - exists []. rewrite app_nil_r. split_and!; [cbn; congruence|simpl; lia|constructor|eauto].
Qed.

(** What was sent between two worlds, and what follows when something was sent
    or served from the cache. *)
Definition contact (P : list (ptr * Request) -> Prop) (w w' : World) : Prop :=
  exists l, w_calls w' = w_calls w ++ l /\ (length l <= maxRetries)%nat /\
    (l <> [] \/ hits w' <> hits w -> P l).

(** A request that never gets past a step. *)
Lemma untouched_contact P w w1 w' :
  front w1 = front w -> untouched w' = untouched w1 -> contact P w w'.
Proof.
  unfold front, untouched, contact, hits. intros [= _ _ _ Ec Eh] [= Ec' Eh']. exists [].
  rewrite app_nil_r. split_and!; [congruence|simpl; lia|]. intros [?|Hne]; [done|]. congruence.
Qed.

(** The condition under which the handler's body contacts anyone, from a world
    on in which the clock was last read at its start. *)
Definition may_contact (ip : string) (w : World) (l : list (ptr * Request)) : Prop :=
  let g := w_gw w in
  let checked := IsBlocked ip (reading 1 w) (gw_ddosProtection g) in
  checked.1 = false /\
  (RecordRequest ip (reading 2 w) checked.2).1 = false /\
  (rate_allow ip (reading 3 w) (gw_rateLimiter g)).1 = Ret true /\
  exists m, Route (gw_router g) (rq_Host (w_req w)) (u_Path (rq_URL (w_req w))) = Some m /\
    authorized m (w_req w) (gw_cfg g) (reading 4 w) = true /\
    List.Forall (fun c => route_backend w m c.1) l.

Lemma refusal_contact P (m : M World unit) w w1 :
  front w1 = front w -> keeps (same untouched) m -> contact P w (m w1).2.
Proof. intros F Hm. apply (untouched_contact _ _ w1); [done|apply Hm]. Qed.

Lemma serve_body_contact c w : contact (may_contact (lc_ip c) w) w (serve_body c w).2.
Proof.
  unfold serve_body. rewrite (bind_Ret _ _ _ _ _ (ddos_blocked_run (lc_ip c) w)).
  destruct (IsBlocked (lc_ip c) (reading 1 w) _) as [blocked d] eqn:Eb. cbn [fst snd].
  set (w1 := on_gw (with_ddos d) (tick w)).
  destruct blocked; [apply (refusal_contact _ _ w w1); [done|eauto with gw]|].
  rewrite (bind_Ret _ _ _ _ _ (ddos_record_run (lc_ip c) w1)).
  change (reading 1 w1) with (reading 2 w). change (gw_ddosProtection (w_gw w1)) with d.
  destruct (RecordRequest (lc_ip c) (reading 2 w) d) as [[] d'] eqn:Er; cbn [fst snd];
    [eapply refusal_contact; [|eauto with gw]; done|].
  match goal with |- context [(limiter_allow _ ≫= _) ?v] => set (w2 := v) end.
  pose proof (limiter_allow_run (lc_ip c) w2) as El. change (reading 1 w2) with (reading 3 w) in El.
  change (gw_rateLimiter (w_gw w2)) with (gw_rateLimiter (w_gw w)) in El.
  destruct (rate_allow (lc_ip c) (reading 3 w) (gw_rateLimiter (w_gw w))) as [[[]|why] l] eqn:Ea; cbn [fst snd] in El.
  3:{ rewrite (bind_Panic _ _ _ _ _ El). by apply (untouched_contact _ _ w2). }
  2:{ rewrite (bind_Ret _ _ _ _ _ El). cbn [negb]. eapply refusal_contact; [|eauto with gw]; done. }
  rewrite (bind_Ret _ _ _ _ _ El). cbn [negb]. set (w3 := on_gw (with_limiter l) (tick w2)).
  rewrite !(bind_Ret (gets _) _ w3 _ w3 eq_refl).
  change (w_req w3) with (w_req w). change (gw_router (w_gw w3)) with (gw_router (w_gw w)).
  destruct (Route _ _ _) as [m|] eqn:Em; [|apply (refusal_contact _ _ w w3); [done|keep_steps]].
  destruct (serve_matched_contact m c w3) as (sent & Ec & Hl & Hin & Ha). exists sent.
  split_and!; [done..|]. intros Hc%Ha. unfold may_contact. rewrite Eb. cbn [fst snd]. rewrite Er, Ea. cbn [fst].
  split_and!; [done..|]. by exists m.
Qed.

Lemma observe_duration_untouched c w :
  w_calls (observe_duration c w).2 = w_calls w /\ hits (observe_duration c w).2 = hits w.
Proof.
  assert (keeps (same untouched) (observe_duration c)) as Hk by (unfold observe_duration; keep_steps).
  specialize (Hk w). unfold same, untouched in Hk. by injection Hk.
Qed.

End Laws.

(** ** On the concrete gateway *)

Lemma request_accounting_witness :
  let w := demo_world 5 ∅ (demo_request "/shop/cart" ∅) in
  let w' := (demo_serve [demo_ok "hi"] w).2 in
  exists labels observed, mt_requestsTotal (w_metrics w') = [labels] /\
    mt_requestDuration (w_metrics w') = [observed].
Proof.
  intros w w'.
  pose proof (@request_accounting ascii_tables demo_jwt exact_rate demo_redis (demo_env [demo_ok "hi"]) w
                ltac:(vm_compute; discriminate)) as Hx.
  change (ServeHTTP w) with (demo_serve [demo_ok "hi"] w) in Hx.
  assert ((demo_serve [demo_ok "hi"] w).1 = Ret tt) as Ho by (vm_compute; reflexivity).
  unfold w'. destruct (demo_serve [demo_ok "hi"] w) as [o w'']. cbn [fst] in Ho. subst o.
  destruct Hx as (_ & status & d & Hl & Hd). eexists _, _. split; [exact Hl|exact Hd].
Defined.

Lemma connections_balanced_witness :
  let w := demo_world 5 ∅ (demo_request "/shop/cart" ∅) in
  gauges (demo_serve [mkExchange [] (RtResponse 200 ∅ ["par"] true)] w).2 = gauges w.
Proof.
  intros w. unfold demo_serve.
  apply (@connections_balanced ascii_tables demo_jwt exact_rate demo_redis
           (demo_env [mkExchange [] (RtResponse 200 ∅ ["par"] true)]) w).
  assert (is_int64 0) as H0 by (unfold is_int64, int64_min, int64_max; lia).
  split; [exact H0|].
  assert (conns (sr_heap (gw_router (w_gw w))) = [0; 0; 0]) as -> by (vm_compute; reflexivity).
  repeat (apply List.Forall_cons; [exact H0|]). apply List.Forall_nil.
Defined.
