(* ===== verification/GatewayStatus.v ===== *)
(** * What a request is counted as, and what the client gets

    Under upstreams that send no informational responses and switch no
    protocols, the status under which a request is counted is the status its
    client receives; and faults that reach no upstream at all. *)

From Stdlib Require Import ZArith Lia Ascii String List.
From stdpp Require Import base list strings gmap.
From S2P Require Import Prelude Logic GoStrings Hosts Urls Pool Router Breaker DDoS Http.
From S2P Require Import Recorder Auth RateLimiter Proxy Config Dashboard Cache Fmt Logger.
From S2P Require Import Tracing Gateway.
From S2P Require Import GatewayDemo GatewayLaws.

(** ** The recorder, without its byte counter *)

(** Nothing has been written through the recorder or beneath it. *)
Record pristine (rr : responseRecorder) : Prop := {
  pr_committed : rr_committed rr = false;
  pr_status : rr_status rr = 0;
  pr_wrote : rs_wroteHeader (rr_ResponseWriter rr) = false;
  pr_hijacked : rs_hijacked (rr_ResponseWriter rr) = false;
  pr_body : rs_body (rr_ResponseWriter rr) = ""
}.

(** A final status has gone out, and the recorder knows it. *)
Record settled (rr : responseRecorder) : Prop := {
  st_committed : rr_committed rr = true;
  st_status : rr_status rr = rs_status (rr_ResponseWriter rr);
  st_range : 200 <= rr_status rr <= 999;
  st_wrote : rs_wroteHeader (rr_ResponseWriter rr) = true;
  st_hijacked : rs_hijacked (rr_ResponseWriter rr) = false
}.

Lemma settled_status rr : settled rr -> Status rr = client_status (rr_ResponseWriter rr).
Proof.
  intros [_ Hs Hr Hw _]. unfold Status, client_status. rewrite Hw, <- Hs.
  by replace (rr_status rr =? 0) with false by lia.
Qed.

Lemma pristine_header (h : Header) rr : pristine rr -> pristine (rw_setHeader h rr).
Proof. intros []. by split. Qed.

Lemma WriteHeader_settles code rr :
  pristine rr -> 200 <= code <= 999 ->
  exists rr', WriteHeader code rr = (Ret tt, rr') /\ settled rr' /\ rr_status rr' = code /\
    rs_body (rr_ResponseWriter rr') = "".
Proof.
  intros [H1 H2 H3 H4 H5] Hc. unfold WriteHeader, gets, mbind, M_bind, modify, on_rw. rewrite H1. simpl.
  rewrite response_WriteHeader_final by done. eexists. split; [done|]. by split_and!.
Qed.

Lemma Write_settled b rr :
  settled rr -> exists res rr', Write b rr = (Ret res, rr') /\ settled rr' /\ rr_status rr' = rr_status rr.
Proof.
  intros [H1 H2 H3 H4 H5]. unfold Write, on_rw, response_Write, gets, mbind, M_bind, modify, mret, M_ret.
  rewrite H1, H5, H4. destruct (String.eqb b ""); [|destruct (bodyAllowedForStatus _); [case_take|]];
    (eexists _, _; split; [done|]); by split_and!.
Qed.

Lemma copy_chunks_settled chunks rr :
  settled rr -> exists b rr', copy_chunks chunks rr = (Ret b, rr') /\ settled rr'.
Proof.
  revert rr. induction chunks as [|c chunks IH]; intros rr Hs; [by eexists _, _|].
  cbn [copy_chunks]. destruct (Write_settled c rr Hs) as (res & rr' & E & Hs' & _).
  rewrite (bind_Ret _ _ _ _ _ E). destruct res.2; [by eexists _, _|]. by apply IH.
Qed.

(** ** Upstreams without informational responses and protocol switches *)

Definition plain_exchange (x : exchange) : Prop :=
  x_early x = [] /\
  match x_final x with
  | RtError _ => True
  | RtResponse status _ _ _ => 200 <= status <= 999
  | RtSwitch _ _ _ => False
  end.

(** A round trip either fails and leaves the response alone, or answers. *)
Lemma forward_plain in_server x rr :
  pristine rr -> plain_exchange x ->
  match forward in_server x rr with
  | (Ret None, rr') => settled rr'
  | (Ret (Some _), rr') => pristine rr'
  | (Panic _, _) => True
  end.
Proof.
  intros Hp [He Hf]. unfold forward. rewrite He. rewrite (bind_Ret _ _ rr tt rr) by done.
  destruct (x_final x) as [e|status hdr chunks cut|]; [done| |done].
  unfold set_headers. rewrite (bind_Ret (modify _) _ rr tt _ eq_refl).
  match goal with |- context [(WriteHeader status ≫= _) ?r0] => set (rr0 := r0) end.
  assert (pristine rr0) as Hp0 by (by apply pristine_header).
  destruct (WriteHeader_settles status rr0 Hp0 Hf) as (rr1 & E1 & Hs1 & _).
  rewrite (bind_Ret _ _ _ _ _ E1).
  destruct (copy_chunks_settled chunks rr1 Hs1) as (b & rr2 & E2 & Hs2).
  rewrite (bind_Ret _ _ _ _ _ E2). by destruct ((b || cut) && in_server).
Qed.

(** [http.Error] through the recorder, before anything was written. *)
Lemma http_Error_settles msg code rr :
  pristine rr -> 200 <= code <= 999 ->
  exists rr', http_Error msg code rr = (Ret tt, rr') /\ settled rr' /\ rr_status rr' = code.
Proof.
  intros Hp Hc. unfold http_Error. rewrite (bind_Ret (modify _) _ rr tt _ eq_refl).
  change (rw_WriteHeader code) with (WriteHeader code). change (@rw_Write responseRecorder _) with Write.
  match goal with |- context [(WriteHeader code ≫= _) ?r0] => set (rr0 := r0) end.
  assert (pristine rr0) as Hp0 by (by apply pristine_header).
  destruct (WriteHeader_settles code rr0 Hp0 Hc) as (rr1 & E1 & Hs1 & Hc1 & _).
  rewrite (bind_Ret _ _ _ _ _ E1).
  destruct (Write_settled (msg +:+ newline) rr1 Hs1) as (res & rr2 & E2 & Hs2 & Hc2).
  rewrite (bind_Ret _ _ _ _ _ E2). exists rr2. by rewrite Hc2.
Qed.

Section Status.
Context `{UnicodeTables, JwtLib, RateLib, RedisLib, Env}.

(** The response and the request counter. *)
Definition ledger (w : World) := (w_rec w, counted w).

Lemma ledger_keeps {A} (m : M World A) :
  keeps (same ledger) m -> forall w, ledger (m w).2 = ledger w.
Proof. done. Qed.

(** A breaker call is refused, or runs its function between two steps that do
    not touch the ledger. *)
Lemma breaker_Call_ledger fn w :
  (exists w', breaker_Call fn w = (Ret (Some error_open), w') /\ ledger w' = ledger w) \/
  (exists w1, ledger w1 = ledger w /\ (breaker_Call fn w).1 = (fn w1).1 /\
     ledger (breaker_Call fn w).2 = ledger (fn w1).2).
Proof.
  unfold breaker_Call, Call. rewrite (bind_Ret (gets _) _ w _ w eq_refl).
  set (cb := gw_circuitBreaker (w_gw w)).
  assert (exists now w0, (match cb_state_ cb with Open => Now | _ => mret 0 end) w = (Ret now, w0) /\
            ledger w0 = ledger w) as (now & w0 & E0 & L0).
  { destruct (cb_state_ cb); by eexists _, _. }
  rewrite (bind_Ret _ _ _ _ _ E0). destruct (cb_admit cb now) as [cb'|]; [right|left; by exists w0].
  rewrite (bind_Ret (modify _) _ w0 tt _ eq_refl). exists (on_gw (with_breaker cb') w0).
  split; [done|]. destruct (fn (on_gw (with_breaker cb') w0)) as [[err|why] w1] eqn:Ef.
  - rewrite (bind_Ret _ _ _ _ _ Ef). rewrite (bind_Ret (gets _) _ w1 _ w1 eq_refl).
    destruct err as [e|].
    + rewrite (bind_Ret Now _ w1 _ _ eq_refl). destruct (cb_fail _ _) as [cb2 tripped].
      by destruct tripped.
    + done.
  - by rewrite (bind_Panic _ _ _ _ _ Ef).
Qed.

Hypothesis plain : forall n out timeout, plain_exchange (env_upstream n out timeout).

(** What an attempt does to the ledger of a request that has not been answered. *)
Definition attempt_post (w : World) (o : outcome (option string)) (w' : World) : Prop :=
  counted w' = counted w /\
  match o with
  | Ret None => settled (w_rec w')
  | Ret (Some _) => pristine (w_rec w')
  | Panic _ => True
  end.

Lemma forward_attempt_ledger backend timeout ip w :
  pristine (w_rec w) -> attempt_post w (forward_attempt backend timeout ip w).1 (forward_attempt backend timeout ip w).2.
Proof.
  intros Hp. unfold forward_attempt, proxy_ServeHTTP.
  rewrite (bind_Ret Now _ w _ _ eq_refl), (bind_Ret (modify _) _ _ tt _ eq_refl).
  set (w1 := on_req _ _). assert (pristine (w_rec w1) /\ counted w1 = counted w) as [Hp1 Hc1] by done.
  clearbody w1. rewrite (bind_Ret (gets _) _ w1 _ w1 eq_refl).
  destruct (deref _ backend) as [b|why] eqn:Ed.
  - rewrite (bind_Ret _ _ w1 b w1) by done. rewrite (bind_Ret (gets _) _ w1 _ w1 eq_refl).
    destruct (outgoing _ _) as [out|e].
    + rewrite (bind_Ret (gets _) _ w1 _ w1 eq_refl), (bind_Ret (modify _) _ w1 tt _ eq_refl).
      unfold on_rec. pose proof (forward_plain env_in_server
        (env_upstream (length (w_calls w1)) out timeout) (w_rec w1) Hp1 (plain _ _ _)) as Hf.
      cbn [w_rec log_call]. destruct (forward _ _ (w_rec w1)) as [[[e|]|why] rr]; by split.
    + by split.
  - by rewrite (bind_Panic _ _ w1 why w1).
Qed.

Lemma attempt_ledger backend timeout ip w :
  pristine (w_rec w) -> attempt_post w (attempt backend timeout ip w).1 (attempt backend timeout ip w).2.
Proof.
  intros Hp. unfold attempt, mbind, M_bind, modify, deferring. cbv beta iota.
  match goal with |- context [forward_attempt backend timeout ip ?x] => set (w1 := x) end.
  pose proof (forward_attempt_ledger backend timeout ip w1 Hp) as Hf.
  by destruct (forward_attempt backend timeout ip w1) as [o w2].
Qed.

(** The request was counted once, under the status its client gets. *)
Definition honest (w : World) (o : outcome unit) (w' : World) : Prop :=
  match o with
  | Ret _ => exists method path,
      counted w' = counted w ++ [(method, path, Itoa (client_status (rr_ResponseWriter (w_rec w'))))]
  | Panic _ => True
  end.

Lemma count_settled w1 w status :
  counted w1 = counted w -> settled (w_rec w1) -> status = Itoa (Status (w_rec w1)) ->
  honest w (count status w1).1 (count status w1).2.
Proof.
  intros Hc Hs ->. rewrite count_run. case_if; [|done]. unfold honest, counted in *. simpl.
  rewrite Hc, (settled_status _ Hs). eauto.
Qed.

(** The span does not matter. *)
Lemma honest_span (m : M World unit) c calls w w0 :
  honest w0 (m w).1 (m w).2 ->
  honest w0 ((m ;; on_span c calls) w).1 ((m ;; on_span c calls) w).2.
Proof.
  intros Hm. destruct (m w) as [[u|why] w1] eqn:E; [|by rewrite (bind_Panic _ _ _ _ _ E)].
  rewrite (bind_Ret _ _ _ _ _ E). by destruct (on_span_run c calls w1) as [f ->].
Qed.

Lemma NextPeer_of_ledger pool ip w : ledger (NextPeer_of pool ip w).2 = ledger w.
Proof.
  unfold NextPeer_of. rewrite (bind_Ret (gets _) _ w _ w eq_refl).
  destruct (sr_pools _ !! pool) as [s|]; [|done]. by destruct (NextPeer _ s ip).
Qed.

Lemma exhausted_honest c m e w w0 :
  pristine (w_rec w) -> counted w = counted w0 ->
  honest w0 (exhausted c m e w).1 (exhausted c m e w).2.
Proof.
  intros Hp Hc. unfold exhausted, Since.
  rewrite (bind_Ret _ _ w _ _ (bind_Ret Now _ w _ _ eq_refl)), (bind_Ret (reqLog _ _ _ _) _ _ tt _ eq_refl).
  match goal with |- context [(on_rec _ ≫= _) ?v] => set (w1 := v) end.
  assert (pristine (w_rec w1) /\ counted w1 = counted w0) as [Hp1 Hc1] by done. clearbody w1.
  destruct (http_Error_settles ("Service temporarily unavailable: " +:+ e) 503 (w_rec w1) Hp1) as
    (rr & E & Hs & Hst); [lia|].
  rewrite (bind_Ret (on_rec _) _ w1 tt (set_rec rr w1)) by (unfold on_rec; by rewrite E).
  apply honest_span, count_settled; [done|done|]. unfold Status. simpl. by rewrite Hst.
Qed.

Lemma completed_honest c m backend w w0 :
  settled (w_rec w) -> counted w = counted w0 ->
  honest w0 (completed c m backend w).1 (completed c m backend w).2.
Proof.
  intros Hs Hc. unfold completed, Since. rewrite (bind_Ret (gets _) _ w _ w eq_refl),
    (bind_Ret _ _ w _ _ (bind_Ret Now _ w _ _ eq_refl)), (bind_Ret (reqLog _ _ _ _) _ _ tt _ eq_refl).
  by apply honest_span, count_settled.
Qed.

Lemma choose_next_ledger m ip n backend w : ledger (choose_next m ip n backend w).2 = ledger w.
Proof.
  unfold choose_next. case_if; [|done]. rewrite (bind_Ret (Sleep _) _ w tt _ eq_refl).
  match goal with |- context [(_ ≫= _) ?v] => pose proof (NextPeer_of_ledger (m_Pool m) ip v) as Hk;
    destruct (NextPeer_of (m_Pool m) ip v) as [[peer|why] w3] eqn:E3 end;
    [by rewrite (bind_Ret _ _ _ _ _ E3)|by rewrite (bind_Panic _ _ _ _ _ E3)].
Qed.

Lemma retry_honest m c timeout left n backend e w w0 :
  pristine (w_rec w) -> counted w = counted w0 ->
  honest w0 (retry m c timeout left n backend e w).1 (retry m c timeout left n backend e w).2.
Proof.
  revert n backend e w. induction left as [|left IH]; intros n backend e w Hp Hc; cbn [retry].
  { by apply exhausted_honest. }
  set (ip := lc_ip c).
  assert (attempt_post w (breaker_Call (attempt backend timeout ip) w).1
            (breaker_Call (attempt backend timeout ip) w).2) as Ha.
  { destruct (breaker_Call_ledger (attempt backend timeout ip) w) as
      [(w' & -> & [= Er Ec])|(w1 & [= Er Ec] & -> & [= Er' Ec'])]; unfold attempt_post; simpl.
    - by rewrite Ec, Er.
    - pose proof (attempt_ledger backend timeout ip w1) as Ha. rewrite Er in Ha.
      destruct (Ha Hp) as [H1' H2']. rewrite Ec', H1', Ec. split; [done|]. by rewrite Er'. }
  destruct (breaker_Call _ w) as [[[err|]|why] w1] eqn:Eb; cbn in Ha; destruct Ha as [Hc1 Hr1].
  - rewrite (bind_Ret _ _ _ _ _ Eb), (bind_Ret Now _ w1 _ _ eq_refl), (bind_Ret (modify _) _ _ tt _ eq_refl),
      (bind_Ret (reqLog _ _ _ _) _ _ tt _ eq_refl).
    match goal with |- context [(gets _ ≫= _) ?v] => set (w2 := v) end.
    assert (pristine (w_rec w2) /\ counted w2 = counted w0) as [Hp2 Hc2].
    { split; [done|]. by rewrite <- Hc, <- Hc1. }
    clearbody w2. rewrite (bind_Ret (gets _) _ w2 _ w2 eq_refl). unfold Committed. rewrite (pr_committed _ Hp2).
    cbv iota. pose proof (choose_next_ledger m ip n backend w2) as Hn.
    destruct (choose_next m ip n backend w2) as [[next|why] w3] eqn:E3; simpl in Hn; injection Hn as Hr3 Hc3.
    + rewrite (bind_Ret _ _ _ _ _ E3). apply IH; [by rewrite Hr3|congruence].
    + by rewrite (bind_Panic _ _ _ _ _ E3).
  - rewrite (bind_Ret _ _ _ _ _ Eb). apply completed_honest; [done|congruence].
  - by rewrite (bind_Panic _ _ _ _ _ Eb).
Qed.

(** [http.Error] on the response writer, before anything was written. *)
Lemma reject_honest msg code status w :
  pristine (w_rec w) -> 200 <= code <= 999 -> bodyAllowedForStatus code = true ->
  status = Itoa code ->
  honest w (reject msg code status w).1 (reject msg code status w).2.
Proof.
  intros [_ _ Hw Hh Hb] Hc Ha ->. unfold reject.
  destruct (http_Error_response msg code (rr_ResponseWriter (w_rec w)) Hh Hw Hb Hc Ha)
    as (s' & E & Hw' & Hs' & _).
  rewrite (bind_Ret (on_response _) _ w tt (set_rec (with_rw s' (w_rec w)) w))
    by (unfold on_response, on_rec, on_rw; by rewrite E).
  rewrite count_run. case_if; [|done]. cbn. unfold client_status. rewrite Hw', Hs'. eauto.
Qed.

(** The same between a log line and the tags of the span. *)
Lemma refusal_honest cl level text kvs msg code status c calls w :
  pristine (w_rec w) -> 200 <= code <= 999 -> bodyAllowedForStatus code = true ->
  status = Itoa code ->
  let m := reqLog cl level text kvs ;; reject msg code status ;; on_span c calls in
  honest w (m w).1 (m w).2.
Proof.
  intros Hp Hc Ha Hs m. unfold m. rewrite (bind_Ret (reqLog _ _ _ _) _ w tt _ eq_refl).
  apply honest_span. by apply (reject_honest msg code status (on_trace _ w)).
Qed.

Lemma honest_from w w1 o w' : counted w1 = counted w -> honest w1 o w' -> honest w o w'.
Proof. unfold honest. destruct o; [|done]. by intros ->. Qed.

(** A first step that leaves the ledger alone. *)
Lemma honest_bind {A} (m : M World A) k w :
  ledger (m w).2 = ledger w -> pristine (w_rec w) ->
  (forall a w', pristine (w_rec w') -> counted w' = counted w -> honest w (k a w').1 (k a w').2) ->
  honest w ((m ≫= k) w).1 ((m ≫= k) w).2.
Proof.
  intros Hm Hp Hk. destruct (m w) as [[a|why] w1] eqn:E.
  - rewrite (bind_Ret _ _ _ _ _ E). simpl in Hm. injection Hm as Hr Hc. apply Hk; [by rewrite Hr|done].
  - by rewrite (bind_Panic _ _ _ _ _ E).
Qed.

Lemma proxy_request_honest m c w :
  pristine (w_rec w) -> honest w (proxy_request m c w).1 (proxy_request m c w).2.
Proof.
  intros Hp. unfold proxy_request. apply honest_bind; [apply NextPeer_of_ledger|done|].
  intros [backend|] w1 Hp1 Hc1; (eapply honest_from; [exact Hc1|]); [|by apply refusal_honest].
  rewrite (bind_Ret (reqLog _ _ _ _) _ w1 tt _ eq_refl), (bind_Ret (gets _) _ _ _ _ eq_refl).
  match goal with |- context [(on_span ?c ?l ≫= _) ?v] => destruct (on_span_run c l v) as [f Ef] end.
  rewrite (bind_Ret _ _ _ _ _ Ef), (bind_Ret (modify _) _ _ tt _ eq_refl), (bind_Ret (gets _) _ _ _ _ eq_refl),
    (bind_Ret (modify _) _ _ tt _ eq_refl).
  apply retry_honest; [|done]. destruct Hp1. by split.
Qed.

Lemma response_Write_after b s :
  rs_hijacked s = false -> rs_wroteHeader s = true ->
  exists res s', response_Write b s = (Ret res, s') /\ rs_wroteHeader s' = true /\ rs_status s' = rs_status s.
Proof.
  intros Hh Hw. unfold response_Write, gets, mbind, M_bind, modify, mret, M_ret. rewrite Hh, Hw.
  destruct (String.eqb b ""); [|destruct (bodyAllowedForStatus _); [case_take|]]; by eexists _, _.
Qed.

(** The cache step answers with 200, or leaves the request unanswered. *)
Lemma serve_cached_ledger c w :
  pristine (w_rec w) ->
  match serve_cached c w with
  | (Ret true, w') => honest w (Ret tt) w'
  | (Ret false, w') => pristine (w_rec w') /\ counted w' = counted w
  | (Panic _, _) => True
  end.
Proof.
  intros Hp. unfold serve_cached. rewrite !(bind_Ret (gets _) _ w _ w eq_refl). case_if; [|done].
  rewrite (bind_Ret (gets _) _ w _ w eq_refl). destruct (cache_Get _ _ _) as [cached|].
  - rewrite (bind_Ret (modify _) _ w tt _ eq_refl), (bind_Ret (reqLog _ _ _ _) _ _ tt _ eq_refl),
      (bind_Ret (set_response_header _ _) _ _ tt _ eq_refl).
    match goal with |- context [(_ ≫= _) ?v] => set (w1 := v) end.
    assert (pristine (w_rec w1) /\ counted w1 = counted w) as [[_ _ Hw Hh Hb] Hc] by (destruct Hp; by split).
    clearbody w1.
    rewrite (bind_Ret (on_response _) _ w1 tt _
      ltac:(unfold on_response, on_rec, on_rw; by rewrite response_WriteHeader_final)).
    match goal with |- context [(_ ≫= _) ?v] => set (w2 := v) end.
    destruct (response_Write_after cached (rr_ResponseWriter (w_rec w2))) as (res & s' & E & Hw' & Hs');
      [done..|].
    rewrite (bind_Ret (on_response _) _ w2 res (set_rec (with_rw s' (w_rec w2)) w2))
      by (unfold on_response, on_rec, on_rw; by rewrite E).
    match goal with |- context [(count ?st ≫= _) ?v] => pose proof (count_run st v) as Ec;
      destruct (count st v) as [[u|why] w3] eqn:E3 end; [|by rewrite (bind_Panic _ _ _ _ _ E3)].
    rewrite (bind_Ret _ _ _ _ _ E3).
    match goal with |- context [on_span ?c ?l] => destruct (on_span_run c l w3) as [f Ef] end.
    rewrite (bind_Ret _ _ _ _ _ Ef). revert Ec. destruct (_ && _ && _); [|done]. intros [= _ ->].
    unfold honest, counted, client_status in *. simpl. rewrite Hw', Hs', Hc. eauto.
  - rewrite (bind_Ret (reqLog _ _ _ _) _ _ tt _ eq_refl), (bind_Ret (set_response_header _ _) _ _ tt _ eq_refl).
    simpl. destruct Hp. by split.
Qed.

Lemma serve_matched_honest m c w :
  pristine (w_rec w) -> honest w (serve_matched m c w).1 (serve_matched m c w).2.
Proof.
  intros Hp.
  unfold serve_matched. rewrite (bind_Ret Now _ w _ _ eq_refl), !(bind_Ret (gets _) _ _ _ _ eq_refl).
  match goal with |- honest _ ((_ : M World unit) ?v).1 _ => set (w4 := v) end.
  change (honest w) with (honest w4). assert (pristine (w_rec w4)) as Hp4 by done. clearbody w4.
  destruct (negb _); [by apply refusal_honest|]. cbv zeta.
  match goal with |- context [on_span ?c ?l] => destruct (on_span_run c l w4) as [f Ef] end.
  rewrite (bind_Ret _ _ _ _ _ Ef). change (honest w4) with (honest (on_trace f w4)).
  pose proof (serve_cached_ledger c (on_trace f w4) Hp4) as Hk.
  destruct (serve_cached c (on_trace f w4)) as [[[]|why] w5] eqn:E.
  - by rewrite (bind_Ret _ _ _ _ _ E).
  - rewrite (bind_Ret _ _ _ _ _ E). destruct Hk as [Hp5 Hc5].
    eapply honest_from; [exact Hc5|]. by apply proxy_request_honest.
  - by rewrite (bind_Panic _ _ _ _ _ E).
Qed.

Lemma serve_body_honest c w :
  pristine (w_rec w) -> honest w (serve_body c w).1 (serve_body c w).2.
Proof.
  intros Hp. unfold serve_body. apply honest_bind; [|done|].
  { unfold ddos_blocked. rewrite (bind_Ret Now _ w _ _ eq_refl), (bind_Ret (gets _) _ _ _ _ eq_refl).
    by destruct (IsBlocked _ _ _). }
  intros [] w1 Hp1 Hc1; (eapply honest_from; [exact Hc1|]); [by apply refusal_honest|].
  apply honest_bind; [|done|].
  { unfold ddos_record. rewrite (bind_Ret Now _ w1 _ _ eq_refl), (bind_Ret (gets _) _ _ _ _ eq_refl).
    by destruct (RecordRequest _ _ _) as [[] ?]. }
  intros [] w2 Hp2 Hc2; (eapply honest_from; [exact Hc2|]); [by apply refusal_honest|].
  apply honest_bind; [|done|].
  { unfold limiter_allow. rewrite (bind_Ret Now _ w2 _ _ eq_refl), (bind_Ret (gets _) _ _ _ _ eq_refl).
    by destruct (rate_allow _ _ _) as [[] ?]. }
  intros [] w3 Hp3 Hc3; (eapply honest_from; [exact Hc3|]); cbn [negb]; [|by apply refusal_honest].
  rewrite !(bind_Ret (gets _) _ w3 _ w3 eq_refl).
  destruct (Route _ _ _) as [m|]; [by apply serve_matched_honest|].
  rewrite (bind_Ret (reqLog _ _ _ _) _ w3 tt _ eq_refl). by apply (reject_honest _ _ _ (on_trace _ w3)).
Qed.

Lemma keeps_observe_rec c w : w_rec (observe_duration c w).2 = w_rec w.
Proof.
  unfold observe_duration, WithLabelValues, Since, mbind, M_bind, gets. simpl.
  by destruct (env_label_ok _), (env_label_ok _).
Qed.

(** C6: the metrics tell the truth. When no upstream sends an informational
    response or switches protocols, every request that returns is counted under
    exactly the status its client gets: an upstream's answer under that answer,
    a failure after retries under 503, a rejection under its own status. *)
Theorem counted_status_is_client_status (w : World) :
  pristine (w_rec w) ->
  match ServeHTTP w with
  | (Ret _, w') => exists method path,
      mt_requestsTotal (w_metrics w') = mt_requestsTotal (w_metrics w) ++
        [(method, path, Itoa (client_status (rr_ResponseWriter (w_rec w'))))]
  | (Panic _, _) => True
  end.
Proof.
  intros Hp. destruct (ServeHTTP_run w) as [f ->]. set (c := locals _ _). clearbody c.
  destruct (record_dash (Now w).2) as [[u|why] w1] eqn:E; [|done].
  assert (pristine (w_rec w1) /\ counted w1 = counted w) as [Hp1 Hc1].
  { unfold record_dash in E. destruct (stats_RecordRequest _). by injection E as _ <-. }
  unfold deferring, deferring_call. pose proof (serve_body_honest c (on_trace f w1) Hp1) as Hb.
  destruct (serve_body c (on_trace f w1)) as [o w3]. cbn [fst snd] in Hb.
  destruct (observe_duration_run c w3) as (w4 & _ & Em & Er). pose proof (keeps_observe_rec c w3) as Ew.
  rewrite Er in Ew |- *. destruct (_ && _); [|done]. destruct o as [v|why]; [|done].
  destruct Hb as (method & path & Hb). exists method, path. unfold counted, finish_span in *. cbn [snd] in Ew.
  destruct (lc_span c); cbn in *; by rewrite Em, Ew, Hb, Hc1.
Qed.
End Status.

Lemma demo_plain (xs : list exchange) :
  List.Forall plain_exchange xs ->
  forall n out timeout, plain_exchange (@env_upstream (demo_env xs) n out timeout).
Proof.
  intros Hx n out timeout. cbn. destruct (nth_in_or_default n xs (mkExchange [] (RtError "connection refused")))
    as [Hin| ->]; [|by split]. by eapply List.Forall_forall in Hx.
Qed.

Lemma counted_status_is_client_status_witness :
  let w := demo_world 5 ∅ (demo_request "/shop/cart" ∅) in
  let w' := (demo_serve [mkExchange [] (RtResponse 404 ∅ ["no"] false)] w).2 in
  exists method path, mt_requestsTotal (w_metrics w') =
    [(method, path, Itoa (client_status (rr_ResponseWriter (w_rec w'))))].
Proof.
  intros w w'. set (xs := [mkExchange [] (RtResponse 404 ∅ ["no"] false)]) in w'.
  assert (List.Forall plain_exchange xs) as Hx.
  { apply List.Forall_cons; [|apply List.Forall_nil]. split; [reflexivity|]. simpl. lia. }
  pose proof (@counted_status_is_client_status ascii_tables demo_jwt exact_rate demo_redis (demo_env xs)
                (demo_plain xs Hx) w ltac:(split; reflexivity)) as Hs.
  change (ServeHTTP w) with (demo_serve xs w) in Hs.
  assert ((demo_serve xs w).1 = Ret tt) as Ho by (vm_compute; reflexivity).
  unfold w'. destruct (demo_serve xs w) as [o w'']. cbn [fst] in Ho. subst o. exact Hs.
Defined.
