(* ===== verification/GatewayFaults.v ===== *)
(** * Failures that reach no upstream

    What the retry loop does while the circuit breaker is open, and when the
    client's own request cannot be forwarded. *)

From Stdlib Require Import ZArith Lia Ascii String List.
From stdpp Require Import base list strings gmap.
From S2P Require Import Prelude Logic GoStrings Hosts Urls Pool Router Breaker DDoS Http.
From S2P Require Import Recorder Auth RateLimiter Proxy Config Dashboard Cache Fmt Logger.
From S2P Require Import Tracing Gateway.
From S2P Require Import GatewayDemo GatewayLaws GatewayStatus.

Section Faults.
Context `{UnicodeTables, JwtLib, RateLib, RedisLib, Env}.

(** The clock moves only while the handler sleeps. *)
Hypothesis no_delay : forall n, env_delay n = 0%N.

Definition breaker_of (w : World) : CircuitBreaker := gw_circuitBreaker (w_gw w).
Definition heap_of (w : World) : heap := sr_heap (gw_router (w_gw w)).

Lemma Now_frozen w : Now w = (Ret (w_now w), set_clock (w_now w) (S (w_ticks w)) w).
Proof. unfold Now. by rewrite no_delay, Z.add_0_r. Qed.

(** An open breaker with at least [d] nanoseconds to go. *)
Definition shut (d : Z) (w : World) : Prop :=
  cb_state_ (breaker_of w) = Open /\
  w_now w + d <= cb_lastFailTime (breaker_of w) + cb_resetTimeout (breaker_of w).

Lemma shut_refuses fn w :
  shut 0 w -> breaker_Call fn w = (Ret (Some error_open), set_clock (w_now w) (S (w_ticks w)) w).
Proof.
  intros [Ho Ht]. unfold breaker_Call, Call. rewrite (bind_Ret (gets _) _ w _ w eq_refl).
  fold (breaker_of w). rewrite Ho, (bind_Ret Now _ _ _ _ (Now_frozen w)). unfold cb_admit. rewrite Ho.
  by replace (cb_resetTimeout (breaker_of w) <? w_now w - cb_lastFailTime (breaker_of w)) with false by lia.
Qed.

(** Failures recorded on backends, in order. *)
Definition blame (fs : list (ptr * Z)) (h : heap) : heap :=
  fold_left (fun h f => on_backend (RecordFailure f.2) f.1 h) fs h.

(** The choice of the next backend changes neither the breaker, the heap, the
    request, the calls nor the ledger; it sleeps at most 200 ms. *)
Definition still (w : World) := (breaker_of w, heap_of w, w_req w, w_calls w, w_rec w).

Lemma choose_next_still m ip n backend w :
  still (choose_next m ip n backend w).2 = still w /\
  w_now w <= w_now (choose_next m ip n backend w).2 <= w_now w + 200 * Millisecond.
Proof.
  unfold choose_next. destruct (n <? maxRetries - 1)%nat eqn:En; [|simpl; unfold Millisecond; split; [done|lia]].
  rewrite (bind_Ret (Sleep _) _ w tt _ eq_refl). unfold NextPeer_of, mbind, M_bind, gets, modify.
  assert (0 <= backoff n <= 200 * Millisecond) as Hb.
  { bool_prop. unfold maxRetries in En. destruct n as [|[|n]]; [vm_compute; split; discriminate..|lia]. }
  destruct (sr_pools _ !! _) as [s|]; [|simpl; split; [done|lia]].
  destruct (NextPeer _ _ _) as [[peer|why] s']; simpl; (split; [done|lia]).
Qed.

(** One failed attempt: the failure is recorded and, since nothing has been
    written, the loop goes on. *)
Lemma retry_failed m c timeout left n backend e w err w1 :
  breaker_Call (attempt backend timeout (lc_ip c)) w = (Ret (Some err), w1) -> pristine (w_rec w1) ->
  exists w2, still w2 = (breaker_of w1, on_backend (RecordFailure (w_now w1)) backend (heap_of w1),
                         w_req w1, w_calls w1, w_rec w1) /\ w_now w2 = w_now w1 /\
    retry m c timeout (S left) n backend e w =
    (choose_next m (lc_ip c) n backend ≫= fun next => retry m c timeout left (S n) next err) w2.
Proof.
  intros Eb Hp. cbn [retry]. rewrite (bind_Ret _ _ _ _ _ Eb), (bind_Ret Now _ _ _ _ (Now_frozen w1)),
    (bind_Ret (modify _) _ _ tt _ eq_refl), (bind_Ret (reqLog _ _ _ _) _ _ tt _ eq_refl),
    (bind_Ret (gets _) _ _ _ _ eq_refl).
  match goal with |- context [on_trace ?f ?v] => set (w2 := on_trace f v) end.
  unfold Committed. replace (rr_committed (w_rec w2)) with false by (symmetry; apply (pr_committed _ Hp)).
  exists w2. split_and!; reflexivity.
Qed.

(** The answer after the last attempt. *)
Lemma exhausted_answer c m e w :
  pristine (w_rec w) ->
  match exhausted c m e w with
  | (Ret _, w') => w_calls w' = w_calls w /\ breaker_of w' = breaker_of w /\ heap_of w' = heap_of w /\
      w_now w' = w_now w /\ client_status (rr_ResponseWriter (w_rec w')) = 503
  | (Panic _, w') => w_calls w' = w_calls w
  end.
Proof.
  intros Hp. unfold exhausted, Since.
  rewrite (bind_Ret _ _ w _ _ (bind_Ret Now _ _ _ _ (Now_frozen w))), (bind_Ret (reqLog _ _ _ _) _ _ tt _ eq_refl).
  match goal with |- context [on_trace ?f ?v] => set (w1 := on_trace f v) end.
  destruct (http_Error_settles ("Service temporarily unavailable: " +:+ e) 503 (w_rec w1) Hp)
    as (rr & E & Hs & Hst); [lia|].
  rewrite (bind_Ret (on_rec _) _ w1 tt (set_rec rr w1)) by (unfold on_rec; by rewrite E).
  pose proof (count_run "503" (set_rec rr w1)) as Ec.
  destruct (count "503" (set_rec rr w1)) as [[u|why] w2] eqn:E2;
    [rewrite (bind_Ret _ _ _ _ _ E2)|rewrite (bind_Panic _ _ _ _ _ E2)]; revert Ec;
    (destruct (_ && _ && _); [|]); intros [= _ ->]; try done.
  unfold tag_error. match goal with |- context [on_span ?c ?l ?v] => destruct (on_span_run c l v) as [f ->] end.
  cbn. split_and!; try done. rewrite <- settled_status by done. unfold Status. by rewrite Hst.
Qed.

(** What is left of a request whose every attempt is refused. *)
Lemma retry_shut m c timeout left n backend e w :
  shut (Z.of_nat left * (200 * Millisecond)) w -> pristine (w_rec w) ->
  match retry m c timeout left n backend e w with
  | (Ret _, w') => w_calls w' = w_calls w /\ breaker_of w' = breaker_of w /\
      client_status (rr_ResponseWriter (w_rec w')) = 503 /\
      exists fs, length fs = left /\ heap_of w' = blame fs (heap_of w) /\
        (left <> 0%nat -> exists t fs', fs = (backend, t) :: fs')
  | (Panic _, w') => w_calls w' = w_calls w
  end.
Proof.
  revert n backend e w. induction left as [|left IH]; intros n backend e w [Ho Ht] Hp.
  { cbn [retry]. pose proof (exhausted_answer c m e w Hp) as Hx.
    destruct (exhausted c m e w) as [[u|why] w']; [|done]. destruct Hx as (-> & -> & Hh & _ & ->).
    split_and!; try done. exists []. by split_and!. }
  assert (0 < Millisecond) as Hms by done.
  edestruct (retry_failed m c timeout left n backend e w) as (w2 & Es & En & Er);
    [apply shut_refuses; split; [done|lia]|done|].
  rewrite Er. destruct (choose_next_still m (lc_ip c) n backend w2) as [Hstill Hnow].
  destruct (choose_next m (lc_ip c) n backend w2) as [[next|why] w3] eqn:E3; simpl in Hstill, Hnow;
    rewrite Es in Hstill; unfold still in Hstill; injection Hstill as Hb Hh Hq Hc Hrec.
  all: change (breaker_of w3 = breaker_of w) in Hb; cbn [w_calls set_clock] in Hc;
    cbn [w_now set_clock] in En.
  - rewrite (bind_Ret _ _ _ _ _ E3).
    pose proof (IH (S n) next error_open w3) as IHw.
    assert (shut (Z.of_nat left * (200 * Millisecond)) w3) as Hs3.
    { unfold shut. rewrite Hb. split; [done|]. lia. }
    specialize (IHw Hs3 ltac:(by rewrite Hrec)).
    destruct (retry m c timeout left (S n) next error_open w3) as [[u|why] w']; [|congruence].
    destruct IHw as (H1' & H2' & H3' & fs & H4' & H5' & _). split_and!; [congruence|congruence|done|].
    exists ((backend, w_now w) :: fs). split_and!; [simpl; congruence| |eauto].
    rewrite H5', Hh. done.
  - rewrite (bind_Panic _ _ _ _ _ E3). congruence.
Qed.

(** An open breaker blames backends that were never contacted. While the
    breaker refuses, a request that returns has sent nothing upstream, has been
    answered 503, has slept through its backoffs, and has recorded a failure on
    a backend for each of its three attempts, the first on the backend chosen
    for it. *)
Theorem open_breaker_blames_backends (m : MatchedRoute) (c : Locals) (timeout : Z) (backend : ptr)
    (w : World) :
  shut (600 * Millisecond) w -> pristine (w_rec w) ->
  match retry m c timeout maxRetries 0 backend "" w with
  | (Ret _, w') => w_calls w' = w_calls w /\ breaker_of w' = breaker_of w /\
      client_status (rr_ResponseWriter (w_rec w')) = 503 /\
      exists t f1 f2, heap_of w' = blame [(backend, t); f1; f2] (heap_of w)
  | (Panic _, w') => w_calls w' = w_calls w
  end.
Proof.
  intros Hs Hp. pose proof (retry_shut m c timeout maxRetries 0 backend "" w Hs Hp) as Hr.
  destruct (retry _ _ _ _ _ _ _ w) as [[u|why] w']; [|done].
  destruct Hr as (H1' & H2' & H3' & fs & Hl & Hh & Hf). split_and!; try done.
  destruct (Hf ltac:(done)) as (t & fs' & ->). destruct fs' as [|f1 [|f2 [|]]]; try discriminate Hl. eauto.
Qed.

(** ** A request that cannot be forwarded *)

(** The client asks for an upgrade to a protocol whose name is not printable. *)
Definition bad_upgrade (r : Request) : Prop := is_print (upgradeType (rq_Header r)) = false.

Lemma upgradeType_values h h' :
  values h "Connection" = values h' "Connection" -> values h "Upgrade" = values h' "Upgrade" ->
  upgradeType h = upgradeType h'.
Proof. unfold upgradeType, header_Get. by intros -> ->. Qed.

Lemma bad_upgrade_outgoing proxy r : bad_upgrade r -> exists e, outgoing proxy r = Err e.
Proof.
  intros Hb. unfold outgoing. cbv zeta.
  rewrite (upgradeType_values _ (rq_Header r)) by (by rewrite values_Director).
  rewrite Hb. by eexists.
Qed.

Lemma bad_upgrade_attempt ip t r : bad_upgrade r -> bad_upgrade (attempt_headers ip t r).
Proof.
  unfold bad_upgrade. intros Hb.
  by rewrite (upgradeType_values _ (rq_Header r)) by (by rewrite attempt_headers_values).
Qed.

(** Such an attempt fails without a word to anyone. *)
Lemma attempt_bad_upgrade backend timeout ip w :
  bad_upgrade (w_req w) ->
  match attempt backend timeout ip w with
  | (Ret r, w') => is_Some r /\ bad_upgrade (w_req w') /\ w_rec w' = w_rec w /\
      w_calls w' = w_calls w /\ breaker_of w' = breaker_of w /\ w_now w' = w_now w
  | (Panic _, w') => w_calls w' = w_calls w
  end.
Proof.
  intros Hb. unfold attempt, mbind at 1 2 3, M_bind at 1 2 3, modify, deferring. cbv beta iota.
  match goal with |- context [forward_attempt backend timeout ip ?x] => set (w1 := x) end.
  assert (w_req w1 = w_req w /\ w_rec w1 = w_rec w /\ w_calls w1 = w_calls w /\
          breaker_of w1 = breaker_of w /\ w_now w1 = w_now w) as (Eq & Er & Ec & Eb & En) by done.
  clearbody w1. unfold forward_attempt, proxy_ServeHTTP.
  rewrite (bind_Ret Now _ _ _ _ (Now_frozen w1)), (bind_Ret (modify _) _ _ tt _ eq_refl),
    (bind_Ret (gets _) _ _ _ _ eq_refl).
  match goal with |- context [(lift_outcome ?o ≫= _) ?v] => destruct o as [b|why]; set (w2 := v) end.
  - rewrite (bind_Ret (lift_outcome _) _ w2 b w2 eq_refl), (bind_Ret (gets _) _ w2 _ w2 eq_refl).
    assert (bad_upgrade (w_req w2)) as Hb2 by (apply bad_upgrade_attempt; simpl; by rewrite Eq).
    destruct (bad_upgrade_outgoing (b_ReverseProxy b) _ Hb2) as [e ->].
    cbn. by split_and!.
  - rewrite (bind_Panic (lift_outcome _) _ w2 why w2 eq_refl). done.
Qed.

(** The breaker while [left] attempts may still fail: closed with [f] failures
    counted, or open for long enough. *)
Definition failing (left : nat) (f : Z) (w : World) : Prop :=
  let cb := breaker_of w in
  (cb_state_ cb = Closed /\ cb_failures cb = f /\ 0 <= f < cb_maxFailures cb) \/
  (cb_maxFailures cb <= f /\ shut (Z.of_nat left * (200 * Millisecond)) w).

Lemma breaker_Call_fails fn w e w1 :
  cb_state_ (breaker_of w) = Closed ->
  fn (on_gw (with_breaker (breaker_of w)) w) = (Ret (Some e), w1) -> breaker_of w1 = breaker_of w ->
  exists w', breaker_Call fn w = (Ret (Some e), w') /\
    breaker_of w' = (cb_fail (breaker_of w) (w_now w1)).1 /\ w_rec w' = w_rec w1 /\
    w_calls w' = w_calls w1 /\ w_req w' = w_req w1 /\ w_now w' = w_now w1.
Proof.
  intros Hc Hf Hb. unfold breaker_Call, Call. rewrite (bind_Ret (gets _) _ w _ w eq_refl).
  fold (breaker_of w). rewrite Hc. rewrite (bind_Ret (mret 0) _ w 0 w eq_refl).
  unfold cb_admit. rewrite Hc. rewrite (bind_Ret (modify _) _ w tt _ eq_refl), (bind_Ret _ _ _ _ _ Hf),
    (bind_Ret (gets _) _ w1 _ w1 eq_refl), (bind_Ret Now _ _ _ _ (Now_frozen w1)).
  fold (breaker_of w1). rewrite Hb. destruct (cb_fail _ _) as [cb tripped].
  destruct tripped; (eexists; split; [reflexivity|]); done.
Qed.

(** One attempt of such a request: no call, and one more failure, or none when
    the breaker refuses. *)
Lemma attempt_fails left f backend timeout ip w :
  failing (S left) f w -> bad_upgrade (w_req w) -> pristine (w_rec w) ->
  cb_maxFailures (breaker_of w) <= int64_max ->
  Z.of_nat (S left) * (200 * Millisecond) <= cb_resetTimeout (breaker_of w) ->
  match breaker_Call (attempt backend timeout ip) w with
  | (Ret r, w') => is_Some r /\ bad_upgrade (w_req w') /\ w_rec w' = w_rec w /\
      w_calls w' = w_calls w /\ w_now w' = w_now w /\
      cb_maxFailures (breaker_of w') = cb_maxFailures (breaker_of w) /\
      cb_resetTimeout (breaker_of w') = cb_resetTimeout (breaker_of w) /\
      failing (S left) (f + 1) w'
  | (Panic _, w') => w_calls w' = w_calls w
  end.
Proof.
  intros Hf Hb Hp Hmax Hreset. assert (0 < Millisecond) as Hms by done.
  destruct Hf as [(Hc & Ef & Hr)|[Hge Hs]].
  - pose proof (attempt_bad_upgrade backend timeout ip (on_gw (with_breaker (breaker_of w)) w) Hb) as Ha.
    destruct (attempt backend timeout ip _) as [[[e|]|why] w1] eqn:Ea.
    + destruct Ha as (_ & Hb1 & Hr1 & Hc1 & Hbr1 & Hn1).
      destruct (breaker_Call_fails _ w e w1 Hc Ea Hbr1) as (w' & -> & Hbr & Hr' & Hc' & Hq' & Hn').
      unfold failing, shut. rewrite Hbr, Hq', Hr', Hc', Hn', Hn1. unfold cb_fail.
      rewrite Ef, wrap64_id by (unfold is_int64, int64_min; lia).
      cbn [w_now on_gw]. destruct (cb_maxFailures (breaker_of w) <=? f + 1) eqn:Em; cbn [fst];
        split_and!; try done; [right|left]; cbn; split_and!; try done; lia.
    + destruct Ha as [[? ?] _]. done.
    + unfold breaker_Call, Call. rewrite (bind_Ret (gets _) _ w _ w eq_refl). fold (breaker_of w).
      rewrite Hc, (bind_Ret (mret 0) _ w 0 w eq_refl). unfold cb_admit.
      rewrite Hc, (bind_Ret (modify _) _ w tt _ eq_refl), (bind_Panic _ _ _ _ _ Ea). done.
  - rewrite shut_refuses by (destruct Hs; split; [done|lia]).
    split_and!; try done. right.
    split; [change (cb_maxFailures (breaker_of w) <= f + 1); lia|]. exact Hs.
Qed.

Lemma retry_bad_upgrade m c timeout left n backend e f w :
  failing left f w -> bad_upgrade (w_req w) -> pristine (w_rec w) ->
  cb_maxFailures (breaker_of w) <= int64_max ->
  Z.of_nat left * (200 * Millisecond) <= cb_resetTimeout (breaker_of w) ->
  match retry m c timeout left n backend e w with
  | (Ret _, w') => w_calls w' = w_calls w /\ client_status (rr_ResponseWriter (w_rec w')) = 503 /\
      failing 0 (f + Z.of_nat left) w' /\ cb_maxFailures (breaker_of w') = cb_maxFailures (breaker_of w)
  | (Panic _, w') => w_calls w' = w_calls w
  end.
Proof.
  revert n backend e f w. induction left as [|left IH]; intros n backend e f w Hf Hb Hp Hmax Hreset.
  { cbn [retry]. pose proof (exhausted_answer c m e w Hp) as Hx.
    destruct (exhausted c m e w) as [[u|why] w']; [|done]. destruct Hx as (-> & Hbr & _ & Hn & ->).
    cbn [Z.of_nat]. rewrite Z.add_0_r. unfold failing, shut in *. by rewrite Hbr, Hn. }
  assert (0 < Millisecond) as Hms by done.
  pose proof (attempt_fails left f backend timeout (lc_ip c) w Hf Hb Hp Hmax Hreset) as Ha.
  destruct (breaker_Call (attempt backend timeout (lc_ip c)) w) as [[r|why] w1] eqn:Eb; last first.
  { cbn [retry]. by rewrite (bind_Panic _ _ _ _ _ Eb). }
  destruct Ha as ([err ->] & Hb1 & Hr1 & Hc1 & Hn1 & Hm1 & Ht1 & Hf1).
  destruct (retry_failed m c timeout left n backend e w err w1 Eb ltac:(by rewrite Hr1))
    as (w2 & Es & En & ->).
  destruct (choose_next_still m (lc_ip c) n backend w2) as [Hstill Hnow].
  destruct (choose_next m (lc_ip c) n backend w2) as [[next|why] w3] eqn:E3; simpl in Hstill, Hnow;
    rewrite Es in Hstill; unfold still in Hstill; injection Hstill as Hb3 Hh3 Hq3 Hc3 Hr3;
    [|rewrite (bind_Panic _ _ _ _ _ E3); congruence].
  rewrite (bind_Ret _ _ _ _ _ E3).
  pose proof (IH (S n) next err (f + 1) w3) as IHw.
  destruct (retry m c timeout left (S n) next err w3) as [[u|why] w'].
  - destruct IHw as (H1' & H2' & H3' & H4').
    + unfold failing, shut in *. rewrite Hb3. destruct Hf1 as [|(? & ? & ?)]; [by left|right].
      split_and!; [done..|lia].
    + by rewrite Hq3.
    + by rewrite Hr3, Hr1.
    + by rewrite Hb3, Hm1.
    + rewrite Hb3, Ht1. lia.
    + rewrite H1', Hc3, Hc1, H4', Hb3, Hm1. split_and!; try done.
      by replace (f + Z.of_nat (S left)) with (f + 1 + Z.of_nat left) by lia.
  - rewrite IHw; [congruence|..].
    + unfold failing, shut in *. rewrite Hb3. destruct Hf1 as [|(? & ? & ?)]; [by left|right].
      split_and!; [done..|lia].
    + by rewrite Hq3.
    + by rewrite Hr3, Hr1.
    + by rewrite Hb3, Hm1.
    + rewrite Hb3, Ht1. lia.
Qed.

(** A client can open the breaker for everyone. A request that asks for an
    upgrade to an unprintable protocol fails before any upstream is contacted,
    and each of its three attempts counts as an upstream failure: with a closed
    breaker that has counted [f] failures, one such request opens it as soon as
    [f + 3] reaches the limit, and otherwise leaves [f + 3] failures counted. *)
Theorem client_error_opens_breaker (m : MatchedRoute) (c : Locals) (timeout : Z) (backend : ptr)
    (w : World) (f : Z) :
  bad_upgrade (w_req w) -> pristine (w_rec w) ->
  cb_state_ (breaker_of w) = Closed -> cb_failures (breaker_of w) = f ->
  0 <= f < cb_maxFailures (breaker_of w) -> cb_maxFailures (breaker_of w) <= int64_max ->
  600 * Millisecond <= cb_resetTimeout (breaker_of w) ->
  match retry m c timeout maxRetries 0 backend "" w with
  | (Ret _, w') => w_calls w' = w_calls w /\ client_status (rr_ResponseWriter (w_rec w')) = 503 /\
      (cb_maxFailures (breaker_of w) <= f + 3 -> cb_state_ (breaker_of w') = Open) /\
      (f + 3 < cb_maxFailures (breaker_of w) ->
         cb_state_ (breaker_of w') = Closed /\ cb_failures (breaker_of w') = f + 3)
  | (Panic _, w') => w_calls w' = w_calls w
  end.
Proof.
  intros Hb Hp Hc Hf Hr Hm Ht.
  pose proof (retry_bad_upgrade m c timeout maxRetries 0 backend "" f w
                ltac:(left; auto) Hb Hp Hm Ht) as Hx.
  destruct (retry _ _ _ _ _ _ _ w) as [[u|why] w']; [|done].
  destruct Hx as (H1' & H2' & H3' & H4'). split_and!; try done; unfold failing in H3'; rewrite H4' in H3';
    change (Z.of_nat maxRetries) with 3 in H3'.
  - destruct H3' as [(_ & _ & ?)|(_ & ? & _)]; [lia|done].
  - destruct H3' as [(? & ? & _)|(? & _)]; [done|lia].
Qed.
End Faults.

(** ** On the concrete gateway *)

Definition demo_match : MatchedRoute := mkMatched "shop" 0 "/cart" false (30 * Second).

Definition demo_locals : Locals := mkLocals 0 "" "9.9.9.9" true.

(** The demo gateway, with its breaker in the given state. *)
Definition demo_faulty (cb : CircuitBreaker) (h : Header) : @World exact_rate demo_redis :=
  @on_gw exact_rate demo_redis (@with_breaker exact_rate cb)
    (demo_world 5 ∅ (demo_request "/shop/cart" h)).

Lemma open_breaker_blames_backends_witness :
  let w := demo_faulty (mkBreaker 5 (30 * Second) 5 0 Open) ∅ in
  let w' := (@retry exact_rate demo_redis (demo_env []) demo_match demo_locals Second maxRetries 0 0%nat "" w).2 in
  exists t f1 f2, @heap_of exact_rate demo_redis w' = blame [(0%nat, t); f1; f2] (heap_of w).
Proof.
  intros w w'.
  pose proof (@open_breaker_blames_backends exact_rate demo_redis (demo_env []) ltac:(reflexivity)
                demo_match demo_locals Second 0%nat w
                ltac:(split; [reflexivity|vm_compute; discriminate]) ltac:(split; reflexivity)) as Hx.
  assert ((@retry exact_rate demo_redis (demo_env []) demo_match demo_locals Second maxRetries 0 0%nat "" w).1 = Ret tt)
    as Ho by (vm_compute; reflexivity).
  unfold w'. destruct (retry _ _ _ _ _ _ _ w) as [o w'']. cbn [fst] in Ho. subst o.
  exact (proj2 (proj2 (proj2 Hx))).
Defined.

(** The protocol name is a byte above the ASCII range. *)
Definition demo_upgrade : Header :=
  {["Connection" := ["Upgrade"]; "Upgrade" := [String (ascii_of_nat 233) ""]]}.

Lemma client_error_opens_breaker_witness :
  let w := demo_faulty (NewCircuitBreaker 3 (30 * Second)) demo_upgrade in
  let w' := (@retry exact_rate demo_redis (demo_env []) demo_match demo_locals Second maxRetries 0 0%nat "" w).2 in
  @w_calls exact_rate demo_redis w' = [] /\ cb_state_ (breaker_of w') = Open.
Proof.
  intros w w'.
  pose proof (@client_error_opens_breaker exact_rate demo_redis (demo_env []) ltac:(reflexivity)
                demo_match demo_locals Second 0%nat w 0
                ltac:(vm_compute; reflexivity) ltac:(split; reflexivity) eq_refl eq_refl
                ltac:(split; [apply Z.le_refl|reflexivity]) ltac:(vm_compute; discriminate)
                ltac:(vm_compute; discriminate)) as Hx.
  assert ((@retry exact_rate demo_redis (demo_env []) demo_match demo_locals Second maxRetries 0 0%nat "" w).1 = Ret tt)
    as Ho by (vm_compute; reflexivity).
  unfold w'. destruct (retry _ _ _ _ _ _ _ w) as [o w'']. cbn [fst] in Ho. subst o.
  destruct Hx as (Hc & _ & Hopen & _). split; [exact Hc|]. apply Hopen. vm_compute. discriminate.
Defined.
