(* ===== verification/Labels.v ===== *)
(** * Requests as labels of metrics (main.go, metrics.go)

    The method and the path of a request become label values, and the metrics
    client panics over a label value that is not UTF-8. A path that is UTF-8
    stays so when a prefix is stripped, and then the client's check cannot be
    observed; any other path makes the handler panic. *)

From Stdlib Require Import ZArith Lia Ascii String List.
From stdpp Require Import base list strings gmap pretty.
From S2P Require Import Prelude Logic GoStrings Hosts Urls Pool Router Breaker DDoS Http.
From S2P Require Import Recorder Auth RateLimiter Proxy Config Dashboard Cache Fmt Logger.
From S2P Require Import Tracing Gateway GatewayDemo GatewayLaws.

(** ** UTF-8 and the segments of a path *)

(** No byte of [s] is an ASCII byte. *)
Definition no_ascii (s : string) : bool := sforall (fun c => negb (is_ascii_byte c)) s.

Lemma cont_not_ascii c : cont c = true -> is_ascii_byte c = false.
Proof. unfold cont, is_ascii_byte. lia. Qed.

(** A valid string starts with an ASCII byte, or with one sequence of bytes
    none of which is ASCII. *)
Lemma ValidString_cons c s :
  ValidString (String c s) = true ->
  exists t s', s = t +:+ s' /\ no_ascii t = true /\ ValidString s' = true.
Proof.
  unfold ValidString. cbn [chunks]. destruct (is_ascii_byte c); [by exists "", s|].
  unfold two, three, four.
  destruct s as [|x s]; [discriminate|].
  destruct (cont x) eqn:Ex; rewrite ?andb_false_r; cbn [andb]; last first.
  { destruct s as [|y [|z s]]; rewrite ?andb_false_r; cbn [andb]; discriminate. }
  apply cont_not_ascii in Ex.
  case_if; [exists (String x ""), s; unfold no_ascii; cbn; by rewrite Ex|].
  destruct s as [|y s]; [discriminate|].
  destruct (cont y) eqn:Ey; rewrite ?andb_false_r; cbn [andb]; last first.
  { destruct s as [|z s]; rewrite ?andb_false_r; cbn [andb]; discriminate. }
  apply cont_not_ascii in Ey.
  case_if; [exists (String x (String y "")), s; unfold no_ascii; cbn; by rewrite Ex, Ey|].
  destruct s as [|z s]; [discriminate|].
  destruct (cont z) eqn:Ez; rewrite ?andb_false_r; cbn [andb]; [|discriminate].
  apply cont_not_ascii in Ez.
  case_if; [|discriminate]. exists (String x (String y (String z ""))), s. unfold no_ascii. cbn.
  by rewrite Ex, Ey, Ez.
Qed.

(** An ASCII byte after [a] is not one of the bytes of [t]. *)
Lemma no_ascii_split t s' a x b :
  is_ascii_byte x = true -> no_ascii t = true -> a +:+ String x b = t +:+ s' ->
  exists a', a = t +:+ a' /\ s' = a' +:+ String x b.
Proof.
  unfold no_ascii. intros Hx. revert a. induction t as [|c t IH]; intros a Ht E; [by exists a|].
  cbn in Ht. apply andb_prop in Ht as [Hc Ht]. destruct a as [|c' a]; cbn in E; injection E as -> E.
  - by rewrite Hx in Hc.
  - destruct (IH a Ht E) as (a' & -> & ->). by exists a'.
Qed.

Lemma ValidString_from a x b :
  is_ascii_byte x = true -> ValidString (a +:+ String x b) = true -> ValidString (String x b) = true.
Proof.
  intros Hx. remember (slen a) as n eqn:En. assert (slen a <= n)%nat as Hn by lia. clear En.
  revert a Hn. induction n as [|n IH]; intros [|c a] Hn Hv; cbn in Hn; try lia; [done..|].
  cbn [String.append] in Hv. apply ValidString_cons in Hv as (t & s' & E & Ht & Hs).
  destruct (no_ascii_split t s' a x b Hx Ht E) as (a' & -> & ->).
  apply (IH a'); [|done]. rewrite slen_app in Hn. lia.
Qed.

Lemma ValidString_tail x b : is_ascii_byte x = true -> ValidString (String x b) = ValidString b.
Proof. intros Hx. unfold ValidString. cbn [chunks]. by rewrite Hx. Qed.

(** What remains of a path once a prefix that covers it is taken off. *)
Lemma pathMatches_rest prefix path :
  pathMatches prefix path = true -> prefix <> "/" ->
  exists rest, path = prefix +:+ rest /\ (ValidString path = true -> ValidString rest = true).
Proof.
  intros Hm Hs. apply String.eqb_neq in Hs. unfold pathMatches in Hm. rewrite Hs, orb_false_r in Hm.
  destruct (String.eqb prefix "") eqn:Ee; bool_prop; [subst prefix; by exists path|].
  destruct (HasPrefix path prefix) eqn:Hp; [|done]. apply HasPrefix_spec in Hp as [rest ->].
  exists rest. split; [done|]. intros Hv. cbn [negb] in Hm.
  destruct rest as [|c rest]; [done|].
  destruct (_ =? _)%nat eqn:El; bool_prop; [rewrite slen_app in El; cbn in El; lia|].
  rewrite get_app in Hm. apply orb_prop in Hm as [Hc|Hsuf].
  - bool_prop. subst c. by apply ValidString_from in Hv.
  - apply HasSuffix_spec in Hsuf as [p ->]. rewrite sapp_assoc in Hv.
    apply (ValidString_from p "/" (String c rest)) in Hv; [|done]. by rewrite ValidString_tail in Hv.
Qed.

(** Stripping keeps a path valid, and, for a valid prefix, an invalid one
    invalid. *)
Lemma backend_path_valid e path :
  pathMatches (e_Prefix e) path = true ->
  (ValidString path = true -> ValidString (backend_path e path) = true) /\
  (ValidString (e_Prefix e) = true -> ValidString (backend_path e path) = ValidString path).
Proof.
  intros Hm. unfold backend_path. destruct (e_StripPrefix e); [|done].
  destruct (String.eqb (e_Prefix e) "/") eqn:Es; cbn [andb negb]; [done|]. bool_prop.
  destruct (pathMatches_rest _ _ Hm Es) as (rest & -> & Hr). rewrite TrimPrefix_app.
  assert (forall b : bool, ValidString (if b then "/" +:+ rest else rest) = ValidString rest) as ->
    by (intros []; [by apply (ValidString_tail "/")|done]).
  split; [done|]. intros Hp. by rewrite ValidString_app.
Qed.

Lemma Route_path_valid `{UnicodeTables} sr host path m :
  Route sr host path = Some m ->
  (ValidString path = true -> ValidString (m_BackendPath m) = true) /\
  (List.Forall (fun e => ValidString (e_Prefix e) = true) (sr_routes sr) ->
   ValidString (m_BackendPath m) = ValidString path).
Proof.
  unfold Route. rewrite route_loop_find. intros (e & He & ->)%fmap_Some.
  apply find_some in He as [He Hc]. unfold entry_matches in Hc. bool_prop.
  destruct (backend_path_valid e path) as [Hv1 Hv2]; [done|]. split; [done|].
  rewrite List.Forall_forall. auto.
Qed.

(** A number in decimal is ASCII. *)
Lemma pretty_N_ascii x s : is_ascii s = true -> is_ascii (pretty_N_go x s) = true.
Proof.
  revert s. induction (N.lt_wf_0 x) as [x _ IH]; intros s Hs.
  destruct (decide (x = 0%N)) as [->|Hx]; [done|]. rewrite pretty_N_go_step by lia.
  apply IH; [apply N.div_lt; lia|]. cbn. unfold pretty_N_char. by repeat case_match.
Qed.

Lemma Itoa_valid n : ValidString (Itoa n) = true.
Proof.
  assert (forall x : N, is_ascii (pretty x) = true) as Hn
    by (intros x; unfold pretty, pretty_N; case_decide; [done|by apply pretty_N_ascii]).
  apply ValidString_ascii. destruct n as [|p|p]; [done|apply (Hn (Npos p))|apply (Hn (Npos p))].
Qed.

(** ** The handler on a request with valid labels *)

(** The same environment with a client that accepts every label. *)
Definition accept_all (E : Env) : Env := {|
  env_delay := @env_delay E;
  env_rfc3339 := @env_rfc3339 E;
  env_upstream := @env_upstream E;
  env_in_server := @env_in_server E;
  env_label_ok _ := true
|}.

Section Labels.
Context `{UT : UnicodeTables, JL : JwtLib, RL : RateLib, RD : RedisLib, E : Env, !LabelSpec}.

(** The request's labels are accepted. *)
Definition labelled (w : World) : Prop :=
  ValidString (w_method w) = true /\ ValidString (w_path w) = true.

(** Steps that cannot take that away. *)
Definition keeps_labels (w w' : World) : Prop := labelled w -> labelled w'.

#[local] Instance keeps_labels_pre : PreOrder keeps_labels.
Proof. split; [intros w Hw; exact Hw|]. intros w1 w2 w3 Ha Hb Hw. by apply Hb, Ha. Qed.

#[local] Instance keeps_labels_frame : Frame keeps_labels.
Proof. split; [typeclasses eauto|intros; intros Hw; exact Hw..]. Qed.

(** [m] does what [m'] does on a request with valid labels, and these stay. *)
Definition agree {A} (m m' : M World A) : Prop :=
  forall w, labelled w -> m w = m' w /\ labelled (m w).2.

Lemma agree_same {A} (m : M World A) : keeps keeps_labels m -> agree m m.
Proof. intros Hm w Hw. split; [done|]. by apply Hm. Qed.

Lemma agree_bind {A B} (m m' : M World A) (k k' : A -> M World B) :
  agree m m' -> (forall a, agree (k a) (k' a)) -> agree (m ≫= k) (m' ≫= k').
Proof.
  intros Hm Hk w Hw. destruct (Hm w Hw) as [Em Hl]. unfold mbind, M_bind. rewrite <- Em.
  destruct (m w) as [[a|why] w1]; cbn [snd] in Hl; [by apply Hk|done].
Qed.

Let E' : Env := accept_all E.

(** A label that is accepted does not panic. *)
Lemma agree_count status :
  ValidString status = true -> agree (@count RL RD E status) (@count RL RD E' status).
Proof.
  intros Hs w [Hm Hp]. rewrite !count_run. cbn [env_label_ok accept_all]. rewrite !label_ok_valid, Hm, Hp, Hs.
  split; [done|]. by split.
Qed.

#[local] Hint Resolve keeps_Now keeps_Sleep keeps_on_rec keeps_on_response keeps_reqLog keeps_on_span
  keeps_Since keeps_start_span keeps_ddos_blocked keeps_ddos_record keeps_limiter_allow keeps_NextPeer_of
  keeps_breaker_Call keeps_proxy_ServeHTTP keeps_set_response_header : gw.
#[local] Hint Extern 1 (Frame _) => typeclasses eauto : gw.
#[local] Hint Extern 1 (keeps_labels _ _) => (let Hw := fresh in intros Hw; exact Hw) : gw.

Lemma keeps_labels_headers ip t w : keeps_labels w (on_req (attempt_headers ip t) w).
Proof. unfold keeps_labels, labelled, w_method, w_path, attempt_headers. cbn. by case_if. Qed.
#[local] Hint Resolve keeps_labels_headers : gw.

Lemma keeps_labels_attempt backend timeout ip : keeps keeps_labels (attempt backend timeout ip).
Proof. unfold attempt, forward_attempt. keep_steps. Qed.
#[local] Hint Resolve keeps_labels_attempt : gw.

(** A step in which labels play no part. *)
Ltac plain := solve [apply agree_same; unfold choose_next; keep_steps; eauto 6 with gw].
Ltac agree_step := first [apply agree_bind; [plain|intros ?]].

Lemma agree_reject msg code status :
  ValidString status = true -> agree (@reject RL RD E msg code status) (@reject RL RD E' msg code status).
Proof. intros Hs. unfold reject. apply agree_bind; [plain|]. intros _. by apply agree_count. Qed.

Lemma agree_refuse c reason msg code status tag :
  ValidString status = true ->
  agree (@refuse RL RD E c reason msg code status tag) (@refuse RL RD E' c reason msg code status tag).
Proof.
  intros Hs. unfold refuse, tag_error. agree_step. apply agree_bind; [by apply agree_reject|]. intros _. plain.
Qed.

Lemma agree_completed c m backend :
  agree (@completed RL RD E c m backend) (@completed RL RD E' c m backend).
Proof.
  unfold completed. do 3 agree_step. apply agree_bind; [apply agree_count, Itoa_valid|]. intros _. plain.
Qed.

Lemma agree_cut_off c backend : agree (@cut_off RL RD E c backend) (@cut_off RL RD E' c backend).
Proof. unfold cut_off. do 2 agree_step. apply agree_count, Itoa_valid. Qed.

Lemma agree_exhausted c m e : agree (@exhausted RL RD E c m e) (@exhausted RL RD E' c m e).
Proof.
  unfold exhausted, tag_error. do 3 agree_step. apply agree_bind; [by apply agree_count|]. intros _. plain.
Qed.

Lemma agree_retry m c timeout left n backend e :
  agree (@retry RL RD E m c timeout left n backend e) (@retry RL RD E' m c timeout left n backend e).
Proof.
  revert n backend e. induction left as [|left IH]; intros n backend e; cbn [retry]; [apply agree_exhausted|].
  apply agree_bind; [plain|]. intros [err|]; [|apply agree_completed].
  do 4 agree_step. case_if; [apply agree_cut_off|]. agree_step. apply IH.
Qed.

Lemma agree_proxy_request m c :
  ValidString (m_BackendPath m) = true ->
  agree (@proxy_request RL RD E m c) (@proxy_request RL RD E' m c).
Proof.
  intros Hb. unfold proxy_request, tag_error. apply agree_bind; [plain|]. intros [backend|]; last first.
  { agree_step. apply agree_bind; [by apply agree_reject|]. intros _. plain. }
  do 3 agree_step. apply agree_bind; [|intros _; do 2 agree_step; apply agree_retry].
  apply agree_same, keeps_modify. intros w [Hm Hp].
  unfold labelled, w_method, w_path, rewrite_path in *. cbn. by case_if.
Qed.

Lemma agree_serve_cached c : agree (@serve_cached RL RD E c) (@serve_cached RL RD E' c).
Proof.
  unfold serve_cached. do 2 agree_step. case_if; [|plain]. agree_step. destruct (cache_Get _ _ _); [|plain].
  do 5 agree_step. apply agree_bind; [by apply agree_count|]. intros _. plain.
Qed.

Lemma agree_serve_matched m c :
  ValidString (m_BackendPath m) = true ->
  agree (@serve_matched JL RL RD E m c) (@serve_matched JL RL RD E' m c).
Proof.
  intros Hb. unfold serve_matched, tag_error. do 3 agree_step. case_if.
  { agree_step. apply agree_bind; [by apply agree_reject|]. intros _. plain. }
  agree_step. apply agree_bind; [apply agree_serve_cached|]. intros hit. destruct hit; [plain|].
  by apply agree_proxy_request.
Qed.

(** The path of the request is looked up while it is still valid. *)
Lemma agree_route (k k' : option MatchedRoute -> M World unit) :
  (forall o, (forall m, o = Some m -> ValidString (m_BackendPath m) = true) -> agree (k o) (k' o)) ->
  agree (r ← gets w_req; sr ← gets (fun w => gw_router (w_gw w)); k (Route sr (rq_Host r) (u_Path (rq_URL r))))
        (r ← gets w_req; sr ← gets (fun w => gw_router (w_gw w)); k' (Route sr (rq_Host r) (u_Path (rq_URL r)))).
Proof.
  intros Hk w Hw. rewrite !(bind_Ret (gets _) _ w _ w eq_refl). apply Hk; [|done].
  intros m Hm. apply Route_path_valid in Hm as [Hv _]. apply Hv, Hw.
Qed.

Lemma agree_serve_body c : agree (@serve_body UT JL RL RD E c) (@serve_body UT JL RL RD E' c).
Proof.
  unfold serve_body. agree_step. case_if; [by apply agree_refuse|].
  agree_step. case_if; [by apply agree_refuse|]. agree_step. case_if; [by apply agree_refuse|].
  apply (agree_route
    (fun o => match o with Some m => serve_matched m c | None => _ end)
    (fun o => match o with Some m => @serve_matched JL RL RD E' m c | None => _ end)).
  intros [m|] Hm; [apply agree_serve_matched; auto|]. agree_step. by apply agree_reject.
Qed.

Lemma agree_observe_duration c : agree (@observe_duration RL RD E c) (@observe_duration RL RD E' c).
Proof.
  unfold observe_duration. agree_step. intros w [Hm Hp]. rewrite !(bind_Ret (gets _) _ w _ w eq_refl).
  unfold WithLabelValues. cbn. rewrite !label_ok_valid, Hm, Hp. split; [done|]. by split.
Qed.

Lemma agree_deferring_call {A} (c c' : M World unit) (m m' : M World A) :
  agree m m' -> agree c c' -> agree (deferring_call c m) (deferring_call c' m').
Proof.
  intros Hm Hc w Hw. destruct (Hm w Hw) as [Em Hl]. unfold deferring_call. rewrite <- Em.
  destruct (m w) as [o w1]. destruct (Hc w1 Hl) as [Ec Hl']. rewrite <- Ec. by destruct (c w1) as [[|] ?].
Qed.

(** C9: A request whose method and path are UTF-8 is never aborted over a label: the
    handler does exactly what it would do with a metrics client that accepts
    every label, although it may rewrite the path on the way. *)
Theorem valid_labels_unobservable (w : World) :
  ValidString (rq_Method (w_req w)) = true -> ValidString (u_Path (rq_URL (w_req w))) = true ->
  @ServeHTTP UT JL RL RD E w = @ServeHTTP UT JL RL RD (accept_all E) w.
Proof.
  intros Hm Hp. assert (labelled w) as Hw by done. clear Hm Hp. revert w Hw.
  cut (agree (@ServeHTTP UT JL RL RD E) (@ServeHTTP UT JL RL RD E')); [intros Ha w Hw; apply Ha, Hw|].
  unfold ServeHTTP. do 2 agree_step. apply agree_bind.
  { apply agree_same. intros w. unfold record_dash. destruct (stats_RecordRequest _). intros Hw. exact Hw. }
  intros _. do 2 agree_step. intros w Hw.
  destruct (agree_deferring_call _ _ _ _ (agree_serve_body a0) (agree_observe_duration a0) w Hw) as [Ea Hl].
  unfold deferring. rewrite <- Ea. destruct (deferring_call _ _ w) as [o w1]. split; [done|].
  unfold finish_span. by destruct (lc_span a0).
Qed.

(** ** The handler on a path that is not UTF-8 *)

Definition keeps_bad (w w' : World) : Prop :=
  ValidString (w_path w) = false -> ValidString (w_path w') = false.

#[local] Instance keeps_bad_pre : PreOrder keeps_bad.
Proof. split; [intros w Hw; exact Hw|]. intros w1 w2 w3 Ha Hb Hw. by apply Hb, Ha. Qed.

#[local] Instance keeps_bad_frame : Frame keeps_bad.
Proof. split; [typeclasses eauto|intros; intros Hw; exact Hw..]. Qed.

#[local] Hint Resolve keeps_count keeps_reject keeps_refuse keeps_completed keeps_cut_off keeps_exhausted
  keeps_serve_cached : gw.
#[local] Hint Extern 1 (keeps_bad _ _) => (let Hw := fresh in intros Hw; exact Hw) : gw.

Lemma bad_headers ip t w : keeps_bad w (on_req (attempt_headers ip t) w).
Proof. unfold keeps_bad, w_path, attempt_headers. cbn. by case_if. Qed.
#[local] Hint Resolve bad_headers : gw.

Lemma bad_attempt backend timeout ip : keeps keeps_bad (attempt backend timeout ip).
Proof. unfold attempt, forward_attempt. keep_steps. Qed.
#[local] Hint Resolve bad_attempt : gw.

Lemma bad_retry m c timeout left n backend e : keeps keeps_bad (retry m c timeout left n backend e).
Proof.
  revert n backend e. induction left as [|left IH]; intros n backend e; cbn [retry]; unfold choose_next;
    keep_steps; eauto 6 with gw.
Qed.
#[local] Hint Resolve bad_retry : gw.

Lemma bad_serve_matched m c :
  ValidString (m_BackendPath m) = false -> keeps keeps_bad (serve_matched m c).
Proof.
  intros Hb. unfold serve_matched, proxy_request, tag_error. keep_steps.
  intros Hw. unfold w_path, rewrite_path in *. cbn. by case_if.
Qed.

Lemma bad_serve_body c w :
  List.Forall (fun e => ValidString (e_Prefix e) = true) (sr_routes (gw_router (w_gw w))) ->
  ValidString (w_path w) = false -> ValidString (w_path (serve_body c w).2) = false.
Proof.
  intros Hf Hw. unfold serve_body.
  assert (forall A (m : M World A) (k : A -> M World unit) v,
    keeps (same front) m -> front v = front w ->
    (forall a v', front v' = front w -> ValidString (w_path (k a v').2) = false) ->
    ValidString (w_path ((m ≫= k) v).2) = false) as Hbind.
  { intros A m k v Hm Hv Hk. specialize (Hm v). unfold same in Hm. unfold mbind, M_bind.
    destruct (m v) as [[a|why] v']; cbn [snd] in *; [apply Hk; congruence|].
    unfold front in Hm, Hv. injection Hm as _ _ Eq _ _. injection Hv as _ _ Eq' _ _.
    unfold w_path in *. by rewrite Eq, Eq'. }
  assert (forall v, front v = front w -> ValidString (w_path v) = false /\ w_req v = w_req w /\
    gw_router (w_gw v) = gw_router (w_gw w)) as Hfront.
  { intros v Hv. unfold front in Hv. injection Hv as Er _ Eq _ _. unfold w_path in *. by rewrite Eq. }
  pose proof front_frame.
  apply Hbind; [apply keeps_ddos_blocked; eauto with gw; done|done|]. intros [] w1 F1.
  { apply (keeps_refuse keeps_bad); [eauto with gw|by apply Hfront]. }
  apply Hbind; [apply keeps_ddos_record; eauto with gw; done|done|]. intros [] w2 F2.
  { apply (keeps_refuse keeps_bad); [eauto with gw|by apply Hfront]. }
  apply Hbind; [apply keeps_limiter_allow; eauto with gw; done|done|]. intros [] w3 F3; cbn [negb]; last first.
  { apply (keeps_refuse keeps_bad); [eauto with gw|by apply Hfront]. }
  destruct (Hfront w3 F3) as (Hb & Eq & Er).
  rewrite !(bind_Ret (gets _) _ w3 _ w3 eq_refl). destruct (Route _ _ _) as [m|] eqn:Em.
  - apply bad_serve_matched; [|done]. apply Route_path_valid in Em as [_ Hv].
    rewrite Hv; [done|]. by rewrite Er.
  - revert Hb. match goal with |- _ -> ValidString (w_path (?m _).2) = _ =>
      assert (keeps keeps_bad m) as Hm by keep_steps end. apply Hm.
Qed.

(** *** What such a request has done before it is aborted *)

(** The calls to upstreams, and the response. *)
Definition trail (w : World) := (w_calls w, w_rec w).

#[local] Instance trail_pre : PreOrder (same trail).
Proof. split; unfold same; [done|]. intros w1 w2 w3 E1 E2. congruence. Qed.

(** [m] runs as [m'] does, or panics over a label where [m'] goes on: with the
    same trail that [m'] leaves in the end, and a value of [m'] in [P]. *)
Definition cut {A} (P : A -> Prop) (m m' : M World A) : Prop :=
  forall w, m w = m' w \/
    exists w1, m w = (Panic label_panic, w1) /\ trail w1 = trail (m' w).2 /\ forall a, (m' w).1 = Ret a -> P a.

Lemma cut_refl {A} (P : A -> Prop) (m : M World A) : cut P m m.
Proof. intros w. by left. Qed.

Lemma cut_weaken {A} (P Q : A -> Prop) (m m' : M World A) : (forall a, P a -> Q a) -> cut P m m' -> cut Q m m'.
Proof. intros HPQ Hm w. destruct (Hm w) as [?|(w1 & E1 & Et & HP)]; [by left|right; exists w1; eauto]. Qed.

Lemma cut_bind {A B} (P : A -> Prop) (Q : B -> Prop) (m m' : M World A) (k k' : A -> M World B) :
  cut P m m' -> (forall a, cut Q (k a) (k' a)) ->
  (forall a, P a -> keeps (same trail) (k' a) /\ forall w b, (k' a w).1 = Ret b -> Q b) ->
  cut Q (m ≫= k) (m' ≫= k').
Proof.
  intros Hm Hk Hr w. unfold mbind, M_bind. destruct (Hm w) as [->|(w1 & -> & Et & HP)].
  - destruct (m' w) as [[a|why] w']; [apply Hk|by left].
  - right. exists w1. split; [done|]. destruct (m' w) as [[a|why] w']; cbn in *; [|done].
    destruct (Hr a (HP a eq_refl)) as [Hq HQ]. split; [|by apply HQ]. rewrite Et. symmetry. apply Hq.
Qed.

(** The common cases: a step in which labels play no part, and a count with a
    last step that sends nothing. *)
Lemma cut_same {A B} (Q : B -> Prop) (m : M World A) (k k' : A -> M World B) :
  (forall a, cut Q (k a) (k' a)) -> cut Q (m ≫= k) (m ≫= k').
Proof. intros Hk. by apply (cut_bind (fun _ => False)); [apply cut_refl| |]. Qed.

Lemma cut_then {A} (m m' : M World A) (k : A -> M World unit) :
  cut (fun _ => True) m m' -> (forall a, keeps (same trail) (k a)) -> cut (fun _ => True) (m ≫= k) (m' ≫= k).
Proof. intros Hm Hk. apply (cut_bind (fun _ => True)); [done|intros; apply cut_refl|done]. Qed.

Lemma cut_count status : cut (fun _ => True) (@count RL RD E status) (@count RL RD E' status).
Proof.
  intros w. rewrite !count_run. cbn [env_label_ok accept_all andb].
  destruct (_ && _); [by left|right]. by exists w.
Qed.

Lemma trail_on_span c calls : keeps (same trail) (on_span c calls).
Proof. intros w. destruct (on_span_run c calls w) as [f ->]. done. Qed.

Lemma cut_reject msg code status : cut (fun _ => True) (@reject RL RD E msg code status) (@reject RL RD E' msg code status).
Proof. apply cut_same. intros _. apply cut_count. Qed.

Lemma cut_refuse c reason msg code status tag :
  cut (fun _ => True) (@refuse RL RD E c reason msg code status tag) (@refuse RL RD E' c reason msg code status tag).
Proof.
  unfold refuse. apply cut_same. intros _. apply cut_then; [apply cut_reject|]. intros _. apply trail_on_span.
Qed.

Lemma cut_completed c m backend : cut (fun _ => True) (@completed RL RD E c m backend) (@completed RL RD E' c m backend).
Proof.
  unfold completed. do 3 (apply cut_same; intros ?). apply cut_then; [apply cut_count|]. intros _. apply trail_on_span.
Qed.

Lemma cut_exhausted c m e : cut (fun _ => True) (@exhausted RL RD E c m e) (@exhausted RL RD E' c m e).
Proof.
  unfold exhausted. do 3 (apply cut_same; intros ?). apply cut_then; [apply cut_count|]. intros _. apply trail_on_span.
Qed.

Lemma cut_retry m c timeout left n backend e :
  cut (fun _ => True) (@retry RL RD E m c timeout left n backend e) (@retry RL RD E' m c timeout left n backend e).
Proof.
  revert n backend e. induction left as [|left IH]; intros n backend e; cbn [retry]; [apply cut_exhausted|].
  apply cut_same. intros [err|]; [|apply cut_completed]. do 4 (apply cut_same; intros ?).
  case_if; [unfold cut_off; do 2 (apply cut_same; intros ?); apply cut_count|]. apply cut_same. intros p. apply IH.
Qed.

Lemma cut_proxy_request m c : cut (fun _ => True) (@proxy_request RL RD E m c) (@proxy_request RL RD E' m c).
Proof.
  unfold proxy_request. apply cut_same. intros [backend|]; last first.
  { apply cut_same. intros _. apply cut_then; [apply cut_reject|]. intros _. apply trail_on_span. }
  do 6 (apply cut_same; intros ?). apply cut_retry.
Qed.

(** The cache step is cut only where it would have answered. *)
Lemma cut_serve_cached c : cut (eq true) (@serve_cached RL RD E c) (@serve_cached RL RD E' c).
Proof.
  unfold serve_cached. do 2 (apply cut_same; intros ?). case_if; [|apply cut_refl]. apply cut_same. intros rdb.
  destruct (cache_Get _ _ _); [|apply cut_refl]. do 5 (apply cut_same; intros ?).
  apply (cut_bind (fun _ => True)); [apply cut_count|intros; apply cut_refl|]. intros _ _. split.
  - apply keeps_bind; [typeclasses eauto|apply trail_on_span|]. intros _ w. done.
  - intros w b. unfold mbind, M_bind. destruct (on_span _ _ w) as [[]]; [|done]. by intros [= <-].
Qed.

Lemma cut_serve_matched m c : cut (fun _ => True) (@serve_matched JL RL RD E m c) (@serve_matched JL RL RD E' m c).
Proof.
  unfold serve_matched. do 3 (apply cut_same; intros ?). case_if.
  { apply cut_same. intros _. apply cut_then; [apply cut_reject|]. intros _. apply trail_on_span. }
  apply cut_same. intros _. apply (cut_bind (eq true)); [apply cut_serve_cached| |].
  - intros []; [apply cut_refl|apply cut_proxy_request].
  - by intros _ <-.
Qed.

Lemma cut_serve_body c : cut (fun _ => True) (@serve_body UT JL RL RD E c) (@serve_body UT JL RL RD E' c).
Proof.
  unfold serve_body. apply cut_same. intros []; [apply cut_refuse|]. apply cut_same. intros []; [apply cut_refuse|].
  apply cut_same. intros ok. case_if; [apply cut_refuse|]. do 2 (apply cut_same; intros ?).
  destruct (Route _ _ _); [apply cut_serve_matched|]. apply cut_same. intros _. apply cut_reject.
Qed.

Lemma trail_observe_duration c w :
  trail (@observe_duration RL RD E c w).2 = trail w /\ trail (@observe_duration RL RD E' c w).2 = trail w.
Proof.
  unfold observe_duration, Since, WithLabelValues, mbind, M_bind, gets, modify, Now, mret, M_ret, panic. cbn.
  by destruct (_ && _).
Qed.

(** The whole handler leaves the same trail. *)
Definition alike {A} (m m' : M World A) : Prop := forall w, trail (m w).2 = trail (m' w).2.

Lemma alike_bind {A B} (m : M World A) (k k' : A -> M World B) :
  (forall a, alike (k a) (k' a)) -> alike (m ≫= k) (m ≫= k').
Proof. intros Hk w. unfold mbind, M_bind. destruct (m w) as [[a|why] w1]; [apply Hk|done]. Qed.

Lemma trail_finish_span c w : trail (finish_span c w) = trail w.
Proof. unfold finish_span. by destruct (lc_span c). Qed.

Lemma trail_deferred c (E0 : Env) (m : M World unit) w :
  (forall v, trail (@observe_duration RL RD E0 c v).2 = trail v) ->
  trail (deferring (finish_span c) (deferring_call (@observe_duration RL RD E0 c) m) w).2 = trail (m w).2.
Proof.
  intros Ho. unfold deferring, deferring_call. destruct (m w) as [o w1]. specialize (Ho w1).
  destruct (@observe_duration RL RD E0 c w1) as [[|] w2]; cbn [snd] in *; by rewrite trail_finish_span.
Qed.

Lemma trail_ServeHTTP : alike (@ServeHTTP UT JL RL RD E) (@ServeHTTP UT JL RL RD E').
Proof.
  unfold ServeHTTP. do 5 (apply alike_bind; intros ?). intros w.
  rewrite !trail_deferred by (intros v; apply trail_observe_duration).
  match goal with |- trail (serve_body ?c w).2 = _ => destruct (cut_serve_body c w) as [->|(w2 & -> & Et & _)] end;
    [done|exact Et].
Qed.

(** C10: A path that is not UTF-8 aborts its request, whatever becomes of it. The
    handler panics over the label, and the request is neither counted nor its
    duration observed; but by then it has sent upstream exactly what it would
    have sent with a metrics client that accepts every label, and written the
    same response. The registered prefixes are assumed to be UTF-8, as a stripped
    one could otherwise take the offending bytes away, and the history index of
    the dashboard not to be negative. *)
Theorem invalid_path_aborts (w : World) :
  0 <= ds_histIdx (mt_dashStats (w_metrics w)) ->
  List.Forall (fun e => ValidString (e_Prefix e) = true) (sr_routes (gw_router (w_gw w))) ->
  ValidString (u_Path (rq_URL (w_req w))) = false ->
  exists w', ServeHTTP w = (Panic label_panic, w') /\
    mt_requestsTotal (w_metrics w') = mt_requestsTotal (w_metrics w) /\
    mt_requestDuration (w_metrics w') = mt_requestDuration (w_metrics w) /\
    w_calls w' = w_calls (@ServeHTTP UT JL RL RD (accept_all E) w).2 /\
    w_rec w' = w_rec (@ServeHTTP UT JL RL RD (accept_all E) w).2.
Proof.
  intros Hi Hf Hb. pose proof (trail_ServeHTTP w) as Ht. injection Ht as Ht1 Ht2. fold E'. rewrite <- Ht1, <- Ht2. clear Ht1 Ht2.
  destruct (ServeHTTP_run w) as [f ->]. set (c := locals _ _). clearbody c.
  unfold record_dash, stats_RecordRequest. cbn [w_metrics Now set_clock snd].
  replace (go_rem (ds_histIdx (mt_dashStats (w_metrics w))) 48 <? 0) with false
    by (unfold go_rem; pose proof (Z.rem_nonneg (ds_histIdx (mt_dashStats (w_metrics w))) 48); lia).
  set (w1 := on_trace f _). unfold deferring, deferring_call.
  pose proof (counts_once_serve_body c w1) as Hc.
  pose proof observed_body. pose proof (body_serve_body (same observed) c w1) as Ho. unfold same, observed in Ho.
  pose proof (bad_serve_body c w1 Hf Hb) as Hb2.
  destruct (serve_body c w1) as [o w2]. cbn [snd] in Ho, Hb2. injection Ho as Hd _.
  destruct (observe_duration_run c w2) as (w3 & Eq & Em & ->).
  rewrite !label_ok_valid, Hb2, andb_false_r. eexists. split; [done|].
  assert (mt_requestsTotal (w_metrics w2) = mt_requestsTotal (w_metrics w)) as Hcount.
  { destruct o as [u|why]; [|exact Hc]. destruct Hc as (status & _ & _ & Hl).
    by rewrite label_ok_valid, Hb2 in Hl. }
  unfold finish_span. destruct (lc_span c); cbn; by rewrite Em, Hcount, Hd.
Qed.
End Labels.

(** ** On the concrete gateway *)

#[export] Instance demo_labels xs : @LabelSpec (demo_env xs).
Proof. by split. Qed.

Lemma valid_labels_unobservable_witness :
  let w := demo_world 5 ∅ (demo_request "/shop/cart" ∅) in
  demo_serve [demo_ok "hi"] w =
  @ServeHTTP ascii_tables demo_jwt exact_rate demo_redis (accept_all (demo_env [demo_ok "hi"])) w.
Proof.
  intros w.
  apply (@valid_labels_unobservable ascii_tables demo_jwt exact_rate demo_redis (demo_env [demo_ok "hi"])
           (demo_labels _) w); reflexivity.
Defined.

(** [GET /shop/%ff]: the upstream answers, and the request is gone. *)
Lemma invalid_path_aborts_witness :
  let w := demo_world 5 ∅ (demo_request ("/shop/" +:+ String (ascii_of_nat 255) "") ∅) in
  (exists w', demo_serve [demo_ok "hi"] w = (Panic label_panic, w') /\
    mt_requestsTotal (w_metrics w') = [] /\ mt_requestDuration (w_metrics w') = []) /\
  rs_body (rr_ResponseWriter (w_rec (demo_serve [demo_ok "hi"] w).2)) = "hi".
Proof.
  intros w. split; [|vm_compute; reflexivity].
  destruct (@invalid_path_aborts ascii_tables demo_jwt exact_rate demo_redis (demo_env [demo_ok "hi"])
           (demo_labels _) w) as (w' & Hs & Hn & Hd & _).
  - vm_compute. discriminate.
  - apply List.Forall_forall, forallb_forall. vm_compute. reflexivity.
  - vm_compute. reflexivity.
  - exists w'. split; [exact Hs|]. split; [exact Hn|exact Hd].
Defined.
