(* ===== verification/Policy.v ===== *)
(** * The decision table of the gateway (main.go)

    What [ServeHTTP] decides about a request is a function of the state in which
    the request arrives and of the clock: [policy]. This file states that
    function, the reply that goes with every decision, and that the handler
    implements it: the response, the request counter, the log and the span of a
    request that is not proxied are those of the table, and nothing is sent
    upstream; any other request goes on to the retry loop with the backend that
    the pool chose. *)

From Stdlib Require Import ZArith Lia Ascii String List.
From stdpp Require Import base list strings gmap.
From S2P Require Import Prelude Logic GoStrings Hosts Urls Pool Router Breaker DDoS Http.
From S2P Require Import Recorder Auth RateLimiter Proxy Config Dashboard Cache Fmt Logger.
From S2P Require Import Tracing Gateway GatewayDemo GatewayLaws GatewayStatus Labels.

(** ** The table *)

Inductive verdict : Type :=
| Blocked
| Triggered
| Limited
| NoRoute
| Unauthorized
| Cached (body : string)
| NoBackend
| Proxied (m : MatchedRoute) (backend : ptr).

(** What the client, the counter, the log and the span are told. *)
Record reply := mkReply {
  re_status : Z;
  re_body : string;
  re_level : Z;
  re_text : string;
  re_kvs : list any;
  re_tags : list tracer_call
}.

Definition error_tags (msg : string) : list tracer_call :=
  [SetTag "error" (ABool true); SetTag "error.message" (AString msg)].

Section Policy.
Context `{UT : UnicodeTables, JL : JwtLib, RL : RateLib, RD : RedisLib, E : Env}.

(** The cached response of a request, if it is to be served from the cache. *)
Definition cached_body (w : World) : option string :=
  let g := w_gw w in
  if String.eqb (rq_Method (w_req w)) "GET" && c_EnableCaching (gw_cfg g)
  then cache_Get (gw_cacheManager g) (w_redis w) (GenerateKey (w_req w)) else None.

(** The decision on a request that a route matches, authenticated at [now]. *)
Definition policy_matched (m : MatchedRoute) (now : Z) (w : World) : outcome verdict :=
  let g := w_gw w in
  if negb (authorized m (w_req w) (gw_cfg g) now) then Ret Unauthorized
  else match cached_body w with
  | Some body => Ret (Cached body)
  | None =>
      match sr_pools (gw_router g) !! m_Pool m with
      | None => Panic "nil pointer dereference"
      | Some s =>
          match (NextPeer (sr_heap (gw_router g)) s (getClientIP (w_req w))).1 with
          | Panic why => Panic why
          | Ret None => Ret NoBackend
          | Ret (Some backend) => Ret (Proxied m backend)
          end
      end
  end.

(** The decision on any request, in the world after [start] was read: the clock
    is read for every step that depends on it. *)
Definition policy (w : World) : outcome verdict :=
  let g := w_gw w in
  let r := w_req w in
  let ip := getClientIP r in
  let '(blocked, d) := IsBlocked ip (reading 1 w) (gw_ddosProtection g) in
  if blocked : bool then Ret Blocked
  else if (RecordRequest ip (reading 2 w) d).1 then Ret Triggered
  else match (rate_allow ip (reading 3 w) (gw_rateLimiter g)).1 with
  | Panic why => Panic why
  | Ret false => Ret Limited
  | Ret true =>
      match Route (gw_router g) (rq_Host r) (u_Path (rq_URL r)) with
      | None => Ret NoRoute
      | Some m => policy_matched m (reading 4 w) w
      end
  end.

(** The tag of an authenticated request. *)
Definition user_tags (now : Z) (w : World) : list tracer_call :=
  let userID := (authenticate (w_req w) (c_JWTSecret (gw_cfg (w_gw w))) now).2 in
  if String.eqb userID "" then [] else [SetTag "user.id" (AString userID)].

Definition refused (ip reason msg tag : string) (w : World) : reply :=
  mkReply 429 (msg +:+ newline) LevelWarn "request rejected"
    [AString "reason"; AString reason; AString "client_ip"; AString ip;
     AString "method"; AString (w_method w); AString "path"; AString (w_path w)]
    (error_tags tag).

(** The reply of every decision but the last, for a request authenticated at
    [now]. *)
Definition reply_of (v : verdict) (now : Z) (w : World) : option reply :=
  let ip := getClientIP (w_req w) in
  let method := AString (w_method w) in
  let path := AString (w_path w) in
  match v with
  | Blocked => Some (refused ip "IP blocked" "Too many requests - IP blocked" "IP blocked" w)
  | Triggered => Some (refused ip "DDoS protection triggered" "DDoS protection triggered" "DDoS triggered" w)
  | Limited => Some (refused ip "rate limit exceeded" "Rate limit exceeded" "Rate limit exceeded" w)
  | NoRoute => Some (mkReply 404 ("No route matched" +:+ newline) LevelInfo "request rejected"
      [AString "reason"; AString "no route matched"; AString "host"; AString (rq_Host (w_req w));
       AString "path"; path; AString "method"; method] [])
  | Unauthorized => Some (mkReply 401 ("Unauthorized" +:+ newline) LevelWarn "request rejected"
      [AString "reason"; AString "unauthorized"; AString "path"; path; AString "method"; method]
      (error_tags "Unauthorized"))
  | Cached body => Some (mkReply 200 body LevelInfo "request served from cache"
      [AString "path"; path; AString "method"; method; AString "cache"; AString "HIT"]
      (user_tags now w ++ [SetTag "cache" (AString "hit")]))
  | NoBackend => Some (mkReply 503 ("No healthy backends available" +:+ newline) LevelError
      "no healthy backends available" [AString "path"; path; AString "method"; method]
      (user_tags now w ++ error_tags "No backends available"))
  | Proxied _ _ => None
  end.

(** ** Replying *)

(** The entries of a log that are not above the debug level. *)
Definition debug_only : list log_entry -> Prop := List.Forall (fun e => le_level e = LevelDebug).

(** From [w] to [w'] the request was given the reply [rp]: the client's status
    and body, one more count under that status, one line above the debug level,
    and the tags of the span; nothing was sent upstream. *)
Record replied (c : Locals) (rp : reply) (w w' : World) : Prop := {
  rp_calls : w_calls w' = w_calls w;
  rp_req : w_req w' = w_req w;
  rp_counted : counted w' = counted w ++ [(w_method w, w_path w, Itoa (re_status rp))];
  rp_status : client_status (rr_ResponseWriter (w_rec w')) = re_status rp;
  rp_body : rs_body (rr_ResponseWriter (w_rec w')) = re_body rp;
  rp_log : exists pre, debug_only pre /\ tr_log (w_trace w') = tr_log (w_trace w) ++ pre ++
    [mkLogEntry (re_level rp) (lc_requestID c) (re_text rp) (re_kvs rp)];
  rp_tags : tr_calls (w_trace w') = tr_calls (w_trace w) ++ (if lc_span c then re_tags rp else [])
}.

(** On the way to a reply: debug lines and tags only. *)
Record underway (c : Locals) (tags : list tracer_call) (w w' : World) : Prop := {
  uw_calls : w_calls w' = w_calls w;
  uw_req : w_req w' = w_req w;
  uw_counted : counted w' = counted w;
  uw_pristine : pristine (w_rec w) -> pristine (w_rec w');
  uw_log : exists pre, debug_only pre /\ tr_log (w_trace w') = tr_log (w_trace w) ++ pre;
  uw_tags : tr_calls (w_trace w') = tr_calls (w_trace w) ++ (if lc_span c then tags else [])
}.

Definition add_tags (tags : list tracer_call) (rp : reply) : reply :=
  mkReply (re_status rp) (re_body rp) (re_level rp) (re_text rp) (re_kvs rp) (tags ++ re_tags rp).

Lemma underway_replied c tags rp w w1 w' :
  underway c tags w w1 -> replied c rp w1 w' -> replied c (add_tags tags rp) w w'.
Proof.
  intros [U1 U2 U3 _ (pre & Hd & U5) U6] [R1 R2 R3 R4 R5 (pre' & Hd' & R6) R7].
  unfold w_method, w_path in R3. split; cbn; try done; try congruence.
  - rewrite R3, U3, U2. done.
  - exists (pre ++ pre'). split; [by apply List.Forall_app|]. by rewrite R6, U5, <- !app_assoc.
  - rewrite R7, U6. destruct (lc_span c); by rewrite <- ?app_assoc, ?app_nil_r.
Qed.

Lemma underway_trans c t1 t2 w w1 w2 :
  underway c t1 w w1 -> underway c t2 w1 w2 -> underway c (t1 ++ t2) w w2.
Proof.
  intros [U1 U2 U3 U4 (pre & Hd & U5) U6] [V1 V2 V3 V4 (pre' & Hd' & V5) V6].
  split; try congruence; [auto|exists (pre ++ pre'); split; [by apply List.Forall_app|]|].
  - by rewrite V5, U5, <- app_assoc.
  - rewrite V6, U6. destruct (lc_span c); by rewrite <- ?app_assoc, ?app_nil_r.
Qed.

(** A step that the request does not notice. *)
Definition view (w : World) := (w_calls w, w_req w, counted w, w_rec w, w_trace w).

Lemma view_underway c w w' : view w' = view w -> underway c [] w w'.
Proof.
  unfold view. intros [= E1 E2 E3 E4 E5]. split; rewrite ?E4, ?E5; try done.
  - exists []. rewrite app_nil_r. by split; [constructor|].
  - by destruct (lc_span c); rewrite app_nil_r.
Qed.

Lemma add_tags_nil rp : add_tags [] rp = rp.
Proof. by destruct rp. Qed.

Lemma view_replied c rp w w1 w' : view w1 = view w -> replied c rp w1 w' -> replied c rp w w'.
Proof. intros Hv%(view_underway c) Hr. rewrite <- (add_tags_nil rp). by eapply underway_replied. Qed.

(** ** Steps *)

Lemma on_span_calls c calls w :
  on_span c calls w = (Ret tt, if lc_span c then on_trace (add_calls calls) w else w).
Proof. unfold on_span, modify. by destruct (lc_span c). Qed.

Lemma on_span_underway c calls w : underway c calls w (on_span c calls w).2.
Proof.
  rewrite on_span_calls. destruct (lc_span c) eqn:Es; split; cbn; rewrite ?Es; try done;
    try by exists []; rewrite app_nil_r; split; [constructor|].
  by rewrite app_nil_r.
Qed.

Context `{!LabelSpec}.

Definition labels_valid (w : World) : Prop :=
  ValidString (w_method w) = true /\ ValidString (w_path w) = true.

Lemma count_counts status w :
  labels_valid w -> ValidString status = true ->
  count status w = (Ret tt, on_metrics (count_labels (w_method w, w_path w, status)) w).
Proof. intros [Hm Hp] Hs. by rewrite count_run, !label_ok_valid, Hm, Hp, Hs. Qed.

Lemma reject_run msg code w :
  pristine (w_rec w) -> labels_valid w -> 200 <= code <= 999 -> bodyAllowedForStatus code = true ->
  exists s', client_status s' = code /\ rs_body s' = msg +:+ newline /\
    reject msg code (Itoa code) w =
    (Ret tt, on_metrics (count_labels (w_method w, w_path w, Itoa code)) (set_rec (with_rw s' (w_rec w)) w)).
Proof.
  intros [_ _ Hw Hh Hb] Hl Hc Ha.
  destruct (http_Error_response msg code (rr_ResponseWriter (w_rec w)) Hh Hw Hb Hc Ha)
    as (s' & Es & Hw' & Hs' & Hb' & _).
  exists s'. unfold client_status. rewrite Hw'. split_and!; [done..|]. unfold reject.
  rewrite (bind_Ret (on_response _) _ w tt (set_rec (with_rw s' (w_rec w)) w))
    by (unfold on_response, on_rec, on_rw; by rewrite Es).
  apply (count_counts (Itoa code) (set_rec (with_rw s' (w_rec w)) w)); [exact Hl|apply Itoa_valid].
Qed.

(** A line in the log, an error for the client, and the counter. *)
Lemma reject_replied c level text kvs msg code w :
  pristine (w_rec w) -> labels_valid w -> 200 <= code <= 999 -> bodyAllowedForStatus code = true ->
  exists w', (reqLog c level text kvs ;; reject msg code (Itoa code)) w = (Ret tt, w') /\
    replied c (mkReply code (msg +:+ newline) level text (kvs w) []) w w'.
Proof.
  intros Hp Hl Hc Ha. rewrite (bind_Ret (reqLog _ _ _ _) _ w tt _ eq_refl).
  match goal with |- context [on_trace ?f w] => set (w1 := on_trace f w) end.
  destruct (reject_run msg code w1 Hp Hl Hc Ha) as (s' & Hs & Hb & ->). eexists. split; [done|].
  split; cbn; try done; [by exists []; split; [constructor|]|]. by destruct (lc_span c); rewrite app_nil_r.
Qed.

Lemma replied_tags c rp tags w w' :
  replied c rp w w' ->
  replied c (mkReply (re_status rp) (re_body rp) (re_level rp) (re_text rp) (re_kvs rp) (re_tags rp ++ tags))
    w (if lc_span c then on_trace (add_calls tags) w' else w').
Proof.
  intros [R1 R2 R3 R4 R5 R6 R7]. destruct (lc_span c) eqn:Es; split; rewrite ?Es; cbn; try done.
  by rewrite R7, <- app_assoc.
Qed.

(** The same with the tags of the span. *)
Lemma refusal_replied c level text kvs msg code tags w :
  pristine (w_rec w) -> labels_valid w -> 200 <= code <= 999 -> bodyAllowedForStatus code = true ->
  exists w', (reqLog c level text kvs ;; reject msg code (Itoa code) ;; on_span c tags) w = (Ret tt, w') /\
    replied c (mkReply code (msg +:+ newline) level text (kvs w) tags) w w'.
Proof.
  intros Hp Hl Hc Ha.
  destruct (reject_replied c level text kvs msg code w Hp Hl Hc Ha) as (w' & Ew & Hr).
  rewrite (bind_Ret (reqLog _ _ _ _) _ w tt _ eq_refl) in Ew.
  rewrite (bind_Ret (reqLog _ _ _ _) _ w tt _ eq_refl), (bind_Ret _ _ _ _ _ Ew), on_span_calls.
  eexists. split; [done|]. by apply (replied_tags c _ tags) in Hr.
Qed.

(** ** From the match on *)

Lemma reqLog_debug c text kvs w :
  underway c [] w (on_trace (add_entry (mkLogEntry LevelDebug (lc_requestID c) text (kvs w))) w).
Proof.
  split; cbn; try done.
  - eexists. split; [|reflexivity]. apply List.Forall_cons; [done|constructor].
  - by destruct (lc_span c); rewrite app_nil_r.
Qed.

(** The headers of the response declare no length. *)
Definition unbounded (rr : responseRecorder) : Prop := declared_length (rs_header (rr_ResponseWriter rr)) = None.

(** The cache: a reply, or a header and a line for debugging. *)
Lemma serve_cached_run c w :
  pristine (w_rec w) -> unbounded (w_rec w) -> labels_valid w ->
  match cached_body w with
  | Some body => exists w', serve_cached c w = (Ret true, w') /\
      replied c (mkReply 200 body LevelInfo "request served from cache"
        [AString "path"; AString (w_path w); AString "method"; AString (w_method w); AString "cache"; AString "HIT"]
        [SetTag "cache" (AString "hit")]) w w'
  | None => exists w', serve_cached c w = (Ret false, w') /\ underway c [] w w' /\
      w_gw w' = w_gw w
  end.
Proof.
  intros Hp Hd Hl. unfold cached_body, serve_cached. rewrite !(bind_Ret (gets _) _ w _ w eq_refl).
  destruct (_ && _); last first.
  { exists w. split_and!; [done|by apply view_underway|done]. }
  rewrite (bind_Ret (gets _) _ w _ w eq_refl). destruct (cache_Get _ _ _) as [body|].
  - rewrite (bind_Ret (modify _) _ w tt _ eq_refl), (bind_Ret (reqLog _ _ _ _) _ _ tt _ eq_refl),
      (bind_Ret (set_response_header _ _) _ _ tt _ eq_refl).
    match goal with |- context [(_ ≫= _) ?v] => set (w1 := v) end.
    destruct Hp as [_ _ Hw Hh Hb].
    rewrite (bind_Ret (on_response _) _ w1 tt _
      ltac:(unfold on_response, on_rec, on_rw; by rewrite response_WriteHeader_final)).
    match goal with |- context [(_ ≫= _) ?v] => set (w2 := v) end.
    assert (exists res s', response_Write body (rr_ResponseWriter (w_rec w2)) = (Ret res, s') /\
      client_status s' = 200 /\ rs_body s' = body) as (res & s' & Ew & Hs' & Hb').
    { unfold response_Write, gets, mbind, M_bind, modify, mret, M_ret. cbn. rewrite Hb.
      destruct (String.eqb body "") eqn:Eb; bool_prop; [subst; by eexists _, _|].
      rewrite take_bytes_free by (cbn; by rewrite declared_length_Set). by eexists _, _. }
    rewrite (bind_Ret (on_response _) _ w2 res (set_rec (with_rw s' (w_rec w2)) w2))
      by (unfold on_response, on_rec, on_rw; by rewrite Ew).
    rewrite (bind_Ret _ _ _ _ _ (count_counts "200" (set_rec (with_rw s' (w_rec w2)) w2) Hl eq_refl)).
    rewrite (bind_Ret _ _ _ _ _ (on_span_calls c _ _)). eexists. split; [done|].
    destruct (lc_span c) eqn:Es; split; rewrite ?Es; cbn; try done;
      try (by exists []; split; [constructor|]); by rewrite app_nil_r.
  - rewrite (bind_Ret (reqLog _ _ _ _) _ _ tt _ eq_refl), (bind_Ret (set_response_header _ _) _ _ tt _ eq_refl).
    eexists. split; [done|]. split; [|done]. destruct (reqLog_debug c "cache miss"
      (fun w1 => [AString "path"; AString (w_path w1); AString "key"; AString (GenerateKey (w_req w))]) w)
      as [U1 U2 U3 U4 U5 U6].
    split; cbn; try done. intros []. by split.
Qed.

(** What the retry loop starts from. *)
Record forwarding (m : MatchedRoute) (w w1 : World) : Prop := {
  fw_calls : w_calls w1 = w_calls w;
  fw_counted : counted w1 = counted w;
  fw_req : w_req w1 = rewrite_path (m_BackendPath m) (w_req w);
  fw_pristine : pristine (w_rec w1);
  fw_heap : sr_heap (gw_router (w_gw w1)) = sr_heap (gw_router (w_gw w))
}.

(** The deadline of an attempt. *)
Definition attempt_timeout (m : MatchedRoute) (w : World) : Z :=
  if m_Timeout m <=? 0 then c_ConnectionTimeout (gw_cfg (w_gw w)) else m_Timeout m.

(** [o] and [w'] are what the verdict [v] asks for. *)
Definition carried_out (c : Locals) (v : outcome verdict) (now : Z) (w : World) (res : outcome unit * World) : Prop :=
  match v with
  | Panic why => res.1 = Panic why /\ w_calls res.2 = w_calls w /\ counted res.2 = counted w /\ w_req res.2 = w_req w
  | Ret v =>
      match v, reply_of v now w with
      | Proxied m backend, _ => exists w1,
          res = retry m c (attempt_timeout m w) maxRetries 0 backend "" w1 /\ forwarding m w w1
      | _, Some rp => res.1 = Ret tt /\ replied c rp w res.2
      | _, None => False
      end
  end.

Lemma NextPeer_of_run pool ip w s :
  sr_pools (gw_router (w_gw w)) !! pool = Some s ->
  exists w', NextPeer_of pool ip w = ((NextPeer (sr_heap (gw_router (w_gw w))) s ip).1, w') /\
    view w' = view w /\ gw_cfg (w_gw w') = gw_cfg (w_gw w) /\
    sr_heap (gw_router (w_gw w')) = sr_heap (gw_router (w_gw w)).
Proof.
  intros Hs. unfold NextPeer_of. rewrite (bind_Ret (gets _) _ w _ w eq_refl), Hs.
  destruct (NextPeer _ s ip) as [o s']. by eexists.
Qed.

Lemma view_pristine w w' : view w' = view w -> pristine (w_rec w) -> pristine (w_rec w').
Proof. unfold view. by intros [= _ _ _ -> _]. Qed.

Lemma labels_valid_req w w' : w_req w' = w_req w -> labels_valid w -> labels_valid w'.
Proof. unfold labels_valid, w_method, w_path. by intros ->. Qed.

(** The choice of a backend. *)
Lemma proxy_request_run m c w s :
  pristine (w_rec w) -> labels_valid w -> sr_pools (gw_router (w_gw w)) !! m_Pool m = Some s ->
  match (NextPeer (sr_heap (gw_router (w_gw w))) s (lc_ip c)).1 with
  | Panic why => exists w', proxy_request m c w = (Panic why, w') /\ w_calls w' = w_calls w /\
      counted w' = counted w /\ w_req w' = w_req w
  | Ret None => exists w', proxy_request m c w = (Ret tt, w') /\
      replied c (mkReply 503 ("No healthy backends available" +:+ newline) LevelError
        "no healthy backends available" [AString "path"; AString (w_path w); AString "method"; AString (w_method w)]
        (error_tags "No backends available")) w w'
  | Ret (Some backend) => exists w1,
      proxy_request m c w = retry m c (attempt_timeout m w) maxRetries 0 backend "" w1 /\ forwarding m w w1
  end.
Proof.
  intros Hp Hl Hs. unfold proxy_request.
  destruct (NextPeer_of_run (m_Pool m) (lc_ip c) w s Hs) as (w1 & E1 & Hv & Hg & Hh).
  pose proof (view_pristine _ _ Hv Hp) as Hp1.
  assert (w_calls w1 = w_calls w /\ w_req w1 = w_req w /\ counted w1 = counted w) as (Ec & Er & Ek)
    by (unfold view in Hv; by injection Hv).
  destruct (NextPeer _ s _).1 as [[backend|]|why].
  - rewrite (bind_Ret _ _ _ _ _ E1), (bind_Ret (reqLog _ _ _ _) _ _ tt _ eq_refl), (bind_Ret (gets _) _ _ _ _ eq_refl).
    match goal with |- context [(on_span ?c ?l ≫= _) ?v] => destruct (on_span_run c l v) as [f Ef] end.
    rewrite (bind_Ret _ _ _ _ _ Ef), (bind_Ret (modify _) _ _ tt _ eq_refl), (bind_Ret (gets _) _ _ _ _ eq_refl),
      (bind_Ret (modify _) _ _ tt _ eq_refl).
    eexists. split; [unfold attempt_timeout; rewrite <- Hg; reflexivity|].
    split; cbn; try done; [by rewrite Er|]. destruct Hp1. by split.
  - rewrite (bind_Ret _ _ _ _ _ E1).
    destruct (refusal_replied c LevelError "no healthy backends available" (fun w =>
      [AString "path"; AString (w_path w); AString "method"; AString (w_method w)])
      "No healthy backends available" 503 (error_tags "No backends available") w1 Hp1
      (labels_valid_req _ _ Er Hl) ltac:(lia) eq_refl) as (w' & Ew & Hr).
    exists w'. split; [exact Ew|]. apply (view_replied c _ w w1 w' Hv). unfold w_path, w_method in *. by rewrite Er in Hr.
  - rewrite (bind_Panic _ _ _ _ _ E1). by exists w1.
Qed.

Lemma forwarding_underway c tags m w w1 w2 :
  underway c tags w w1 -> sr_heap (gw_router (w_gw w1)) = sr_heap (gw_router (w_gw w)) ->
  forwarding m w1 w2 -> forwarding m w w2.
Proof. intros [U1 U2 U3 _ _ _] Hh [F1 F2 F3 F4 F5]. split; congruence. Qed.

(** From the match on. *)
Lemma serve_matched_run m c w :
  pristine (w_rec w) -> unbounded (w_rec w) -> labels_valid w -> lc_ip c = getClientIP (w_req w) ->
  carried_out c (policy_matched m (reading 1 w) w) (reading 1 w) w (serve_matched m c w).
Proof.
  intros Hp Hd Hl Hip. unfold serve_matched, policy_matched.
  rewrite (bind_Ret Now _ w (reading 1 w) (tick w) eq_refl), !(bind_Ret (gets _) _ _ _ _ eq_refl).
  change (w_req (tick w)) with (w_req w). change (gw_cfg (w_gw (tick w))) with (gw_cfg (w_gw w)).
  set (now := reading 1 w). assert (view (tick w) = view w) as Hv by done.
  destruct (authorized m (w_req w) (gw_cfg (w_gw w)) now); cbn [negb]; last first.
  { destruct (refusal_replied c LevelWarn "request rejected" (fun w =>
      [AString "reason"; AString "unauthorized"; AString "path"; AString (w_path w);
       AString "method"; AString (w_method w)]) "Unauthorized" 401 (error_tags "Unauthorized") (tick w) Hp Hl
       ltac:(lia) eq_refl) as (w' & Ew & Hr).
    unfold tag_error. cbn [carried_out reply_of]. change "401" with (Itoa 401). unfold error_tags in Ew. rewrite Ew.
    by split; [|apply (view_replied c _ w _ _ Hv)]. }
  cbv zeta. fold (user_tags now w). destruct (on_span_run c (user_tags now w) (tick w)) as [f Ef].
  rewrite (bind_Ret _ _ _ _ _ Ef). pose proof (on_span_underway c (user_tags now w) (tick w)) as U2.
  rewrite Ef in U2. cbn [snd] in U2. set (w2 := on_trace f (tick w)) in *.
  apply (underway_trans c [] _ w _ _ (view_underway c _ _ Hv)) in U2. cbn [app] in U2.
  pose proof (serve_cached_run c w2 Hp Hd Hl) as Hk. change (cached_body w2) with (cached_body w) in Hk.
  destruct (cached_body w) as [body|].
  { destruct Hk as (w' & Ew & Hr). rewrite (bind_Ret _ _ _ _ _ Ew). split; [done|].
    by apply (underway_replied c _ _ w w2 w' U2) in Hr. }
  destruct Hk as (w3 & Ew & U3 & Eg). rewrite (bind_Ret _ _ _ _ _ Ew).
  pose proof (underway_trans _ _ _ _ _ _ U2 U3) as U. rewrite app_nil_r in U.
  change (w_gw w2) with (w_gw w) in Eg. rewrite <- Eg, <- Hip.
  destruct (sr_pools (gw_router (w_gw w3)) !! m_Pool m) as [s|] eqn:Es; last first.
  { unfold proxy_request, NextPeer_of, mbind, M_bind, gets. rewrite Es. cbn. by destruct U. }
  pose proof (proxy_request_run m c w3 s (uw_pristine _ _ _ _ U Hp) (labels_valid_req _ _ (uw_req _ _ _ _ U) Hl) Es) as Hr.
  destruct (NextPeer _ s _).1 as [[backend|]|why].
  - destruct Hr as (w1 & -> & Hf). exists w1. unfold attempt_timeout. rewrite <- Eg. split; [done|].
    apply (forwarding_underway c _ m w w3 w1 U); [by rewrite Eg|done].
  - destruct Hr as (w' & -> & Hr). split; [done|]. apply (underway_replied c _ _ w w3 w' U) in Hr.
    unfold w_path, w_method in *. rewrite (uw_req _ _ _ _ U) in Hr. exact Hr.
  - destruct Hr as (w' & -> & Hc & Hk & Hq). cbn. rewrite Hc, Hk, Hq. by destruct U.
Qed.

(** ** The whole handler *)

Lemma reply_of_ext v now w w' :
  w_req w' = w_req w -> gw_cfg (w_gw w') = gw_cfg (w_gw w) -> reply_of v now w' = reply_of v now w.
Proof. unfold reply_of, refused, user_tags, w_method, w_path. by intros -> ->. Qed.

Lemma carried_out_view c v now w w1 res :
  view w1 = view w -> gw_cfg (w_gw w1) = gw_cfg (w_gw w) ->
  sr_heap (gw_router (w_gw w1)) = sr_heap (gw_router (w_gw w)) ->
  carried_out c v now w1 res -> carried_out c v now w res.
Proof.
  intros Hv Hg Hh. assert (w_calls w1 = w_calls w /\ w_req w1 = w_req w /\ counted w1 = counted w) as (Ec & Er & Ek)
    by (unfold view in Hv; by injection Hv).
  unfold carried_out, attempt_timeout. destruct v as [v|why]; [|by rewrite Ec, Ek, Er]. rewrite ?Hg.
  destruct v as [| | | | | | |m backend]; rewrite ?(reply_of_ext _ now w w1 Er Hg); cbn;
    try (intros [Ho Hr]; split; [done|by apply (view_replied c _ w w1 _ Hv)]).
  intros (w2 & -> & Hf). exists w2. split; [done|].
  by apply (forwarding_underway c [] m w w1 w2 (view_underway c _ _ Hv)).
Qed.

Lemma refuse_carried_out c v now reason msg tag w :
  pristine (w_rec w) -> labels_valid w -> reply_of v now w = Some (refused (lc_ip c) reason msg tag w) ->
  carried_out c (Ret v) now w (refuse c reason msg 429 "429" tag w).
Proof.
  intros Hp Hl Hv. unfold refuse, tag_error.
  destruct (refusal_replied c LevelWarn "request rejected" (fun w =>
    [AString "reason"; AString reason; AString "client_ip"; AString (lc_ip c);
     AString "method"; AString (w_method w); AString "path"; AString (w_path w)]) msg 429 (error_tags tag) w Hp Hl
     ltac:(lia) eq_refl) as (w' & Ew & Hr).
  unfold error_tags in Ew. change "429" with (Itoa 429). rewrite Ew. destruct v; cbn [carried_out]; by rewrite ?Hv.
Qed.

Lemma serve_body_run c w :
  pristine (w_rec w) -> unbounded (w_rec w) -> labels_valid w -> lc_ip c = getClientIP (w_req w) ->
  carried_out c (policy w) (reading 4 w) w (serve_body c w).
Proof.
  intros Hp Hd Hl Hip. unfold serve_body, policy. rewrite <- Hip.
  rewrite (bind_Ret _ _ _ _ _ (ddos_blocked_run (lc_ip c) w)).
  destruct (IsBlocked (lc_ip c) (reading 1 w) _) as [blocked d]. cbn [fst snd].
  set (w1 := on_gw (with_ddos d) (tick w)).
  destruct blocked.
  { apply (carried_out_view c _ _ w w1); try done. apply refuse_carried_out; try done. cbn. by rewrite Hip. }
  rewrite (bind_Ret _ _ _ _ _ (ddos_record_run (lc_ip c) w1)).
  change (reading 1 w1) with (reading 2 w). change (gw_ddosProtection (w_gw w1)) with d.
  destruct (RecordRequest (lc_ip c) (reading 2 w) d) as [[] d']; cbn [fst snd].
  { match goal with |- carried_out _ _ _ _ (refuse _ _ _ _ _ _ ?v) => apply (carried_out_view c _ _ w v); try done end.
    apply refuse_carried_out; try done. cbn. by rewrite Hip. }
  match goal with |- context [(limiter_allow _ ≫= _) ?v] => set (w2 := v) end.
  pose proof (limiter_allow_run (lc_ip c) w2) as El. change (reading 1 w2) with (reading 3 w) in El.
  change (gw_rateLimiter (w_gw w2)) with (gw_rateLimiter (w_gw w)) in El.
  destruct (rate_allow (lc_ip c) (reading 3 w) (gw_rateLimiter (w_gw w))) as [[[]|why] l]; cbn [fst snd] in El |- *.
  3:{ by rewrite (bind_Panic _ _ _ _ _ El). }
  2:{ rewrite (bind_Ret _ _ _ _ _ El). cbn [negb].
      match goal with |- carried_out _ _ _ _ (refuse _ _ _ _ _ _ ?v) => apply (carried_out_view c _ _ w v); try done end.
      apply refuse_carried_out; try done. cbn. by rewrite Hip. }
  rewrite (bind_Ret _ _ _ _ _ El). cbn [negb]. set (w3 := on_gw (with_limiter l) (tick w2)).
  rewrite !(bind_Ret (gets _) _ w3 _ w3 eq_refl).
  change (w_req w3) with (w_req w). change (gw_router (w_gw w3)) with (gw_router (w_gw w)).
  apply (carried_out_view c _ _ w w3); try done.
  destruct (Route _ _ _) as [m|].
  - exact (serve_matched_run m c w3 Hp Hd Hl Hip).
  - destruct (reject_replied c LevelInfo "request rejected" (fun w =>
      [AString "reason"; AString "no route matched"; AString "host"; AString (rq_Host (w_req w));
       AString "path"; AString (w_path w); AString "method"; AString (w_method w)]) "No route matched" 404 w3 Hp Hl
       ltac:(lia) eq_refl) as (w' & Ew & Hr).
    change "404" with (Itoa 404). rewrite Ew. by split.
Qed.

(** The calls that open and close the span around the tags of a reply. *)
Definition opening (w : World) : list tracer_call :=
  [StartSpan "gateway.request"; SetTag "method" (AString (w_method w)); SetTag "path" (AString (w_path w))].

Definition whole (rp : reply) (w : World) : reply :=
  mkReply (re_status rp) (re_body rp) (re_level rp) (re_text rp) (re_kvs rp)
    (opening w ++ re_tags rp ++ [Finish]).

(** The deferred calls. *)
Definition epilogue (c : Locals) (res : outcome unit * World) : outcome unit * World :=
  deferring (finish_span c) (deferring_call (observe_duration c) (fun w => (res.1, w))) res.2.

Lemma epilogue_eq c m w :
  deferring (finish_span c) (deferring_call (observe_duration c) m) w = epilogue c (m w).
Proof. unfold epilogue, deferring, deferring_call. by destruct (m w). Qed.

Lemma ServeHTTP_opens w :
  0 <= ds_histIdx (mt_dashStats (w_metrics w)) ->
  let c := locals (w_now (tick w)) (tick w) in
  exists f g, let w2 := on_trace f (on_metrics (on_stats g) (tick w)) in
    ServeHTTP w = epilogue c (serve_body c w2) /\ underway c (opening w) w w2.
Proof.
  intros Hi c. unfold ServeHTTP. rewrite (bind_Ret Now _ w (w_now (tick w)) (tick w) eq_refl).
  rewrite (bind_Ret (gets _) _ (tick w) c (tick w) eq_refl).
  assert (exists g, record_dash (tick w) = (Ret tt, on_metrics (on_stats g) (tick w))) as [g Eg].
  { unfold record_dash, stats_RecordRequest. cbn [w_metrics tick Now set_clock snd].
    replace (go_rem (ds_histIdx (mt_dashStats (w_metrics w))) 48 <? 0) with false
      by (unfold go_rem; pose proof (Z.rem_nonneg (ds_histIdx (mt_dashStats (w_metrics w))) 48); lia).
    by eexists. }
  rewrite (bind_Ret _ _ _ _ _ Eg), (bind_Ret (reqLog _ _ _ _) _ _ tt _ eq_refl).
  match goal with |- context [on_trace (add_entry ?e) ?v] => set (w1 := on_trace (add_entry e) v) end.
  assert (underway c [] w w1) as U1.
  { apply (underway_trans c [] [] w (on_metrics (on_stats g) (tick w)) w1);
      [by apply view_underway|apply (reqLog_debug c "request started" (fun w =>
        [AString "method"; AString (w_method w); AString "path"; AString (w_path w);
         AString "client_ip"; AString (lc_ip c)]))]. }
  rewrite (bind_Ret (start_span c) _ w1 tt (on_span c (opening w1) w1).2)
    by (unfold start_span; rewrite !(bind_Ret (gets _) _ w1 _ w1 eq_refl);
        fold (opening w1); by rewrite !on_span_calls).
  pose proof (on_span_underway c (opening w1) w1) as U2. change (opening w1) with (opening w) in *.
  assert (exists f, (on_span c (opening w) w1).2 = on_trace f (on_metrics (on_stats g) (tick w))) as [f Ef].
  { rewrite on_span_calls. destruct (lc_span c); by eexists (fun t => _). }
  exists f, g. rewrite Ef in U2 |- *. rewrite epilogue_eq. split; [done|]. by apply (underway_trans c [] _ w w1).
Qed.

(** The end of a request that was replied to. *)
Lemma epilogue_replied c rp w w' :
  labels_valid w -> replied c rp w w' ->
  exists w2, epilogue c (Ret tt, w') = (Ret tt, w2) /\
    replied c (mkReply (re_status rp) (re_body rp) (re_level rp) (re_text rp) (re_kvs rp) (re_tags rp ++ [Finish])) w w2.
Proof.
  intros [Hm Hp] Hr. unfold epilogue, deferring, deferring_call. cbn [fst snd].
  assert (labels_valid w') as [Hm' Hp'] by (apply (labels_valid_req w); [apply (rp_req _ _ _ _ Hr)|by split]).
  unfold observe_duration, Since, WithLabelValues, mbind, M_bind, gets, Now. cbn -[int64_min int64_max].
  change (w_method (set_clock _ _ w')) with (w_method w'). change (w_path (set_clock _ _ w')) with (w_path w').
  rewrite !label_ok_valid, Hm', Hp'. cbn -[int64_min int64_max]. eexists. split; [done|].
  destruct Hr as [R1 R2 R3 R4 R5 R6 R7].
  assert (replied c rp w (on_metrics (observe_labels (w_method w', w_path w',
    Z.max int64_min (Z.min int64_max (w_now w' + Z.of_N (env_delay (w_ticks w')) - lc_start c)))) (tick w'))) as Hr'
    by (by split).
  by apply (replied_tags c _ [Finish]) in Hr'.
Qed.

Lemma epilogue_panic c why res :
  labels_valid res.2 -> res.1 = Panic why ->
  (epilogue c res).1 = Panic why /\ w_calls (epilogue c res).2 = w_calls res.2 /\
  counted (epilogue c res).2 = counted res.2.
Proof.
  destruct res as [o w]. cbn [fst snd]. intros [Hm Hp] ->. unfold epilogue, deferring, deferring_call. cbn [fst snd].
  destruct (observe_duration_run c w) as (w1 & _ & Em & Eo).
  pose proof (observe_duration_untouched c w) as [Ec _]. rewrite Eo in Ec |- *.
  rewrite !label_ok_valid, Hm, Hp in *. cbn [andb] in *. unfold finish_span, counted. cbn [fst snd] in *.
  destruct (lc_span c); cbn; by rewrite Em.
Qed.

Lemma reply_finishes c rp w w2 res :
  labels_valid w -> underway c (opening w) w w2 -> res.1 = Ret tt /\ replied c rp w2 res.2 ->
  exists w', epilogue c res = (Ret tt, w') /\ replied c (whole rp w) w w'.
Proof.
  destruct res as [o w1]. intros Hl U [Ho Hr]. cbn [fst snd] in *. subst o.
  apply (underway_replied c _ _ w w2 w1 U) in Hr.
  destruct (epilogue_replied c _ w w1 Hl Hr) as (w' & Ew & Hr'). exists w'. split; [done|].
  unfold whole. rewrite app_assoc. exact Hr'.
Qed.

(** Nothing has been written, and no header declares a length. *)
Definition fresh (rr : responseRecorder) : Prop := pristine rr /\ unbounded rr.

End Policy.

(** ** On the concrete gateway *)


(** The decisions of the table on concrete requests. *)
Example demo_decisions :
  let decide path h :=
    @policy ascii_tables demo_jwt exact_rate demo_redis (demo_env [])
      (@tick exact_rate demo_redis (demo_env [])
        (demo_world 5 {["cache:GET:gw.example.com:/shop/old" := "stale"]} (demo_request path h))) in
  (decide "/nowhere" ∅, decide "/private/x" ∅, decide "/shop/old" ∅,
   match decide "/shop/cart" ∅ with Ret (Proxied m p) => Some (m_Name m, m_BackendPath m, p) | _ => None end)
  = (Ret NoRoute, Ret Unauthorized, Ret (Cached "stale"), Some ("shop", "/cart", 1%nat)).
Proof. vm_compute. reflexivity. Qed.
