(* ===== verification/Handlers.v ===== *)
(** * The front door (main.go, middleware.go, handlers.go)

    The middleware chain and the multiplexer that [main] puts in front of the
    gateway, and the built-in endpoints. The text of a JSON document, what
    the host says of itself and the metrics handler of the Prometheus client are
    parameters. *)

From Stdlib Require Import ZArith Lia Ascii String List.
From stdpp Require Import base list strings gmap.
From S2P Require Import Prelude Logic GoStrings Hosts Urls Sha256 Pool Router Breaker DDoS.
From S2P Require Import Http Recorder Auth RateLimiter Proxy Config Dashboard Cache Json.
From S2P Require Import Monitor Gateway.

(** ** Query strings *)

(** [url.QueryUnescape]: a plus stands for a space. *)
Definition QueryUnescape (s : string) : option string :=
  unescape (smap (fun c => if Ascii.eqb c "+" then " "%char else c) s) encodePath.

(** [r.URL.Query().Get(key)]: the first pair that decodes and has that key;
    pairs with a semicolon are dropped. *)
Fixpoint query_find (pairs : list string) (key : string) : string :=
  match pairs with
  | [] => ""
  | p :: rest =>
      if has_byte p ";" || String.eqb p "" then query_find rest key
      else
        let '(k, v, _) := Cut p "=" in
        match QueryUnescape k, QueryUnescape v with
        | Some k, Some v => if String.eqb k key then v else query_find rest key
        | _, _ => query_find rest key
        end
  end.
Definition Query_Get (u : URL) (key : string) : string := query_find (SplitByte (u_RawQuery u) "&") key.

(** ** Path cleaning and the multiplexer *)

(** One step of [path.Clean] on a rooted path: the segments kept so far, last
    first. *)
Definition clean_step (stack : list string) (seg : string) : list string :=
  if String.eqb seg "" || String.eqb seg "." then stack
  else if String.eqb seg ".." then tl stack
  else seg :: stack.

Definition clean_segments (p : string) : list string :=
  rev (fold_left clean_step (SplitByte p "/") []).

(** [path.Clean] of a rooted path. *)
Definition path_Clean (p : string) : string := "/" +:+ Join (clean_segments p) "/".

(** [cleanPath] of net/http. *)
Definition cleanPath (p : string) : string :=
  if String.eqb p "" then "/"
  else
    let p := if HasPrefix p "/" then p else "/" +:+ p in
    let np := path_Clean p in
    if HasSuffix p "/" && negb (String.eqb np "/") then np +:+ "/" else np.

Inductive endpoint : Type :=
| EpMetrics | EpHealth | EpStats | EpWhitelist | EpBlacklist | EpLogin | EpMonitor | EpGateway.

(** The segments of an escaped path, each unescaped. *)
Definition segments (path : string) : list string :=
  map (fun s => default s (unescape s encodePath)) (SplitByte (sdrop 1 path) "/").

(** The patterns [main] registers, with their handlers; none of them ends in a
    slash, so that each stands for one path. Everything else falls to ["/"], the
    gateway. *)
Definition patterns : list (string * endpoint) :=
  [ ("/metrics", EpMetrics);
    ("/health", EpHealth);
    ("/stats", EpStats);
    ("/admin/whitelist", EpWhitelist);
    ("/admin/blacklist", EpBlacklist);
    ("/login", EpLogin);
    ("/monitor", EpMonitor);
    ("/api/system-metrics", EpMonitor) ].

Definition endpoint_of (path : string) : endpoint :=
  match find (fun p => bool_decide (segments path = segments p.1)) patterns with
  | Some p => p.2
  | None => EpGateway
  end.

(** [ServeMux] works on the escaped path: an unclean one is redirected. A
    CONNECT is not cleaned, but without a path, the usual form, it is sent to the
    root. *)
Definition mux_dispatch (r : Request) : result string endpoint :=
  let path := EscapedPath (rq_URL r) in
  if String.eqb (rq_Method r) "CONNECT" then
    if String.eqb path ""
    then Err (url_String (mkURL "" "" (cleanPath (u_Path (rq_URL r)) +:+ "/") "" (u_RawQuery (rq_URL r))))
    else Ok (endpoint_of path)
  else
    let clean := cleanPath path in
    if negb (String.eqb clean path)
    then Err (url_String (mkURL "" "" clean "" (u_RawQuery (rq_URL r))))
    else Ok (endpoint_of clean).

(** [r.RequestURI == "*"]: the server reads that line as the path "*", or, for
    CONNECT, as a host. *)
Definition asterisk (r : Request) : bool :=
  String.eqb (u_Path (rq_URL r)) "*" ||
  String.eqb (rq_Method r) "CONNECT" && String.eqb (u_Host (rq_URL r)) "*" && String.eqb (u_Path (rq_URL r)) "" &&
  String.eqb (u_RawQuery (rq_URL r)) "".

Section Handlers.
Context `{UnicodeTables, JwtLib, RateLib, RedisLib, Env, JsonLib}.

(** ** Responses *)

(** [json.NewEncoder(w).Encode(doc)], its error ignored. *)
Definition encode_json (doc : json) : M World unit :=
  match json_Encode doc with
  | Ok text => on_response (response_Write text) ;; mret tt
  | Err _ => mret tt
  end.

Definition write_json (doc : json) : M World unit :=
  set_response_header "Content-Type" "application/json" ;;
  on_response (response_WriteHeader 200) ;;
  encode_json doc.

(** ** Administration *)

(** [whitelistHandler] and [blacklistHandler] differ in the list and the word. *)
Definition list_handler (add : string -> DDoSProtection -> DDoSProtection) (word : string) : M World unit :=
  r ← gets w_req;
  if negb (String.eqb (rq_Method r) "POST") then on_response (http_Error "Method not allowed" 405)
  else
    let ip := Query_Get (rq_URL r) "ip" in
    if String.eqb ip "" then on_response (http_Error "IP parameter required" 400)
    else
      modify (on_gw (fun g => with_ddos (add ip (gw_ddosProtection g)) g)) ;;
      write_json (JObject [("ip", JString ip); ("status", JString word)]).

Definition whitelistHandler : M World unit := list_handler AddToWhitelist "whitelisted".
Definition blacklistHandler : M World unit := list_handler AddToBlacklist "blacklisted".

(** ** Reports *)

Definition backend_info (b : Backend) : json :=
  JObject [("url", JString (url_String (b_URL b))); ("alive", JBool (IsAlive b));
           ("connections", JInt (GetConnections b)); ("weight", JInt (b_Weight b))].

(** The same backend in the legacy list, a map whose keys are sorted. *)
Definition legacy_info (b : Backend) : json :=
  JObject [("alive", JBool (IsAlive b)); ("connections", JInt (GetConnections b));
           ("url", JString (url_String (b_URL b))); ("weight", JInt (b_Weight b))].

(** The backends of an entry's pool. *)
Definition entry_backends (sr : ServiceRouter) (entry : RouteEntry) : list Backend :=
  match sr_pools sr !! e_Pool entry with
  | Some s => omap (fun p => sr_heap sr !! p) (Backends s)
  | None => []
  end.

Definition route_info (sr : ServiceRouter) (entry : RouteEntry) : json :=
  JObject [("prefix", JString (e_Prefix entry)); ("require_auth", JBool (e_RequireAuth entry));
           ("strip_prefix", JBool (e_StripPrefix entry));
           ("backends", slice (map backend_info (entry_backends sr entry)))].

Definition health_document (g : Gateway) (timestamp : string) : json :=
  let sr := gw_router g in
  JObject [("backends", slice (concat (map (fun e => map legacy_info (entry_backends sr e)) (Routes sr))));
           ("circuit_breaker", JString (GetState (gw_circuitBreaker g)));
           ("routes", slice (map (route_info sr) (Routes sr)));
           ("status", JString "healthy");
           ("timestamp", JString timestamp);
           ("version", JString "2.0.0")].

Definition healthHandler : M World unit :=
  now ← Now;
  g ← gets w_gw;
  write_json (health_document g (env_rfc3339 now)).

Definition stats_document (g : Gateway) : json :=
  JObject [("caching_enabled", JBool (c_EnableCaching (gw_cfg g)));
           ("circuit_breaker_state", JString (GetState (gw_circuitBreaker g)));
           ("compression_enabled", JBool (c_EnableCompression (gw_cfg g)));
           ("load_balancing_algo", JString (c_LoadBalancingAlgo (gw_cfg g)));
           ("routes_count", JInt (Z.of_nat (length (Routes (gw_router g)))))].

Definition statsHandler : M World unit :=
  g ← gets w_gw; write_json (stats_document g).

Definition quoted (s : string) : string :=
  String (ascii_of_nat 34) s +:+ String (ascii_of_nat 34) "".

Definition login_text : string :=
  "{" +:+ quoted "message" +:+ ":" +:+ quoted "login endpoint - implement OAuth2/OIDC flow" +:+ "}".

Definition loginHandler : M World unit :=
  set_response_header "Content-Type" "application/json" ;;
  on_response (response_WriteHeader 200) ;;
  on_response (response_Write login_text) ;;
  mret tt.

(** ** The system monitor *)

Context `{SortLib} (os_readings : Z -> Readings) (dashboard_page : string).

Definition on_system {A} (m : M SystemGauges A) : M World A := fun w =>
  let '(o, g) := m (mt_system (w_metrics w)) in (o, on_metrics (set_system g) w).

(** [getSystemMetrics] returns no error, so that its error branch is dead. The
    page is a constant of the source, a template without actions. *)
Definition systemMonitorHandler : M World unit :=
  r ← gets w_req;
  if String.eqb (u_Path (rq_URL r)) "/api/system-metrics" then
    now ← Now;
    metrics ← on_system (getSystemMetrics now (os_readings now));
    set_response_header "Content-Type" "application/json" ;;
    encode_json (metrics_json metrics)
  else on_response (response_Write dashboard_page) ;; mret tt.

(** ** Middleware *)

Definition SecurityHeadersMiddleware (next : M World unit) : M World unit :=
  set_response_header "X-Content-Type-Options" "nosniff" ;;
  set_response_header "X-Frame-Options" "DENY" ;;
  set_response_header "Strict-Transport-Security" "max-age=63072000; includeSubDomains" ;;
  set_response_header "Content-Security-Policy" "default-src 'self'" ;;
  set_response_header "X-XSS-Protection" "1; mode=block" ;;
  set_response_header "Referrer-Policy" "strict-origin-when-cross-origin" ;;
  next.

Context (rand_Read : option (list Z)) (metricsHandler : M World unit).

(** The random bytes, or the time when they cannot be read. *)
Definition generateRequestID : M World string :=
  match rand_Read with
  | Some b => mret (EncodeToString b)
  | None => now ← Now; mret (Itoa now)
  end.

Definition RequestIDMiddleware (next : M World unit) : M World unit :=
  requestID ← gets (fun w => hget (w_req w) "x-request-id");
  requestID ← (if String.eqb requestID "" then
                 id ← generateRequestID;
                 modify (on_req (hset "x-request-id" id)) ;;
                 mret id
               else mret requestID);
  set_response_header "x-request-id" requestID ;;
  next.

(** [http.RedirectHandler(url, 301)], without the body it writes for GET. *)
Definition redirect (url : string) : M World unit :=
  set_response_header "Location" url ;; on_response (response_WriteHeader 301).

(** The answer to [RequestURI == "*"], of HTTP/1.1 on. *)
Definition bad_asterisk : M World unit :=
  set_response_header "Connection" "close" ;; on_response (response_WriteHeader 400).

Definition mux : M World unit :=
  r ← gets w_req;
  if asterisk r then bad_asterisk else
  match mux_dispatch r with
  | Err url => redirect url
  | Ok EpMetrics => metricsHandler
  | Ok EpHealth => healthHandler
  | Ok EpStats => statsHandler
  | Ok EpWhitelist => whitelistHandler
  | Ok EpBlacklist => blacklistHandler
  | Ok EpLogin => loginHandler
  | Ok EpMonitor => systemMonitorHandler
  | Ok EpGateway => ServeHTTP
  end.

Definition handler : M World unit := SecurityHeadersMiddleware (RequestIDMiddleware mux).
End Handlers.
