(* ===== verification/FrontDoor.v ===== *)
(** * Properties of the front door

    What the middleware chain, the multiplexer and the administrative
    endpoints guarantee of the requests and responses that pass them. *)

From Stdlib Require Import ZArith Lia Ascii String List.
From stdpp Require Import base list strings gmap.
From S2P Require Import Prelude Logic GoStrings Hosts Urls Pool Router Breaker DDoS Http.
From S2P Require Import Recorder Auth RateLimiter Proxy Config Dashboard Cache Json Monitor.
From S2P Require Import Gateway GatewayDemo GatewayLaws Handlers.

(** ** Security headers *)

Definition security_headers : list (string * string) :=
  [("X-Content-Type-Options", "nosniff"); ("X-Frame-Options", "DENY");
   ("Strict-Transport-Security", "max-age=63072000; includeSubDomains");
   ("Content-Security-Policy", "default-src 'self'"); ("X-XSS-Protection", "1; mode=block");
   ("Referrer-Policy", "strict-origin-when-cross-origin")].

(** A header map in which they all are. *)
Definition armed (h : Header) : Prop := Forall (fun kv => header_Get h kv.1 = kv.2) security_headers.

(** A response whose headers, and whose sent headers, have them. *)
Record shielded (s : response) : Prop := {
  sh_header : armed (rs_header s);
  sh_sent : rs_wroteHeader s = true -> armed (rs_sent s)
}.

(** The headers of the final response: those sent, or those the server will
    send when the handler returns. *)
Definition final_headers (s : response) : Header :=
  if rs_wroteHeader s then rs_sent s else rs_header s.

Lemma values_Add k k' v h :
  values (header_Add k v h) k' =
  if String.eqb (CanonicalHeaderKey k) (CanonicalHeaderKey k') then values h k' ++ [v] else values h k'.
Proof.
  unfold values at 1, header_Add. destruct (String.eqb _ _) eqn:E; bool_prop.
  - rewrite E, lookup_insert_eq. simpl. unfold values. by rewrite E.
  - by rewrite lookup_insert_ne.
Qed.

(** A header that is there stays the first of its name. *)
Lemma header_Get_Add k k' v h : header_Get h k' <> "" -> header_Get (header_Add k v h) k' = header_Get h k'.
Proof. unfold header_Get. rewrite values_Add. case_if; [|done]. by destruct (values h k'). Qed.

Lemma header_Get_copyHeader dst src k :
  header_Get dst k <> "" -> header_Get (copyHeader dst src) k = header_Get dst k.
Proof.
  intros Hne. unfold copyHeader. apply (map_fold_weak_ind (fun h _ => header_Get h k = header_Get dst k)); [done|].
  intros k1 vv m h _ Hh. rewrite <- Hh in Hne. rewrite <- Hh. clear Hh.
  revert h Hne. induction vv as [|v vv IH]; intros h Hne; [done|]. cbn [fold_left].
  rewrite IH; rewrite header_Get_Add; done.
Qed.

Lemma armed_mono h h' :
  (forall k, header_Get h k <> "" -> header_Get h' k = header_Get h k) -> armed h -> armed h'.
Proof. intros Hk. unfold armed, security_headers. rewrite !Forall_cons. cbn [fst snd]. intros Ha.
  destruct_and! Ha. split_and!; try done; rewrite Hk; congruence. Qed.

Lemma armed_copyHeader dst src : armed dst -> armed (copyHeader dst src).
Proof. apply armed_mono. intros k. apply header_Get_copyHeader. Qed.

(** Setting a header that is not one of them, or to its value. *)
Definition harmless (k v : string) : bool :=
  forallb (fun kv => negb (String.eqb (CanonicalHeaderKey k) (CanonicalHeaderKey kv.1)) || String.eqb v kv.2)
    security_headers.

Lemma armed_Set k v h : harmless k v = true -> armed h -> armed (header_Set k v h).
Proof.
  unfold harmless, armed. rewrite forallb_forall, !List.Forall_forall. intros Hk Ha kv Hkv.
  rewrite header_Get_Set. specialize (Hk kv Hkv). apply orb_true_iff in Hk.
  destruct (String.eqb _ (CanonicalHeaderKey kv.1)); [|by apply Ha]. destruct Hk as [|Hk]; [done|by bool_prop].
Qed.

Lemma armed_Del k h : harmless k "" = true -> armed h -> armed (header_Del k h).
Proof.
  unfold harmless, armed. rewrite forallb_forall, !List.Forall_forall. intros Hk Ha kv Hkv.
  unfold header_Get. rewrite values_Del. specialize (Hk kv Hkv). apply orb_true_iff in Hk.
  destruct (String.eqb _ (CanonicalHeaderKey kv.1)); [|by apply Ha]. destruct Hk as [|Hk]; [done|by bool_prop].
Qed.

(** ** Steps on the response *)

Create HintDb shield.

(** [m] does not take the headers off. *)
Definition keeps_shield {A} (m : M response A) : Prop := forall s, shielded s -> shielded (m s).2.

Definition guards (rr rr' : responseRecorder) : Prop :=
  shielded (rr_ResponseWriter rr) -> shielded (rr_ResponseWriter rr').
#[export] Instance guards_pre : PreOrder guards.
Proof. split; [intros rr Hr; exact Hr|]. intros r1 r2 r3 H1 H2 Hr. by apply H2, H1. Qed.

Lemma shield_WriteHeader code : keeps_shield (response_WriteHeader code).
Proof.
  intros s [Hh Hs]. unfold response_WriteHeader. repeat case_if; split; simpl; intros; congruence || auto.
Qed.

Lemma shield_Write data : keeps_shield (response_Write data).
Proof.
  intros s Hs. unfold response_Write, mbind, M_bind, gets, mret, M_ret, modify. simpl.
  destruct (rs_hijacked s); [done|]. pose proof (shield_WriteHeader 200 s Hs) as Hw.
  destruct (rs_wroteHeader s); [clear Hw; revert Hs; generalize s; intros s1 Hw|
    destruct (response_WriteHeader 200 s) as [[[]|] s1]; [|done]]; simpl in *;
    unfold take_bytes; repeat case_if; simpl; try done; destruct Hw; split; simpl; auto.
Qed.

Lemma shield_set f : (forall h, armed h -> armed (f h)) -> keeps_shield (modify (fun s => with_rs_header (f (rs_header s)) s)).
Proof. intros Hf s [Hh Hs]. split; simpl; auto. Qed.

Lemma keeps_on_rw {A} (m : M response A) : keeps_shield m -> keeps guards (on_rw m).
Proof. intros Hm rr Hr. unfold on_rw. specialize (Hm _ Hr). by destruct (m _). Qed.

Lemma guards_modify f : (forall rr, rr_ResponseWriter (f rr) = rr_ResponseWriter rr) -> keeps guards (modify f).
Proof. intros Hf rr. unfold modify, guards. simpl. by rewrite Hf. Qed.

#[export] Hint Resolve shield_WriteHeader shield_Write shield_set keeps_on_rw guards_modify armed_copyHeader : shield.

Ltac guard_step :=
  lazymatch goal with
  | |- forall _, _ => intro
  | |- keeps _ (_ ≫= _) => apply keeps_bind; [typeclasses eauto| |]
  | |- keeps guards (modify _) => apply guards_modify; done
  | |- keeps _ (mret _) => apply keeps_ret; typeclasses eauto
  | |- keeps _ (gets _) => apply keeps_gets; typeclasses eauto
  | |- keeps _ (panic _) => apply keeps_panic; typeclasses eauto
  | |- keeps _ (match ?x with _ => _ end) => destruct x eqn:?
  | |- _ => solve [eauto with shield]
  end.
Ltac guard_steps := repeat guard_step.

Lemma guards_WriteHeader code : keeps guards (WriteHeader code).
Proof. unfold WriteHeader. guard_steps. Qed.
#[export] Hint Resolve guards_WriteHeader : shield.

Lemma guards_Write b : keeps guards (Write b).
Proof. unfold Write. guard_steps. Qed.

Lemma guards_set_headers f : (forall h, armed h -> armed (f h)) -> keeps guards (set_headers f).
Proof. intros Hf rr [Hh Hs]. split; simpl; auto. Qed.

Lemma armed_error h :
  armed h -> armed (header_Set "X-Content-Type-Options" "nosniff"
      (header_Set "Content-Type" "text/plain; charset=utf-8" (header_Del "Content-Length" h))).
Proof. intros Ha. do 2 (apply armed_Set; [by vm_compute|]). by apply armed_Del; [vm_compute|]. Qed.

#[export] Hint Resolve guards_Write guards_set_headers armed_error : shield.

Lemma guards_http_Error msg code : keeps guards (http_Error (T := responseRecorder) msg code).
Proof.
  unfold http_Error. apply keeps_bind; [typeclasses eauto| |].
  - intros rr [Hh Hs]. split; [by apply armed_error|done].
  - simpl. guard_steps.
Qed.

Lemma shield_http_Error msg code : keeps_shield (http_Error (T := response) msg code).
Proof.
  intros s [Hh Hs]. unfold http_Error, mbind at 1, M_bind, modify. simpl.
  set (s1 := with_rs_header _ s). assert (shielded s1) as H1 by (split; [by apply armed_error|done]).
  unfold mbind, M_bind. pose proof (shield_WriteHeader code s1 H1) as H2.
  destruct (response_WriteHeader code s1) as [[[]|] s2]; [|done].
  pose proof (shield_Write (msg +:+ newline) s2 H2) as H3.
  by destruct (response_Write _ s2) as [[]].
Qed.

Lemma guards_Hijack : keeps guards Hijack.
Proof.
  unfold Hijack. guard_steps. apply keeps_on_rw. intros s [Hh Hs]. unfold response_Hijack. case_if; by split.
Qed.

Lemma guards_copy_chunks chunks : keeps guards (copy_chunks chunks).
Proof. induction chunks as [|c rest IH]; cbn [copy_chunks]; guard_steps. Qed.

#[export] Hint Resolve guards_http_Error shield_http_Error guards_Hijack guards_copy_chunks : shield.

(** An exchange without informational responses leaves the headers on. *)
Lemma guards_forward in_server x : x_early x = [] -> keeps guards (forward in_server x).
Proof. intros He. unfold forward, ErrorHandler. rewrite He. cbn [forward_early]. guard_steps. Qed.

Section Chain.
Context `{UnicodeTables, JwtLib, RateLib, RedisLib, Env, JsonLib, SortLib}.
Context (os_readings : Z -> Readings) (dashboard_page : string)
  (rand_Read : option (list Z)) (metricsHandler : M World unit).

(** ** Steps on the world *)

Definition guarded (w w' : World) : Prop := guards (w_rec w) (w_rec w').
#[local] Instance guarded_pre : PreOrder guarded.
Proof. split; [intros w Hw; exact Hw|]. intros w1 w2 w3 H1' H2' Hw. by apply H2', H1'. Qed.

Lemma guarded_on_rec {A} (m : M responseRecorder A) : keeps guards m -> keeps guarded (on_rec m).
Proof. intros Hm w. unfold on_rec. specialize (Hm (w_rec w)). by destruct (m (w_rec w)). Qed.

Lemma guarded_on_response {A} (m : M response A) : keeps_shield m -> keeps guarded (on_response m).
Proof. intros Hm. by apply guarded_on_rec, keeps_on_rw. Qed.

Lemma guarded_modify f : (forall w, w_rec (f w) = w_rec w) -> keeps guarded (modify f).
Proof. intros Hf w. unfold guarded, modify. simpl. by rewrite Hf. Qed.

Lemma guarded_deferring {A} f (m : M World A) :
  keeps guarded m -> (forall w, w_rec (f w) = w_rec w) -> keeps guarded (deferring f m).
Proof. intros Hm Hf. apply keeps_deferring; [typeclasses eauto|done|]. intros w. unfold guarded. by rewrite Hf. Qed.

Lemma guarded_Now : keeps guarded Now.
Proof. by intros w Hw. Qed.

Lemma guarded_set_response_header k v : harmless k v = true -> keeps guarded (set_response_header k v).
Proof. intros Hk. apply guarded_on_response, shield_set. intros h. by apply armed_Set. Qed.

Lemma guarded_reqLog c level msg kvs : keeps guarded (reqLog c level msg kvs).
Proof. by apply guarded_modify. Qed.

Lemma guarded_on_span c calls : keeps guarded (on_span c calls).
Proof. apply guarded_modify. intros w. by case_if. Qed.

Lemma guarded_WithLabelValues d values : keeps guarded (WithLabelValues d values).
Proof. unfold WithLabelValues. repeat case_if; first [apply keeps_ret|apply keeps_panic]; typeclasses eauto. Qed.

#[local] Hint Resolve guarded_on_rec guarded_on_response guarded_Now guarded_set_response_header
  guarded_reqLog guarded_on_span guarded_WithLabelValues : shield.

Ltac chain_step :=
  lazymatch goal with
  | |- forall _, _ => intro
  | |- keeps _ (_ ≫= _) => apply keeps_bind; [typeclasses eauto| |]
  | |- keeps _ (deferring _ _) => apply guarded_deferring; [|intro; unfold finish_span; try case_if; done]
  | |- keeps _ (deferring_call _ _) => apply keeps_deferring_call; [typeclasses eauto| |]
  | |- keeps _ (modify _) => apply guarded_modify; intro; try case_if; done
  | |- keeps _ (mret _) => apply keeps_ret; typeclasses eauto
  | |- keeps _ (gets _) => apply keeps_gets; typeclasses eauto
  | |- keeps _ (lift_outcome _) => apply keeps_lift; typeclasses eauto
  | |- keeps _ (panic _) => apply keeps_panic; typeclasses eauto
  | |- keeps _ (match ?x with _ => _ end) => destruct x eqn:?
  | |- _ => solve [eauto with shield]
  end.
Ltac chain_steps := repeat chain_step.

Lemma guarded_list_handler add word : keeps guarded (list_handler add word).
Proof. unfold list_handler, write_json, encode_json. chain_steps. Qed.

Lemma guarded_monitor : keeps guarded (systemMonitorHandler os_readings dashboard_page).
Proof.
  unfold systemMonitorHandler, encode_json. chain_steps.
  intros w. unfold on_system. destruct (getSystemMetrics _ _ _). exact id.
Qed.

Lemma guarded_NextPeer_of pool ip : keeps guarded (NextPeer_of pool ip).
Proof. unfold NextPeer_of. chain_steps. Qed.

Lemma guarded_breaker_Call fn : keeps guarded fn -> keeps guarded (breaker_Call fn).
Proof. intros Hf. unfold breaker_Call, Call. chain_steps. Qed.

Lemma guarded_reject msg code status : keeps guarded (reject msg code status).
Proof. unfold reject, count. chain_steps. Qed.

Lemma guarded_serve_cached c : keeps guarded (serve_cached c).
Proof. unfold serve_cached, count. chain_steps. Qed.

#[local] Hint Resolve guarded_list_handler guarded_monitor guarded_NextPeer_of guarded_breaker_Call
  guarded_reject guarded_serve_cached : shield.

(** Upstreams that send no informational response. *)
Hypothesis no_early : forall n out timeout, x_early (env_upstream n out timeout) = [].

Lemma guarded_attempt backend timeout ip : keeps guarded (attempt backend timeout ip).
Proof.
  unfold attempt, forward_attempt, proxy_ServeHTTP, ErrorHandler. chain_steps.
  by apply guarded_on_rec, guards_forward.
Qed.
#[local] Hint Resolve guarded_attempt : shield.

Lemma guarded_retry m ip timeout left n backend e : keeps guarded (retry m ip timeout left n backend e).
Proof.
  revert n backend e. induction left as [|left IH]; intros n backend e; cbn [retry];
    unfold exhausted, completed, cut_off, choose_next, tag_error, Since, count, Sleep; chain_steps.
Qed.
#[local] Hint Resolve guarded_retry : shield.

Lemma guarded_ServeHTTP : keeps guarded ServeHTTP.
Proof.
  unfold ServeHTTP, observe_duration, Since, start_span, serve_body, refuse, tag_error, ddos_blocked,
    ddos_record, limiter_allow, serve_matched, proxy_request.
  chain_steps; intros w; [unfold record_dash; destruct (stats_RecordRequest _)|]; exact id.
Qed.

(** The metrics handler of the Prometheus client sets the headers of its own
    response and leaves the others. *)
Hypothesis metrics_harmless : keeps guarded metricsHandler.

Lemma guarded_mux : keeps guarded (mux os_readings dashboard_page metricsHandler).
Proof.
  unfold mux, bad_asterisk, redirect, whitelistHandler, blacklistHandler, healthHandler, statsHandler, loginHandler,
    write_json, encode_json. pose proof guarded_ServeHTTP. chain_steps.
Qed.

(** After the first middleware the headers are on. *)
Lemma SecurityHeadersMiddleware_shields (next : M World unit) w :
  rs_wroteHeader (rr_ResponseWriter (w_rec w)) = false ->
  exists w1, SecurityHeadersMiddleware next w = next w1 /\ shielded (rr_ResponseWriter (w_rec w1)).
Proof.
  intros Hf. eexists. split; [reflexivity|]. split; [|simpl; congruence].
  repeat constructor; cbn -[header_Get header_Set]; rewrite ?header_Get_Set; vm_compute; reflexivity.
Qed.

Lemma guarded_RequestID next : keeps guarded next -> keeps guarded (RequestIDMiddleware rand_Read next).
Proof. intros Hn. unfold RequestIDMiddleware, generateRequestID. chain_steps. Qed.

(** C35: every response has the six security headers, whichever endpoint, error
    path or upstream produced it, also when the handler panics, as long as no
    upstream sends an informational response: the values set by the middleware
    come first, before any the upstream adds under the same name. *)
Theorem security_headers_on_every_response w :
  rs_wroteHeader (rr_ResponseWriter (w_rec w)) = false ->
  armed (final_headers (rr_ResponseWriter
    (w_rec (handler os_readings dashboard_page rand_Read metricsHandler w).2))).
Proof.
  intros Hf. unfold handler.
  destruct (SecurityHeadersMiddleware_shields
    (RequestIDMiddleware rand_Read (mux os_readings dashboard_page metricsHandler)) w Hf) as (w1 & -> & Hs).
  pose proof (guarded_RequestID _ guarded_mux w1 Hs) as [Hh Hw].
  unfold final_headers. case_match; auto.
Qed.
End Chain.

(** ** Informational responses *)

(** The writer's headers are [h], and so are those it has sent, if any. *)
Definition bare (h : Header) (rr : responseRecorder) : Prop :=
  let s := rr_ResponseWriter rr in
  rr_committed rr = true /\ rs_header s = h /\ (rs_wroteHeader s = true -> rs_sent s = h).

Lemma bare_Write h b rr : bare h rr -> bare h (Write b rr).2.
Proof.
  intros (Hc & Hh & Hs). unfold Write, WriteHeader, on_rw, mbind, M_bind, gets, mret, M_ret, modify. simpl.
  rewrite Hc. simpl. unfold response_Write, response_WriteHeader, mbind, M_bind, gets, mret, M_ret, modify. simpl.
  destruct (rs_hijacked _), (rs_wroteHeader _) eqn:Ew; simpl; unfold take_bytes; repeat case_if; simpl; unfold bare; simpl;
    split_and!; intros; auto; congruence.
Qed.

Lemma bare_copy_chunks h chunks rr : bare h rr -> bare h (copy_chunks chunks rr).2.
Proof.
  revert rr. induction chunks as [|c rest IH]; intros rr Hb; [done|]. cbn [copy_chunks].
  unfold mbind, M_bind. apply (bare_Write h c) in Hb. destruct (Write c rr) as [[[n [e|]]|] rr1]; auto.
Qed.

Lemma forward_early_bare early rr :
  early <> [] -> Forall (fun ch => is_informational ch.1 = true) early ->
  rs_wroteHeader (rr_ResponseWriter rr) = false -> rs_hijacked (rr_ResponseWriter rr) = false ->
  exists rr', forward_early early rr = (Ret tt, rr') /\ bare ∅ rr' /\
    rs_wroteHeader (rr_ResponseWriter rr') = false.
Proof.
  revert rr. induction early as [|[code h] early IH]; intros rr Hne Hi Hw Hh; [done|].
  apply Forall_cons_1 in Hi as [Hc Hi]. cbn [forward_early fst] in *.
  assert ((code <? 100) || (999 <? code) = false) as Hr by (unfold is_informational in Hc; lia).
  set (m1 := set_headers (fun dst => copyHeader dst h)). set (m2 := set_headers (fun _ => ∅)).
  assert (exists rr1, (m1 ;; WriteHeader code ;; m2) rr = (Ret tt, rr1) /\ bare ∅ rr1 /\
    rs_wroteHeader (rr_ResponseWriter rr1) = false /\ rs_hijacked (rr_ResponseWriter rr1) = false)
    as (rr1 & H1 & Hb & Hw1 & Hh1).
  { unfold m1, m2, set_headers, WriteHeader, on_rw, mbind, M_bind, gets, mret, M_ret, modify. simpl.
    destruct (rr_committed rr) eqn:Ec; simpl.
    - eexists. split; [done|]. unfold bare. simpl. split_and!; congruence.
    - unfold response_WriteHeader. simpl. rewrite Hh, Hw, Hr, Hc. simpl.
      eexists. split; [done|]. unfold bare. simpl. split_and!; congruence. }
  assert (forall k : M responseRecorder unit, (m1 ;; WriteHeader code ;; m2 ;; k) rr = k rr1) as Hk.
  { intros k. revert H1. unfold mbind, M_bind.
    destruct (m1 rr) as [[]?]; [|done]. destruct (WriteHeader code _) as [[]?]; [|done].
    destruct (m2 _) as [[[]|]?]; [|done]. by intros [= ->]. }
  rewrite (Hk (forward_early early)). destruct early as [|ch early]; [by exists rr1|]. by apply IH.
Qed.

(** An upstream that sends an informational response (early hints, say)
    before its final one takes the security headers off: the proxy clears the
    header map after forwarding it, so that the final response has exactly the
    end-to-end headers of the upstream's response and none that the middleware
    had set, the request id included. *)
Theorem early_response_drops_security_headers in_server early status hdr chunks cut rr :
  early <> [] -> Forall (fun ch => is_informational ch.1 = true) early ->
  rs_wroteHeader (rr_ResponseWriter rr) = false -> rs_hijacked (rr_ResponseWriter rr) = false ->
  final_headers (rr_ResponseWriter (forward in_server (mkExchange early (RtResponse status hdr chunks cut)) rr).2)
  = copyHeader ∅ (removeHopByHopHeaders hdr).
Proof.
  intros Hne Hi Hw Hh. destruct (forward_early_bare early rr Hne Hi Hw Hh) as (rr1 & He & (Hc & Hb & Hs) & Hw1).
  unfold forward. cbn [x_early x_final]. rewrite (bind_Ret _ _ _ _ _ He).
  set (h := copyHeader ∅ _).
  assert (bare h (rw_setHeader h rr1)) as Hb1 by (unfold bare; simpl; split_and!; congruence).
  assert (forall rr', bare h rr' -> final_headers (rr_ResponseWriter rr') = h) as Hfin.
  { intros rr' (_ & E1 & E2). unfold final_headers. case_match; auto. }
  unfold set_headers, WriteHeader, mbind, M_bind, modify, gets.
  cbn -[copy_chunks copyHeader removeHopByHopHeaders h]. rewrite Hb, Hc. fold h. unfold mret, M_ret.
  pose proof (bare_copy_chunks h chunks _ Hb1) as Hb2. simpl in Hb2.
  destruct (copy_chunks chunks _) as [[broken|] rr2]; [|by apply Hfin].
  by case_if; apply Hfin.
Qed.

(** ** The patterns *)

Lemma SplitByte_cons s sep : exists f rest, SplitByte s sep = f :: rest.
Proof. destruct s as [|d s]; cbn; [eauto|]. destruct (Ascii.eqb d sep), (SplitByte s sep); eauto. Qed.

(** A string is known by its fields. *)
Lemma SplitByte_inj s s' sep : SplitByte s sep = SplitByte s' sep -> s = s'.
Proof.
  revert s'. induction s as [|d s IH]; intros [|d' s']; cbn [SplitByte].
  - done.
  - destruct (SplitByte_cons s' sep) as (f & rest & E). rewrite E. by destruct (Ascii.eqb d' sep).
  - destruct (SplitByte_cons s sep) as (f & rest & E). rewrite E. by destruct (Ascii.eqb d sep).
  - destruct (SplitByte_cons s sep) as (f & rest & E), (SplitByte_cons s' sep) as (f' & rest' & E').
    specialize (IH s'). rewrite E, E' in *.
    destruct (Ascii.eqb d sep) eqn:Ed, (Ascii.eqb d' sep) eqn:Ed'; bool_prop; try done.
    + subst. intros [= -> ->]. by rewrite IH.
    + intros [= -> -> ->]. by rewrite IH.
Qed.

Lemma SplitByte_sforall p s sep : sforall p s = true -> Forall (fun f => sforall p f = true) (SplitByte s sep).
Proof.
  induction s as [|d s IH]; cbn [SplitByte sforall]; [by repeat constructor|].
  intros [Hd Hs]%andb_true_iff. specialize (IH Hs). destruct (Ascii.eqb d sep); [by constructor|].
  destruct (SplitByte s sep) as [|f rest]; [constructor; [|done]; cbn; by rewrite Hd|].
  apply Forall_cons_1 in IH as [Hf IH]. constructor; [|done]. cbn [sforall]. by rewrite Hd, Hf.
Qed.

(** A path without escapes. *)
Abbreviation unescaped := (fun p => sforall (not_byte "%") p = true).

Lemma unescape_plain s : unescaped s -> unescape s encodePath = Some s.
Proof.
  unfold not_byte. induction s as [|c s IH]; cbn [sforall unescape]; [done|].
  intros [Hc Hs]%andb_true_iff. apply negb_true_iff in Hc. rewrite Hc. cbn. by rewrite IH.
Qed.

Lemma segments_plain p : unescaped p -> segments p = SplitByte (sdrop 1 p) "/".
Proof.
  intros Hp. unfold segments. rewrite <- (map_id (SplitByte (sdrop 1 p) "/")) at 2. apply map_ext_in.
  intros f Hf%list_elem_of_In. assert (unescaped (sdrop 1 p)) as Hd.
  { destruct p as [|c p]; [done|]. cbn in *. apply andb_true_iff in Hp as [_ Hp]. by destruct p. }
  apply SplitByte_sforall with (sep := "/"%char) in Hd. rewrite Forall_forall in Hd.
  by rewrite unescape_plain by auto.
Qed.

Lemma segments_inj p q :
  unescaped p -> unescaped q -> HasPrefix p "/" = true -> HasPrefix q "/" = true -> segments p = segments q <-> p = q.
Proof.
  intros Hp Hq [p' ->]%HasPrefix_head [q' ->]%HasPrefix_head. split; [|by intros ->].
  rewrite !segments_plain by done. destruct p', q'; cbn [sdrop]; intros E%SplitByte_inj; congruence.
Qed.

(** A path without escapes reaches a pattern exactly when it is that pattern. *)
Lemma endpoint_of_plain p :
  unescaped p -> HasPrefix p "/" = true ->
  endpoint_of p = match find (fun q => String.eqb p q.1) patterns with Some q => q.2 | None => EpGateway end.
Proof.
  intros Hp Hs. unfold endpoint_of.
  assert (forall q, In q patterns -> bool_decide (segments p = segments q.1) = String.eqb p q.1) as Hq.
  { intros q Hq. apply eq_iff_eq_true. rewrite bool_decide_eq_true, String.eqb_eq.
    simpl in Hq. repeat (destruct Hq as [<-|Hq]; [by apply segments_inj|]). done. }
  revert Hq. induction patterns as [|q l IH]; intros Hq; [done|]. cbn [find].
  rewrite Hq by (by left). destruct (String.eqb p q.1); [done|]. apply IH. intros q' ?. apply Hq. by right.
Qed.

Lemma cleanPath_rooted p : HasPrefix (cleanPath p) "/" = true.
Proof. unfold cleanPath. repeat case_if; unfold path_Clean; done. Qed.

Lemma unescape_rooted s p : HasPrefix s "/" = true -> unescape s encodePath = Some p -> HasPrefix p "/" = true.
Proof.
  intros [s' ->]%HasPrefix_head. cbn. destruct (unescape s' encodePath); [|done]. by intros [= <-].
Qed.

(** What is dispatched, other than by CONNECT, is not the asterisk. *)
Lemma dispatched_not_asterisk r :
  rq_Method r <> "CONNECT" -> cleanPath (EscapedPath (rq_URL r)) = EscapedPath (rq_URL r) -> asterisk r = false.
Proof.
  intros Hm Hc. unfold asterisk. apply String.eqb_neq in Hm. rewrite Hm, orb_false_r. apply String.eqb_neq. intros E.
  pose proof (cleanPath_rooted (EscapedPath (rq_URL r))) as Hs. rewrite Hc in Hs.
  pose proof (unescape_rooted _ _ Hs (EscapedPath_decodes (rq_URL r))) as Hp. by rewrite E in Hp.
Qed.

Lemma mux_dispatch_clean r e :
  rq_Method r <> "CONNECT" -> mux_dispatch r = Ok e ->
  cleanPath (EscapedPath (rq_URL r)) = EscapedPath (rq_URL r) /\ e = endpoint_of (EscapedPath (rq_URL r)).
Proof.
  intros Hm. unfold mux_dispatch. apply String.eqb_neq in Hm. rewrite Hm. cbv zeta iota.
  destruct (String.eqb (cleanPath _) _) eqn:E; cbn [negb]; [|done]. bool_prop. rewrite E.
  intros H. apply Ok_inj in H. done.
Qed.

(** ** The administrative endpoints *)

Section Admin.
Context `{UnicodeTables, JwtLib, RateLib, RedisLib, Env, JsonLib, SortLib}.
Context (os_readings : Z -> Readings) (dashboard_page : string)
  (rand_Read : option (list Z)) (metricsHandler : M World unit).

(** What the middleware passes on: the same gateway and metrics, the same
    request up to its headers, and a response as it was up to its headers. *)
Definition passed (w w' : World) : Prop :=
  w_gw w' = w_gw w /\ w_metrics w' = w_metrics w /\ w_calls w' = w_calls w /\
  rq_Method (w_req w') = rq_Method (w_req w) /\ rq_URL (w_req w') = rq_URL (w_req w) /\
  exists h, rr_ResponseWriter (w_rec w') = with_rs_header h (rr_ResponseWriter (w_rec w)).

Lemma RequestID_passes next w :
  exists w', RequestIDMiddleware rand_Read next w = next w' /\ passed w w' /\
    hget (w_req w') "x-request-id" = header_Get (rs_header (rr_ResponseWriter (w_rec w'))) "x-request-id".
Proof.
  unfold RequestIDMiddleware, generateRequestID, set_response_header, on_response, on_rec, on_rw, Now,
    mbind, M_bind, gets, modify, mret, M_ret. simpl.
  destruct (String.eqb (hget (w_req w) "x-request-id") "") eqn:E; [destruct rand_Read|]; simpl;
    (eexists; split; [reflexivity|]; split;
      [split_and!; try reflexivity; by eexists|simpl; rewrite ?hget_hset, header_Get_Set; by vm_compute]).
Qed.

Lemma SecurityHeaders_passes next w : exists w', SecurityHeadersMiddleware next w = next w' /\ passed w w'.
Proof. eexists. split; [reflexivity|]. split_and!; try reflexivity. by eexists. Qed.

Lemma passed_trans w1 w2 w3 : passed w1 w2 -> passed w2 w3 -> passed w1 w3.
Proof.
  intros (Hg & Hm & Hc & Hr & Hu & h & Hh) (Hg' & Hm' & Hc' & Hr' & Hu' & h' & Hh').
  split_and!; try congruence. exists h'. by rewrite Hh', Hh.
Qed.

(** The chain hands every request to the multiplexer. *)
Lemma handler_passes w :
  exists w', handler os_readings dashboard_page rand_Read metricsHandler w =
             mux os_readings dashboard_page metricsHandler w' /\ passed w w'.
Proof.
  unfold handler. destruct (SecurityHeaders_passes
    (RequestIDMiddleware rand_Read (mux os_readings dashboard_page metricsHandler)) w) as (w1 & -> & H1').
  destruct (RequestID_passes (mux os_readings dashboard_page metricsHandler) w1) as (w2 & -> & H2' & _).
  exists w2. split; [done|by apply (passed_trans _ w1)].
Qed.

(** A dispatch looks at the method and the URL only. *)
Lemma mux_dispatch_passed w w' :
  passed w w' -> mux_dispatch (w_req w') = mux_dispatch (w_req w) /\ asterisk (w_req w') = asterisk (w_req w).
Proof. intros (_ & _ & _ & Hr & Hu & _). unfold mux_dispatch, asterisk. by rewrite Hr, Hu. Qed.

(** Encoding after the status line leaves gateway and status. *)
Lemma write_json_effect doc w :
  rs_wroteHeader (rr_ResponseWriter (w_rec w)) = false -> rs_hijacked (rr_ResponseWriter (w_rec w)) = false ->
  let w' := (write_json doc w).2 in
  w_gw w' = w_gw w /\ client_status (rr_ResponseWriter (w_rec w')) = 200.
Proof.
  intros Hw Hh. unfold write_json, encode_json, set_response_header, on_response, on_rec, on_rw, mbind, M_bind,
    modify. simpl. rewrite response_WriteHeader_final by (simpl; done || lia). simpl.
  destruct (json_Encode doc) as [text|e]; simpl; [|done].
  unfold response_Write, mbind, M_bind, gets, mret, M_ret, modify. simpl.
  destruct (String.eqb text ""); [done|by case_take].
Qed.

(** *** What the endpoints of the gateway itself do *)

(** Gateway, requests sent upstream and request metrics as before; the gauges of
    the host may have been read. *)
Definition aside (w w' : World) : Prop :=
  w_gw w' = w_gw w /\ w_calls w' = w_calls w /\ exists sys, w_metrics w' = set_system sys (w_metrics w).

#[local] Instance aside_frame : Frame aside.
Proof.
  assert (forall m, set_system (mt_system m) m = m) as Hs by (by intros []).
  split; [split|unfold aside..].
  - intros w. split_and!; try done. exists (mt_system (w_metrics w)). by rewrite Hs.
  - intros w1 w2 w3 (Hg & Hc & sys & Hm) (Hg' & Hc' & sys' & Hm'). split_and!; try congruence.
    exists sys'. by rewrite Hm', Hm.
  - intros t n w. split_and!; try done. exists (mt_system (w_metrics w)). by rewrite Hs.
  - intros rr w. split_and!; try done. exists (mt_system (w_metrics w)). by rewrite Hs.
  - intros f w. split_and!; try done. exists (mt_system (w_metrics w)). by rewrite Hs.
Qed.

#[local] Hint Resolve keeps_Now keeps_on_rec keeps_on_response keeps_set_response_header : gw.
#[local] Hint Extern 1 (Frame _) => typeclasses eauto : gw.

Lemma write_json_aside doc : keeps aside (write_json doc).
Proof. unfold write_json, encode_json. keep_steps. Qed.
#[local] Hint Resolve write_json_aside : gw.

Lemma monitor_aside : keeps aside (systemMonitorHandler os_readings dashboard_page).
Proof.
  unfold systemMonitorHandler, encode_json. keep_steps.
  intros w. unfold on_system. destruct (getSystemMetrics _ _ _) as [o g]. split_and!; try done. by exists g.
Qed.

(** A handler that returns with a status, on a response nobody has written to. *)
Definition answers (m : M World unit) (code : Z) (w : World) : Prop :=
  let s := rr_ResponseWriter (w_rec w) in
  rs_wroteHeader s = false -> rs_hijacked s = false -> rs_body s = "" ->
  (m w).1 = Ret tt /\ client_status (rr_ResponseWriter (w_rec (m w).2)) = code.

Lemma write_json_answers doc w : answers (write_json doc) 200 w.
Proof.
  intros Hw Hh _. unfold write_json, encode_json, set_response_header, on_response, on_rec, on_rw, mbind, M_bind,
    modify. simpl. rewrite response_WriteHeader_final by (simpl; done || lia). simpl.
  destruct (json_Encode doc) as [text|e]; simpl; [|done].
  unfold response_Write, mbind, M_bind, gets, mret, M_ret, modify. simpl.
  destruct (String.eqb text ""); [done|by case_take].
Qed.

Lemma http_Error_answers msg code w :
  200 <= code <= 999 -> bodyAllowedForStatus code = true -> answers (on_response (http_Error msg code)) code w.
Proof.
  intros Hc Hb Hw Hh Hbody. unfold on_response, on_rec, on_rw.
  destruct (http_Error_response msg code _ Hh Hw Hbody Hc Hb) as (s' & -> & Hw' & Hs & _). simpl.
  unfold client_status. by rewrite Hw', Hs.
Qed.

Lemma loginHandler_answers w : answers loginHandler 200 w.
Proof.
  intros Hw Hh _. unfold loginHandler, set_response_header, on_response, on_rec, on_rw, mbind, M_bind, modify. simpl.
  rewrite response_WriteHeader_final by (simpl; done || lia). simpl.
  unfold response_Write, mbind, M_bind, gets, mret, M_ret, modify. simpl. by case_take.
Qed.

(** The page of the monitor. *)
Lemma monitor_page_answers w :
  u_Path (rq_URL (w_req w)) <> "/api/system-metrics" ->
  answers (systemMonitorHandler os_readings dashboard_page) 200 w.
Proof.
  intros Hp Hw Hh _. apply String.eqb_neq in Hp. unfold systemMonitorHandler, mbind, M_bind, gets. rewrite Hp.
  unfold on_response, on_rec, on_rw, response_Write, mbind, M_bind, gets, mret, M_ret, modify. simpl.
  rewrite Hh, Hw. simpl. rewrite response_WriteHeader_final by (simpl; done || lia). simpl.
  destruct (String.eqb dashboard_page ""); [done|by case_take].
Qed.

(** The two lists the administrative endpoints extend, by a POST with an address. *)
Definition listed (r : Request) (d : DDoSProtection) : DDoSProtection :=
  let ip := Query_Get (rq_URL r) "ip" in
  if negb (String.eqb (rq_Method r) "POST") || String.eqb ip "" then d
  else if String.eqb (u_Path (rq_URL r)) "/admin/whitelist" then AddToWhitelist ip d
  else if String.eqb (u_Path (rq_URL r)) "/admin/blacklist" then AddToBlacklist ip d
  else d.

(** The status of the gateway's own answers. *)
Definition own_status (r : Request) : Z :=
  if String.eqb (u_Path (rq_URL r)) "/admin/whitelist" || String.eqb (u_Path (rq_URL r)) "/admin/blacklist" then
    if negb (String.eqb (rq_Method r) "POST") then 405
    else if String.eqb (Query_Get (rq_URL r) "ip") "" then 400 else 200
  else 200.

Definition own_paths : list string :=
  ["/health"; "/stats"; "/admin/whitelist"; "/admin/blacklist"; "/login"; "/monitor"; "/api/system-metrics"].

Lemma with_ddos_same g : with_ddos (gw_ddosProtection g) g = g.
Proof. by destruct g. Qed.

Lemma list_handler_spec add word w :
  let ip := Query_Get (rq_URL (w_req w)) "ip" in
  let w' := (list_handler add word w).2 in
  let refused := negb (String.eqb (rq_Method (w_req w)) "POST") || String.eqb ip "" in
  w_gw w' = with_ddos ((if refused then id else add ip) (gw_ddosProtection (w_gw w))) (w_gw w) /\
  w_calls w' = w_calls w /\ (exists sys, w_metrics w' = set_system sys (w_metrics w)) /\
  answers (list_handler add word)
    (if negb (String.eqb (rq_Method (w_req w)) "POST") then 405 else if String.eqb ip "" then 400 else 200) w.
Proof.
  intros ip. unfold answers, list_handler, mbind, M_bind, gets. fold ip.
  assert (forall msg code, aside w (on_response (http_Error msg code) w).2) as He
    by (intros; by apply (keeps_on_response aside)).
  destruct (negb _); cbn [orb]; [|destruct (String.eqb ip "")].
  - destruct (He "Method not allowed" 405) as (Hg & Hc & Hm); unfold id; rewrite with_ddos_same. split_and!; try done.
    by apply http_Error_answers.
  - destruct (He "IP parameter required" 400) as (Hg & Hc & Hm); unfold id; rewrite with_ddos_same. split_and!; try done.
    by apply http_Error_answers.
  - unfold modify. match goal with |- context [write_json ?d ?w2] =>
      destruct (write_json_aside d w2) as (Hg & Hc & Hm); pose proof (write_json_answers d w2) as Ha end.
    rewrite Hg, Hc. split_and!; done.
Qed.

(** Both look at the method and the URL only. *)
Lemma same_request r r' :
  rq_Method r' = rq_Method r -> rq_URL r' = rq_URL r -> listed r' = listed r /\ own_status r' = own_status r.
Proof. intros Hm Hu. unfold listed, own_status. by rewrite Hm, Hu. Qed.

(** What an endpoint of the gateway itself does to a request. *)
Definition meets (m : M World unit) (w : World) : Prop :=
  let r := w_req w in
  w_gw (m w).2 = with_ddos (listed r (gw_ddosProtection (w_gw w))) (w_gw w) /\
  w_calls (m w).2 = w_calls w /\ (exists sys, w_metrics (m w).2 = set_system sys (w_metrics w)) /\
  (u_Path (rq_URL r) <> "/api/system-metrics" -> answers m (own_status r) w).

(** Away from the lists. *)
Lemma aside_meets m w :
  let path := u_Path (rq_URL (w_req w)) in
  path <> "/admin/whitelist" -> path <> "/admin/blacklist" ->
  keeps aside m -> (path <> "/api/system-metrics" -> answers m 200 w) -> meets m w.
Proof.
  intros path H1'%String.eqb_neq H2'%String.eqb_neq Hk Ha. destruct (Hk w) as (Hg & Hc & Hm).
  unfold meets, listed, own_status. fold path. rewrite H1', H2'. cbn [orb]. split_and!; try done.
  case_if; by rewrite with_ddos_same.
Qed.

Lemma list_handler_meets add word w :
  let path := u_Path (rq_URL (w_req w)) in
  path = "/admin/whitelist" /\ add = AddToWhitelist \/ path = "/admin/blacklist" /\ add = AddToBlacklist ->
  meets (list_handler add word) w.
Proof.
  intros path Hp. destruct (list_handler_spec add word w) as (Hg & Hc & Hm & Ha). unfold meets, listed, own_status.
  fold path. destruct Hp as [[-> ->]|[-> ->]]; cbn [String.eqb Ascii.eqb Bool.eqb orb];
    (split_and!; [rewrite Hg; by case_if|done..]).
Qed.

Lemma own_endpoint_meets w :
  In (u_Path (rq_URL (w_req w))) own_paths ->
  meets match endpoint_of (u_Path (rq_URL (w_req w))) with
        | EpMetrics => metricsHandler | EpHealth => healthHandler | EpStats => statsHandler
        | EpWhitelist => whitelistHandler | EpBlacklist => blacklistHandler | EpLogin => loginHandler
        | EpMonitor => systemMonitorHandler os_readings dashboard_page | EpGateway => ServeHTTP
        end w.
Proof.
  intros Hp. simpl in Hp.
  repeat destruct Hp as [Hp|Hp]; try done;
    rewrite <- Hp;
    match goal with |- context [endpoint_of ?p] =>
      let e := eval vm_compute in (endpoint_of p) in change (endpoint_of p) with e end; cbv iota;
    try (apply list_handler_meets; rewrite <- Hp; tauto);
    (apply aside_meets; [by rewrite <- Hp..| |]).
  all: try (unfold healthHandler, statsHandler, loginHandler; by keep_steps).
  all: try exact monitor_aside.
  all: intros Ha.
  - intros ???. by apply write_json_answers.
  - intros ???. by apply write_json_answers.
  - apply loginHandler_answers.
  - by apply monitor_page_answers.
Qed.

(** A dispatched request, behind the middleware. *)
Lemma handler_dispatches w :
  let u := rq_URL (w_req w) in
  rq_Method (w_req w) <> "CONNECT" -> unescaped (EscapedPath u) -> cleanPath (EscapedPath u) = EscapedPath u ->
  EscapedPath u = u_Path u /\
  exists w1, passed w w1 /\ handler os_readings dashboard_page rand_Read metricsHandler w =
    match endpoint_of (u_Path u) with
    | EpMetrics => metricsHandler | EpHealth => healthHandler | EpStats => statsHandler
    | EpWhitelist => whitelistHandler | EpBlacklist => blacklistHandler | EpLogin => loginHandler
    | EpMonitor => systemMonitorHandler os_readings dashboard_page | EpGateway => ServeHTTP
    end w1.
Proof.
  intros u Hm He Hc.
  assert (EscapedPath u = u_Path u) as Eu.
  { pose proof (EscapedPath_decodes u) as Hd. rewrite unescape_plain in Hd by done. by injection Hd. }
  split; [done|]. destruct (handler_passes w) as (w1 & -> & Hp). exists w1. split; [done|].
  unfold mux, mbind, M_bind, gets. destruct (mux_dispatch_passed _ _ Hp) as [-> ->].
  rewrite dispatched_not_asterisk by done. unfold mux_dispatch. apply String.eqb_neq in Hm. rewrite Hm. fold u.
  cbv zeta iota. rewrite Hc, String.eqb_refl. cbn [negb]. rewrite Eu. by destruct (endpoint_of (u_Path u)).
Qed.


(** Whoever can send the gateway a POST can whitelist an address. On the
    whitelist endpoint a request with a non-empty ip parameter is answered with
    200 and adds the address, whatever headers, credentials or sender address
    it has and without passing DDoS protection, rate limiting or
    authentication; from then on the address is not blocked at any time. *)
Theorem whitelist_needs_no_credentials w ip :
  mux_dispatch (w_req w) = Ok EpWhitelist -> rq_Method (w_req w) = "POST" ->
  Query_Get (rq_URL (w_req w)) "ip" = ip -> ip <> "" ->
  rs_wroteHeader (rr_ResponseWriter (w_rec w)) = false -> rs_hijacked (rr_ResponseWriter (w_rec w)) = false ->
  let w' := (handler os_readings dashboard_page rand_Read metricsHandler w).2 in
  w_gw w' = with_ddos (AddToWhitelist ip (gw_ddosProtection (w_gw w))) (w_gw w) /\
  client_status (rr_ResponseWriter (w_rec w')) = 200 /\
  (forall now, (IsBlocked ip now (gw_ddosProtection (w_gw w'))).1 = false).
Proof.
  intros Hd Hm Hq Hip Hw Hh. destruct (handler_passes w) as (w1 & -> & Hp). cbv zeta.
  destruct (mux_dispatch_clean _ _ ltac:(by rewrite Hm) Hd) as [Hc _].
  unfold mux, mbind, M_bind, gets. destruct (mux_dispatch_passed _ _ Hp) as [-> ->].
  rewrite Hd, dispatched_not_asterisk by (done || by rewrite Hm).
  destruct Hp as (Hg & _ & _ & Hr & Hu & h & Hrw).
  unfold whitelistHandler, list_handler, mbind, M_bind, gets, modify. rewrite Hr, Hu, Hm, Hq.
  destruct (String.eqb ip "") eqn:E; bool_prop; [done|].
  change (negb (String.eqb "POST" "POST")) with false. cbv iota beta.
  match goal with |- context [write_json ?d ?w2] => destruct (write_json_effect d w2) as [H1' H2'] end;
    [simpl; by rewrite Hrw..|]. rewrite H1', H2'. cbn [on_gw w_gw]. rewrite Hg. split_and!; try done.
  intros now. unfold IsBlocked. rewrite bool_decide_true; [done|]. simpl. set_solver.
Qed.
End Admin.

(** ** A concrete front door *)

Definition demo_json : JsonLib := {| json_Encode _ := Ok "{}" |}.

Definition demo_host (now : Z) : Readings := demo_readings (Some 20).

(** A metrics handler that writes one line. *)
Definition demo_metrics_handler : M (@World exact_rate demo_redis) unit :=
  on_response (response_Write "up 1") ;; mret tt.

Definition demo_handler (xs : list exchange) : M (@World exact_rate demo_redis) unit :=
  @handler ascii_tables demo_jwt exact_rate demo_redis (demo_env xs) demo_json insertion_sort
    demo_host "<html>" (Some (repeat 171 16)) demo_metrics_handler.

Definition demo_client (w : @World exact_rate demo_redis) : response := rr_ResponseWriter (w_rec w).

Lemma demo_no_early xs : Forall (fun x => x_early x = []) xs ->
  forall n out timeout, x_early (@env_upstream (demo_env xs) n out timeout) = [].
Proof.
  intros Hx n out timeout. simpl. destruct (nth_in_or_default n xs (mkExchange [] (RtError "connection refused")))
    as [Hi | ->]; [|done]. rewrite List.Forall_forall in Hx. by apply Hx.
Qed.

Lemma security_headers_on_every_response_witness :
  armed (final_headers (demo_client (demo_handler [demo_ok "hi"] (demo_world 5 ∅ (demo_request "/shop/cart" ∅))).2)).
Proof.
  unfold demo_handler, demo_client.
  apply (@security_headers_on_every_response ascii_tables demo_jwt exact_rate demo_redis
           (demo_env [demo_ok "hi"]) demo_json insertion_sort).
  - apply demo_no_early. by repeat constructor.
  - unfold demo_metrics_handler. apply keeps_bind; [apply guarded_pre| |intros ?; apply keeps_ret, guarded_pre].
    apply guarded_on_response, shield_Write.
  - reflexivity.
Defined.

Lemma early_response_drops_security_headers_witness :
  let rr := newResponseRecorder (with_rs_header {["X-Frame-Options" := ["DENY"]]} (new_response true)) in
  final_headers (rr_ResponseWriter
    (forward true (mkExchange [(103, ∅)] (RtResponse 200 {["Server" := ["up"]]} ["hi"] false)) rr).2)
  = copyHeader ∅ (removeHopByHopHeaders {["Server" := ["up"]]}).
Proof.
  intros rr. apply (early_response_drops_security_headers true [(103, ∅)] 200 {["Server" := ["up"]]} ["hi"] false rr);
    [done|by repeat constructor|done|done].
Defined.

Definition demo_post (path query : string) : Request :=
  mkRequest "POST" (mkURL "" "" path "" query) "gw.example.com" ∅ "9.9.9.9:4242" false.

Lemma whitelist_needs_no_credentials_witness :
  let w := demo_world 5 ∅ (demo_post "/admin/whitelist" "ip=6.6.6.6") in
  let w' := (demo_handler [] w).2 in
  w_gw w' = with_ddos (AddToWhitelist "6.6.6.6" (gw_ddosProtection (w_gw w))) (w_gw w) /\
  client_status (demo_client w') = 200 /\
  (forall now, (IsBlocked "6.6.6.6" now (gw_ddosProtection (w_gw w'))).1 = false).
Proof.
  intros w. unfold demo_handler, demo_client.
  apply (@whitelist_needs_no_credentials ascii_tables demo_jwt exact_rate demo_redis (demo_env []) demo_json
           insertion_sort demo_host "<html>" (Some (repeat 171 16)) demo_metrics_handler w "6.6.6.6");
    vm_compute; done.
Defined.

