(* ===== verification/Screen.v ===== *)
(** * The startup banner and the live dashboard (dashboard.go)

    [PrintStartupBanner] as the lines it prints, and [render] as the text of one
    refresh, with [LiveDashboard]'s start and stop. What the operating system
    says is an argument. *)

From Stdlib Require Import ZArith Lia Floats.SpecFloat Ascii String List.
From stdpp Require Import base list strings gmap.
From S2P Require Import Prelude Logic GoStrings Urls Json Monitor Fmt Terminal Binary64 Dashboard Bars.
From S2P Require Import Pool Router Breaker Http RateLimiter Auth Config Cache Gateway GatewayDemo Handlers.

(** ** The banner *)

Definition spaces (n : Z) : string := repeat_nat " " (Z.to_nat n).

(** Byte slice of a string that is long enough. *)
Definition shorten (limit keep : nat) (s : string) : string :=
  if (limit <? slen s)%nat then stake keep s +:+ "..." else s.

Definition boolLabel (b : bool) : string :=
  if b then clGreen +:+ "enabled " +:+ clReset else clGray +:+ "disabled" +:+ clReset.

Definition visible_bytes (s : string) : Z := Z.of_nat (slen (stripANSI s)).

Definition centerPad (s : string) (width : Z) : string :=
  let vis := visible_bytes s in
  let pad := Z.quot (width - vis) 2 in
  let pad := if pad <? 0 then 0 else pad in
  let right := width - vis - pad in
  let right := if right <? 0 then 0 else right in
  spaces pad +:+ s +:+ spaces right.

Definition banner_W : Z := 72.

(** The frame: a line of [W - 4] dashes between two corners. *)
Definition frame (left right : string) : string :=
  clCyan +:+ "  " +:+ left +:+ repeat_nat "═" (Z.to_nat (banner_W - 4)) +:+ right +:+ clReset.

(** The closure [row]. *)
Definition row (left right : string) : string :=
  let inner := pad_right 22 left +:+ right in
  let pad := banner_W - 4 - visible_bytes inner in
  let pad := if pad <? 0 then 0 else pad in
  clCyan +:+ "  ║ " +:+ clReset +:+ inner +:+ spaces pad +:+ clCyan +:+ " ║" +:+ clReset.

Definition label (s : string) : string := clCyan +:+ s +:+ clReset.

Definition boxed (text : string) : string :=
  clCyan +:+ "  ║" +:+ clReset +:+ text +:+ clCyan +:+ "║" +:+ clReset.

Definition title (version : string) : string :=
  clBold +:+ clWhite +:+ "  VA API Gateway" +:+ clReset +:+ clGray +:+ "  ·  v" +:+ version +:+ clReset.

Definition subtitle : string :=
  clGray +:+ "  High-performance reverse proxy & AI orchestration layer" +:+ clReset.

Definition url_of (cfg : Config) (path : string) : string :=
  clGreen +:+ "http://0.0.0.0" +:+ c_Port cfg +:+ path +:+ clReset.

Definition settings (cfg : Config) : list (string * string) :=
  [ ("Listen", url_of cfg "");
    ("Load Balancing", clWhite +:+ c_LoadBalancingAlgo cfg +:+ clReset);
    ("Rate Limit", clWhite +:+ Itoa (c_MaxRequestsPerSecond cfg) +:+ " rps  burst " +:+ Itoa (c_MaxBurstSize cfg) +:+ clReset);
    ("DDoS Threshold", clWhite +:+ Itoa (c_DDoSThreshold cfg) +:+ " req/min  block " +:+
       Duration_String (c_BlockDuration cfg) +:+ clReset);
    ("Circuit Breaker", clWhite +:+ "max " +:+ Itoa (c_CircuitBreakerMax cfg) +:+ " failures  reset " +:+
       Duration_String (c_CircuitBreakerTimeout cfg) +:+ clReset);
    ("Caching", boolLabel (c_EnableCaching cfg) +:+ " " +:+ clGray +:+ "Redis " +:+ c_RedisAddr cfg +:+ clReset);
    ("Compression", boolLabel (c_EnableCompression cfg));
    ("Metrics", url_of cfg "/metrics");
    ("Health", url_of cfg "/health");
    ("Monitor", url_of cfg "/monitor") ].

Definition table_head : string :=
  clCyan +:+ "  ║ " +:+ clReset +:+ clBold +:+ clYellow +:+
  pad_right 18 "PREFIX" +:+ " " +:+ pad_right 36 "TARGET" +:+ " " +:+ pad_right 6 "AUTH" +:+ clReset +:+
  spaces 4 +:+ clCyan +:+ "║" +:+ clReset.

Definition route_row (r : ServiceRoute) : string :=
  let auth := if r_RequireAuth r then clGreen +:+ "yes" +:+ clReset else clGray +:+ "no " +:+ clReset in
  let target := shorten 34 31 (r_TargetURL r) in
  let text := pad_right 18 (r_Prefix r) +:+ " " +:+ pad_right 36 target +:+ " " +:+ auth in
  let pad := banner_W - 4 - visible_bytes text - 2 in
  let pad := if pad <? 0 then 0 else pad in
  clCyan +:+ "  ║ " +:+ clReset +:+ text +:+ spaces pad +:+ clCyan +:+ "║" +:+ clReset.

Definition keys_row : string :=
  clCyan +:+ "  ║ " +:+ clReset +:+ clGray +:+ "q:quit  s:sort  +/-:speed  Ctrl+C to stop" +:+ clReset +:+
  spaces (banner_W - 4 - 44) +:+ clCyan +:+ "║" +:+ clReset.

(** The lines of the banner; an empty line precedes and follows it. *)
Definition PrintStartupBanner (cfg : Config) (version : string) : list string :=
  [ ""; frame "╔" "╗"; boxed (centerPad (title version) (banner_W - 4)); boxed (centerPad subtitle (banner_W - 4));
    frame "╠" "╣" ] ++
  map (fun s => row (label s.1) s.2) (settings cfg) ++
  [ frame "╠" "╣"; table_head ] ++
  map route_row (c_ServiceRoutes cfg) ++
  [ clCyan +:+ "  ║" +:+ spaces (banner_W - 4) +:+ "║" +:+ clReset; keys_row; frame "╚" "╝"; "" ].

(** The column of the right border, line by line: the frame at 72, the title and
    the routes at 71, the settings at 74, the keys at 70. *)
Example banner_columns :
  map columns (PrintStartupBanner (demo_config demo_routes 5) "2.0.0")
  = [0; 72; 71; 72; 72; 74; 74; 74; 74; 74; 74; 74; 74; 74; 74; 72; 71; 71; 71; 72; 70; 72; 0]%nat.
Proof. vm_compute. reflexivity. Qed.

Lemma label_width name : is_ascii name = true -> RuneCount (label name) = (9 + slen name)%nat.
Proof.
  intros Hn. unfold label. rewrite !RuneCount_app by (try apply ValidString_ascii; done).
  rewrite (RuneCount_ascii name) by done. change (RuneCount clCyan) with 5%nat. change (RuneCount clReset) with 4%nat. lia.
Qed.

Lemma strip_label name s :
  plain name = true -> stripANSI (label name +:+ s) = name +:+ stripANSI s.
Proof.
  intros Hn. unfold label. rewrite !sapp_assoc, (stripANSI_app clCyan), (stripANSI_app name), (stripANSI_app clReset)
    by eauto with term. by rewrite (stripANSI_plain name).
Qed.

Lemma clean_label name : plain name = true -> clean (label name) = true.
Proof. intros Hn. unfold label. eauto with term. Qed.

Lemma plain_spaces n : plain (spaces n) = true.
Proof. apply plain_repeat. reflexivity. Qed.

(** The columns of the banner do not line up. The label of a setting is
    padded to 22 characters that include the nine of its colour codes: it takes
    13 columns, and a label of 13 characters or more ("Load Balancing",
    "DDoS Threshold", "Circuit Breaker") runs into its value. A setting that
    fits ends at column 74, two columns outside the frame of 72. *)
Theorem banner_row_overruns_frame (name value : string) :
  is_ascii name = true -> plain name = true -> clean value = true -> is_ascii (stripANSI value) = true ->
  let text := name +:+ spaces (13 - Z.of_nat (slen name)) +:+ stripANSI value in
  stripANSI (row (label name) value) = "  ║ " +:+ text +:+ spaces (68 - Z.of_nat (slen text)) +:+ " ║" /\
  columns (row (label name) value) = (6 + Nat.max 68 (slen text))%nat /\
  (forall l r, plain l = true -> plain r = true -> columns (frame l r) = (2 + RuneCount l + 68 + RuneCount r)%nat).
Proof.
  intros Ha Hp Hc Hv text.
  assert (pad_right 22 (label name) = label name +:+ spaces (13 - Z.of_nat (slen name))) as Epad.
  { unfold pad_right, spaces. rewrite label_width by done. f_equal. f_equal. lia. }
  assert (stripANSI (pad_right 22 (label name) +:+ value) = text) as Etext.
  { rewrite Epad, sapp_assoc, strip_label by done. rewrite stripANSI_app by eauto using plain_spaces with term.
    by rewrite (stripANSI_plain (spaces _)) by apply plain_spaces. }
  assert (clean (pad_right 22 (label name) +:+ value) = true) as Hclean.
  { rewrite Epad. apply clean_app; [|done]. apply clean_app; [by apply clean_label|]. apply plain_clean, plain_spaces. }
  set (pad := banner_W - 4 - visible_bytes (pad_right 22 (label name) +:+ value)).
  assert (spaces (if pad <? 0 then 0 else pad) = spaces (68 - Z.of_nat (slen text))) as Esp.
  { unfold pad, visible_bytes, banner_W, spaces. rewrite Etext. f_equal. case_if; bool_prop; lia. }
  assert (stripANSI (row (label name) value) = "  ║ " +:+ text +:+ spaces (68 - Z.of_nat (slen text)) +:+ " ║") as Erow.
  { unfold row. fold pad. rewrite Esp. clear Esp pad. rewrite !(stripANSI_app clCyan), (stripANSI_app "  ║ "), (stripANSI_app clReset) by reflexivity.
    rewrite (stripANSI_app (_ +:+ value)) by done. rewrite Etext.
    rewrite (stripANSI_app (spaces _)) by apply plain_clean, plain_spaces.
    rewrite (stripANSI_plain (spaces _)) by apply plain_spaces.
    rewrite (stripANSI_app clCyan), (stripANSI_app " ║") by reflexivity. reflexivity. }
  split_and!; [done| |].
  - unfold columns. rewrite Erow.
    assert (is_ascii (spaces (13 - Z.of_nat (slen name))) = true) as Hs1 by (by apply is_ascii_repeat).
    assert (is_ascii (spaces (68 - Z.of_nat (slen text))) = true) as Hs2 by (by apply is_ascii_repeat).
    assert (is_ascii text = true) as Ht by (unfold text, is_ascii in *; by rewrite !sforall_app, Ha, Hs1, Hv).
    rewrite !RuneCount_app by (reflexivity || by apply ValidString_ascii).
    rewrite (RuneCount_ascii text), (RuneCount_ascii (spaces _)) by done. unfold spaces at 1. rewrite slen_repeat.
    change (RuneCount "  ║ ") with 4%nat. change (RuneCount " ║") with 2%nat. simpl. lia.
  - intros l r Hl Hr. unfold frame. rewrite !columns_app, columns_repeat by eauto with term.
    rewrite (columns_plain l), (columns_plain r) by done.
    change (columns clCyan) with 0%nat. change (columns "  ") with 2%nat. change (columns "═") with 1%nat.
    change (columns clReset) with 0%nat. simpl. lia.
Qed.

Lemma banner_row_overruns_frame_witness :
  stripANSI (row (label "Load Balancing") (clWhite +:+ "round-robin" +:+ clReset))
    = "  ║ " +:+ "Load Balancinground-robin" +:+ spaces 43 +:+ " ║" /\
  columns (row (label "Load Balancing") (clWhite +:+ "round-robin" +:+ clReset)) = 74%nat /\
  columns (frame "╔" "╗") = 72%nat.
Proof.
  destruct (banner_row_overruns_frame "Load Balancing" (clWhite +:+ "round-robin" +:+ clReset)) as (H1 & H2 & H3);
    [reflexivity..|].
  split_and!; [exact H1|exact H2|]. apply (H3 "╔" "╗"); reflexivity.
Defined.

(** ** The live dashboard *)

(** What gopsutil and the runtime say at a refresh; the errors are ignored. *)
Record SysReadings := mkSysReadings {
  sr_cpuTotal : list float64;
  sr_cpuCores : list float64;
  sr_vmem : option MemInfo;
  sr_smem : option SwapInfo;
  sr_NumCPU : Z
}.

Section Live.
Context `{RL : RateLib, IC : IntConv}.

(** The gateway the dashboard points to is an argument where it is read. *)
Record LiveDashboard := mkLive {
  ld_cfg : Config;
  ld_version : string;
  ld_startTime : Z;
  ld_running : bool
}.

Definition NewLiveDashboard (cfg : Config) (version : string) (now : Z) : LiveDashboard :=
  mkLive cfg version now false.

Definition set_running (b : bool) (d : LiveDashboard) : LiveDashboard :=
  mkLive (ld_cfg d) (ld_version d) (ld_startTime d) b.

Definition screen_W : Z := 78.

Definition render_header (version : string) (uptime : Z) (load1 : float64) : M string unit :=
  write (clBold +:+ clCyan +:+ "va-gateway" +:+ clReset +:+ "  " +:+ clWhite +:+ "VA API Gateway" +:+ clReset +:+
    "  " +:+ clGray +:+ "v" +:+ version +:+ clReset +:+ "    " +:+ clGray +:+ "up " +:+ clReset +:+
    clWhite +:+ uptimeStr uptime +:+ clReset +:+ "    " +:+ clGray +:+ "load " +:+ clReset +:+
    clWhite +:+ FormatFixed 2 load1 +:+ clReset +:+ newline +:+ newline).

(** A bar with its label. *)
Definition write_bar (pct : float64) (width : Z) : M string unit :=
  write_of (colorBar pct width) ;; write ("  " +:+ clWhite +:+ pctLabel pct +:+ clReset).

Definition render_cpu (numCPU : Z) (overall : float64) : M string unit :=
  write (clBold +:+ clYellow +:+ "CPU" +:+ clReset +:+ "  " +:+ Itoa numCPU +:+ " cores" +:+ "    Overall: ") ;;
  write_bar overall 32 ;; write newline.

(** One core of the two columns; the index is within the slice or panics. *)
Definition render_core (cores : list float64) (i : nat) : M string unit :=
  match cores !! i with
  | None => panic "index out of range"
  | Some pct =>
      write (clGray +:+ pad_left 2 (Itoa (Z.of_nat i)) +:+ clReset +:+ "  ") ;;
      write_bar pct 20
  end.

Fixpoint render_cores (cores : list float64) (n half i left : nat) : M string unit :=
  match left with
  | O => mret tt
  | S left' =>
      write "  " ;; render_core cores i ;;
      (if (i + half <? n)%nat then write "    " ;; render_core cores (i + half) else mret tt) ;;
      write newline ;;
      render_cores cores n half (S i) left'
  end.

Definition render_memory (vmem : option MemInfo) : M string unit :=
  match vmem with
  | None => mret tt
  | Some v =>
      write (clBold +:+ clBlue +:+ "MEM" +:+ clReset +:+ "  " +:+ clGreen +:+ gbLabel (vm_Used v) +:+ " used" +:+ clReset +:+
        " + " +:+ clGray +:+ gbLabel (wrapu64 (vm_Buffers v + vm_Cached v)) +:+ " buf/cache" +:+ clReset +:+
        " / " +:+ clWhite +:+ gbLabel (vm_Total v) +:+ clReset +:+ newline) ;;
      write "  " ;; write_bar (vm_UsedPercent v) 50 ;; write newline
  end.

Definition render_swap (smem : option SwapInfo) : M string unit :=
  match smem with
  | None => mret tt
  | Some s =>
      if 0 <? sw_Total s then
        write (clBold +:+ clBlue +:+ "SWP" +:+ clReset +:+ "  " +:+ gbLabel (sw_Used s) +:+ " / " +:+
          gbLabel (sw_Total s) +:+ newline) ;;
        write "  " ;; write_bar (sw_UsedPercent s) 50 ;; write newline
      else mret tt
  end.

Definition cb_color (state : string) : string :=
  if String.eqb state "open" then clRed else if String.eqb state "half-open" then clYellow else clGreen.

Definition render_gateway (cfg : Config) (cbState : string) : M string unit :=
  write (clBold +:+ clMagenta +:+ "GATEWAY" +:+ clReset +:+ "  " +:+ clWhite +:+ "VA API Gateway" +:+ clReset +:+
    "  " +:+ clGray +:+ "port" +:+ clReset +:+ clGreen +:+ c_Port cfg +:+ clReset +:+
    "  " +:+ clGray +:+ "algo=" +:+ clReset +:+ clWhite +:+ c_LoadBalancingAlgo cfg +:+ clReset +:+
    "  " +:+ clGray +:+ "cb=" +:+ clReset +:+ cb_color cbState +:+ cbState +:+ clReset +:+ newline +:+ newline).

Definition backend_row (cfg : Config) (prefix : string) (b : Backend) : string :=
  let status := if IsAlive b then clGreen +:+ "● up  " +:+ clReset else clRed +:+ "○ down" +:+ clReset in
  "  " +:+ clCyan +:+ pad_right 18 prefix +:+ clReset +:+ " " +:+ pad_right 32 (shorten 30 27 (url_String (b_URL b))) +:+
  " " +:+ status +:+ " " +:+ pad_right 10 (Itoa (GetConnections b)) +:+ " " +:+
  clGray +:+ c_LoadBalancingAlgo cfg +:+ clReset +:+ newline.

Definition render_table (cfg : Config) (sr : ServiceRouter) : M string unit :=
  write (clBold +:+ clGray +:+ "  " +:+ pad_right 18 "PREFIX" +:+ " " +:+ pad_right 32 "BACKEND" +:+ " " +:+
    pad_right 8 "STATUS" +:+ " " +:+ pad_right 10 "CONNS" +:+ " " +:+ "ALGO" +:+ newline +:+ clReset) ;;
  write ("  " +:+ clGray) ;; write_of (Repeat "·" (screen_W - 2)) ;; write (clReset +:+ newline) ;;
  write (Join (concat (map (fun e => map (backend_row cfg (e_Prefix e)) (entry_backends sr e)) (Routes sr))) "") ;;
  write newline.

Definition render_counters (st : DashboardStats) : M string unit :=
  write (clBold +:+ clGray +:+ "  " +:+ pad_right 20 "TOTAL REQUESTS" +:+ " " +:+ pad_right 20 "ACTIVE CONNS" +:+ " " +:+
    pad_right 20 "BLOCKED IPs" +:+ " " +:+ "CIRCUIT TRIPS" +:+ newline +:+ clReset) ;;
  write ("  " +:+ clWhite +:+ pad_right 20 (Itoa (ds_TotalRequests st)) +:+ clReset +:+ " " +:+
    pad_right 20 (Itoa (ds_ActiveConns st)) +:+ " " +:+ pad_right 20 (Itoa (ds_BlockedIPs st)) +:+ " " +:+
    Itoa (ds_CircuitTrips st) +:+ newline +:+ newline).

Definition render_history (st : DashboardStats) : M string unit :=
  write (clBold +:+ clCyan +:+ "  Request history" +:+ clReset +:+ newline +:+ clGray +:+ "  100%" +:+ newline +:+ clReset +:+ "  ") ;;
  write_of (sparkline (ds_RequestHistory st) 48) ;;
  write (newline +:+ clGray +:+ "    0%" +:+ newline +:+ clReset +:+ newline).

(** The padding of the footer is negative for a long version. *)
Definition render_footer (version : string) : M string unit :=
  write clGray ;; write_of (Repeat "─" screen_W) ;; write (clReset +:+ newline +:+ clGray +:+ "  q:quit  s:sort  +/-:speed  1.0s") ;;
  write_of (Repeat " " (screen_W - 36 - Z.of_nat (slen version))) ;;
  write (" v" +:+ version +:+ clReset +:+ newline).

(** The first total, or a zero value. *)
Definition first_or_zero (l : list float64) : float64 := match l with x :: _ => x | [] => f_zero end.

Definition render (d : LiveDashboard) (gw : Gateway) (rd : SysReadings) (st : DashboardStats) (now : Z)
    : outcome string :=
  let load1 := match sr_cpuTotal rd with
               | x :: _ => f_mul (f_div x (f_of_Z 100)) (f_of_Z (sr_NumCPU rd))
               | [] => f_zero
               end in
  let n := Nat.min (length (sr_cpuCores rd)) 16 in
  let half := ((n + 1) / 2)%nat in
  built
   (write clClear ;;
    render_header (ld_version d) (now - ld_startTime d) load1 ;;
    render_cpu (sr_NumCPU rd) (first_or_zero (sr_cpuTotal rd)) ;;
    render_cores (sr_cpuCores rd) n half 0 half ;;
    write newline ;;
    render_memory (sr_vmem rd) ;;
    render_swap (sr_smem rd) ;;
    write newline ;;
    write clGray ;; write_of (Repeat "─" screen_W) ;; write (clReset +:+ newline +:+ newline) ;;
    render_gateway (ld_cfg d) (GetState (gw_circuitBreaker gw)) ;;
    render_table (ld_cfg d) (gw_router gw) ;;
    render_counters st ;;
    render_history st ;;
    render_footer (ld_version d)).

(** [isTerminal]: the environment, and the mode of standard output. *)
Definition ModeCharDevice : Z := Z.shiftl 1 21.

Definition isTerminal (Getenv : string -> string) (stat : option Z) : bool :=
  if negb (String.eqb (Getenv "NO_DASHBOARD") "") then false
  else match stat with
       | None => false
       | Some mode => negb (Z.land mode ModeCharDevice =? 0)
       end.

(** [Start] and [Stop], with what they print; the refreshes go on while
    [ld_running]. *)
Definition Start (terminal : bool) (d : LiveDashboard) : LiveDashboard * list string :=
  if terminal then (set_running true d, [clHide]) else (d, []).

Definition Stop (d : LiveDashboard) : LiveDashboard * list string := (set_running false d, [clShow]).

(** The loop of the goroutine, for the refreshes at the given times with what
    is read then, until [Stop] clears the flag: a panic ends the process. *)
Fixpoint refresh (d : LiveDashboard) (reads : list (Z * Gateway * SysReadings * DashboardStats))
    : outcome (list string) :=
  match reads with
  | [] => Ret []
  | (now, gw, rd, st) :: rest =>
      if ld_running d then
        match render d gw rd st now with
        | Panic why => Panic why
        | Ret text => match refresh d rest with Ret l => Ret (text :: l) | Panic why => Panic why end
        end
      else Ret []
  end.

(** ** A refresh does not panic *)

(** The history as [RecordRequest] leaves it, before 2^63 requests. *)
Definition history_ok (st : DashboardStats) : Prop :=
  length (ds_RequestHistory st) = 48%nat /\ Forall (fun v => 0 <= v <= int64_max) (ds_RequestHistory st).

(** [m] returns, whatever has been written before. *)
Definition returns (m : M string unit) : Prop := forall sb, exists sb', m sb = (Ret tt, sb').

Lemma returns_ret : returns (mret tt).
Proof. intros sb. by eexists. Qed.

Lemma returns_write s : returns (write s).
Proof. intros sb. by eexists. Qed.

Lemma returns_write_of s : returns (write_of (Ret s)).
Proof. intros sb. by eexists. Qed.

Lemma returns_bind m k : returns m -> returns k -> returns (m ;; k).
Proof. intros Hm Hk sb. unfold mbind, M_bind. destruct (Hm sb) as [sb1 ->]. apply Hk. Qed.

Lemma returns_bar pct width : 0 <= width -> returns (write_bar pct width).
Proof.
  intros Hw. unfold write_bar. destruct (filled_range pct width Hw) as [H1 H2].
  apply returns_bind; [|apply returns_write]. unfold colorBar. rewrite !Repeat_nonneg by lia. by apply returns_write_of.
Qed.

Lemma returns_core cores i : (i < length cores)%nat -> returns (render_core cores i).
Proof.
  intros Hi. unfold render_core. destruct (lookup_lt_is_Some_2 cores i Hi) as [pct ->].
  apply returns_bind; [apply returns_write|]. by apply returns_bar.
Qed.

Create HintDb screen.
#[local] Hint Resolve returns_ret returns_write returns_write_of returns_bind : screen.
#[local] Hint Extern 1 (returns (write_bar _ _)) => by apply returns_bar : screen.

Lemma returns_repeat s n : 0 <= n -> returns (write_of (Repeat s n)).
Proof. intros Hn. rewrite Repeat_nonneg by done. apply returns_write_of. Qed.
#[local] Hint Extern 1 (returns (write_of (Repeat _ _))) => apply returns_repeat; unfold screen_W; lia : screen.

Lemma returns_cpu numCPU overall : returns (render_cpu numCPU overall).
Proof. unfold render_cpu. auto with screen. Qed.

Lemma returns_table cfg sr : returns (render_table cfg sr).
Proof. unfold render_table. auto 9 with screen. Qed.

Lemma returns_counters st : returns (render_counters st).
Proof. unfold render_counters. auto with screen. Qed.

(** Both columns stay within the slice. *)
Lemma returns_cores cores n half i left :
  (n <= length cores)%nat -> (i + left <= n)%nat -> returns (render_cores cores n half i left).
Proof.
  intros Hn. revert i. induction left as [|left IH]; intros i Hi; cbn [render_cores]; [auto with screen|].
  apply returns_bind; [auto with screen|]. apply returns_bind; [apply returns_core; lia|].
  apply returns_bind.
  - destruct (i + half <? n)%nat eqn:E; [|auto with screen]. apply Nat.ltb_lt in E.
    apply returns_bind; [auto with screen|]. apply returns_core. lia.
  - apply returns_bind; [auto with screen|]. apply IH. lia.
Qed.

Lemma returns_memory vmem : returns (render_memory vmem).
Proof. destruct vmem; simpl; auto with screen. Qed.

Lemma returns_swap smem : returns (render_swap smem).
Proof. destruct smem; simpl; [case_if|]; auto 6 with screen. Qed.

Lemma returns_history st : history_ok st -> returns (render_history st).
Proof.
  intros [H1 H2]. unfold render_history. destruct (spark_max_spec (ds_RequestHistory st) 1) as (M1 & M2 & M3).
  assert (spark_max (ds_RequestHistory st) 1 < 2 ^ 63) as Hmx.
  { destruct M3 as [-> | M3]; [done|]. rewrite List.Forall_forall in H2. apply H2 in M3. unfold int64_max in M3. lia. }
  destruct (spark_loop_ok (ds_RequestHistory st) (spark_max (ds_RequestHistory st) 1) 0 48 "") as (text & E & _); [done| |lia|].
  { apply Forall_lookup. intros i v Ev. split; [by apply (Forall_lookup_1 _ _ _ _ H2 Ev)|by apply (Forall_lookup_1 _ _ _ _ M2 Ev)]. }
  unfold sparkline, built. rewrite E. auto with screen.
Qed.

(** The footer is where a refresh can panic. *)
Lemma footer_returns version sb :
  (exists sb', render_footer version sb = (Ret tt, sb')) <-> (slen version <= 42)%nat.
Proof.
  unfold render_footer. unfold write_of, write, lift_outcome, modify, mbind, M_bind, Repeat, screen_W. simpl.
  destruct (_ <? 0) eqn:E; bool_prop; split; intros Hv; try (eexists; reflexivity); try lia.
  by destruct Hv.
Qed.

Lemma built_returns m : (exists text, built m = Ret text) <-> (exists sb', m "" = (Ret tt, sb')).
Proof.
  unfold built. destruct (m "") as [[[]|why] sb]; split.
  - by eexists.
  - by eexists.
  - by intros [? ?].
  - by intros [? ?].
Qed.

(** Ends with [k] as [k] does. *)
Lemma then_returns m (k : M string unit) (P : Prop) :
  returns m -> (forall sb, (exists sb', k sb = (Ret tt, sb')) <-> P) ->
  forall sb, (exists sb', (m ;; k) sb = (Ret tt, sb')) <-> P.
Proof. intros Hm Hk sb. unfold mbind, M_bind. destruct (Hm sb) as [sb1 ->]. apply Hk. Qed.

Lemma render_returns (d : LiveDashboard) (gw : Gateway) (rd : SysReadings) (st : DashboardStats) (now : Z) :
  history_ok st -> (exists text, render d gw rd st now = Ret text) <-> (slen (ld_version d) <= 42)%nat.
Proof.
  intros Hst. unfold render. cbv zeta. rewrite built_returns. set (n := Nat.min _ 16).
  assert (n <= length (sr_cpuCores rd) /\ 0 + (n + 1) / 2 <= n)%nat as [Hn Hhalf].
  { split; [apply Nat.le_min_l|]. pose proof (Nat.div_mod_eq (n + 1) 2). pose proof (Nat.mod_upper_bound (n + 1) 2).
    destruct n; [done|]. lia. }
  pose proof (returns_cores (sr_cpuCores rd) n ((n + 1) / 2) 0 ((n + 1) / 2) Hn Hhalf) as Hcores.
  pose proof (returns_history st Hst) as Hhist.
  repeat (lazymatch goal with |- context [mbind _ _] => apply then_returns end;
    [first [apply returns_write|exact Hcores|exact Hhist|apply returns_memory|apply returns_swap|apply returns_cpu
           |apply returns_table|apply returns_counters|by apply returns_repeat]|]).
  apply footer_returns.
Qed.

(** A refresh of the dashboard panics exactly for a version of more than 42
    bytes, whose footer asks for a negative number of blanks: no reading of the
    processors and of the memory, no number of cores, no state of the gateway
    and no history of requests makes it index out of range. *)
Theorem render_panics_iff_long_version (d : LiveDashboard) (gw : Gateway) (rd : SysReadings) (st : DashboardStats)
    (now : Z) :
  history_ok st -> (exists text, render d gw rd st now = Ret text) <-> (slen (ld_version d) <= 42)%nat.
Proof. apply render_returns. Qed.
End Live.

(** The dashboard as [main] starts it, after a hundred requests, on a host of
    three cores without swap. *)
Definition demo_dashboard : LiveDashboard := (Start true (NewLiveDashboard (demo_config demo_routes 5) "2.0.0" 0)).1.

Definition demo_sys : SysReadings :=
  mkSysReadings [f_of_Z 12] [f_of_Z 99; S754_nan; f_of_Z 3] (Some (mkMemInfo 16000000000 0 8000000000 (f_of_Z 50) 0 0 0)) None 3.

Lemma render_panics_iff_long_version_witness :
  let gw := w_gw (demo_world 5 ∅ (demo_request "/" ∅)) in
  let st := (record_requests 100 new_stats).2 in
  (exists text, @render exact_rate amd64 demo_dashboard gw demo_sys st (61 * Second) = Ret text) /\
  ~ (exists text, @render exact_rate amd64 (NewLiveDashboard (demo_config demo_routes 5) (repeat_nat "0" 43) 0)
                    gw demo_sys st 0 = Ret text).
Proof.
  intros gw st.
  assert (history_ok st) as Hst.
  { assert (ds_RequestHistory st = repeat 3 4 ++ repeat 2 44) as E by (vm_compute; reflexivity).
    split; rewrite E; [reflexivity|]. apply Forall_app.
    split; apply List.Forall_forall; intros v ->%repeat_spec; unfold int64_max; lia. }
  split.
  - apply (@render_panics_iff_long_version exact_rate amd64); [exact Hst|vm_compute; repeat constructor].
  - rewrite (@render_panics_iff_long_version exact_rate amd64); [|exact Hst]. apply Nat.lt_nge. vm_compute. repeat constructor.
Defined.
