(* ===== verification/Lifecycle.v ===== *)
(** * The life of a gateway

    From its configuration on, a gateway serves requests, has its backends
    checked and its tables cleaned, in any order. The invariant [gateway_ok] is
    what all components rely on; it is kept by every one of these events, and it
    is enough to rule out every panic of the request handler that comes from the
    gateway's own state. *)

From Stdlib Require Import ZArith Lia Ascii String List.
From stdpp Require Import base list strings gmap.
From S2P Require Import Prelude Logic GoStrings Hosts StableSort Urls Pool Router Breaker DDoS Http Recorder.
From S2P Require Import Auth RateLimiter Proxy Config Dashboard Cache Monitor Fmt Logger Tracing Collectors.
From S2P Require Import Gateway GatewayDemo GatewayLaws.

(** ** Panics *)

(** The panics a request can end in: the server's way to abort a response, a
    status line that is not one, and a label that the metrics client does not
    accept. *)
Definition allowed (why : string) : Prop :=
  why = ErrAbortHandler \/ why = "invalid WriteHeader code" \/ why = label_panic.

(** [m] panics, if at all, in an allowed way. *)
Definition calm {S A} (m : M S A) : Prop := forall s why, (m s).1 = Panic why -> allowed why.

Lemma calm_ret {S A} (a : A) : calm (S := S) (mret a).
Proof. by intros s why. Qed.

Lemma calm_gets {S A} (f : S -> A) : calm (gets f).
Proof. by intros s why. Qed.

Lemma calm_modify {S} (f : S -> S) : calm (modify f).
Proof. by intros s why. Qed.

Lemma calm_bind {S A B} (m : M S A) (k : A -> M S B) : calm m -> (forall a, calm (k a)) -> calm (m ≫= k).
Proof.
  intros Hm Hk s why. unfold mbind, M_bind. specialize (Hm s). destruct (m s) as [[a|w] s1]; simpl in *.
  - apply Hk.
  - intros [= <-]. by apply Hm.
Qed.

Lemma calm_deferring {S A} f (m : M S A) : calm m -> calm (deferring f m).
Proof. intros Hm s why. unfold deferring. specialize (Hm s). destruct (m s). apply Hm. Qed.

Create HintDb calm.
#[export] Hint Resolve calm_ret calm_gets calm_modify calm_bind calm_deferring : calm.

Ltac calm_steps :=
  repeat lazymatch goal with
  | |- forall _, _ => intro
  | |- calm (_ ≫= _) => apply calm_bind
  | |- calm (deferring _ _) => apply calm_deferring
  | |- calm (match ?x with _ => _ end) => destruct x eqn:?
  | |- _ => solve [eauto with calm]
  end.

Lemma calm_response_WriteHeader code : calm (response_WriteHeader code).
Proof.
  intros s why. unfold response_WriteHeader. repeat case_if; simpl; intros [=]; subst; unfold allowed; auto.
Qed.
#[export] Hint Resolve calm_response_WriteHeader : calm.

Lemma calm_take_bytes data : calm (take_bytes data).
Proof. intros s why. by case_take. Qed.
#[export] Hint Resolve calm_take_bytes : calm.

Lemma calm_response_Write data : calm (response_Write data).
Proof. unfold response_Write. calm_steps. Qed.
#[export] Hint Resolve calm_response_Write : calm.

Lemma calm_on_rw {A} (m : M response A) : calm m -> calm (on_rw m).
Proof. intros Hm rr why. unfold on_rw. specialize (Hm (rr_ResponseWriter rr)). destruct (m _). apply Hm. Qed.
#[export] Hint Resolve calm_on_rw : calm.

Lemma calm_WriteHeader code : calm (WriteHeader code).
Proof. unfold WriteHeader. calm_steps. Qed.
#[export] Hint Resolve calm_WriteHeader : calm.

Lemma calm_Write b : calm (Write b).
Proof. unfold Write. calm_steps. Qed.
#[export] Hint Resolve calm_Write : calm.

Lemma calm_Hijack : calm Hijack.
Proof.
  unfold Hijack. calm_steps. apply calm_on_rw. intros s why. unfold response_Hijack. by case_if.
Qed.

Lemma calm_http_Error {T} `{ResponseWriter T} msg code :
  calm (rw_WriteHeader (T := T) code) -> calm (rw_Write (T := T) (msg +:+ newline)) -> calm (http_Error (T := T) msg code).
Proof. intros H1 H2. unfold http_Error. calm_steps. Qed.

Lemma calm_copy_chunks chunks : calm (copy_chunks chunks).
Proof. induction chunks as [|c rest IH]; cbn [copy_chunks]; calm_steps. Qed.

Lemma calm_forward_early early : calm (forward_early early).
Proof. induction early as [|[code h] early IH]; cbn [forward_early]; unfold set_headers; calm_steps. Qed.
#[export] Hint Resolve calm_Hijack calm_copy_chunks calm_forward_early : calm.

Lemma calm_forward in_server x : calm (forward in_server x).
Proof.
  unfold forward, ErrorHandler, set_headers. calm_steps. intros s why [= <-]. by left.
Qed.
#[export] Hint Resolve calm_forward : calm.

(** ** The invariant *)

(** An idle backend with a weight that many others can be added to. *)
Definition backend_sound (b : Backend) : Prop := b_Connections b = 0 /\ 1 <= b_Weight b <= 2 ^ 31.

Section Life.
Context `{UT : UnicodeTables, JL : JwtLib, RL : RateLib, RD : RedisLib, EV : Env}.

(** The sparkline's array and where it is written next. *)
Definition history (w : World) : Z * list Z :=
  (ds_histIdx (mt_dashStats (w_metrics w)), ds_RequestHistory (mt_dashStats (w_metrics w))).

(** What the invariant is about. *)
Definition core (w : World) :=
  (gw_router (w_gw w), gw_rateLimiter (w_gw w), gw_circuitBreaker (w_gw w),
   history w).

(** At rest: the router is well formed with [n] backends, all idle; balancers
    and the history have been advanced at most [k] times; every limiter a client
    points to exists; the breaker is in one of its states. *)
Record gateway_ok (n : nat) (k : Z) (w : World) : Prop := {
  go_router : router_wf (gw_router (w_gw w));
  go_heap : Forall backend_sound (sr_heap (gw_router (w_gw w)));
  go_size : length (sr_heap (gw_router (w_gw w))) = n;
  go_current : Forall (fun s => 0 <= sp_current s <= k) (sr_pools (gw_router (w_gw w)));
  go_limiter : exists r b, rl_wf r b (gw_rateLimiter (w_gw w));
  go_breaker : cb_ok (gw_circuitBreaker (w_gw w)) /\ cb_maxFailures (gw_circuitBreaker (w_gw w)) <= int64_max;
  go_history : 0 <= (history w).1 <= k /\ length (history w).2 = 48%nat /\ Forall (fun v => 0 <= v <= k) (history w).2
}.

Lemma core_inv w a b c d :
  core w = (a, b, c, d) ->
  gw_router (w_gw w) = a /\ gw_rateLimiter (w_gw w) = b /\ gw_circuitBreaker (w_gw w) = c /\ history w = d.
Proof. unfold core. intros E. generalize dependent (history w). intros. by simplify_eq. Qed.

Lemma gateway_ok_core n k w w' : core w' = core w -> gateway_ok n k w -> gateway_ok n k w'.
Proof.
  intros (Er & El & Ec & Ed)%core_inv [H1 H2 H3 H4 H5 H6 H7].
  constructor; rewrite ?Er, ?El, ?Ec, ?Ed; assumption.
Qed.

Lemma gateway_ok_mono n k k' w : k <= k' -> gateway_ok n k w -> gateway_ok n k' w.
Proof.
  intros Hk [H1 H2 H3 H4 H5 H6 (H7 & H8 & H9)]. constructor; try done.
  - eapply Forall_impl; [exact H4|]. simpl. lia.
  - split_and!; [lia|lia|done|]. eapply Forall_impl; [exact H9|]. simpl. lia.
Qed.

(** ** Where computations land *)

(** A computation that ended so: in a good state with the same table, with a
    value as [Q] says, or with an allowed panic. *)
Definition lands {A} (n : nat) (k : Z) (rs : list RouteEntry) (Q : A -> Prop) (ow : outcome A * World) : Prop :=
  gateway_ok n k ow.2 /\ sr_routes (gw_router (w_gw ow.2)) = rs /\
  match ow.1 with Ret a => Q a | Panic why => allowed why end.

Lemma lands_bind {A B} n k k' rs (Q : A -> Prop) (Q' : B -> Prop)
    (m : M World A) (f : A -> M World B) w :
  k <= k' -> lands n k rs Q (m w) ->
  (forall a w1, Q a -> gateway_ok n k w1 -> sr_routes (gw_router (w_gw w1)) = rs -> lands n k' rs Q' (f a w1)) ->
  lands n k' rs Q' ((m ≫= f) w).
Proof.
  intros Hk (Hw & Hr & Ho) Hf. unfold mbind, M_bind. destruct (m w) as [[a|why] w1]; simpl in *; [auto|].
  split_and!; try done. by eapply gateway_ok_mono.
Qed.

(** A step that neither looks at nor touches the core. *)
Lemma lands_quiet {A} n k (m : M World A) w :
  keeps (same core) m -> calm m -> gateway_ok n k w ->
  lands n k (sr_routes (gw_router (w_gw w))) (fun _ => True) (m w).
Proof.
  intros Hk Hc Hw. specialize (Hk w). specialize (Hc w). unfold lands. destruct (m w) as [o w']. simpl in *.
  split_and!; [by eapply gateway_ok_core|unfold same, core in Hk; congruence|destruct o; auto].
Qed.

Lemma lands_mono {A} n k k' rs (Q Q' : A -> Prop) ow :
  k <= k' -> (forall a, Q a -> Q' a) -> lands n k rs Q ow -> lands n k' rs Q' ow.
Proof.
  intros Hk HQ (Hw & Hr & Ho). split_and!; [by eapply gateway_ok_mono|done|]. destruct ow.1; auto.
Qed.

(** ** The pools *)

(** [n] backends of that weight add up to an [int]. *)
Lemma live_weights_bound h l : Forall backend_sound h ->
  sum_weights (live_weights h l) <= Z.of_nat (length l) * 2 ^ 31.
Proof.
  intros Hh. induction l as [|p l IH]; [simpl; lia|]. cbn [live_weights length].
  destruct (alive_at h p); [|lia]. cbn [sum_weights fold_right snd]. fold (sum_weights (live_weights h l)).
  unfold weight_at. destruct (h !! p) as [b|] eqn:E; [|lia].
  destruct (Forall_lookup_1 _ _ _ _ Hh E) as [_ Hw]. lia.
Qed.

Lemma NoDup_ptrs_length (h : heap) l : valid_ptrs h l -> List.NoDup l -> (length l <= length h)%nat.
Proof.
  intros Hv Hnd. rewrite <- (length_seq (length h) 0). apply NoDup_incl_length; [done|].
  intros p Hp. unfold valid_ptrs in Hv. rewrite List.Forall_forall in Hv.
  destruct (Hv p Hp) as [b Hb]. apply lookup_lt_Some in Hb. apply in_seq. lia.
Qed.

(** The balancers' precondition holds of the pool of every entry. *)
Lemma entry_pool n k w e :
  gateway_ok n k w -> k + 1 <= 2 ^ 62 -> Z.of_nat n <= 2 ^ 30 -> In e (sr_routes (gw_router (w_gw w))) ->
  exists s, sr_pools (gw_router (w_gw w)) !! e_Pool e = Some s /\ pool_ok (sr_heap (gw_router (w_gw w))) s.
Proof.
  intros [H1 H2 H3 H4 _ _ _] Hk Hn He. destruct (wf_pool _ e H1 He) as (s & Es & Hv & Hnd & _).
  exists s. split; [done|]. pose proof (Forall_lookup_1 _ _ _ _ H4 Es) as Hc. simpl in Hc.
  pose proof (NoDup_ptrs_length _ _ Hv Hnd) as Hl. rewrite H3 in Hl.
  assert (forall p b, sr_heap (gw_router (w_gw w)) !! p = Some b -> backend_sound b) as Hb
    by (intros; by eapply Forall_lookup_1).
  constructor.
  - done.
  - unfold int64_max. lia.
  - intros p _. unfold conns_at, GetConnections. destruct (_ !! p) as [b|] eqn:E; [|done].
    destruct (Hb p b E) as [-> _]. done.
  - intros p Hp. unfold weight_at. unfold valid_ptrs in Hv. rewrite List.Forall_forall in Hv.
    destruct (Hv p Hp) as [b E]. rewrite E. destruct (Hb p b E). lia.
  - pose proof (live_weights_bound (sr_heap (gw_router (w_gw w))) (sp_backends s) H2). unfold int64_max. lia.
Qed.

Lemma map_insert_same {A B} (f : A -> B) (l : list A) i x y :
  l !! i = Some x -> f y = f x -> map f (<[i := y]> l) = map f l.
Proof.
  revert i. induction l as [|z l IH]; intros [|i] Hx Hy; simplify_eq/=; [by f_equal|].
  f_equal. by apply IH.
Qed.

(** [NextPeer] on the pool of an entry: a live pointer, and one step of the
    counter. *)
Lemma lands_NextPeer_of n e ip w k :
  Z.of_nat n <= 2 ^ 30 -> k + 1 <= 2 ^ 62 -> gateway_ok n k w -> In e (sr_routes (gw_router (w_gw w))) ->
  lands n (k + 1) (sr_routes (gw_router (w_gw w))) (fun peer => forall p, peer = Some p -> (p < n)%nat)
    (NextPeer_of (e_Pool e) ip w).
Proof.
  intros Hn Hk Hw He. destruct (entry_pool n k w e Hw Hk Hn He) as (s & Es & Hok).
  unfold lands, NextPeer_of, gets, mbind, M_bind, modify. simpl. rewrite Es.
  pose proof (NextPeer_counter (sr_heap (gw_router (w_gw w))) s ip) as Hc.
  assert (good_pick (sr_heap (gw_router (w_gw w))) (sp_backends s) (NextPeer (sr_heap (gw_router (w_gw w))) s ip).1)
    as Hg by (apply NextPeer_good; done).
  destruct (NextPeer (sr_heap (gw_router (w_gw w))) s ip) as [o s'] eqn:En. simpl in *.
  apply NextPeer_pick in En as [Eb _].
  pose proof (go_history _ _ _ (gateway_ok_mono n k (k + 1) w ltac:(lia) Hw)) as Hh. destruct Hw as [H1 H2 H3 H4 H5 H6 H7].
  pose proof (Forall_lookup_1 _ _ _ _ H4 Es) as Hcur. simpl in Hcur. split_and!; [|done|].
  - constructor; simpl; try done.
    + destruct H1 as [L1 L2 L3 L4 L5 L6]. constructor; simpl; try done.
      * by rewrite (map_insert_same sp_backends _ _ s).
      * apply Forall_insert; [done|]. rewrite Eb. by apply (Forall_lookup_1 _ _ _ _ L2 Es).
      * by rewrite length_insert.
    + apply Forall_insert; [|destruct Hc as [-> | ->]; [lia|]].
      * eapply Forall_impl; [exact H4|]. simpl. lia.
      * rewrite wrapu64_id; [lia|]. unfold uint64_size. lia.
  - destruct o as [peer|]; [|done]. intros p ->. destruct Hg as [Hp _].
    destruct Hok as [Hv _ _ _ _]. unfold valid_ptrs in Hv. rewrite List.Forall_forall in Hv.
    destruct (Hv p Hp) as [b Hb]. apply lookup_lt_Some in Hb. lia.
Qed.

(** ** Attempts *)

#[local] Existing Instance same_pre.

#[local] Instance core_frame : Frame (same core).
Proof. by split; [apply _|..]. Qed.

#[local] Hint Resolve keeps_Now keeps_Sleep keeps_on_rec keeps_on_response keeps_set_response_header : gw.
#[local] Hint Extern 1 (Frame _) => typeclasses eauto : gw.
#[local] Hint Extern 1 (same _ _ _) => done : gw.

Lemma calm_on_rec {A} (m : M responseRecorder A) : calm m -> calm (on_rec m).
Proof. intros Hm w why. unfold on_rec. specialize (Hm (w_rec w)). destruct (m (w_rec w)). apply Hm. Qed.

Lemma calm_Now : calm Now.
Proof. by intros w why. Qed.

Lemma calm_on_response {A} (m : M response A) : calm m -> calm (on_response m).
Proof. intros Hm. by apply calm_on_rec, calm_on_rw. Qed.

Lemma calm_Error_response msg code : calm (http_Error (T := response) msg code).
Proof. apply calm_http_Error; simpl; eauto with calm. Qed.

Lemma calm_Error_rec msg code : calm (http_Error (T := responseRecorder) msg code).
Proof. apply calm_http_Error; simpl; eauto with calm. Qed.

#[local] Hint Resolve calm_on_rec calm_Now calm_on_response calm_Error_response calm_Error_rec : calm.

(** The part of the world an exchange with an upstream leaves alone. *)
Definition shared (w : World) := (w_gw w, w_metrics w).

#[local] Instance shared_frame : Frame (same shared).
Proof. by split; [apply _|..]. Qed.

Lemma forward_attempt_shared p timeout ip : keeps (same shared) (forward_attempt p timeout ip).
Proof. unfold forward_attempt, proxy_ServeHTTP. keep_steps. Qed.

Lemma forward_attempt_calm p timeout ip w why :
  is_Some (sr_heap (gw_router (w_gw w)) !! p) ->
  (forward_attempt p timeout ip w).1 = Panic why -> allowed why.
Proof.
  intros [b Hb]. unfold forward_attempt, proxy_ServeHTTP, deref, mbind, M_bind, gets, lift_outcome, modify. simpl.
  rewrite Hb. destruct (outgoing _ _) as [out|e].
  - apply (calm_on_rec _ (calm_forward _ _)).
  - apply (calm_on_rec (mret (Some e)) (calm_ret _)).
Qed.

Lemma idle_roundtrip p (h : heap) b :
  h !! p = Some b -> b_Connections b = 0 -> on_backend DecConnections p (on_backend IncConnections p h) = h.
Proof.
  intros Hb Hc. apply list_eq. intros q. rewrite !on_backend_lookup. case_decide; [|done]. subst q.
  rewrite Hb. simpl. unfold DecConnections, IncConnections, add_connections. simpl. rewrite Hc.
  by destruct b; simpl in *; subst.
Qed.

(** An attempt on an idle backend leaves the core as it was. *)
Lemma attempt_core p timeout ip w b :
  sr_heap (gw_router (w_gw w)) !! p = Some b -> b_Connections b = 0 ->
  core (attempt p timeout ip w).2 = core w /\
  match (attempt p timeout ip w).1 with Panic why => allowed why | _ => True end.
Proof.
  intros Hb Hc. unfold attempt, deferring, mbind, M_bind, modify. simpl.
  set (w1 := on_metrics (on_stats (add_active 1)) _).
  pose proof (forward_attempt_shared p timeout ip w1) as Hs.
  pose proof (forward_attempt_calm p timeout ip w1) as Hcalm.
  assert (is_Some (sr_heap (gw_router (w_gw w1)) !! p)) as Hsome.
  { simpl. rewrite on_backend_lookup, Hb. case_decide; simpl; eauto. }
  destruct (forward_attempt p timeout ip w1) as [o w2]. simpl in *. unfold same, shared in Hs.
  injection Hs as Hg Hm. split; [|destruct o; [done|by apply Hcalm]].
  unfold core, history. simpl. rewrite Hg, Hm. simpl. rewrite (idle_roundtrip p _ b) by done.
  by destruct (gw_router (w_gw w)).
Qed.

(** ** The breaker and the retries *)

Lemma cb_admit_ok cb now cb' : cb_ok cb -> cb_admit cb now = Some cb' ->
  cb_ok cb' /\ cb_maxFailures cb' = cb_maxFailures cb.
Proof.
  unfold cb_ok, cb_admit. intros [Hf Hs]. destruct (cb_state_ cb) eqn:E; [|case_if; [|done]|]; intros [= <-];
    rewrite ?E; simpl; split_and!; try done; lia.
Qed.

Lemma gateway_ok_breaker n k w w' cb :
  gateway_ok n k w -> cb_ok cb -> cb_maxFailures cb <= int64_max ->
  core w' = (gw_router (w_gw w), gw_rateLimiter (w_gw w), cb, history w) ->
  gateway_ok n k w'.
Proof.
  intros [H1 H2 H3 H4 H5 H6 H7] Hcb Hmax E. apply core_inv in E as (Er & El & Ec & Ed).
  constructor; rewrite ?Er, ?El, ?Ec, ?Ed; done.
Qed.

(** A call of a function that keeps the core. *)
Lemma breaker_Call_ok n k fn w :
  (forall w1, gw_router (w_gw w1) = gw_router (w_gw w) ->
     core (fn w1).2 = core w1 /\ match (fn w1).1 with Panic why => allowed why | _ => True end) ->
  gateway_ok n k w ->
  gateway_ok n k (breaker_Call fn w).2 /\ gw_router (w_gw (breaker_Call fn w).2) = gw_router (w_gw w) /\
  match (breaker_Call fn w).1 with Panic why => allowed why | _ => True end.
Proof.
  intros Hfn Hw. pose proof (go_breaker _ _ _ Hw) as [Hok Hmax]. unfold breaker_Call, Call.
  set (cb := gw_circuitBreaker (w_gw w)) in *.
  assert (exists now w1, (match cb_state_ cb with Open => Now | _ => mret 0 end) w = (Ret now, w1) /\ core w1 = core w)
    as (now & w1 & E1 & C1) by (destruct (cb_state_ cb); eexists _, _; split; reflexivity).
  rewrite (bind_Ret _ _ _ _ _ (eq_refl : gets (fun w => gw_circuitBreaker (w_gw w)) w = (Ret cb, w))), (bind_Ret _ _ _ _ _ E1).
  apply core_inv in C1 as (Cr & Cl & Cc & Cd).
  destruct (cb_admit cb now) as [cb1|] eqn:Ea.
  2:{ simpl. split_and!; [|done|done]. by eapply gateway_ok_core; [|exact Hw]; unfold core; rewrite Cr, Cl, Cc, Cd. }
  destruct (cb_admit_ok cb now cb1 Hok Ea) as [Hok1 Hmax1].
  set (w2 := on_gw (with_breaker cb1) w1).
  rewrite (bind_Ret _ _ _ _ _ (eq_refl : modify (on_gw (with_breaker cb1)) w1 = (Ret tt, w2))).
  destruct (Hfn w2 Cr) as [Cf Ho].
  destruct (fn w2) as [[r|why] w3] eqn:Efn; simpl in Cf, Ho; apply core_inv in Cf as (Fr & Fl & Fc & Fd);
    change (gw_router (w_gw w3) = gw_router (w_gw w1)) in Fr; change (gw_rateLimiter (w_gw w3) = gw_rateLimiter (w_gw w1)) in Fl;
    change (gw_circuitBreaker (w_gw w3) = cb1) in Fc; change (history w3 = history w1) in Fd.
  2:{ rewrite (bind_Panic _ _ _ _ _ Efn). simpl. split_and!; [|by rewrite Fr|done]. apply (gateway_ok_breaker n k w w3 cb1); try done; [lia|].
      unfold core. by rewrite Fr, Fl, Fc, Fd, Cr, Cl, Cd. }
  rewrite (bind_Ret _ _ _ _ _ Efn). pose proof (cb_step_ok cb now) as Hst. unfold cb_step in Hst. rewrite Ea in Hst.
  assert (forall later r, cb_maxFailures (cb_step cb now later r).1 = cb_maxFailures cb) as Hcfg
    by (intros; apply cb_step_config).
  unfold cb_step in Hcfg. rewrite Ea in Hcfg.
  rewrite (bind_Ret _ _ _ _ _ (eq_refl : gets (fun w => gw_circuitBreaker (w_gw w)) w3 = (Ret (gw_circuitBreaker (w_gw w3)), w3))), Fc.
  destruct r as [e|].
  - set (later := w_now w3 + Z.of_N (env_delay (w_ticks w3))).
    specialize (Hst later (Some e) Hmax Hok). specialize (Hcfg later (Some e)). simpl in Hst, Hcfg.
    unfold mbind, M_bind, Now, modify. cbn [fst snd]. fold later.
    destruct (cb_fail cb1 later) as [cb2 tripped] eqn:Ef. simpl in Hst, Hcfg. rewrite ?Ef in Hst, Hcfg. simpl in Hst, Hcfg.
    assert (cb_maxFailures cb2 <= int64_max) as Hmax2 by (rewrite Hcfg; done).
    destruct tripped; simpl; (split_and!; [|by rewrite Fr|done]);
      (apply (gateway_ok_breaker n k w _ cb2); try done;
       change ((gw_router (w_gw w3), gw_rateLimiter (w_gw w3), cb2, history w3) =
               (gw_router (w_gw w), gw_rateLimiter (w_gw w), cb2, history w)); by rewrite Fr, Fl, Fd, Cr, Cl, Cd).
  - specialize (Hst 0 None Hmax Hok). specialize (Hcfg 0 None). simpl in Hst, Hcfg.
    unfold mbind, M_bind, modify. simpl. split_and!; [|by rewrite Fr|done].
    apply (gateway_ok_breaker n k w _ (cb_succeed cb1)); try done; [by rewrite <- Hmax1 in Hmax|].
    change ((gw_router (w_gw w3), gw_rateLimiter (w_gw w3), cb_succeed cb1, history w3) =
            (gw_router (w_gw w), gw_rateLimiter (w_gw w), cb_succeed cb1, history w)). by rewrite Fr, Fl, Fd, Cr, Cl, Cd.
Qed.

Lemma gateway_ok_RecordFailure n k w now p :
  gateway_ok n k w -> gateway_ok n k (on_gw (with_heap (on_backend (RecordFailure now) p)) w).
Proof.
  intros [[L1 L2 L3 L4 L5 L6] H2 H3 H4 H5 H6 H7]. constructor; simpl; try done.
  - constructor; simpl; try done; [by rewrite length_on_backend|]. by apply on_backend_wf.
  - apply Forall_lookup. intros q b. rewrite on_backend_lookup. case_decide.
    + intros (b0 & Hb & ->)%fmap_Some. by apply (Forall_lookup_1 _ _ _ _ H2 Hb).
    + apply (Forall_lookup_1 _ _ _ _ H2).
  - by rewrite length_on_backend.
Qed.

Lemma lands_attempt n k w p timeout ip :
  gateway_ok n k w -> (p < n)%nat ->
  lands n k (sr_routes (gw_router (w_gw w))) (fun _ => True) (breaker_Call (attempt p timeout ip) w).
Proof.
  intros Hw Hp. destruct (breaker_Call_ok n k (attempt p timeout ip) w) as (Hok & Hr & Ho); [|done|].
  - intros w1 Hr. rewrite <- (go_size _ _ _ Hw) in Hp. apply lookup_lt_is_Some_2 in Hp as [b Hb].
    apply (attempt_core p timeout ip w1 b); [by rewrite Hr|]. by apply (Forall_lookup_1 _ _ _ _ (go_heap _ _ _ Hw) Hb).
  - split_and!; [done|by rewrite Hr|]. by destruct (breaker_Call _ w).1.
Qed.

Lemma core_count_labels l w : same core w (on_metrics (count_labels l) w).
Proof. done. Qed.

#[local] Hint Resolve keeps_count keeps_reject keeps_refuse keeps_completed keeps_cut_off keeps_exhausted
  keeps_serve_cached keeps_reqLog keeps_on_span keeps_Since keeps_WithLabelValues keeps_start_span
  core_count_labels : gw.

Lemma calm_reqLog c level msg kvs : calm (reqLog c level msg kvs).
Proof. by intros w why. Qed.

Lemma calm_on_span c calls : calm (on_span c calls).
Proof. by intros w why. Qed.

Lemma calm_WithLabelValues d values :
  length values = length (de_labels d) -> calm (WithLabelValues d values).
Proof.
  intros Hl. unfold WithLabelValues. rewrite Hl, Nat.eqb_refl. cbn [negb].
  case_if; intros w why; [done|]. intros [= <-]. unfold allowed. auto.
Qed.

Lemma calm_set_response_header k v : calm (set_response_header k v).
Proof. unfold set_response_header. apply calm_on_response, calm_modify. Qed.

#[local] Hint Resolve calm_reqLog calm_on_span calm_WithLabelValues calm_set_response_header : calm.

Lemma calm_Since c : calm (Since c).
Proof. unfold Since. calm_steps. Qed.

Lemma calm_count status : calm (count status).
Proof. unfold count. calm_steps. Qed.

#[local] Hint Resolve calm_Since calm_count : calm.

Lemma calm_reject msg code status : calm (reject msg code status).
Proof. unfold reject. calm_steps. Qed.

#[local] Hint Resolve calm_reject : calm.

Lemma calm_refuse c reason msg code status tag : calm (refuse c reason msg code status tag).
Proof. unfold refuse, tag_error. calm_steps. Qed.

Lemma calm_completed c m backend : calm (completed c m backend).
Proof. unfold completed. calm_steps. Qed.

Lemma calm_cut_off c backend : calm (cut_off c backend).
Proof. unfold cut_off. calm_steps. Qed.

Lemma calm_exhausted c m e : calm (exhausted c m e).
Proof. unfold exhausted, tag_error. calm_steps. Qed.

Lemma calm_serve_cached c : calm (serve_cached c).
Proof. unfold serve_cached. calm_steps. Qed.

Lemma calm_start_span c : calm (start_span c).
Proof. unfold start_span. calm_steps. Qed.

Lemma calm_observe_duration c : calm (observe_duration c).
Proof. unfold observe_duration. calm_steps. Qed.

#[local] Hint Resolve calm_refuse calm_completed calm_cut_off calm_exhausted calm_serve_cached calm_start_span
  calm_observe_duration : calm.

(** ** The handler *)

(** A step that keeps the core, by the automation above. *)
Ltac quiet :=
  apply lands_quiet; [keep_steps; eauto with gw calm|calm_steps|done].

Lemma lands_last n k k' w m :
  k <= k' -> keeps (same core) m -> calm m -> gateway_ok n k w ->
  lands n k' (sr_routes (gw_router (w_gw w))) (fun _ : unit => True) (m w).
Proof. intros Hk Hm Hc Hw. apply (lands_mono n k _ _ (fun _ => True)); [done|done|]. by apply lands_quiet. Qed.

(** The choice of the backend of the next attempt. *)
Lemma lands_choose_next n e m ip i p w k :
  Z.of_nat n <= 2 ^ 30 -> k + 1 <= 2 ^ 62 -> gateway_ok n k w ->
  In e (sr_routes (gw_router (w_gw w))) -> m_Pool m = e_Pool e -> (p < n)%nat ->
  lands n (k + 1) (sr_routes (gw_router (w_gw w))) (fun q => q < n)%nat (choose_next m ip i p w).
Proof.
  intros Hn Hk Hw He Hm Hp. unfold choose_next. destruct (i <? maxRetries - 1)%nat.
  2:{ split_and!; [|done|done]. eapply gateway_ok_mono; [|exact Hw]. lia. }
  eapply (lands_bind n k); [lia|apply lands_quiet; [keep_steps|by intros ??|done]|].
  intros _ w5 _ Hw5 Hr5. rewrite Hm.
  eapply (lands_bind n (k + 1)); [lia|rewrite <- Hr5; apply lands_NextPeer_of; [done|lia|done|by rewrite Hr5]|].
  intros peer w6 Hpeer Hw6 Hr6. split_and!; [done|done|]. simpl. destruct peer; auto.
Qed.

Lemma lands_retry n e m c timeout left i p err w k :
  Z.of_nat n <= 2 ^ 30 -> k + Z.of_nat left <= 2 ^ 62 -> gateway_ok n k w ->
  In e (sr_routes (gw_router (w_gw w))) -> m_Pool m = e_Pool e -> (p < n)%nat ->
  lands n (k + Z.of_nat left) (sr_routes (gw_router (w_gw w))) (fun _ => True)
    (retry m c timeout left i p err w).
Proof.
  intros Hn. revert i p err w k. induction left as [|left IH]; intros i p err w k Hk Hw He Hm Hp; cbn [retry].
  - rewrite Z.add_0_r. quiet.
  - eapply (lands_bind n k); [lia|by apply lands_attempt|]. intros res w1 _ Hw1 Hr1. destruct res as [e1|].
    2:{ rewrite <- Hr1. apply (lands_last n k); [lia|eauto with gw|eauto with calm|done]. }
    eapply (lands_bind n k); [lia|rewrite <- Hr1; quiet|]. intros now w2 _ Hw2 Hr2.
    eapply (lands_bind n k _ _ (fun _ => True)); [lia| |].
    { split_and!; [by apply gateway_ok_RecordFailure|done|done]. }
    intros _ w3 _ Hw3 Hr3.
    eapply (lands_bind n k); [lia|rewrite <- Hr3; quiet|]. intros _ w4 _ Hw4 Hr4.
    eapply (lands_bind n k); [lia|rewrite <- Hr4; quiet|]. intros committed w5 _ Hw5 Hr5. destruct committed.
    { rewrite <- Hr5. apply (lands_last n k); [lia|eauto with gw|eauto with calm|done]. }
    eapply (lands_bind n (k + 1) _ _ (fun q => q < n)%nat); [lia|rewrite <- Hr5|].
    + apply (lands_choose_next n e); [done|lia|done|by rewrite Hr5|done|done].
    + intros q w6 Hq Hw6 Hr6. replace (k + Z.of_nat (S left)) with (k + 1 + Z.of_nat left) by lia.
      rewrite <- Hr6. apply IH; [lia|done|by rewrite Hr6|done|done].
Qed.

Lemma lands_proxy_request n e m c w k :
  Z.of_nat n <= 2 ^ 30 -> k + 4 <= 2 ^ 62 -> gateway_ok n k w ->
  In e (sr_routes (gw_router (w_gw w))) -> m_Pool m = e_Pool e ->
  lands n (k + 4) (sr_routes (gw_router (w_gw w))) (fun _ => True) (proxy_request m c w).
Proof.
  intros Hn Hk Hw He Hm. unfold proxy_request, tag_error. rewrite Hm.
  eapply (lands_bind n (k + 1)); [lia|apply lands_NextPeer_of; [done|lia|done|done]|].
  intros peer w1 Hp Hw1 Hr1. destruct peer as [p|]; last first.
  { rewrite <- Hr1. apply (lands_last n (k + 1)); [lia|keep_steps; eauto with gw|calm_steps|done]. }
  rewrite <- Hr1 in He |- *.
  do 6 (eapply (lands_bind n (k + 1)); [lia|quiet|];
    let v := fresh "v" in let Hv := fresh "Hv" in let Hr := fresh "Hr" in
    intros ? v _ Hv Hr; rewrite <- Hr in He |- *).
  replace (k + 4) with (k + 1 + Z.of_nat maxRetries) by (unfold maxRetries; lia).
  apply (lands_retry n e); [done|unfold maxRetries; lia|done|done|done|by apply Hp].
Qed.

Lemma lands_serve_matched n e m c w k :
  Z.of_nat n <= 2 ^ 30 -> k + 4 <= 2 ^ 62 -> gateway_ok n k w ->
  In e (sr_routes (gw_router (w_gw w))) -> m_Pool m = e_Pool e ->
  lands n (k + 4) (sr_routes (gw_router (w_gw w))) (fun _ => True) (serve_matched m c w).
Proof.
  intros Hn Hk Hw He Hm. unfold serve_matched, tag_error.
  eapply (lands_bind n k); [lia|quiet|]. intros now w1 _ Hw1 Hr1.
  eapply (lands_bind n k); [lia|rewrite <- Hr1; quiet|]. intros r w2 _ Hw2 Hr2.
  eapply (lands_bind n k); [lia|rewrite <- Hr2; quiet|]. intros cfg w3 _ Hw3 Hr3.
  destruct (authorized m r cfg now); simpl; rewrite <- Hr3.
  2:{ apply (lands_last n k); [lia|keep_steps; eauto with gw|calm_steps|done]. }
  eapply (lands_bind n k); [lia|quiet|]. intros _ w4 _ Hw4 Hr4. rewrite <- Hr4.
  eapply (lands_bind n k); [lia|quiet|]. intros hit w5 _ Hw5 Hr5.
  rewrite <- Hr5. destruct hit.
  - apply (lands_last n k); [lia|keep_steps|calm_steps|done].
  - apply (lands_proxy_request n e); [done|done|done|by rewrite Hr5, Hr4, Hr3|done].
Qed.

(** ** Admission *)

Lemma lands_limiter n k ip w :
  gateway_ok n k w -> lands n k (sr_routes (gw_router (w_gw w))) (fun _ => True) (limiter_allow ip w).
Proof.
  intros [H1 H2 H3 H4 (r & b & H5) H6 H7]. unfold limiter_allow, Now, gets, mbind, M_bind, modify. simpl.
  destruct (rate_allow_spec r b _ ip (w_now w + Z.of_N (env_delay (w_ticks w))) H5) as (l' & -> & Hl & _).
  split_and!; [|done|done]. constructor; simpl; try done. by exists r, b.
Qed.

Lemma Route_entry (sr : ServiceRouter) host path m :
  Route sr host path = Some m -> exists e, In e (sr_routes sr) /\ m_Pool m = e_Pool e.
Proof.
  unfold Route. rewrite route_loop_find. intros (e & He & ->)%fmap_Some.
  apply find_some in He as [He _]. by exists e.
Qed.

Lemma lands_serve_body n c w k :
  Z.of_nat n <= 2 ^ 30 -> k + 4 <= 2 ^ 62 -> gateway_ok n k w ->
  lands n (k + 4) (sr_routes (gw_router (w_gw w))) (fun _ => True) (serve_body c w).
Proof.
  intros Hn Hk Hw. unfold serve_body.
  assert (forall w1, gateway_ok n k w1 -> forall reason msg code st tag,
    lands n (k + 4) (sr_routes (gw_router (w_gw w1))) (fun _ => True) (refuse c reason msg code st tag w1)) as Hrefuse.
  { intros w1 Hw1 **. apply (lands_last n k); [lia|eauto with gw|eauto with calm|done]. }
  eapply (lands_bind n k); [lia|unfold ddos_blocked; quiet|]. intros blocked w1 _ Hw1 Hr1.
  rewrite <- Hr1. destruct blocked; [by apply Hrefuse|].
  eapply (lands_bind n k); [lia|unfold ddos_record; quiet|]. intros hit w2 _ Hw2 Hr2.
  rewrite <- Hr2. destruct hit; [by apply Hrefuse|].
  eapply (lands_bind n k); [lia|by apply lands_limiter|]. intros ok w3 _ Hw3 Hr3.
  rewrite <- Hr3. destruct ok; [|by apply Hrefuse]. cbn [negb].
  rewrite !(bind_Ret (gets _) _ w3 _ w3 eq_refl). destruct (Route _ _ _) as [m|] eqn:Em.
  - apply Route_entry in Em as (e & He & Hm). by apply (lands_serve_matched n e).
  - apply (lands_last n k); [lia|keep_steps; eauto with gw|calm_steps|done].
Qed.

(** ** One request *)

Lemma record_dash_ok n k w :
  k + 1 <= 2 ^ 62 -> gateway_ok n k w ->
  (record_dash w).1 = Ret tt /\ gateway_ok n (k + 1) (record_dash w).2 /\
  gw_router (w_gw (record_dash w).2) = gw_router (w_gw w).
Proof.
  intros Hk Hw. apply (gateway_ok_mono n k (k + 1)) in Hw as Hw1; [|lia].
  destruct Hw as [_ _ _ _ _ _ (H7 & H8 & H9)], Hw1 as [H1 H2 H3 H4 H5 H6 _].
  unfold record_dash, stats_RecordRequest, go_rem, history in *. simpl in H7. rewrite Z.rem_mod_nonneg by lia.
  pose proof (Z.mod_pos_bound (ds_histIdx (mt_dashStats (w_metrics w))) 48 ltac:(lia)).
  destruct (_ <? 0) eqn:E; bool_prop; [lia|]. simpl. split_and!; [done| |done].
  constructor; simpl; try done. unfold history. simpl. rewrite wrap64_id by (unfold is_int64, int64_min, int64_max; lia).
  split_and!; [lia|lia|by rewrite length_alter|]. apply Forall_lookup. intros i v Hv. simpl in H9.
  rewrite list_lookup_alter in Hv. case_decide; [apply fmap_Some in Hv as (v0 & Hv & ->)|];
    apply (Forall_lookup_1 _ _ _ _ H9) in Hv; simpl in Hv; [|lia].
  rewrite wrap64_id by (unfold is_int64, int64_min, int64_max; lia). lia.
Qed.

Lemma ServeHTTP_ok n k w :
  Z.of_nat n <= 2 ^ 30 -> k + 5 <= 2 ^ 62 -> gateway_ok n k w ->
  lands n (k + 5) (sr_routes (gw_router (w_gw w))) (fun _ => True) (ServeHTTP w).
Proof.
  intros Hn Hk Hw. destruct (ServeHTTP_run w) as [f ->]. set (c := locals _ _). clearbody c.
  set (w0 := (Now w).2).
  assert (gateway_ok n k w0) as Hw0 by (by eapply gateway_ok_core; [|exact Hw]).
  destruct (record_dash_ok n k w0) as (E & Hw1 & Hr1); [lia|done|].
  destruct (record_dash w0) as [o w1]. simpl in E, Hw1, Hr1. subst o.
  set (w2 := on_trace f w1).
  assert (gateway_ok n (k + 1) w2) as Hw2 by (by eapply gateway_ok_core; [|exact Hw1]).
  destruct (lands_serve_body n c w2 (k + 1)) as (Ho & Hro & Hp); [done|lia|done|].
  unfold deferring, deferring_call. destruct (serve_body c w2) as [o w3]. simpl in Ho, Hro, Hp.
  assert (keeps (same core) (observe_duration c)) as Hobs by (unfold observe_duration; keep_steps).
  specialize (Hobs w3). pose proof (calm_observe_duration c w3) as Hcalm.
  assert (forall w', core w' = core w3 ->
    gateway_ok n (k + 5) (finish_span c w') /\
    sr_routes (gw_router (w_gw (finish_span c w'))) = sr_routes (gw_router (w_gw w))) as Hend.
  { intros w' Hc. replace (k + 5) with (k + 1 + 4) by lia. apply core_inv in Hc as Hi. destruct Hi as (Er & _).
    unfold finish_span. split; [|by destruct (lc_span c); cbn; rewrite Er, Hro; simpl; rewrite Hr1].
    eapply gateway_ok_core; [|exact Ho]. by destruct (lc_span c). }
  destruct (observe_duration c w3) as [[u|why] w4]; unfold same in Hobs; simpl in Hobs, Hcalm;
    destruct (Hend w4 Hobs); split_and!; simpl; auto.
Qed.
End Life.
