(* ===== verification/Process.v ===== *)
(** * The running process (main.go)

    What happens to a gateway after its construction: requests go through the
    middleware and the multiplexer to a handler, whose panic the server
    recovers; the health-check scheduler of [main] probes the upstreams and
    publishes their state; the background goroutines of the DDoS protection and
    the rate limiter clean their tables. Any sequence of these keeps
    [gateway_ok]. *)

From Stdlib Require Import ZArith Lia Ascii String List.
From stdpp Require Import base list strings gmap.
From S2P Require Import Prelude Logic GoStrings Hosts StableSort Urls Pool Router Breaker DDoS Http Recorder.
From S2P Require Import Auth RateLimiter Proxy Config Dashboard Cache Json Monitor Logger Tracing Gateway GatewayDemo GatewayLaws.
From S2P Require Import Fmt Terminal Binary64 Bars Handlers FrontDoor Screen Lifecycle.

(** ** The health-check scheduler *)

(** [backendHealthStatus.WithLabelValues(b.URL.String()).Set(healthValue)]. *)
Definition set_health (gauge : gmap string Z) (b : Backend) : gmap string Z :=
  <[url_String (b_URL b) := if IsAlive b then 1 else 0]> gauge.

(** The gauge [backendHealthStatus] after the loop over the routes. *)
Definition publish_health (sr : ServiceRouter) (gauge : gmap string Z) : gmap string Z :=
  fold_left (fun g entry => fold_left set_health (entry_backends sr entry) g) (Routes sr) gauge.

(** One tick of the scheduler. *)
Definition health_tick (net : network) (sr : ServiceRouter) (gauge : gmap string Z)
    : ServiceRouter * gmap string Z :=
  let sr' := HealthCheckAll net sr in (sr', publish_health sr' gauge).

(** Every backend the loop visits, in its order. *)
Definition published (sr : ServiceRouter) : list Backend :=
  concat (map (entry_backends sr) (Routes sr)).

Lemma publish_health_fold sr gauge : publish_health sr gauge = fold_left set_health (published sr) gauge.
Proof.
  unfold publish_health, published. generalize (Routes sr) as l. intros l. revert gauge.
  induction l as [|e l IH]; intros gauge; simpl; [done|]. by rewrite IH, fold_left_app.
Qed.

(** A label has the value of the last backend set under it. *)
Lemma set_health_lookup l gauge u :
  fold_left set_health l gauge !! u =
  match find (fun b => String.eqb (url_String (b_URL b)) u) (rev l) with
  | Some b => Some (if IsAlive b then 1 else 0)
  | None => gauge !! u
  end.
Proof.
  induction l as [|b l IH] using rev_ind; [done|].
  rewrite fold_left_app, rev_app_distr. simpl. unfold set_health at 1.
  destruct (String.eqb _ u) eqn:E; bool_prop.
  - subst u. by rewrite lookup_insert_eq.
  - by rewrite lookup_insert_ne.
Qed.

(** Every backend is in the pool of a route. *)
Lemma wf_owner sr p :
  router_wf sr -> is_Some (sr_heap sr !! p) ->
  exists e s, In e (sr_routes sr) /\ sr_pools sr !! e_Pool e = Some s /\ p ∈ sp_backends s.
Proof.
  intros [H1 _ H3 _ _ _] Hp%lookup_lt_is_Some_1.
  assert (In p (concat (map sp_backends (sr_pools sr)))) as Hc by (rewrite H1; apply in_seq; lia).
  apply in_concat in Hc as (l & (s & <- & Hs)%in_map_iff & Hps).
  apply list_elem_of_In, list_elem_of_lookup in Hs as [i Hi].
  assert (In i (map e_Pool (sr_routes sr))) as (e & He & Hin)%in_map_iff.
  { rewrite H3. apply in_seq. apply lookup_lt_Some in Hi. lia. }
  exists e, s. rewrite He. split_and!; [done|done|by apply list_elem_of_In].
Qed.

(** Whether the pool of an entry has this backend. *)
Definition owns (sr : ServiceRouter) (p : ptr) (e : RouteEntry) : bool :=
  match sr_pools sr !! e_Pool e with Some s => bool_decide (p ∈ Backends s) | None => false end.

(** A round checks the backends of its entries, some more than once, with the
    effect of once. *)
Lemma health_fold_lookup net sr l h p :
  fold_left (fun h entry => match sr_pools sr !! e_Pool entry with
                            | Some pool => HealthCheck net pool h | None => h end) l h !! p =
  if existsb (owns sr p) l then check_backend net <$> h !! p else h !! p.
Proof.
  revert h. induction l as [|e l IH]; intros h; simpl; [done|]. rewrite IH. unfold owns at 2.
  destruct (sr_pools sr !! e_Pool e) as [s|]; [|done]. rewrite HealthCheck_lookup.
  case_decide as Hs; [rewrite bool_decide_true by done|rewrite bool_decide_false by done]; simpl; [|done].
  destruct (existsb _ l); [|done]. destruct (h !! p); simpl; [|done]. by rewrite check_backend_idem.
Qed.

Lemma HealthCheckAll_lookup net sr p :
  router_wf sr -> sr_heap (HealthCheckAll net sr) !! p = check_backend net <$> sr_heap sr !! p.
Proof.
  intros Hwf. unfold HealthCheckAll. simpl. rewrite health_fold_lookup.
  destruct (sr_heap sr !! p) eqn:E; [|by case_if].
  destruct (wf_owner sr p Hwf) as (e & s & He & Hs & Hp); [by rewrite E|].
  assert (existsb (owns sr p) (sr_routes sr) = true) as ->; [|done].
  apply existsb_exists. exists e. unfold owns. rewrite Hs. split; [done|by apply bool_decide_true].
Qed.

Lemma entry_backends_In sr e b : In b (entry_backends sr e) -> exists p, sr_heap sr !! p = Some b.
Proof.
  unfold entry_backends. destruct (sr_pools sr !! _) as [s|]; [|done].
  intros (p & _ & Hb)%list_elem_of_In%list_elem_of_omap. eauto.
Qed.

(** Of the last element that satisfies the test. *)
Lemma find_rev_last {A} (f : A -> bool) l x :
  find f (rev l) = Some x <-> exists l1 l2, l = l1 ++ x :: l2 /\ f x = true /\ forall y, In y l2 -> f y = false.
Proof.
  split.
  - induction l as [|y l IH] using rev_ind; [done|]. rewrite rev_app_distr. simpl. destruct (f y) eqn:Ey.
    + intros [= ->]. exists l, []. by rewrite Ey.
    + intros (l1 & l2 & -> & Hx & Hl)%IH. exists l1, (l2 ++ [y]). rewrite <- app_assoc. split_and!; try done.
      intros z [Hz|[->|[]]]%in_app_iff; auto.
  - intros (l1 & l2 & -> & Hx & Hl). rewrite rev_app_distr. simpl. rewrite <- app_assoc. simpl.
    assert (find f (rev l2) = None) as Hn.
    { destruct (find f (rev l2)) eqn:E; [|done]. apply find_some in E as [Hi Hf]. apply in_rev in Hi. by rewrite Hl in Hf. }
    revert Hn. induction (rev l2) as [|z r IH]; simpl; [by rewrite Hx|]. by destruct (f z).
Qed.

(** C27: a tick of the scheduler brings every backend up to date: each one a
    route can pick is alive exactly if it answered its probe, and the label of
    its URL shows the probe of the last backend published under that URL, which
    is another one if routes share an upstream. *)
Theorem health_tick_publishes (net : network) (sr : ServiceRouter) (gauge : gmap string Z) :
  router_wf sr ->
  let sr' := (health_tick net sr gauge).1 in
  let gauge' := (health_tick net sr gauge).2 in
  (forall b, In b (published sr') -> IsAlive b = probe net b) /\
  (forall l1 b l2, published sr' = l1 ++ b :: l2 ->
     (forall b', In b' l2 -> url_String (b_URL b') <> url_String (b_URL b)) ->
     gauge' !! url_String (b_URL b) = Some (if probe net b then 1 else 0)) /\
  (forall u, (forall b, In b (published sr') -> url_String (b_URL b) <> u) -> gauge' !! u = gauge !! u).
Proof.
  intros Hwf. simpl.
  assert (forall b, In b (published (HealthCheckAll net sr)) -> IsAlive b = probe net b) as Hp.
  { intros b (l & (e & <- & _)%in_map_iff & (p & Hb)%entry_backends_In)%in_concat.
    rewrite HealthCheckAll_lookup in Hb by done. apply fmap_Some in Hb as (b0 & _ & ->).
    rewrite probe_stable. unfold check_backend. by destruct (probe net b0). }
  rewrite publish_health_fold. split_and!; [exact Hp| |].
  - intros l1 b l2 E Hl. rewrite set_health_lookup.
    assert (find (fun b' => String.eqb (url_String (b_URL b')) (url_String (b_URL b)))
              (rev (published (HealthCheckAll net sr))) = Some b) as ->.
    { apply find_rev_last. exists l1, l2. split_and!; [done|apply String.eqb_refl|].
      intros y Hy. by apply String.eqb_neq, Hl. }
    rewrite Hp; [done|]. rewrite E. apply in_app_iff. right. by left.
  - intros u Hu. rewrite set_health_lookup. destruct (find _ _) as [b|] eqn:E; [|done].
    apply find_some in E as [Hb Hf]. bool_prop. apply in_rev in Hb. by apply Hu in Hb.
Qed.

(** Two routes to one upstream, of which only the longer has a health path; the
    upstream accepts connections and answers 503. *)
Definition shared_routes : list ServiceRoute :=
  [ mkServiceRoute "" "/shop/cart" "http://10.0.0.1:80" [] true false 1 [] 30 "/healthz" false "cart";
    mkServiceRoute "" "/shop" "http://10.0.0.1:80" [] true false 1 [] 30 "" false "shop" ].

Definition shared_router : ServiceRouter :=
  @register_all ascii_tables shared_routes "round-robin" NewServiceRouter.

(** Its label says 1, and the backend of the cart is down. *)
Lemma health_tick_publishes_witness :
  let net := mkNetwork (fun _ => true) (fun _ => Some 503) in
  let '(sr', gauge') := health_tick net shared_router ∅ in
  map IsAlive (published sr') = [false; true] /\ gauge' !! "http://10.0.0.1:80" = Some 1 /\
  gauge' !! "http://10.0.0.9:80" = None.
Proof.
  intros net. pose proof (health_tick_publishes net shared_router ∅) as [Hp [Hl Hn]].
  { unfold shared_router, register_all, shared_routes. cbn [fold_left].
    apply AddRoute_wf, AddRoute_wf, NewServiceRouter_wf. }
  unfold health_tick in *. cbn [fst snd] in Hp, Hl, Hn. set (l := published (HealthCheckAll net shared_router)) in *.
  assert (map (fun b => (IsAlive b, url_String (b_URL b), probe net b)) l =
          [(false, "http://10.0.0.1:80", false); (true, "http://10.0.0.1:80", true)]) as E by (vm_compute; reflexivity).
  clearbody l. destruct l as [|b1 [|b2 [|b3 l]]]; try discriminate E. simpl in E. injection E as A1 U1 P1 A2 U2 P2.
  split_and!; [simpl; by rewrite A1, A2| |].
  - rewrite <- U2. rewrite (Hl [b1] b2 []); [by rewrite P2|done|done].
  - rewrite Hn; [done|]. intros b [<-|[<-|[]]]; by rewrite ?U1, ?U2.
Defined.

(** ** Events *)

Section Process.
Context `{UT : UnicodeTables, JL : JwtLib, RL : RateLib, RD : RedisLib, EV : Env, JS : JsonLib, SL : SortLib, IC : IntConv}.
Context (os_readings : Z -> Readings) (dashboard_page : string)
  (rand_Read : option (list Z)) (metricsHandler : M World unit).

(** The process: the world its handlers run in and the gauge of the scheduler. *)
Record Running := mkRunning { pr_world : World; pr_health : gmap string Z }.

(** A request with the response writer of its connection; a tick of the
    scheduler, and of the two goroutines that clean up. *)
Inductive event : Type :=
| EvRequest (r : Request) (s : response)
| EvHealth (net : network)
| EvDDoSCleanup
| EvLimiterEvict.

(** A fresh request on the process's world. *)
Definition arrive (r : Request) (s : response) (w : World) : World :=
  set_rec (newResponseRecorder s) (on_req (fun _ => r) w).

(** The server recovers the panic of a handler, so only the state counts. *)
Definition happen (p : Running) (ev : event) : Running :=
  let w := pr_world p in
  match ev with
  | EvRequest r s =>
      mkRunning (handler os_readings dashboard_page rand_Read metricsHandler (arrive r s w)).2 (pr_health p)
  | EvHealth net =>
      let '(sr', gauge') := health_tick net (gw_router (w_gw w)) (pr_health p) in
      mkRunning (on_gw (with_router sr') w) gauge'
  | EvDDoSCleanup =>
      let w1 := (Now w).2 in
      mkRunning (on_gw (fun g => with_ddos (cleanup (w_now w1) (gw_ddosProtection g)) g) w1) (pr_health p)
  | EvLimiterEvict =>
      let w1 := (Now w).2 in
      mkRunning (on_gw (fun g => with_limiter (evict (w_now w1) (gw_rateLimiter g)) g) w1) (pr_health p)
  end.

Definition live (evs : list event) (p : Running) : Running := fold_left happen evs p.

(** ** Each event keeps the invariant *)

#[local] Existing Instance same_pre.
#[local] Hint Resolve keeps_Now keeps_on_rec keeps_on_response keeps_set_response_header : gw.
#[local] Hint Extern 1 (Frame _) => typeclasses eauto : gw.
#[local] Hint Extern 1 (same _ _ _) => done : gw.
#[local] Existing Instance core_frame.

(** The metrics endpoint reads the collectors. *)
Hypothesis metrics_reads : keeps (same core) metricsHandler.

Lemma core_monitor : keeps (same core) (systemMonitorHandler os_readings dashboard_page).
Proof.
  unfold systemMonitorHandler, encode_json. keep_steps.
  intros w. unfold on_system. by destruct (getSystemMetrics _ _ _).
Qed.

Lemma core_list_handler add word : keeps (same core) (list_handler add word).
Proof. unfold list_handler, write_json, encode_json. keep_steps. Qed.

#[local] Hint Resolve core_monitor core_list_handler metrics_reads : gw.

Lemma gateway_ok_request n k r s w :
  Z.of_nat n <= 2 ^ 30 -> k + 5 <= 2 ^ 62 -> gateway_ok n k w ->
  gateway_ok n (k + 5) (handler os_readings dashboard_page rand_Read metricsHandler (arrive r s w)).2.
Proof.
  intros Hn Hk Hw.
  destruct (handler_passes os_readings dashboard_page rand_Read metricsHandler (arrive r s w)) as (w1 & -> & Hp).
  assert (gateway_ok n k w1) as Hw1.
  { eapply gateway_ok_core; [|exact Hw]. destruct Hp as (Hg & Hm & _). unfold core, history. by rewrite Hg, Hm. }
  unfold mux, gets, mbind, M_bind. simpl. destruct (asterisk (w_req w1)), (mux_dispatch (w_req w1)) as [[]|url].
  17: by apply ServeHTTP_ok.
  all: eapply gateway_ok_core; [|eapply gateway_ok_mono; [|exact Hw1]; lia].
  all: lazymatch goal with |- core (?m _).2 = _ => assert (keeps (same core) m) as Hm end.
  all: try by apply Hm.
  all: unfold bad_asterisk, redirect, whitelistHandler, blacklistHandler, healthHandler, statsHandler, loginHandler, write_json, encode_json.
  all: keep_steps.
Qed.

Lemma check_backend_sound net b : backend_sound b -> backend_sound (check_backend net b).
Proof. unfold check_backend. by case_if. Qed.

Lemma gateway_ok_health n k net w :
  gateway_ok n k w -> gateway_ok n k (on_gw (with_router (HealthCheckAll net (gw_router (w_gw w)))) w).
Proof.
  intros [H1 H2 H3 H4 H5 H6 H7].
  assert (sr_heap (HealthCheckAll net (gw_router (w_gw w))) = map (check_backend net) (sr_heap (gw_router (w_gw w)))) as E.
  { apply list_eq. intros p. rewrite HealthCheckAll_lookup by done. by rewrite list_lookup_fmap. }
  constructor; cbn [w_gw on_gw with_router gw_router]; try done.
  - by apply HealthCheckAll_wf.
  - rewrite E. apply Forall_map. eapply Forall_impl; [exact H2|]. intros b. apply check_backend_sound.
  - by rewrite E, length_map.
Qed.

Lemma gateway_ok_happen n k p ev :
  Z.of_nat n <= 2 ^ 30 -> k + 5 <= 2 ^ 62 -> gateway_ok n k (pr_world p) ->
  gateway_ok n (k + 5) (pr_world (happen p ev)).
Proof.
  intros Hn Hk Hw. destruct ev as [r s|net| |]; simpl.
  - by apply gateway_ok_request.
  - apply (gateway_ok_mono n k); [lia|]. by apply gateway_ok_health.
  - apply (gateway_ok_mono n k); [lia|]. by eapply gateway_ok_core; [|exact Hw].
  - apply (gateway_ok_mono n k); [lia|]. destruct Hw as [H1 H2 H3 H4 (r & b & H5) H6 H7].
    constructor; simpl; try done. exists r, b. by apply evict_wf.
Qed.

Lemma gateway_ok_live n evs p k :
  Z.of_nat n <= 2 ^ 30 -> k + 5 * Z.of_nat (length evs) <= 2 ^ 62 -> gateway_ok n k (pr_world p) ->
  gateway_ok n (k + 5 * Z.of_nat (length evs)) (pr_world (live evs p)).
Proof.
  intros Hn. revert p k. induction evs as [|ev evs IH]; intros p k Hk Hw; cbn [live fold_left length] in *.
  - eapply gateway_ok_mono; [|exact Hw]. lia.
  - replace (k + 5 * Z.of_nat (S (length evs))) with (k + 5 + 5 * Z.of_nat (length evs)) by lia.
    apply IH; [lia|]. apply gateway_ok_happen; [done|lia|done].
Qed.

(** ** Construction *)

(** Weights that a pool of many backends can add up. *)
Definition light (cfg : ServiceRoute) : Prop :=
  r_Weight cfg <= 2 ^ 31 /\ Forall (fun w => w <= 2 ^ 31) (r_Weights cfg).

Lemma target_weight_light cfg i : light cfg -> target_weight cfg i <= 2 ^ 31.
Proof.
  intros [H1 H2]. assert (defaultWeight cfg <= 2 ^ 31) by (unfold defaultWeight; case_if; lia).
  unfold target_weight. destruct (r_Weights cfg !! i) as [w|] eqn:E; [|done].
  apply (Forall_lookup_1 _ _ _ _ H2) in E. case_if; simpl in *; lia.
Qed.

Lemma fresh_backends_sound cfg i raw seen :
  light cfg -> Forall backend_sound (fresh_backends cfg i raw seen).
Proof.
  intros Hl. revert i seen. induction raw as [|r raw IH]; intros i seen; simpl; [constructor|].
  destruct (normalizeUpstream r) as [u|]; [|apply IH]. destruct (str_in _ seen); [apply IH|].
  constructor; [|apply IH]. split; [done|]. split; [apply target_weight_pos|by apply target_weight_light].
Qed.

Lemma register_all_ok cfgs algo sr :
  Forall light cfgs -> router_wf sr -> Forall backend_sound (sr_heap sr) ->
  Forall (fun s => sp_current s = 0) (sr_pools sr) ->
  let sr' := register_all cfgs algo sr in
  router_wf sr' /\ Forall backend_sound (sr_heap sr') /\ Forall (fun s => sp_current s = 0) (sr_pools sr').
Proof.
  intros Hl. revert sr. unfold register_all. induction Hl as [|cfg cfgs Hc Hl IH]; intros sr H1 H2 H3; [done|].
  cbn [fold_left]. apply IH; [by apply AddRoute_wf|..]; rewrite AddRoute_spec; destruct (usable cfg); simpl; try done.
  - apply Forall_app. split; [done|]. by apply fresh_backends_sound.
  - apply Forall_app. split; [done|]. by repeat constructor.
Qed.

(** A gateway as [main] builds it, before its first request. *)
Definition started (NewTracer : Configuration -> option string) (cfg : Config) (rdb : redis) (w : World) : Prop :=
  w_gw w = NewGateway NewTracer cfg rdb /\ mt_dashStats (w_metrics w) = new_stats.

Lemma gateway_ok_started NewTracer cfg rdb w :
  started NewTracer cfg rdb w -> Forall light (c_ServiceRoutes cfg) -> c_CircuitBreakerMax cfg <= int64_max ->
  gateway_ok (length (sr_heap (gw_router (w_gw w)))) 0 w.
Proof.
  intros [Hg Hm] Hl Hb.
  destruct (register_all_ok (c_ServiceRoutes cfg) (c_LoadBalancingAlgo cfg) NewServiceRouter) as (H1 & H2 & H3);
    [done|apply NewServiceRouter_wf|constructor|constructor|].
  constructor; rewrite ?Hg, ?Hm; cbn -[NewIPRateLimiter NewCircuitBreaker]; try done.
  - eapply Forall_impl; [exact H3|]. simpl. lia.
  - eexists _, _. apply NewIPRateLimiter_wf.
  - split; [|done]. unfold cb_ok. simpl. unfold int64_max. lia.
  - unfold history. rewrite Hm. split_and!; [done..|]. apply List.Forall_forall. intros v ->%repeat_spec. lia.
Qed.

(** C8: a gateway does not go wrong. Take any configuration whose weights are
    at most 2^31 and any sequence of up to 2^59 requests, to whatever endpoint,
    of health checks and of clean-up ticks: the invariant of all components
    holds in the end, every pool having its backends idle, and the next request
    for the gateway is answered or panics with the server's own abort, a bad
    upstream status code or a label the metrics client does not accept. It never dereferences a nil pool, backend or limiter,
    never indexes a pool or the history out of range and never divides by a zero
    weight. The dashboard [main] starts on it can be drawn at any time. *)
Theorem gateway_never_goes_wrong (NewTracer : Configuration -> option string) (cfg : Config) (rdb : redis)
    (w0 : World) (gauge : gmap string Z) (evs : list event) :
  let n := length (sr_heap (gw_router (w_gw w0))) in
  started NewTracer cfg rdb w0 -> Forall light (c_ServiceRoutes cfg) -> c_CircuitBreakerMax cfg <= int64_max ->
  Z.of_nat n <= 2 ^ 30 -> Z.of_nat (length evs) <= 2 ^ 59 ->
  let w := pr_world (live evs (mkRunning w0 gauge)) in
  gateway_ok n (5 * Z.of_nat (length evs)) w /\
  (forall r s why, (ServeHTTP (arrive r s w)).1 = Panic why -> allowed why) /\
  (forall started_at rd now, exists screen,
     render (NewLiveDashboard cfg "2.0.0" started_at) (w_gw w) rd (mt_dashStats (w_metrics w)) now = Ret screen).
Proof.
  intros n Hs Hl Hb Hn He w.
  assert (gateway_ok n (0 + 5 * Z.of_nat (length evs)) w) as Hw.
  { apply gateway_ok_live; [done|lia|]. by apply (gateway_ok_started NewTracer cfg rdb). }
  split_and!; [done| |].
  2:{ intros t rd now. apply render_returns; [|by vm_compute; repeat constructor].
      destruct (go_history _ _ _ Hw) as (_ & Hh & Hv). split; [done|]. eapply Forall_impl; [exact Hv|].
      simpl. unfold int64_max. lia. }
  intros r s why Hp.
  destruct (ServeHTTP_ok n (0 + 5 * Z.of_nat (length evs)) (arrive r s w)) as (_ & _ & Ho); [done|lia|by eapply gateway_ok_core; [|exact Hw]|].
  by rewrite Hp in Ho.
Qed.
End Process.

(** ** A concrete process *)

Definition demo_life : list event :=
  [ EvRequest (demo_request "/shop/cart" ∅) (new_response true);
    EvHealth (mkNetwork (fun _ => false) (fun _ => None));
    EvRequest (demo_request "/shop/cart" ∅) (new_response true);
    EvDDoSCleanup; EvLimiterEvict ].

Definition demo_live (xs : list exchange) (w : @World exact_rate demo_redis) : @World exact_rate demo_redis :=
  pr_world (@live ascii_tables demo_jwt exact_rate demo_redis (demo_env xs) demo_json insertion_sort
    demo_host "<html>" (Some (repeat 171 16)) demo_metrics_handler demo_life (mkRunning w ∅)).

(** The second request finds both upstreams down. *)
Lemma gateway_never_goes_wrong_witness :
  let w := demo_live [demo_ok "hi"] (demo_world 5 ∅ (demo_request "/" ∅)) in
  mt_requestsTotal (w_metrics w) = [("GET", "/cart", "200"); ("GET", "/shop/cart", "503")] /\
  gateway_ok 3 25 w /\
  (forall r s why, (demo_serve [demo_ok "hi"] (arrive r s w)).1 = Panic why -> allowed why) /\
  (forall started_at rd now, exists screen,
     @render exact_rate amd64 (NewLiveDashboard (demo_config demo_routes 5) "2.0.0" started_at) (w_gw w) rd
       (mt_dashStats (w_metrics w)) now = Ret screen).
Proof.
  intros w. split; [vm_compute; reflexivity|].
  apply (@gateway_never_goes_wrong ascii_tables demo_jwt exact_rate demo_redis (demo_env [demo_ok "hi"]) demo_json
           insertion_sort amd64 demo_host "<html>" (Some (repeat 171 16)) demo_metrics_handler)
    with (NewTracer := fun _ => None) (cfg := demo_config demo_routes 5) (rdb := ∅) (w0 := demo_world 5 ∅ (demo_request "/" ∅)) (evs := demo_life).
  - unfold demo_metrics_handler. apply keeps_bind; [apply same_pre| |intros ?; apply keeps_ret, same_pre].
    apply keeps_on_response, core_frame.
  - split; reflexivity.
  - repeat constructor; discriminate.
  - discriminate.
  - vm_compute. discriminate.
  - vm_compute. discriminate.
Defined.
