(* ===== verification/Interleaving.v ===== *)
(** * Concurrent requests (main.go, middleware.go)

    Every request runs in a goroutine of its own. Here the part of [ServeHTTP]
    from the choice of a backend on is cut into the steps that other goroutines
    can come between: taking and releasing the breaker's mutex, the atomic
    updates of a backend, the sleep between attempts. A goroutine that reads the
    breaker's state (the health and stats endpoints, the live dashboard) takes
    the same mutex. Which backend [NextPeer] returns is left open, since other
    goroutines may change what it looks at while it looks. *)

From Stdlib Require Import ZArith Lia String List Relations.
From stdpp Require Import base list strings gmap.
From S2P Require Import Prelude GoStrings Urls Pool Breaker Http Recorder RateLimiter Proxy Config Dashboard.
From S2P Require Import Cache Monitor Gateway.

(** ** Goroutines *)

(** Where a goroutine is, with its backend and the number of its attempt. *)
Inductive pc : Type :=
| PcChoose
| PcLock (p : ptr) (n : nat)
| PcHold (p : ptr) (n : nat)
| PcCall (p : ptr) (n : nat) (now : Z)
| PcFailed (p : ptr) (n : nat)
| PcSleep (p : ptr) (n : nat)
| PcRead
| PcDone.

(** Shared state: backends, the breaker, who holds its mutex. *)
Record Sys := mkSys {
  sy_heap : heap;
  sy_breaker : CircuitBreaker;
  sy_owner : option nat;
  sy_threads : list pc
}.

Definition goto (i : nat) (c : pc) (s : Sys) : Sys :=
  mkSys (sy_heap s) (sy_breaker s) (sy_owner s) (<[i := c]> (sy_threads s)).
Definition set_heap (f : heap -> heap) (s : Sys) : Sys :=
  mkSys (f (sy_heap s)) (sy_breaker s) (sy_owner s) (sy_threads s).
Definition set_breaker (cb : CircuitBreaker) (s : Sys) : Sys :=
  mkSys (sy_heap s) cb (sy_owner s) (sy_threads s).
Definition set_owner (o : option nat) (s : Sys) : Sys :=
  mkSys (sy_heap s) (sy_breaker s) o (sy_threads s).

(** What a step does to the breaker, for an observer of its mutex. *)
Inductive cb_event : Type :=
| Silent
| Refused (now : Z)
| Returned (now later : Z) (r : option string)
| Panicked (now : Z).

(** The bookkeeping of [Call] after the function has returned. *)
Definition cb_settle (cb : CircuitBreaker) (later : Z) (r : option string) : CircuitBreaker :=
  match r with Some _ => (cb_fail cb later).1 | None => cb_succeed cb end.

(** One step of goroutine [i]. The function a call runs may fail, succeed or
    panic; after a failure the request ends when its response was committed or
    no attempt is left. *)
Inductive step (i : nat) : cb_event -> Sys -> Sys -> Prop :=
| StPick s p :
    sy_threads s !! i = Some PcChoose -> is_Some (sy_heap s !! p) ->
    step i Silent s (goto i (PcLock p 0) s)
| StNoPeer s :
    sy_threads s !! i = Some PcChoose -> step i Silent s (goto i PcDone s)
| StAcquire s p n :
    sy_threads s !! i = Some (PcLock p n) -> sy_owner s = None ->
    step i Silent s (goto i (PcHold p n) (set_owner (Some i) s))
| StRefuse s p n now :
    sy_threads s !! i = Some (PcHold p n) -> cb_admit (sy_breaker s) now = None ->
    step i (Refused now) s (goto i (PcFailed p n) (set_owner None s))
| StEnter s p n now cb :
    sy_threads s !! i = Some (PcHold p n) -> cb_admit (sy_breaker s) now = Some cb ->
    step i Silent s
      (goto i (PcCall p n now) (set_heap (on_backend IncConnections p) (set_breaker cb s)))
| StReturn s p n now later r :
    sy_threads s !! i = Some (PcCall p n now) ->
    step i (Returned now later r) s
      (goto i (match r with Some _ => PcFailed p n | None => PcDone end)
         (set_owner None (set_heap (on_backend DecConnections p)
            (set_breaker (cb_settle (sy_breaker s) later r) s))))
| StPanic s p n now :
    sy_threads s !! i = Some (PcCall p n now) ->
    step i (Panicked now) s
      (goto i PcDone (set_owner None (set_heap (on_backend DecConnections p) s)))
| StGiveUp s p n now :
    sy_threads s !! i = Some (PcFailed p n) ->
    step i Silent s (goto i PcDone (set_heap (on_backend (RecordFailure now) p) s))
| StRetry s p n now :
    sy_threads s !! i = Some (PcFailed p n) -> (S n < maxRetries)%nat ->
    step i Silent s (goto i (PcSleep p n) (set_heap (on_backend (RecordFailure now) p) s))
| StWake s p n p' :
    sy_threads s !! i = Some (PcSleep p n) -> is_Some (sy_heap s !! p') ->
    step i Silent s (goto i (PcLock p' (S n)) s)
| StRead s :
    sy_threads s !! i = Some PcRead -> sy_owner s = None ->
    step i Silent s (goto i PcDone s).

(** Runs, with what they do to the breaker. *)
Inductive run : Sys -> list cb_event -> Sys -> Prop :=
| run_nil s : run s [] s
| run_snoc s evs s1 i e s2 : run s evs s1 -> step i e s1 s2 -> run s (evs ++ [e]) s2.

(** The start: no connections, the mutex free, no goroutine under way. *)
Record initial (s : Sys) : Prop := {
  init_owner : sy_owner s = None;
  init_threads : Forall (fun c => c = PcChoose \/ c = PcRead) (sy_threads s);
  init_conns : Forall (fun b => b_Connections b = 0) (sy_heap s)
}.

(** ** Invariants *)

Definition holds (c : pc) : bool :=
  match c with PcHold _ _ | PcCall _ _ _ => true | _ => false end.

(** Whether a goroutine is inside a call on [p]. *)
Definition calling (p : ptr) (c : pc) : bool :=
  match c with PcCall q _ _ => bool_decide (q = p) | _ => false end.

Definition calls_on (p : ptr) (ts : list pc) : nat := length (List.filter (calling p) ts).

Definition pc_ok (h : heap) (c : pc) : Prop :=
  match c with
  | PcLock p n | PcHold p n | PcCall p n _ | PcFailed p n => is_Some (h !! p) /\ (n < maxRetries)%nat
  | PcSleep p n => is_Some (h !! p) /\ (S n < maxRetries)%nat
  | _ => True
  end.

Record inv (s : Sys) : Prop := {
  inv_owner i : sy_owner s = Some i <-> exists c, sy_threads s !! i = Some c /\ holds c = true;
  inv_conns p b : sy_heap s !! p = Some b -> b_Connections b = Z.of_nat (calls_on p (sy_threads s));
  inv_ok i c : sy_threads s !! i = Some c -> pc_ok (sy_heap s) c
}.

Lemma calls_on_insert p ts i c c' :
  ts !! i = Some c ->
  (calls_on p (<[i := c']> ts) + Nat.b2n (calling p c) = calls_on p ts + Nat.b2n (calling p c'))%nat.
Proof.
  unfold calls_on. revert i. induction ts as [|d ts IH]; intros [|i] Hi; try done.
  - injection Hi as ->. simpl. destruct (calling p c), (calling p c'); simpl; lia.
  - specialize (IH i Hi). change (<[S i := c']> (d :: ts)) with (d :: <[i := c']> ts). cbn [List.filter]. destruct (calling p d); cbn [length]; lia.
Qed.

Lemma filter_unique {A} (f : A -> bool) l :
  (forall i j x y, l !! i = Some x -> l !! j = Some y -> f x = true -> f y = true -> i = j) ->
  (length (List.filter f l) <= 1)%nat.
Proof.
  induction l as [|x l IH]; intros Hu; [simpl; lia|]. cbn [List.filter]. destruct (f x) eqn:Ex.
  - assert (List.filter f l = []) as ->; [|simpl; lia]. destruct (List.filter f l) as [|y r] eqn:Ef; [done|].
    assert (In y (List.filter f l)) as [Hy Hfy]%filter_In by (rewrite Ef; by left).
    apply list_elem_of_In, list_elem_of_lookup in Hy as [j Hj]. by specialize (Hu 0%nat (S j) x y eq_refl Hj Ex Hfy).
  - apply IH. intros i j y z Hi Hj Hy Hz. assert (S i = S j); [by eapply Hu|lia].
Qed.

Lemma calling_holds p c : calling p c = true -> holds c = true.
Proof. by destruct c. Qed.

Lemma inv_holder s i j c d :
  inv s -> sy_threads s !! i = Some c -> sy_threads s !! j = Some d -> holds c = true -> holds d = true -> i = j.
Proof.
  intros Hi Hc Hd Hhc Hhd. assert (sy_owner s = Some i) as E1 by (apply inv_owner; eauto).
  assert (sy_owner s = Some j) as E2 by (apply inv_owner; eauto). congruence.
Qed.

(** No more than one goroutine is in a call. *)
Lemma calls_on_le s p : inv s -> (calls_on p (sy_threads s) <= 1)%nat.
Proof. intros Hi. apply filter_unique. intros i j x y ?? ??. eapply inv_holder; eauto using calling_holds. Qed.

(** How one goroutine's move keeps the invariant: the mutex follows it, and the
    counts follow its calls. *)
Lemma inv_move s i c c' h' cb' o' :
  inv s -> sy_threads s !! i = Some c ->
  o' = (if holds c' then Some i else if holds c then None else sy_owner s) ->
  (holds c' = true -> holds c = true \/ sy_owner s = None) ->
  (forall p, is_Some (sy_heap s !! p) -> is_Some (h' !! p)) ->
  (forall p b', h' !! p = Some b' -> exists b, sy_heap s !! p = Some b /\
     b_Connections b' + Z.b2z (calling p c) = b_Connections b + Z.b2z (calling p c')) ->
  pc_ok h' c' ->
  inv (mkSys h' cb' o' (<[i := c']> (sy_threads s))).
Proof.
  intros Hinv Hc Ho Hacq Hl Hh Hok. pose proof (lookup_lt_Some _ _ _ Hc) as Hlt. constructor; cbn [sy_owner sy_threads sy_heap].
  - intros j. destruct (decide (i = j)) as [<-|Hne].
    + rewrite list_lookup_insert_eq by done. subst o'. split.
      * intros E. exists c'. split; [done|]. destruct (holds c'); [done|]. destruct (holds c) eqn:Eh; [done|].
        apply (inv_owner s Hinv) in E as (d & Hd & Hhd). congruence.
      * intros (d & [= <-] & ->). done.
    + rewrite list_lookup_insert_ne by done. rewrite <- (inv_owner s Hinv j). subst o'.
      destruct (holds c') eqn:E'; [|destruct (holds c) eqn:E; [|done]].
      * split; [intros [= ->]; done|]. intros Hj. destruct (Hacq eq_refl) as [E|E]; [|congruence].
        apply (inv_owner s Hinv) in Hj as (d & Hd & Hhd). destruct Hne. eapply inv_holder; eauto.
      * split; [done|]. intros (d & Hd & Hhd)%(inv_owner s Hinv). destruct Hne. eapply inv_holder; eauto.
  - intros p b' Hb'. destruct (Hh p b' Hb') as (b & Hb & E). rewrite (inv_conns s Hinv p b Hb) in E.
    pose proof (calls_on_insert p _ i c c' Hc). destruct (calling p c), (calling p c'); simpl in *; lia.
  - intros j d Hd. destruct (decide (i = j)) as [<-|Hne].
    + rewrite list_lookup_insert_eq in Hd by done. by injection Hd as <-.
    + rewrite list_lookup_insert_ne in Hd by done. pose proof (inv_ok s Hinv j d Hd) as Hp.
      destruct d; simpl in *; try done; destruct Hp; auto.
Qed.

(** Updates through a pointer keep the other backends. *)
Lemma on_backend_some f p h q : is_Some (h !! q) -> is_Some (on_backend f p h !! q).
Proof.
  unfold on_backend. rewrite list_lookup_alter. destruct (decide (p = q)) as [->|]; [|done].
  by rewrite fmap_is_Some.
Qed.

Lemma on_backend_inv f p h q b' :
  on_backend f p h !! q = Some b' -> exists b, h !! q = Some b /\ b' = (if bool_decide (p = q) then f b else b).
Proof.
  unfold on_backend. rewrite list_lookup_alter. destruct (decide (p = q)) as [->|Hne].
  - rewrite bool_decide_true by done. intros (b & Hb & ->)%fmap_Some. eauto.
  - rewrite bool_decide_false by done. eauto.
Qed.

(** The connection counts after an update of one backend. *)
Lemma on_backend_conns f (d : Z) p h q b' :
  (forall b, h !! p = Some b -> b_Connections (f b) = b_Connections b + d) ->
  on_backend f p h !! q = Some b' ->
  exists b, h !! q = Some b /\ b_Connections b' = b_Connections b + (if bool_decide (p = q) then d else 0).
Proof.
  intros Hf (b & Hb & ->)%on_backend_inv. exists b. split; [done|]. case_bool_decide; [|lia].
  subst q. by apply Hf.
Qed.

Lemma conns_fits s p b (d : Z) :
  inv s -> sy_heap s !! p = Some b -> -1 <= d <= 1 -> wrap64 (b_Connections b + d) = b_Connections b + d.
Proof.
  intros Hi Hb Hd. apply wrap64_id. rewrite (inv_conns s Hi p b Hb). pose proof (calls_on_le s p Hi).
  unfold is_int64, int64_min, int64_max. lia.
Qed.

Lemma pc_ok_on_backend f p h c : pc_ok h c -> pc_ok (on_backend f p h) c.
Proof. destruct c; simpl; try done; intros [??]; auto using on_backend_some. Qed.

Lemma step_inv i e s s' : inv s -> step i e s s' -> inv s'.
Proof.
  intros Hi Hst. pose proof (fun f d p q b' => on_backend_conns f d p (sy_heap s) q b') as Hob.
  assert (forall now p q b', on_backend (RecordFailure now) p (sy_heap s) !! q = Some b' ->
    exists b, sy_heap s !! q = Some b /\ b_Connections b' + Z.b2z false = b_Connections b + Z.b2z false) as Hrf.
  { intros now p q b' Hb'. apply (Hob _ 0) in Hb' as (b & Hb & E); [|simpl; lia]. exists b. split; [done|].
    destruct (bool_decide _); lia. }
  assert (forall p q b', on_backend DecConnections p (sy_heap s) !! q = Some b' ->
    exists b, sy_heap s !! q = Some b /\ b_Connections b' + Z.b2z (bool_decide (p = q)) = b_Connections b + Z.b2z false)
    as Hdec.
  { intros p q b' Hb'. apply (Hob _ (-1)) in Hb' as (b & Hb & E); [|by intros; apply (conns_fits s p)].
    exists b. split; [done|]. destruct (bool_decide _); simpl; lia. }
  assert (forall p q b', on_backend IncConnections p (sy_heap s) !! q = Some b' ->
    exists b, sy_heap s !! q = Some b /\ b_Connections b' + Z.b2z false = b_Connections b + Z.b2z (bool_decide (p = q)))
    as Hinc.
  { intros p q b' Hb'. apply (Hob _ 1) in Hb' as (b & Hb & E); [|by intros; apply (conns_fits s p)].
    exists b. split; [done|]. destruct (bool_decide _); simpl; lia. }
  destruct Hst; try destruct r; pose proof (inv_ok s Hi _ _ H) as Hok; unfold goto, set_owner, set_heap, set_breaker;
    cbn [sy_heap sy_owner sy_threads sy_breaker];
    apply (inv_move s i _ _ _ _ _ Hi H); cbn [holds calling pc_ok] in *; rewrite ?H0;
    try done; eauto using on_backend_some, pc_ok_on_backend.
  2: { apply inv_owner; eauto. }
  all: unfold maxRetries in *; destruct_and?; split; auto using on_backend_some; lia.
Qed.

Lemma calls_on_none p ts : Forall (fun c => calling p c = false) ts -> calls_on p ts = 0%nat.
Proof. unfold calls_on. induction 1 as [|c ts Hc _ IH]; [done|]. cbn [List.filter]. by rewrite Hc. Qed.

Lemma initial_inv s : initial s -> inv s.
Proof.
  intros [Ho Ht Hc]. constructor.
  - intros i. rewrite Ho. split; [done|]. intros (c & Hi & Hh).
    by destruct (Forall_lookup_1 _ _ _ _ Ht Hi) as [-> | ->].
  - intros p b Hb. rewrite (Forall_lookup_1 _ _ _ _ Hc Hb), calls_on_none; [done|].
    eapply Forall_impl; [exact Ht|]. by intros c [-> | ->].
  - intros i c Hi. by destruct (Forall_lookup_1 _ _ _ _ Ht Hi) as [-> | ->].
Qed.

Lemma run_inv s evs s' : inv s -> run s evs s' -> inv s'.
Proof. intros Hi. induction 1; eauto using step_inv. Qed.

(** C16: proxied requests run one at a time. In every state that concurrent
    goroutines can reach, at most one of them is inside a breaker call, the
    count of a backend is the number of goroutines calling it (so 0 or 1), and
    while one is inside a call no goroutine that waits for the breaker, be it to
    proxy a request or to report the breaker's state, can take a step. *)
Theorem one_request_in_flight s0 evs s :
  initial s0 -> run s0 evs s ->
  (forall i j c d, sy_threads s !! i = Some c -> sy_threads s !! j = Some d ->
     holds c = true -> holds d = true -> i = j) /\
  (forall p b, sy_heap s !! p = Some b ->
     b_Connections b = Z.of_nat (calls_on p (sy_threads s)) /\ 0 <= b_Connections b <= 1) /\
  (forall i c j d e s', sy_threads s !! i = Some c -> holds c = true ->
     sy_threads s !! j = Some d -> (d = PcRead \/ exists p n, d = PcLock p n) -> ~ step j e s s').
Proof.
  intros H0 Hr. assert (inv s) as Hi by eauto using run_inv, initial_inv. split_and!.
  - intros. eapply inv_holder; eauto.
  - intros p b Hb. rewrite (inv_conns s Hi p b Hb). pose proof (calls_on_le s p Hi). lia.
  - intros i c j d e s' Hc Hh Hd Hw Hst. assert (sy_owner s = Some i) as Ho by (apply inv_owner; eauto).
    destruct Hst; destruct Hw as [->|(? & ? & ->)]; congruence.
Qed.

(** ** The breaker, seen through its mutex *)

(** The calls of an interleaving as a sequence of calls of the breaker. *)
Definition cb_apply (cb : CircuitBreaker) (e : cb_event) : CircuitBreaker :=
  match e with
  | Silent => cb
  | Refused now => (cb_step cb now now (Some error_open)).1
  | Returned now later r => (cb_step cb now later r).1
  | Panicked now => default cb (cb_admit cb now)
  end.

(** The breaker of a state against the sequential one: the same, or, while a
    call is under way, what that call was admitted with. *)
Definition in_step (cb : CircuitBreaker) (s : Sys) : Prop :=
  (forall i p n now, sy_threads s !! i = Some (PcCall p n now) -> cb_admit cb now = Some (sy_breaker s)) /\
  ((forall i p n now, sy_threads s !! i <> Some (PcCall p n now)) -> sy_breaker s = cb).

Definition in_call (c : pc) : bool := match c with PcCall _ _ _ => true | _ => false end.

Lemma in_step_quiet cb s s' i c c' :
  in_step cb s -> sy_breaker s' = sy_breaker s -> sy_threads s' = <[i := c']> (sy_threads s) ->
  sy_threads s !! i = Some c -> in_call c = false -> in_call c' = false -> in_step cb s'.
Proof.
  intros [Hc Hn] Eb Et Hi E E'. assert (forall j p n now,
    sy_threads s' !! j = Some (PcCall p n now) <-> sy_threads s !! j = Some (PcCall p n now)) as Hsame.
  { intros j p n now. rewrite Et. destruct (decide (i = j)) as [<-|Hne]; [|by rewrite list_lookup_insert_ne].
    rewrite list_lookup_insert_eq by eauto using lookup_lt_Some. split; intros; simplify_eq/=. }
  unfold in_step. rewrite Eb. split.
  - intros j p n now Hj%Hsame. eauto.
  - intros Hno. apply Hn. intros j p n now Hj%Hsame. by apply (Hno j p n now).
Qed.

(** When the holder is not, or no longer, in a call, nobody is. *)
Lemma no_call_else s i c c' j p n now :
  inv s -> sy_threads s !! i = Some c -> holds c = true -> in_call c' = false ->
  <[i := c']> (sy_threads s) !! j <> Some (PcCall p n now).
Proof.
  intros Hi Hc Hh Hc' Hj. destruct (decide (i = j)) as [<-|Hne].
  - rewrite list_lookup_insert_eq in Hj by eauto using lookup_lt_Some. by simplify_eq/=.
  - rewrite list_lookup_insert_ne in Hj by done. destruct Hne. by eapply (inv_holder s); eauto.
Qed.

Lemma no_call_hold s i q m j p n now :
  inv s -> sy_threads s !! i = Some (PcHold q m) -> sy_threads s !! j <> Some (PcCall p n now).
Proof.
  intros Hi Hc Hj. assert (i = j) as <- by (eapply inv_holder; eauto). congruence.
Qed.

Lemma step_in_step i e s s' cb : inv s -> in_step cb s -> step i e s s' -> in_step (cb_apply cb e) s'.
Proof.
  intros Hi Hin Hst. destruct Hst; try (eapply (in_step_quiet cb s);
    [exact Hin|reflexivity|reflexivity|exact H|reflexivity|reflexivity]).
  - assert (sy_breaker s = cb) as <- by (apply Hin; intros; by eapply no_call_hold).
    unfold cb_apply, cb_step. rewrite H0. split; simpl; [|done].
    intros j q m t Hj. exfalso. by eapply no_call_else in Hj.
  - assert (sy_breaker s = cb) as <- by (apply Hin; intros; by eapply no_call_hold). split; simpl.
    + intros j q m t Hj. destruct (decide (i = j)) as [<-|Hne].
      * rewrite list_lookup_insert_eq in Hj by eauto using lookup_lt_Some. by simplify_eq.
      * rewrite list_lookup_insert_ne in Hj by done. exfalso. by eapply no_call_hold in Hj.
    + intros Hno. exfalso. eapply (Hno i). by rewrite list_lookup_insert_eq by eauto using lookup_lt_Some.
  - destruct Hin as [Hc _]. specialize (Hc _ _ _ _ H). unfold cb_apply, cb_step. rewrite Hc. split; simpl.
    + intros j q m t Hj. exfalso. destruct r; by eapply no_call_else in Hj.
    + by destruct r.
  - destruct Hin as [Hc _]. specialize (Hc _ _ _ _ H). simpl. rewrite Hc. split; simpl; [|done].
    intros j q m t Hj. exfalso. by eapply no_call_else in Hj.
Qed.

(** C11: the breaker is linearizable. However goroutines interleave, whenever
    none is inside a call the breaker is in the state that the completed,
    refused and panicked calls lead to when they are made one after the other,
    in the order in which they released the mutex. *)
Theorem breaker_linearizable s0 evs s :
  initial s0 -> run s0 evs s ->
  (forall i p n now, sy_threads s !! i <> Some (PcCall p n now)) ->
  sy_breaker s = fold_left cb_apply evs (sy_breaker s0).
Proof.
  intros H0 Hr. assert (in_step (fold_left cb_apply evs (sy_breaker s0)) s) as [_ Hin]; [|exact Hin].
  pose proof (initial_inv s0 H0) as Hi. induction Hr as [s|s evs s1 i e s2 Hr IH Hst].
  - split; [|done]. intros i p n now Hc. destruct H0 as [_ Ht _].
    by destruct (Forall_lookup_1 _ _ _ _ Ht Hc).
  - rewrite fold_left_app. simpl. eapply step_in_step; [by eapply run_inv|by apply IH|exact Hst].
Qed.

(** ** Every request ends *)

(** How many steps a goroutine can still take. *)
Definition steps_left (c : pc) : nat :=
  match c with
  | PcChoose => 16
  | PcLock _ n => 5 * (maxRetries - n)
  | PcHold _ n => 5 * (maxRetries - n) - 1
  | PcCall _ n _ => 5 * (maxRetries - n) - 2
  | PcFailed _ n => 5 * (maxRetries - n) - 3
  | PcSleep _ n => 5 * (maxRetries - n) - 4
  | PcRead => 1
  | PcDone => 0
  end.

Fixpoint total_left (ts : list pc) : nat :=
  match ts with [] => 0 | c :: rest => steps_left c + total_left rest end.

Lemma total_left_insert ts i c c' :
  ts !! i = Some c -> (total_left (<[i := c']> ts) + steps_left c = total_left ts + steps_left c')%nat.
Proof.
  revert i. induction ts as [|d ts IH]; intros [|i] Hi; try done.
  - injection Hi as ->. simpl. lia.
  - change (<[S i := c']> (d :: ts)) with (d :: <[i := c']> ts).
    specialize (IH i Hi). cbn [total_left]. lia.
Qed.

Lemma step_decreases i e s s' : inv s -> step i e s s' -> (total_left (sy_threads s') < total_left (sy_threads s))%nat.
Proof.
  intros Hi Hst. destruct Hst; try destruct r; simpl;
    match goal with |- context [<[i := ?c']> _] => pose proof (total_left_insert _ i _ c' H) end;
    pose proof (inv_ok s Hi _ _ H) as Hok; simpl in *; unfold maxRetries in *; lia.
Qed.

Lemma progress s i c : inv s -> sy_threads s !! i = Some c -> c <> PcDone -> exists j e s', step j e s s'.
Proof.
  intros Hi Hc Hd. destruct (sy_owner s) as [k|] eqn:Ho.
  - pose proof Ho as (d & Hk & Hh)%(inv_owner s Hi). destruct d; try done.
    + destruct (cb_admit (sy_breaker s) 0) as [cb|] eqn:E; [eexists k, _, _; by eapply StEnter|
        eexists k, _, _; by eapply StRefuse].
    + eexists k, _, _. by eapply (StPanic k).
  - pose proof (inv_ok s Hi _ _ Hc) as Hok. exists i. destruct c; try done.
    + eexists _, _. by apply StNoPeer.
    + eexists _, _. by eapply StAcquire.
    + assert (sy_owner s = Some i) by (apply inv_owner; eauto). congruence.
    + eexists _, _. by eapply StPanic.
    + eexists _, _. by apply (StGiveUp i s p n 0).
    + destruct Hok as [Hp _]. eexists _, _. by eapply StWake.
    + eexists _, _. by eapply StRead.
Qed.

Lemma run_bounded s0 evs s :
  inv s0 -> run s0 evs s -> (length evs + total_left (sy_threads s) <= total_left (sy_threads s0))%nat.
Proof.
  intros Hi Hr. induction Hr as [s|s evs s1 i e s2 Hr IH Hst]; [simpl; lia|]. rewrite length_app. simpl.
  pose proof (step_decreases _ _ _ _ (run_inv _ _ _ Hi Hr) Hst). specialize (IH Hi). lia.
Qed.

(** C12: no deadlock and no endless run. From a start with [k] goroutines
    every run has at most [16 k] steps, and where it cannot be continued every
    goroutine is done, the mutex is free and every connection count is back at
    zero. *)
Theorem every_request_ends s0 evs s :
  initial s0 -> run s0 evs s ->
  (length evs <= 16 * length (sy_threads s0))%nat /\
  ((forall i e s', ~ step i e s s') ->
     Forall (eq PcDone) (sy_threads s) /\ sy_owner s = None /\
     Forall (fun b => b_Connections b = 0) (sy_heap s)).
Proof.
  intros H0 Hr. pose proof (initial_inv s0 H0) as Hi0. pose proof (run_inv _ _ _ Hi0 Hr) as Hi. split.
  - pose proof (run_bounded _ _ _ Hi0 Hr) as Hb.
    assert (total_left (sy_threads s0) <= 16 * length (sy_threads s0))%nat; [|lia].
    destruct H0 as [_ Ht _]. clear -Ht.
    induction Ht as [|c ts [-> | ->] _ IH]; cbn [total_left steps_left length]; lia.
  - intros Hstuck. assert (Forall (eq PcDone) (sy_threads s)) as Hd.
    { apply Forall_lookup. intros i c Hc. destruct c; try done;
        (destruct (progress s i _ Hi Hc) as (j & e & s' & Hst); [done|]; by destruct (Hstuck j e s')). }
    split_and!; [done| |].
    + destruct (sy_owner s) as [i|] eqn:Ho; [|done]. apply (inv_owner s Hi) in Ho as (c & Hc & Hh).
      by rewrite <- (Forall_lookup_1 _ _ _ _ Hd Hc) in Hh.
    + apply Forall_lookup. intros p b Hb. rewrite (inv_conns s Hi p b Hb), calls_on_none; [done|].
      eapply Forall_impl; [exact Hd|]. by intros c <-.
Qed.

(** ** What least-connections can see *)

Lemma calls_on_pos p ts : (1 <= calls_on p ts)%nat -> exists i c, ts !! i = Some c /\ calling p c = true.
Proof.
  unfold calls_on. destruct (List.filter (calling p) ts) as [|c r] eqn:E; simpl; [lia|]. intros _.
  assert (In c (List.filter (calling p) ts)) as [Hc Hp]%filter_In by (rewrite E; by left).
  apply list_elem_of_In, list_elem_of_lookup in Hc as [i Hi]. eauto.
Qed.

Lemma one_busy s p q :
  inv s -> 0 < conns_at (sy_heap s) p -> 0 < conns_at (sy_heap s) q -> p = q.
Proof.
  intros Hi. assert (forall r, 0 < conns_at (sy_heap s) r ->
    exists i c, sy_threads s !! i = Some c /\ calling r c = true) as Hc.
  { intros r. unfold conns_at, GetConnections. destruct (sy_heap s !! r) as [b|] eqn:E; [|lia].
    rewrite (inv_conns s Hi r b E). intros. apply calls_on_pos. lia. }
  intros (i & c & Hi1 & E1)%Hc (j & d & Hj1 & E2)%Hc.
  assert (i = j) as <- by (eapply inv_holder; eauto using calling_holds). simplify_eq.
  destruct c; try done. simpl in *. case_bool_decide; case_bool_decide; congruence.
Qed.

(** Under concurrent load least-connections sees no load. Since requests
    are proxied one at a time, whenever the choice is made at most one living
    backend stands before the chosen one, however many there are: the later
    backends of a pool are never used while its first two live. *)
Theorem least_conn_stays_in_front s0 evs s pool p :
  initial s0 -> run s0 evs s -> valid_ptrs (sy_heap s) (sp_backends pool) -> NoDup (sp_backends pool) ->
  leastConnections (sy_heap s) pool = Ret (Some p) ->
  exists l1 l2, sp_backends pool = l1 ++ p :: l2 /\
    (length (List.filter (alive_at (sy_heap s)) l1) <= 1)%nat.
Proof.
  intros H0 Hr Hv Hnd Hl. assert (inv s) as Hi by eauto using run_inv, initial_inv.
  unfold leastConnections in Hl.
  destruct (least_loop_spec (sy_heap s) (sp_backends pool) None int64_max Hv) as [[E _]|(p' & E & _ & Hf)]; [congruence|].
  assert (p' = p) as -> by congruence. destruct Hf as (l1 & l2 & El & Ha & Hbefore & _). exists l1, l2.
  split; [done|]. rewrite El in Hnd. apply NoDup_app in Hnd as (Hnd & _ & _).
  assert (0 <= conns_at (sy_heap s) p) as Hp.
  { unfold conns_at, GetConnections. destruct (sy_heap s !! p) as [b|] eqn:Eb; [|lia].
    rewrite (inv_conns s Hi p b Eb). lia. }
  apply filter_unique. intros i j x y Hx Hy Hfx Hfy.
  assert (x = y) as <-; [|by eapply (NoDup_lookup l1)].
  assert (In x l1 /\ In y l1) as [Ix Iy].
  { split; apply list_elem_of_In; by eapply list_elem_of_lookup_2. }
  pose proof (Hbefore x Ix Hfx). pose proof (Hbefore y Iy Hfy). apply (one_busy s); [done|lia|lia].
Qed.

(** ** A concrete interleaving *)

(** A proxied request and a health report: the report waits for the upstream. *)
Definition demo_sys : Sys :=
  mkSys [demo_backend true 0 1; demo_backend true 0 1; demo_backend true 0 1]
    (NewCircuitBreaker 5 Second) None [PcChoose; PcRead].

Definition demo_sys_busy : Sys :=
  mkSys [demo_backend true 1 1; demo_backend true 0 1; demo_backend true 0 1]
    (NewCircuitBreaker 5 Second) (Some 0%nat) [PcCall 0 0 7; PcRead].

Lemma demo_sys_initial : initial demo_sys.
Proof. constructor; [done| |by repeat constructor]. simpl. rewrite !Forall_cons, Forall_nil. auto. Qed.

Lemma demo_sys_run : run demo_sys [Silent; Silent; Silent] demo_sys_busy.
Proof.
  change [Silent; Silent; Silent] with ((([] ++ [Silent]) ++ [Silent]) ++ [Silent]).
  set (s1 := goto 0 (PcHold 0 0) (set_owner (Some 0%nat) (goto 0 (PcLock 0 0) demo_sys))).
  replace demo_sys_busy with (goto 0 (PcCall 0 0 7) (set_heap (on_backend IncConnections 0)
    (set_breaker (NewCircuitBreaker 5 Second) s1))) by reflexivity.
  eapply run_snoc; [eapply run_snoc; [eapply run_snoc; [apply run_nil|]|]|].
  - apply (StPick 0 _ 0); [done|by eexists].
  - by eapply (StAcquire 0 _ 0 0).
  - by apply (StEnter 0 s1 0 0 7 (NewCircuitBreaker 5 Second)).
Qed.

Lemma one_request_in_flight_witness :
  sy_threads demo_sys_busy !! 1%nat = Some PcRead /\ ~ (exists e s', step 1 e demo_sys_busy s').
Proof.
  split; [reflexivity|]. intros (e & s' & Hs). destruct (one_request_in_flight demo_sys _ demo_sys_busy demo_sys_initial demo_sys_run) as (_ & _ & H).
  apply (H 0%nat (PcCall 0 0 7) 1%nat PcRead e s'); [done|done|done|by left|exact Hs].
Defined.

Lemma demo_sys_done :
  run demo_sys [Silent; Silent; Silent; Returned 7 9 (Some "refused"); Silent]
    (goto 0 PcDone (set_heap (on_backend (RecordFailure 9) 0) (goto 0 (PcFailed 0 0)
       (set_owner None (set_heap (on_backend DecConnections 0)
          (set_breaker (cb_settle (NewCircuitBreaker 5 Second) 9 (Some "refused")) demo_sys_busy)))))).
Proof.
  change [Silent; Silent; Silent; Returned 7 9 (Some "refused"); Silent]
    with (([Silent; Silent; Silent] ++ [Returned 7 9 (Some "refused")]) ++ [Silent]).
  eapply run_snoc; [eapply run_snoc; [apply demo_sys_run|]|].
  - by apply (StReturn 0 demo_sys_busy 0 0 7 9 (Some "refused")).
  - by apply (StGiveUp 0 _ 0 0 9).
Qed.

Lemma breaker_linearizable_witness :
  cb_failures (fold_left cb_apply [Silent; Silent; Silent; Returned 7 9 (Some "refused"); Silent]
    (NewCircuitBreaker 5 Second)) = 1.
Proof.
  change (NewCircuitBreaker 5 Second) with (sy_breaker demo_sys).
  rewrite <- (breaker_linearizable demo_sys _ _ demo_sys_initial demo_sys_done); [reflexivity|].
  intros [|[|i]] p n now H; vm_compute in H; discriminate.
Defined.

Lemma every_request_ends_witness :
  (length [Silent; Silent; Silent; Returned 7 9 (Some "refused"); Silent] <= 16 * length (sy_threads demo_sys))%nat.
Proof. apply (every_request_ends demo_sys _ _ demo_sys_initial demo_sys_done). Defined.

Lemma least_conn_stays_in_front_witness :
  exists l1 l2, [0; 1; 2]%nat = l1 ++ 1%nat :: l2 /\
    (length (List.filter (alive_at (sy_heap demo_sys_busy)) l1) <= 1)%nat.
Proof.
  apply (least_conn_stays_in_front demo_sys _ demo_sys_busy (mkPool [0; 1; 2]%nat 0 "least-conn") 1
           demo_sys_initial demo_sys_run); [repeat constructor; by eexists| |reflexivity].
  simpl. apply NoDup_ListNoDup. repeat constructor; simpl; lia.
Defined.
