(* ===== verification/Startup.v ===== *)
(** * Start and shutdown of the process (main.go)

    [main] waits for a signal and shuts the server down; a goroutine of its own
    prints the banner, starts the dashboard, serves and stops the dashboard; the
    dashboard refreshes in a third. The interleavings of the three are the runs
    of a step relation. Of [http.Server] it uses what is documented: [Shutdown]
    closes the listener, upon which [ListenAndServe] returns [ErrServerClosed],
    and returns without an error only when no request is active. *)

From Stdlib Require Import ZArith Lia String List Relations.
From stdpp Require Import base list.
From S2P Require Import Prelude.

(** ** State *)

Inductive main_pc : Type :=
| MStart
| MWait
| MShutdown.

(** The goroutine that serves. *)
Inductive serve_pc : Type :=
| SNone
| SBanner
| SDash
| SServe
| SStop
| SWait
| SDone.

(** The refresh loop of the dashboard. *)
Inductive dash_pc : Type :=
| DNone
| DTest
| DSleep
| DDone.

(** The process: whether standard output is a terminal, where its goroutines
    are, the flag [running], the cursor, the server (shut down or not, requests
    being served), the exit code, and whether [Gateway.Close], which [main]
    defers, has run. *)
Record State := mkState {
  st_terminal : bool;
  st_main : main_pc;
  st_serve : serve_pc;
  st_dash : dash_pc;
  st_running : bool;
  st_hidden : bool;
  st_closed : bool;
  st_active : nat;
  st_exit : option Z;
  st_closer : bool
}.

Definition initial (terminal : bool) : State :=
  mkState terminal MStart SNone DNone false false false 0 None false.

Definition set_main (m : main_pc) (s : State) : State :=
  mkState (st_terminal s) m (st_serve s) (st_dash s) (st_running s) (st_hidden s) (st_closed s) (st_active s) (st_exit s) (st_closer s).
Definition set_serve (p : serve_pc) (s : State) : State :=
  mkState (st_terminal s) (st_main s) p (st_dash s) (st_running s) (st_hidden s) (st_closed s) (st_active s) (st_exit s) (st_closer s).
Definition set_dash (p : dash_pc) (s : State) : State :=
  mkState (st_terminal s) (st_main s) (st_serve s) p (st_running s) (st_hidden s) (st_closed s) (st_active s) (st_exit s) (st_closer s).
Definition set_running (b : bool) (s : State) : State :=
  mkState (st_terminal s) (st_main s) (st_serve s) (st_dash s) b (st_hidden s) (st_closed s) (st_active s) (st_exit s) (st_closer s).
Definition set_hidden (b : bool) (s : State) : State :=
  mkState (st_terminal s) (st_main s) (st_serve s) (st_dash s) (st_running s) b (st_closed s) (st_active s) (st_exit s) (st_closer s).
Definition close_server (s : State) : State :=
  mkState (st_terminal s) (st_main s) (st_serve s) (st_dash s) (st_running s) (st_hidden s) true (st_active s) (st_exit s) (st_closer s).
Definition set_active (n : nat) (s : State) : State :=
  mkState (st_terminal s) (st_main s) (st_serve s) (st_dash s) (st_running s) (st_hidden s) (st_closed s) n (st_exit s) (st_closer s).
Definition exit_with (code : Z) (s : State) : State :=
  mkState (st_terminal s) (st_main s) (st_serve s) (st_dash s) (st_running s) (st_hidden s) (st_closed s) (st_active s)
    (Some code) (st_closer s).

(** The deferred [gateway.Close()], as [main] returns; [os.Exit] skips it. *)
Definition run_deferred (s : State) : State :=
  mkState (st_terminal s) (st_main s) (st_serve s) (st_dash s) (st_running s) (st_hidden s) (st_closed s) (st_active s)
    (st_exit s) true.

(** [dash.Start]: nothing without a terminal. *)
Definition dash_Start (s : State) : State :=
  if st_terminal s then set_dash DTest (set_hidden true (set_running true s)) else s.

(** ** Steps *)

(** The cases of a process that has not exited. *)
Inductive step : State -> State -> Prop :=
(* main *)
| StGo s : st_main s = MStart -> step s (set_serve SBanner (set_main MWait s))
| StSignal s : st_main s = MWait -> step s (close_server (set_main MShutdown s))
| StStopped s : st_main s = MShutdown -> st_active s = O -> step s (exit_with 0 (run_deferred s))
| StFailed s : st_main s = MShutdown -> step s (exit_with 1 s)
(* serving *)
| StBanner s : st_serve s = SBanner -> step s (set_serve SDash s)
| StDash s : st_serve s = SDash -> step s (set_serve SServe (dash_Start s))
| StListenError s : st_serve s = SServe -> st_closed s = false -> step s (exit_with 1 s)
| StServerClosed s : st_serve s = SServe -> st_closed s = true -> step s (set_serve SStop s)
| StStop s : st_serve s = SStop -> step s (set_serve SWait (set_running false s))
| StJoined s : st_serve s = SWait -> st_dash s = DNone \/ st_dash s = DDone ->
    step s (set_serve SDone (set_hidden false s))
(* requests *)
| StArrive s : st_serve s = SServe -> st_closed s = false -> step s (set_active (S (st_active s)) s)
| StFinish s n : st_active s = S n -> step s (set_active n s)
(* the dashboard *)
| StRender s : st_dash s = DTest -> st_running s = true -> step s (set_dash DSleep s)
| StLeave s : st_dash s = DTest -> st_running s = false -> step s (set_dash DDone s)
| StAwake s : st_dash s = DSleep -> step s (set_dash DTest s).

Inductive reach (terminal : bool) : State -> Prop :=
| reach_initial : reach terminal (initial terminal)
| reach_step s s' : reach terminal s -> st_exit s = None -> step s s' -> reach terminal s'.

(** ** The invariant *)

Record ok (s : State) : Prop := {
  ok_start : st_main s = MStart -> st_serve s = SNone;
  ok_closed : st_main s = MShutdown -> st_closed s = true;
  ok_terminal : st_hidden s = true -> st_terminal s = true;
  ok_shown : st_serve s = SDone -> st_hidden s = false;
  ok_after : match st_serve s with SStop | SWait | SDone => st_closed s = true | _ => True end;
  ok_exit : match st_exit s with
            | Some 0 => st_closed s = true /\ st_active s = O /\ st_closer s = true
            | Some code => code = 1 /\ st_closer s = false
            | None => st_closer s = false
            end
}.

Lemma ok_initial terminal : ok (initial terminal).
Proof. by constructor. Qed.

Lemma ok_step s s' : ok s -> st_exit s = None -> step s s' -> ok s'.
Proof.
  intros [H1 H2 H3 H4 H5 H6] He Hs. rewrite He in H6. destruct Hs; unfold dash_Start; destruct (st_terminal s) eqn:Et; constructor; simpl;
    rewrite ?He, ?Et; try done; try (intros; intuition congruence); try (destruct (st_serve s); intuition congruence).
Qed.

Lemma reach_ok terminal s : reach terminal s -> ok s.
Proof. induction 1; [apply ok_initial|by eapply ok_step]. Qed.

(** ** Theorems *)

(** Exit code 0 means a drained server: [main] returns normally only after
    the listener was closed and the last request was answered, and then the
    tracer is closed. Any other exit has code 1 and leaves the tracer open, with
    the spans it has not reported. *)
Theorem clean_exit_is_drained (terminal : bool) (s : State) (code : Z) :
  reach terminal s -> st_exit s = Some code ->
  (code = 0 /\ st_closed s = true /\ st_active s = O /\ st_closer s = true) \/ (code = 1 /\ st_closer s = false).
Proof.
  intros Hr%reach_ok He. pose proof (ok_exit s Hr) as Hx. rewrite He in Hx. destruct code; auto.
Qed.

(** The cursor is restored by the goroutine that serves, when it has ended. *)
Lemma cursor_restored_by_server (terminal : bool) (s : State) :
  reach terminal s -> st_serve s = SDone -> st_hidden s = false.
Proof. intros Hr%reach_ok. by apply ok_shown. Qed.

(** A run of a process on a terminal: a signal, and the exit of [main] while the
    goroutine that serves waits for the dashboard to wake up. *)
Lemma orderly_shutdown :
  exists s, reach true s /\ st_exit s = Some 0 /\ st_serve s = SWait /\ st_hidden s = true.
Proof.
  pose proof (reach_initial true) as R.
  eassert (reach true _) as R1 by (eapply reach_step; [exact R|reflexivity|by eapply StGo]).
  eassert (reach true _) as R2 by (eapply reach_step; [exact R1|reflexivity|by eapply StBanner]).
  eassert (reach true _) as R3 by (eapply reach_step; [exact R2|reflexivity|by eapply StDash]).
  eassert (reach true _) as R4 by (eapply reach_step; [exact R3|reflexivity|by eapply StRender]).
  eassert (reach true _) as R5 by (eapply reach_step; [exact R4|reflexivity|by eapply StSignal]).
  eassert (reach true _) as R6 by (eapply reach_step; [exact R5|reflexivity|by eapply StServerClosed]).
  eassert (reach true _) as R7 by (eapply reach_step; [exact R6|reflexivity|by eapply StStop]).
  eassert (reach true _) as R8 by (eapply reach_step; [exact R7|reflexivity|by eapply StStopped]).
  eexists. split; [exact R8|done].
Qed.

(** Nothing waits for the dashboard to be stopped: [Stop] is deferred in a
    goroutine that [main] does not join, so that on a terminal an orderly
    shutdown, with every request served and exit code 0, can leave the cursor
    hidden. Without a terminal the cursor is never touched. *)
Theorem cursor_may_stay_hidden :
  (exists s, reach true s /\ st_exit s = Some 0 /\ st_active s = O /\ st_hidden s = true) /\
  (forall s, reach false s -> st_hidden s = false).
Proof.
  split.
  - destruct orderly_shutdown as (s & Hr & He & _ & Hh). exists s. split_and!; try done.
    pose proof (ok_exit s (reach_ok _ _ Hr)) as Hx. rewrite He in Hx. apply Hx.
  - intros s Hr. destruct (st_hidden s) eqn:E; [|done].
    assert (st_terminal s = true) as Ht by (apply ok_terminal; [by eapply reach_ok|done]).
    assert (st_terminal s = false) as Hf; [|congruence]. clear E Ht. induction Hr as [|s s' Hr IH _ Hs]; [done|].
    destruct Hs; simpl; try done. unfold dash_Start. by rewrite IH; simpl; rewrite IH.
Qed.

Lemma clean_exit_is_drained_witness :
  exists s, reach true s /\
    (0 = 0 /\ st_closed s = true /\ st_active s = O /\ st_closer s = true \/ 0 = 1 /\ st_closer s = false).
Proof.
  destruct orderly_shutdown as (s & Hr & He & _). exists s. split; [exact Hr|].
  exact (clean_exit_is_drained true s 0 Hr He).
Defined.
