(* ===== verification/Boot.v ===== *)
(** * Package initialisation and the start of main (logger.go, main.go, metrics.go, system_monitor.go)

    Go runs the functions [init] of a package in the order of the names of its
    files: the logger is made in logger.go, main.go loads the file [.env] into
    the environment, metrics.go and system_monitor.go register the collectors.
    Then [main] reads the configuration and builds the gateway. godotenv is an
    interface. *)

From Stdlib Require Import ZArith Lia Ascii String List.
From stdpp Require Import base list strings gmap.
From S2P Require Import Prelude GoStrings Hosts StableSort Urls Pool Router Http Config.
From S2P Require Import Fmt Terminal Logger Tracing Collectors.

(** ** The environment *)

Definition has_var (env : environ) (key : string) : bool :=
  existsb (fun kv => match split_entry kv with Some (k, _) => String.eqb k key | None => false end) env.

(** [godotenv.Load] with the file it finds, and the value a file gives a
    variable. *)
Class DotenvLib := {
  env_file : Type;
  file_var : env_file -> string -> option string;
  godotenv_Load : env_file -> environ -> environ
}.

(** Its documentation: the variables of the file are loaded into the
    environment, and one that exists is not overridden. *)
Class DotenvSpec `{DotenvLib} : Prop := {
  load_existing f env key : has_var env key = true -> Getenv (godotenv_Load f env) key = Getenv env key;
  load_new f env key v :
    has_var env key = false -> file_var f key = Some v -> Getenv (godotenv_Load f env) key = v
}.

(** ** The process before its first request *)

Record Boot `{PromLib} := mkBoot {
  bt_env : environ;
  bt_logger : option Logger;
  bt_registry : registry;
  bt_log : list log_entry
}.

Section Boot.
Context `{UnicodeTables, MapRange, Decoders, PromLib, DotenvLib}.

(** The file may be missing, which is not an error. *)
Context (GOOS : string) (dotenv : option env_file).

(** [init] of logger.go, of main.go, and the registrations. *)
Definition init_logger : M Boot unit :=
  modify (fun b => mkBoot _ (bt_env b) (Some (defaultLogger (Getenv (bt_env b)) GOOS)) (bt_registry b) (bt_log b)).

Definition init_main : M Boot unit :=
  modify (fun b => mkBoot _ (match dotenv with Some f => godotenv_Load f (bt_env b) | None => bt_env b end)
                     (bt_logger b) (bt_registry b) (bt_log b)).

Definition on_registry (m : M registry unit) : M Boot unit := fun b =>
  let '(o, r) := m (bt_registry b) in (o, mkBoot _ (bt_env b) (bt_logger b) r (bt_log b)).

Definition package_init : M Boot unit :=
  init_logger ;;
  init_main ;;
  on_registry init_metrics ;;
  on_registry init_system_monitor.

(** The first lines of [main]. *)
Definition start_log (cfg : Config) : list log_entry :=
  [ mkLogEntry LevelInfo "" "starting VA API Gateway" [AString "version"; AString "2.0.0"];
    mkLogEntry LevelInfo "" "configuration loaded"
      [ AString "port"; AString (c_Port cfg); AString "load_balancing"; AString (c_LoadBalancingAlgo cfg);
        AString "rate_limit_rps"; AInt (c_MaxRequestsPerSecond cfg); AString "burst_size"; AInt (c_MaxBurstSize cfg);
        AString "ddos_threshold"; AInt (c_DDoSThreshold cfg); AString "compression"; ABool (c_EnableCompression cfg);
        AString "caching"; ABool (c_EnableCaching cfg) ] ].

(** [main] up to the gateway: the configuration it is built from. *)
Definition main_config : M Boot Config :=
  cfg ← gets (fun b => LoadConfig (bt_env b));
  modify (fun b => mkBoot _ (bt_env b) (bt_logger b) (bt_registry b) (bt_log b ++ start_log cfg)) ;;
  mret cfg.

Definition boot : M Boot Config := package_init ;; main_config.

(** A process that Go has just started. *)
Definition fresh_process (env : environ) (r : registry) : Boot := mkBoot _ env None r [].

(** ** The start *)

Lemma Getenv_unset env key : has_var env key = false -> Getenv env key = "".
Proof.
  induction env as [|kv env IH]; [done|]. cbn [has_var existsb Getenv].
  destruct (split_entry kv) as [[k v]|]; [|exact IH]. destruct (String.eqb k key); [done|exact IH].
Qed.

Context `{!PromSpec, !DotenvSpec}.

(** A start without a collision of names. *)
Lemma boot_run (env : environ) (r : registry) :
  (forall d, In d collectors -> ~ In (de_name d) (registered_names r)) ->
  let env' := match dotenv with Some f => godotenv_Load f env | None => env end in
  let cfg := LoadConfig env' in
  exists r', boot (fresh_process env r) =
      (Ret cfg, mkBoot _ env' (Some (defaultLogger (Getenv env) GOOS)) r' (start_log cfg)) /\
    (forall n, In n (registered_names r') <-> In n (map de_name collectors) \/ In n (registered_names r)).
Proof.
  intros Hf env' cfg. destruct collectors_valid as [Hv Hn].
  destruct (register_each_fresh collectors r Hv Hn Hf) as (r' & Er & Hr').
  rewrite <- init_register_each in Er. exists r'. split; [|done].
  unfold boot, package_init, on_registry, init_logger, init_main, main_config, fresh_process,
    mbind, M_bind, modify, gets, mret, M_ret in Er |- *. cbn [bt_env bt_logger bt_registry bt_log].
  destruct (init_metrics r) as [[u|why] r1]; [|done]. cbn [bt_env bt_logger bt_registry bt_log]. by rewrite Er.
Qed.

(** C33: LOG_LEVEL has no effect in the file. It is listed among the variables
    to put there. When the process has no such variable and the file gives it a
    value, and no collector of the gateway is registered yet, the process starts,
    with all eleven collectors registered, and the variable has that value when
    [main] reads the environment; but the logger was made before the file was
    loaded: it is the one of a start without a file, at the level INFO. *)
Theorem log_level_of_file_ignored (env : environ) (r : registry) (f : env_file) (level : string) :
  (forall d, In d collectors -> ~ In (de_name d) (registered_names r)) ->
  dotenv = Some f -> has_var env "LOG_LEVEL" = false -> file_var f "LOG_LEVEL" = Some level ->
  exists cfg b, boot (fresh_process env r) = (Ret cfg, b) /\
    (forall d, In d collectors -> In (de_name d) (registered_names (bt_registry b))) /\
    Getenv (bt_env b) "LOG_LEVEL" = level /\
    bt_logger b = Some (defaultLogger (Getenv env) GOOS) /\ (l_level <$> bt_logger b) = Some LevelInfo.
Proof.
  intros Hf Hd Hn Hl. destruct (boot_run env r Hf) as (r' & Eb & Hr). eexists _, _. split; [exact Eb|].
  cbn [bt_registry bt_env bt_logger]. rewrite Hd. split_and!; [|by apply load_new|done|].
  - intros d Hi. apply Hr. left. by apply in_map.
  - unfold defaultLogger. rewrite Getenv_unset by done. cbn. f_equal.
Qed.
End Boot.

(** ** A concrete start *)

#[export] Instance demo_decoders : Decoders := {|
  Unmarshal_routes _ := None;
  Unmarshal_strings _ := None;
  ParseDuration _ := None
|}.

(** The default registry has collectors of its own. *)
Definition demo_registry : list Desc := [mkDesc KGauge "go_goroutines" "Number of goroutines that currently exist." []].

Lemma demo_registry_fresh d : In d collectors -> ~ In (de_name d) (@registered_names list_registry demo_registry).
Proof. intros Hd [E|[]]. simpl in Hd. repeat (destruct Hd as [<-|Hd]; [discriminate E|]). exact Hd. Qed.

(** A file is a list of names and values; the names that could not be told from
    their values are left out. *)
Definition named (vars : list (string * string)) : list (string * string) :=
  List.filter (fun kv => sforall (not_byte "=") kv.1) vars.

Fixpoint dotenv_value (vars : list (string * string)) (key : string) : option string :=
  match vars with
  | [] => None
  | (k, v) :: rest => if String.eqb k key then Some v else dotenv_value rest key
  end.

Definition list_dotenv : DotenvLib := {|
  env_file := list (string * string);
  file_var vars key := dotenv_value (named vars) key;
  godotenv_Load vars env :=
    env ++ map (fun kv => kv.1 +:+ "=" +:+ kv.2) (List.filter (fun kv => negb (has_var env kv.1)) (named vars))
|}.

Lemma split_entry_pair k v :
  sforall (not_byte "=") k = true -> split_entry (k +:+ "=" +:+ v) = Some (k, v).
Proof.
  intros Hk. unfold split_entry. change (k +:+ "=" +:+ v) with (k +:+ String "=" v).
  rewrite IndexByte_app by done. rewrite stake_app. f_equal. f_equal.
  rewrite <- Nat.add_1_r. by rewrite sdrop_app_add.
Qed.

Lemma Getenv_app a b key : Getenv (a ++ b) key = if has_var a key then Getenv a key else Getenv b key.
Proof.
  induction a as [|kv a IH]; [done|]. cbn [app Getenv has_var existsb].
  destruct (split_entry kv) as [[k v]|]; [|done]. destruct (String.eqb k key); [done|]. apply IH.
Qed.

Lemma Getenv_file vars p key v :
  p key = true -> dotenv_value (named vars) key = Some v ->
  Getenv (map (fun kv => kv.1 +:+ "=" +:+ kv.2) (List.filter (fun kv => p kv.1) (named vars))) key = v.
Proof.
  intros Hp. assert (List.Forall (fun kv => sforall (not_byte "=") kv.1 = true) (named vars)) as Hv
    by (apply List.Forall_forall; intros kv [_ Hk]%filter_In; exact Hk).
  induction Hv as [|[k x] l Hk Hv IH]; [done|]. cbn [List.filter fst dotenv_value] in *.
  destruct (String.eqb k key) eqn:E; bool_prop.
  - subst k. intros [= ->]. rewrite Hp. cbn [map Getenv fst snd]. rewrite split_entry_pair by done. by rewrite String.eqb_refl.
  - intros Hd. destruct (p k); [|by apply IH]. cbn [map Getenv fst snd]. rewrite split_entry_pair by done.
    apply String.eqb_neq in E. rewrite E. by apply IH.
Qed.

Lemma list_dotenv_spec : @DotenvSpec list_dotenv.
Proof.
  constructor; cbn [godotenv_Load file_var list_dotenv]; intros vars env key.
  - intros E. by rewrite Getenv_app, E.
  - intros v E Hv. rewrite Getenv_app, E.
    apply (Getenv_file vars (fun k => negb (has_var env k)) key v); [by rewrite E|done].
Qed.

Definition demo_file : list (string * string) := [("GATEWAY_PORT", ":8080"); ("LOG_LEVEL", "debug"); ("JWT_SECRET", "abc")].

(** The configuration of a start with that file: the process comes first. *)
Example demo_boot :
  (match (@boot ascii_tables key_order demo_decoders list_registry list_dotenv "linux" (Some demo_file)
            (@fresh_process list_registry ["JWT_SECRET=s3cret"; "HOME=/root"] demo_registry)).1 with
   | Ret cfg => Some (c_Port cfg, c_JWTSecret cfg) | Panic _ => None end) = Some (":8080", "s3cret").
Proof. vm_compute. reflexivity. Qed.

Lemma log_level_of_file_ignored_witness :
  exists cfg b, @boot ascii_tables key_order demo_decoders list_registry list_dotenv "linux" (Some demo_file)
                  (@fresh_process list_registry ["HOME=/root"] demo_registry) = (Ret cfg, b) /\
    Getenv (@bt_env list_registry b) "LOG_LEVEL" = "debug" /\ (l_level <$> @bt_logger list_registry b) = Some LevelInfo.
Proof.
  destruct (@log_level_of_file_ignored ascii_tables key_order demo_decoders list_registry list_dotenv "linux" (Some demo_file)
           list_registry_spec list_dotenv_spec ["HOME=/root"] demo_registry demo_file "debug" demo_registry_fresh
           eq_refl eq_refl eq_refl) as (cfg & b & Eb & _ & Hl & _ & Hi).
  exists cfg, b. split; [exact Eb|]. split; [exact Hl|exact Hi].
Defined.
