(* ===== verification/Race.v ===== *)
(** * Concurrent use of the DDoS protection (middleware.go)

    Requests, the administrative endpoints and the cleanup goroutine call the
    protection from goroutines of their own. [IsBlocked] holds the read lock of
    its [sync.RWMutex], any number of which can be held at once, and deletes an
    expired entry while it does; every other operation holds the write lock.
    Accesses to the map of blocked clients take time. When a deletion overlaps
    with another access, the Go runtime ends the process: a state with such an
    overlap has the fault as its only step. Up to a fault the operations happen
    one after the other. *)

From Stdlib Require Import ZArith Lia String List.
From stdpp Require Import base list strings gmap.
From S2P Require Import Prelude DDoS.

(** ** Goroutines *)

(** Where a call is: waiting for its lock; holding the read lock before the map
    of blocked clients is used, inside the look-up, and inside the deletion of
    an expired entry; holding the write lock; returned. *)
Inductive pc : Type :=
| Want (ev : ddos_event)
| Reading (ip : string)
| Looking (ip : string)
| Deleting (ip : string) (now : Z)
| Writing (ev : ddos_event)
| Returned (answer : option bool).

(** The protection, the goroutines, and whether the runtime has ended the
    process. *)
Record Shared := mkShared { sh_d : DDoSProtection; sh_threads : list pc; sh_fault : bool }.

Definition goto (i : nat) (c : pc) (d : DDoSProtection) (s : Shared) : Shared :=
  mkShared d (<[i := c]> (sh_threads s)) (sh_fault s).

Definition reads (ev : ddos_event) : bool := match ev with EvIsBlocked _ => true | _ => false end.
Definition writing (c : pc) : bool := match c with Writing _ => true | _ => false end.
Definition holding (c : pc) : bool :=
  match c with Reading _ | Looking _ | Deleting _ _ | Writing _ => true | _ => false end.

(** Inside an access to the map of blocked clients, and inside a deletion. *)
Definition accessing (c : pc) : bool := match c with Looking _ | Deleting _ _ | Writing _ => true | _ => false end.
Definition deleting (c : pc) : bool := match c with Deleting _ _ => true | _ => false end.

(** A deletion overlaps with another access. *)
Definition overlap (s : Shared) : Prop :=
  exists i j c d, i <> j /\ sh_threads s !! i = Some c /\ sh_threads s !! j = Some d /\
    deleting c = true /\ accessing d = true.

(** The protection goes on: no fault yet, and no overlap. *)
Definition sound (s : Shared) : Prop := sh_fault s = false /\ ~ overlap s.

(** Whether [IsBlocked] answers from the two lists. *)
Definition listed (ip : string) (d : DDoSProtection) : bool :=
  bool_decide (ip ∈ dd_whitelist d) || bool_decide (ip ∈ dd_blacklist d).

(** The condition under which [IsBlocked] deletes. *)
Definition expired (now : Z) (ip : string) (d : DDoSProtection) : bool :=
  negb (bool_decide (ip ∈ dd_whitelist d)) && negb (bool_decide (ip ∈ dd_blacklist d)) &&
  match dd_blocked d !! ip with Some blockTime => negb (now <? blockTime) | None => false end.

(** An operation that returned: when it read the clock, what it was and what it
    answered. *)
Definition label : Type := Z * ddos_event * option bool.

Inductive step (i : nat) : list label -> Shared -> Shared -> Prop :=
| StRLock s ip : sound s ->
    sh_threads s !! i = Some (Want (EvIsBlocked ip)) -> Forall (fun c => writing c = false) (sh_threads s) ->
    step i [] s (goto i (Reading ip) (sh_d s) s)
| StListed s ip now : sound s ->
    sh_threads s !! i = Some (Reading ip) -> listed ip (sh_d s) = true ->
    step i [(now, EvIsBlocked ip, Some (IsBlocked ip now (sh_d s)).1)] s
      (goto i (Returned (Some (IsBlocked ip now (sh_d s)).1)) (sh_d s) s)
| StLook s ip : sound s ->
    sh_threads s !! i = Some (Reading ip) -> listed ip (sh_d s) = false ->
    step i [] s (goto i (Looking ip) (sh_d s) s)
| StAnswer s ip now : sound s ->
    sh_threads s !! i = Some (Looking ip) -> expired now ip (sh_d s) = false ->
    step i [(now, EvIsBlocked ip, Some (IsBlocked ip now (sh_d s)).1)] s
      (goto i (Returned (Some (IsBlocked ip now (sh_d s)).1)) (sh_d s) s)
| StExpired s ip now : sound s ->
    sh_threads s !! i = Some (Looking ip) -> expired now ip (sh_d s) = true ->
    step i [] s (goto i (Deleting ip now) (sh_d s) s)
| StDelete s ip now : sound s ->
    sh_threads s !! i = Some (Deleting ip now) ->
    step i [(now, EvIsBlocked ip, Some false)] s
      (goto i (Returned (Some false)) (with_blocked (delete ip (dd_blocked (sh_d s))) (sh_d s)) s)
| StLock s ev : sound s ->
    sh_threads s !! i = Some (Want ev) -> reads ev = false -> Forall (fun c => holding c = false) (sh_threads s) ->
    step i [] s (goto i (Writing ev) (sh_d s) s)
| StWrite s ev now : sound s ->
    sh_threads s !! i = Some (Writing ev) ->
    step i [(now, ev, (ddos_step now ev (sh_d s)).1)] s
      (goto i (Returned (ddos_step now ev (sh_d s)).1) (ddos_step now ev (sh_d s)).2 s)
| StFault s : sh_fault s = false -> overlap s ->
    step i [] s (mkShared (sh_d s) (sh_threads s) true).

Inductive run : Shared -> list label -> Shared -> Prop :=
| run_nil s : run s [] s
| run_snoc s tr s1 i l s2 : run s tr s1 -> step i l s1 s2 -> run s (tr ++ l) s2.

(** The start: every call is still to come. *)
Definition idle (s : Shared) : Prop :=
  sh_fault s = false /\ Forall (fun c => exists ev, c = Want ev) (sh_threads s).

(** ** The invariant *)

(** An entry that may be deleted, or has been. *)
Definition stale (now : Z) (ip : string) (d : DDoSProtection) : Prop :=
  (ip ∉ dd_whitelist d) /\ (ip ∉ dd_blacklist d) /\ forall t, dd_blocked d !! ip = Some t -> t <= now.

Record inv (s : Shared) : Prop := {
  inv_writer i j c d : sh_threads s !! i = Some c -> sh_threads s !! j = Some d ->
    writing c = true -> holding d = true -> i = j;
  inv_stale i ip now : sh_threads s !! i = Some (Deleting ip now) -> stale now ip (sh_d s);
  inv_writing i ev : sh_threads s !! i = Some (Writing ev) -> reads ev = false;
  inv_fault : sh_fault s = true -> overlap s
}.

(** A goroutine moves on: what has to be known of its new place and of the
    others. *)
Lemma inv_goto i c d s :
  inv s -> sound s ->
  (writing c = true -> forall j d', j <> i -> sh_threads s !! j = Some d' -> holding d' = false) ->
  (holding c = true -> forall j d', j <> i -> sh_threads s !! j = Some d' -> writing d' = false) ->
  (forall ip now, c = Deleting ip now -> stale now ip d) ->
  (forall j ip now, j <> i -> sh_threads s !! j = Some (Deleting ip now) -> stale now ip d) ->
  (forall ev, c = Writing ev -> reads ev = false) ->
  inv (goto i c d s).
Proof.
  intros [I1 I2 I3 _] [Hf _] Hw Hh Hs Ho Hr. constructor; simpl; [..|congruence].
  - intros a b ca cb Ha%list_lookup_insert_Some Hb%list_lookup_insert_Some Hwa Hhb.
    destruct Ha as [(<- & <- & _)|[Ha Ha']], Hb as [(<- & <- & _)|[Hb Hb']]; [done| | |by eapply I1].
    + exfalso. rewrite (Hw Hwa b cb) in Hhb; [done|congruence|done].
    + exfalso. rewrite (Hh Hhb a ca) in Hwa; [done|congruence|done].
  - intros a ip now [(<- & Hc & _)|[Ha Ha']]%list_lookup_insert_Some; [by apply Hs|]. apply (Ho a); [congruence|done].
  - intros a ev [(<- & Hc & _)|[Ha Ha']]%list_lookup_insert_Some; [by apply Hr|by eapply I3].
Qed.

Lemma stale_delete now ip ip' d : stale now ip d -> stale now ip (with_blocked (delete ip' (dd_blocked d)) d).
Proof. intros (H1 & H2 & H3). split_and!; [done|done|]. simpl. intros t [_ Ht]%lookup_delete_Some. by apply H3. Qed.

Lemma expired_stale now ip d : expired now ip d = true -> stale now ip d.
Proof.
  unfold expired. intros [[Hw Hb]%andb_prop Ht]%andb_prop. apply negb_true_iff, bool_decide_eq_false in Hw, Hb.
  split_and!; [done|done|]. intros t E. rewrite E in Ht. apply negb_true_iff in Ht. lia.
Qed.

Lemma race_step_inv i l s s' : inv s -> step i l s s' -> inv s'.
Proof.
  intros Hi. pose proof Hi as [I1 I2 I3 I4].
  destruct 1 as [s ip Hg H Hf|s ip now Hg H He|s ip Hg H He|s ip now Hg H He|s ip now Hg H He|s ip now Hg H
                |s ev Hg H Hr Hf|s ev now Hg H|s Hg Ho]; [..|by split].
  all: apply inv_goto; [done|done|..]; simpl; try done.
  - intros _ j d' _ Hj. by apply (Forall_lookup_1 _ _ _ _ Hf Hj).
  - intros j ip' now' _. apply I2.
  - intros j ip' now' _. apply I2.
  - intros _ j d' Hne Hj. destruct (writing d') eqn:E; [|done]. destruct Hne. by eapply I1.
  - intros j ip' now' _. apply I2.
  - intros j ip' now' _. apply I2.
  - intros _ j d' Hne Hj. destruct (writing d') eqn:E; [|done]. destruct Hne. by eapply I1.
  - intros ip' now' [= <- <-]. by apply expired_stale.
  - intros j ip' now' _. apply I2.
  - intros j ip' now' _ Hj. by eapply stale_delete, I2.
  - intros _ j d' _ Hj. by apply (Forall_lookup_1 _ _ _ _ Hf Hj).
  - intros _ j d' _ Hj. pose proof (Forall_lookup_1 _ _ _ _ Hf Hj) as E. by destruct d'.
  - intros j ip' now' _. apply I2.
  - by intros ev' [= <-].
  - intros j ip' now' Hne Hj. destruct Hne. symmetry. by eapply (I1 i j).
Qed.

Lemma idle_inv s : idle s -> inv s.
Proof.
  intros [Hf Hs]. assert (forall i c, sh_threads s !! i = Some c -> exists ev, c = Want ev) as Hw
    by (intros i c Hc; by apply (Forall_lookup_1 _ _ _ _ Hs Hc)).
  constructor.
  - intros i j c d (ev & ->)%Hw _ Hx. done.
  - intros i ip now (ev & Hx)%Hw. done.
  - intros i ev (ev' & Hx)%Hw. done.
  - congruence.
Qed.

Lemma race_run_inv s tr s' : inv s -> run s tr s' -> inv s'.
Proof. intros Hi. induction 1; eauto using race_step_inv. Qed.

(** ** Operations happen one after the other *)

(** Deleting an expired entry, or one that is gone, is what [IsBlocked] does. *)
Lemma IsBlocked_stale now ip d :
  stale now ip d -> IsBlocked ip now d = (false, with_blocked (delete ip (dd_blocked d)) d).
Proof.
  intros (Hw & Hb & Ht). unfold IsBlocked. rewrite !bool_decide_eq_false_2 by done.
  destruct (dd_blocked d !! ip) as [t|] eqn:E.
  - specialize (Ht t eq_refl). by replace (now <? t) with false by (symmetry; apply Z.ltb_ge; lia).
  - rewrite delete_id by done. by destruct d.
Qed.

Lemma IsBlocked_unexpired now ip d : expired now ip d = false -> (IsBlocked ip now d).2 = d.
Proof.
  unfold expired, IsBlocked. do 2 case_bool_decide; simpl; try done.
  destruct (dd_blocked d !! ip) as [t|]; [|done]. by destruct (now <? t).
Qed.

Lemma listed_unexpired now ip d : listed ip d = true -> expired now ip d = false.
Proof. unfold listed, expired. by do 2 case_bool_decide. Qed.

Lemma answer_sequential now ip d :
  expired now ip d = false ->
  d = ddos_after [(now, EvIsBlocked ip)] d /\
  [(IsBlocked ip now d).1] = ddos_run [(now, EvIsBlocked ip)] d.
Proof.
  intros He. pose proof (IsBlocked_unexpired now ip d He) as Ed. simpl.
  destruct (IsBlocked ip now d) as [b d']. simpl in *. by subst.
Qed.

Lemma step_sequential i l s s' :
  inv s -> step i l s s' ->
  sh_d s' = ddos_after (map fst l) (sh_d s) /\ omap snd l = ddos_run (map fst l) (sh_d s).
Proof.
  intros [_ I2 I3 _].
  destruct 1 as [s ip Hg H Hf|s ip now Hg H He|s ip Hg H He|s ip now Hg H He|s ip now Hg H He|s ip now Hg H
                |s ev Hg H Hr Hf|s ev now Hg H|s Hg Ho]; try done.
  - by apply (answer_sequential now ip), listed_unexpired.
  - by apply (answer_sequential now ip).
  - simpl. by rewrite (IsBlocked_stale now ip (sh_d s) (I2 _ _ _ H)).
  - simpl. split; [done|]. destruct (ddos_step now ev (sh_d s)) as [[b|] d']; done.
Qed.

Lemma ddos_after_app evs evs' d : ddos_after (evs ++ evs') d = ddos_after evs' (ddos_after evs d).
Proof. revert d. induction evs as [|[now ev] evs IH]; intros d; simpl; auto. Qed.


(** ** The fault can be reached *)

(** Without a deletion in progress there is no overlap. *)
Lemma no_deletion_sound s :
  sh_fault s = false -> Forall (fun c => deleting c = false) (sh_threads s) -> sound s.
Proof.
  intros Hf Hd. split; [done|]. intros (i & j & c & d & _ & Hc & _ & Hx & _).
  by rewrite (Forall_lookup_1 _ _ _ _ Hd Hc) in Hx.
Qed.

(** Two requests of a client whose block has expired can end the process:
    both are inside the look-up with the read lock, one goes on to [delete] while
    the other still looks. *)
Theorem deletions_coincide (d : DDoSProtection) (ip : string) (now : Z) :
  expired now ip d = true ->
  exists s, run (mkShared d [Want (EvIsBlocked ip); Want (EvIsBlocked ip)] false) [] s /\
    sh_threads s = [Deleting ip now; Looking ip] /\ sh_fault s = true.
Proof.
  intros He. assert (listed ip d = false) as Hl.
  { unfold expired in He. unfold listed. by do 2 case_bool_decide. }
  eexists. split.
  - change (@nil label) with (((((([] ++ []) ++ []) ++ []) ++ []) ++ []) ++ [] : list label).
    repeat (lazymatch goal with |- run _ (_ ++ _) _ => eapply run_snoc end); [apply run_nil|..].
    + apply (StRLock 0 _ ip); [apply no_deletion_sound|..]; by repeat constructor.
    + apply (StRLock 1 _ ip); [apply no_deletion_sound|..]; by repeat constructor.
    + apply (StLook 0 _ ip); [apply no_deletion_sound|..]; by repeat constructor.
    + apply (StLook 1 _ ip); [apply no_deletion_sound|..]; by repeat constructor.
    + apply (StExpired 0 _ ip now); [apply no_deletion_sound|..]; by repeat constructor.
    + apply (StFault 0); [done|]. by exists 0%nat, 1%nat, (Deleting ip now), (Looking ip).
  - done.
Qed.

(** ** A concrete run *)

(** A client blocked until time 10. *)
Definition demo_blocked : DDoSProtection := with_blocked {["6.6.6.6" := 10]} (NewDDoSProtection 100 Minute).

Lemma deletions_coincide_witness :
  exists s, run (mkShared demo_blocked [Want (EvIsBlocked "6.6.6.6"); Want (EvIsBlocked "6.6.6.6")] false) [] s /\
    sh_threads s = [Deleting "6.6.6.6" 12; Looking "6.6.6.6"] /\ sh_fault s = true.
Proof. apply (deletions_coincide demo_blocked "6.6.6.6" 12). vm_compute. reflexivity. Defined.

(** A request that finds its block expired, and one it is counted by. *)
Definition demo_shared : Shared :=
  mkShared demo_blocked [Want (EvIsBlocked "6.6.6.6"); Want (EvRecordRequest "6.6.6.6")] false.

Definition demo_history : list label :=
  [(12, EvIsBlocked "6.6.6.6", Some false); (15, EvRecordRequest "6.6.6.6", Some false)].

Lemma demo_shared_run :
  exists s, run demo_shared demo_history s /\ sh_threads s = [Returned (Some false); Returned (Some false)].
Proof.
  eexists. split.
  - change demo_history with (((((([] ++ []) ++ []) ++ []) ++ [(12, EvIsBlocked "6.6.6.6", Some false)]) ++ [])
                              ++ [(15, EvRecordRequest "6.6.6.6", Some false)] : list label).
    repeat (lazymatch goal with |- run _ (_ ++ _) _ => eapply run_snoc end); [apply run_nil|..].
    + apply (StRLock 0 _ "6.6.6.6"); [apply no_deletion_sound|..]; by repeat constructor.
    + apply (StLook 0 _ "6.6.6.6"); [apply no_deletion_sound|..]; by repeat constructor.
    + apply (StExpired 0 _ "6.6.6.6" 12); [apply no_deletion_sound|..]; by repeat constructor.
    + apply (StDelete 0 _ "6.6.6.6" 12); [|done]. split; [done|].
      intros (i & [|[|j]] & c & d & Hne & Hc & Hd & Hx & Hy); simpl in *; try done; injection Hd as <-; try done.
      destruct i as [|[|i]]; simpl in *; try done. by injection Hc as <-.
    + apply (StLock 1 _ (EvRecordRequest "6.6.6.6")); [apply no_deletion_sound|..]; by repeat constructor.
    + lazymatch goal with |- step _ _ ?s _ => apply (StWrite 1 s (EvRecordRequest "6.6.6.6") 15) end;
        [apply no_deletion_sound|..]; by repeat constructor.
  - done.
Qed.

